(** * Vehicle-side gate controller of the automatic bus administrative system

    A shallow embedding of [Bus(Slave).ino], the sketch that runs on the
    bus: the persistent card registry, RFID access control, the two-sensor
    passenger counter, the gate servo with its two open paths (station
    heartbeat and card grant), the overload and emergency alarms, and the
    snapshot line sent to the station.

    Conventions of the embedding.
    - The board is an AVR: [unsigned int] and [int] are 16 bits wide,
      [unsigned long] is 32 bits wide, [byte] is 8 bits wide.  Unsigned
      arithmetic is written with its wrap-around ([wrap16], [wrap32]).
      [passengerCount] is a signed [int]: its increment wraps around in
      two's complement ([int16]), which is what the code that avr-gcc
      generates for the board does at 32767.
    - Globals, the pins that the sketch reads back, the EEPROM and the clock
      form one [State] record; a statement is a [Cmd], a function from state
      to state, and statements are sequenced with [;;].
    - Everything the sketch does to the outside world (serial output, LCD,
      servo, buzzer, delays) is appended to [trace], newest event first.
    - Straight-line code runs in zero time: the clock advances only in
      [delay] and between two passes of [loop] (field [elapsed] of the
      input of a pass).
    - What the sketch reads from the outside world during one pass of
      [loop] is the [Input] of that pass, one field per place where the
      source reads it. *)

From stdpp Require Import base list strings.
From Stdlib Require Import ZArith Lia Ascii DecimalString.
From Stdlib Require DecimalFacts DecimalPos DecimalN.

Open Scope Z_scope.

(** ** Constants and settings *)

Definition TIMEOUT_MS : Z := 10000.
Definition GATE_BLOCK_CHECK_DELAY_MS : Z := 1500.
Definition MAGIC_VALUE : Z := 0xAFCB.
Definition MAX_NAME_LENGTH : Z := 16.
Definition MAX_REGISTERED_CARDS : Z := 5.
Definition UID_MAX_SIZE : Z := 10.
Definition SEQ_TIMEOUT_MS : Z := 1000.
Definition IR_DEBOUNCE_MS : Z := 50.
Definition BUZZER_DURATION_MS : Z := 3000.
Definition EMERGENCY_TIMEOUT_MS : Z := 5000.

Definition EEPROM_ADDR_MAGIC : Z := 0.
Definition EEPROM_ADDR_NUM_CARDS : Z := EEPROM_ADDR_MAGIC + 2.
Definition EEPROM_ADDR_CARDS_DATA : Z := EEPROM_ADDR_NUM_CARDS + 1.

(** Size of [struct CardForEEPROM]: identifier, length byte, name. *)
Definition CARD_RECORD_SIZE : Z := UID_MAX_SIZE + 1 + (MAX_NAME_LENGTH + 1).

(** ** Machine arithmetic and text *)

Definition wrap8 (z : Z) : Z := z mod 2 ^ 8.
Definition wrap16 (z : Z) : Z := z mod 2 ^ 16.
Definition wrap32 (z : Z) : Z := z mod 2 ^ 32.

(** The value of an [int] with the bits of [z]. *)
Definition int16 (z : Z) : Z := (z + 2 ^ 15) mod 2 ^ 16 - 2 ^ 15.

(** [%d] and [%u] of [sprintf], and [Serial.print] of an integer. *)
Definition dec (z : Z) : string := NilZero.string_of_int (Z.to_int z).

Definition hexDigit (d : Z) : string :=
  String.substring (Z.to_nat d) 1 "0123456789ABCDEF".

(** [Serial.print(b, HEX)] of a byte: upper case, no leading zero. *)
Definition hex (b : Z) : string :=
  if b <? 16 then hexDigit b else hexDigit (b / 16) +:+ hexDigit (b mod 16).

(** [msg.indexOf(pat)]: position of the first occurrence, or -1. *)
Definition indexOf (msg pat : string) : Z :=
  match String.index 0 pat msg with
  | Some n => Z.of_nat n
  | None => -1
  end.

Definition byteOfChar (c : ascii) : Z := Z.of_N (Ascii.N_of_ascii c).
Definition charOfByte (b : Z) : ascii := Ascii.ascii_of_N (Z.to_N b).

Definition bytesOfString (s : string) : list Z :=
  map byteOfChar (String.list_ascii_of_string s).

(** The C string held in a byte buffer: the characters before the first
    NUL.  A buffer without a NUL yields all of its characters; the sketch
    would read past the buffer there. *)
Fixpoint cstr (buf : list Z) : string :=
  match buf with
  | [] => EmptyString
  | b :: rest => if b =? 0 then EmptyString else String (charOfByte b) (cstr rest)
  end.

(** ** Data *)

Inductive Level : Type := LOW | HIGH.

Definition isLow (l : Level) : bool := if l is LOW then true else false.
Definition isHigh (l : Level) : bool := if l is HIGH then true else false.

Record RegisteredCard : Type := mkCard {
  uid : list Z;
  uidSize : Z;
  name : string;
  scanCount : Z
}.

(** A zero-initialised array element. *)
Definition blankCard : RegisteredCard :=
  mkCard (replicate 10 0) 0 "" 0.

#[global] Instance RegisteredCard_inhabited : Inhabited RegisteredCard :=
  populate blankCard.

Definition predefinedUsers : list RegisteredCard :=
  [ mkCard [0xF3; 0x97; 0x17; 0x2D; 0; 0; 0; 0; 0; 0] 4 "BUS DRIVER" 0;
    mkCard [0x19; 0x78; 0x97; 0x3F; 0; 0; 0; 0; 0; 0] 4 "HELPER" 0;
    mkCard [0x11; 0x22; 0x33; 0x44; 0; 0; 0; 0; 0; 0] 4 "STATION MASTER" 0 ].

Definition NUM_PREDEFINED_USERS : Z := Z.of_nat (length predefinedUsers).

(** The identifier read by the card reader ([mfrc522.uid]). *)
Record Uid : Type := mkUid {
  uidByte : list Z;
  size : Z
}.

(** What the sketch does to the outside world. *)
Inductive Event : Type :=
| SerialPrint (s : string)
| SerialPrintln (s : string)
| ServoWrite (angle : Z)
| BuzzerWrite (l : Level)
| Tone (frequency duration : Z)
| NoTone
| LcdInit
| LcdBacklight
| LcdClear
| LcdSetCursor (col row : Z)
| LcdPrint (s : string)
| Delay (ms : Z)
| PiccHalt
| PcdStopCrypto.

Record State : Type := mkState {
  (* globals of the sketch *)
  hasRotated : bool;
  lastMessageTime : Z;
  passengerCount : Z;
  ir1Triggered : bool;
  ir2Triggered : bool;
  lastTriggerTime : Z;
  emergencyPressCount : Z;
  lastScannedName : string;
  lastScannedCount : Z;
  overloadCount : Z;
  numLoadedCards : Z;
  buzzerOnTime : Z;
  lastButtonState : Level;
  lastEmergencyTime : Z;
  emergencyMode : bool;
  servoOpen : bool;
  isOverloaded : bool;
  registeredCards : list RegisteredCard;
  (* the board *)
  clock : Z;            (* milliseconds since power-up, not wrapped *)
  servoAngle : Z;       (* angle last written to the servo *)
  buzzerPin : Level;    (* level last written to BUZZER_PIN *)
  eeprom : list Z;      (* one byte per cell *)
  trace : list Event    (* newest first *)
}.

(** What one pass of [loop] reads from the outside world. *)
Record Input : Type := mkInput {
  elapsed : Z;              (* ms between the previous pass and this one *)
  button : Level;           (* EMERGENCY_BUTTON_PIN, active low *)
  serialIn : option string; (* the line read when Serial.available() *)
  card : option Uid;        (* a new card was present and could be read *)
  ir1_link : Level;         (* IR pins as read by the link timeout *)
  ir2_link : Level;
  reading1 : Level;         (* IR pins as read by the counter *)
  reading2 : Level;
  ir1_close : Level;        (* IR pins as read by checkAndCloseServo *)
  ir2_close : Level
}.

(** ** Field updates *)

Definition set_hasRotated (v : bool) (s : State) : State :=
  {| hasRotated := v; lastMessageTime := lastMessageTime s;
     passengerCount := passengerCount s; ir1Triggered := ir1Triggered s;
     ir2Triggered := ir2Triggered s; lastTriggerTime := lastTriggerTime s;
     emergencyPressCount := emergencyPressCount s;
     lastScannedName := lastScannedName s;
     lastScannedCount := lastScannedCount s;
     overloadCount := overloadCount s; numLoadedCards := numLoadedCards s;
     buzzerOnTime := buzzerOnTime s; lastButtonState := lastButtonState s;
     lastEmergencyTime := lastEmergencyTime s;
     emergencyMode := emergencyMode s; servoOpen := servoOpen s;
     isOverloaded := isOverloaded s; registeredCards := registeredCards s;
     clock := clock s; servoAngle := servoAngle s; buzzerPin := buzzerPin s;
     eeprom := eeprom s; trace := trace s |}.
Definition set_lastMessageTime (v : Z) (s : State) : State :=
  {| hasRotated := hasRotated s; lastMessageTime := v;
     passengerCount := passengerCount s; ir1Triggered := ir1Triggered s;
     ir2Triggered := ir2Triggered s; lastTriggerTime := lastTriggerTime s;
     emergencyPressCount := emergencyPressCount s;
     lastScannedName := lastScannedName s;
     lastScannedCount := lastScannedCount s;
     overloadCount := overloadCount s; numLoadedCards := numLoadedCards s;
     buzzerOnTime := buzzerOnTime s; lastButtonState := lastButtonState s;
     lastEmergencyTime := lastEmergencyTime s;
     emergencyMode := emergencyMode s; servoOpen := servoOpen s;
     isOverloaded := isOverloaded s; registeredCards := registeredCards s;
     clock := clock s; servoAngle := servoAngle s; buzzerPin := buzzerPin s;
     eeprom := eeprom s; trace := trace s |}.
Definition set_passengerCount (v : Z) (s : State) : State :=
  {| hasRotated := hasRotated s; lastMessageTime := lastMessageTime s;
     passengerCount := v; ir1Triggered := ir1Triggered s;
     ir2Triggered := ir2Triggered s; lastTriggerTime := lastTriggerTime s;
     emergencyPressCount := emergencyPressCount s;
     lastScannedName := lastScannedName s;
     lastScannedCount := lastScannedCount s;
     overloadCount := overloadCount s; numLoadedCards := numLoadedCards s;
     buzzerOnTime := buzzerOnTime s; lastButtonState := lastButtonState s;
     lastEmergencyTime := lastEmergencyTime s;
     emergencyMode := emergencyMode s; servoOpen := servoOpen s;
     isOverloaded := isOverloaded s; registeredCards := registeredCards s;
     clock := clock s; servoAngle := servoAngle s; buzzerPin := buzzerPin s;
     eeprom := eeprom s; trace := trace s |}.
Definition set_ir1Triggered (v : bool) (s : State) : State :=
  {| hasRotated := hasRotated s; lastMessageTime := lastMessageTime s;
     passengerCount := passengerCount s; ir1Triggered := v;
     ir2Triggered := ir2Triggered s; lastTriggerTime := lastTriggerTime s;
     emergencyPressCount := emergencyPressCount s;
     lastScannedName := lastScannedName s;
     lastScannedCount := lastScannedCount s;
     overloadCount := overloadCount s; numLoadedCards := numLoadedCards s;
     buzzerOnTime := buzzerOnTime s; lastButtonState := lastButtonState s;
     lastEmergencyTime := lastEmergencyTime s;
     emergencyMode := emergencyMode s; servoOpen := servoOpen s;
     isOverloaded := isOverloaded s; registeredCards := registeredCards s;
     clock := clock s; servoAngle := servoAngle s; buzzerPin := buzzerPin s;
     eeprom := eeprom s; trace := trace s |}.
Definition set_ir2Triggered (v : bool) (s : State) : State :=
  {| hasRotated := hasRotated s; lastMessageTime := lastMessageTime s;
     passengerCount := passengerCount s; ir1Triggered := ir1Triggered s;
     ir2Triggered := v; lastTriggerTime := lastTriggerTime s;
     emergencyPressCount := emergencyPressCount s;
     lastScannedName := lastScannedName s;
     lastScannedCount := lastScannedCount s;
     overloadCount := overloadCount s; numLoadedCards := numLoadedCards s;
     buzzerOnTime := buzzerOnTime s; lastButtonState := lastButtonState s;
     lastEmergencyTime := lastEmergencyTime s;
     emergencyMode := emergencyMode s; servoOpen := servoOpen s;
     isOverloaded := isOverloaded s; registeredCards := registeredCards s;
     clock := clock s; servoAngle := servoAngle s; buzzerPin := buzzerPin s;
     eeprom := eeprom s; trace := trace s |}.
Definition set_lastTriggerTime (v : Z) (s : State) : State :=
  {| hasRotated := hasRotated s; lastMessageTime := lastMessageTime s;
     passengerCount := passengerCount s; ir1Triggered := ir1Triggered s;
     ir2Triggered := ir2Triggered s; lastTriggerTime := v;
     emergencyPressCount := emergencyPressCount s;
     lastScannedName := lastScannedName s;
     lastScannedCount := lastScannedCount s;
     overloadCount := overloadCount s; numLoadedCards := numLoadedCards s;
     buzzerOnTime := buzzerOnTime s; lastButtonState := lastButtonState s;
     lastEmergencyTime := lastEmergencyTime s;
     emergencyMode := emergencyMode s; servoOpen := servoOpen s;
     isOverloaded := isOverloaded s; registeredCards := registeredCards s;
     clock := clock s; servoAngle := servoAngle s; buzzerPin := buzzerPin s;
     eeprom := eeprom s; trace := trace s |}.
Definition set_emergencyPressCount (v : Z) (s : State) : State :=
  {| hasRotated := hasRotated s; lastMessageTime := lastMessageTime s;
     passengerCount := passengerCount s; ir1Triggered := ir1Triggered s;
     ir2Triggered := ir2Triggered s; lastTriggerTime := lastTriggerTime s;
     emergencyPressCount := v; lastScannedName := lastScannedName s;
     lastScannedCount := lastScannedCount s;
     overloadCount := overloadCount s; numLoadedCards := numLoadedCards s;
     buzzerOnTime := buzzerOnTime s; lastButtonState := lastButtonState s;
     lastEmergencyTime := lastEmergencyTime s;
     emergencyMode := emergencyMode s; servoOpen := servoOpen s;
     isOverloaded := isOverloaded s; registeredCards := registeredCards s;
     clock := clock s; servoAngle := servoAngle s; buzzerPin := buzzerPin s;
     eeprom := eeprom s; trace := trace s |}.
Definition set_lastScannedName (v : string) (s : State) : State :=
  {| hasRotated := hasRotated s; lastMessageTime := lastMessageTime s;
     passengerCount := passengerCount s; ir1Triggered := ir1Triggered s;
     ir2Triggered := ir2Triggered s; lastTriggerTime := lastTriggerTime s;
     emergencyPressCount := emergencyPressCount s; lastScannedName := v;
     lastScannedCount := lastScannedCount s;
     overloadCount := overloadCount s; numLoadedCards := numLoadedCards s;
     buzzerOnTime := buzzerOnTime s; lastButtonState := lastButtonState s;
     lastEmergencyTime := lastEmergencyTime s;
     emergencyMode := emergencyMode s; servoOpen := servoOpen s;
     isOverloaded := isOverloaded s; registeredCards := registeredCards s;
     clock := clock s; servoAngle := servoAngle s; buzzerPin := buzzerPin s;
     eeprom := eeprom s; trace := trace s |}.
Definition set_lastScannedCount (v : Z) (s : State) : State :=
  {| hasRotated := hasRotated s; lastMessageTime := lastMessageTime s;
     passengerCount := passengerCount s; ir1Triggered := ir1Triggered s;
     ir2Triggered := ir2Triggered s; lastTriggerTime := lastTriggerTime s;
     emergencyPressCount := emergencyPressCount s;
     lastScannedName := lastScannedName s; lastScannedCount := v;
     overloadCount := overloadCount s; numLoadedCards := numLoadedCards s;
     buzzerOnTime := buzzerOnTime s; lastButtonState := lastButtonState s;
     lastEmergencyTime := lastEmergencyTime s;
     emergencyMode := emergencyMode s; servoOpen := servoOpen s;
     isOverloaded := isOverloaded s; registeredCards := registeredCards s;
     clock := clock s; servoAngle := servoAngle s; buzzerPin := buzzerPin s;
     eeprom := eeprom s; trace := trace s |}.
Definition set_overloadCount (v : Z) (s : State) : State :=
  {| hasRotated := hasRotated s; lastMessageTime := lastMessageTime s;
     passengerCount := passengerCount s; ir1Triggered := ir1Triggered s;
     ir2Triggered := ir2Triggered s; lastTriggerTime := lastTriggerTime s;
     emergencyPressCount := emergencyPressCount s;
     lastScannedName := lastScannedName s;
     lastScannedCount := lastScannedCount s; overloadCount := v;
     numLoadedCards := numLoadedCards s; buzzerOnTime := buzzerOnTime s;
     lastButtonState := lastButtonState s;
     lastEmergencyTime := lastEmergencyTime s;
     emergencyMode := emergencyMode s; servoOpen := servoOpen s;
     isOverloaded := isOverloaded s; registeredCards := registeredCards s;
     clock := clock s; servoAngle := servoAngle s; buzzerPin := buzzerPin s;
     eeprom := eeprom s; trace := trace s |}.
Definition set_numLoadedCards (v : Z) (s : State) : State :=
  {| hasRotated := hasRotated s; lastMessageTime := lastMessageTime s;
     passengerCount := passengerCount s; ir1Triggered := ir1Triggered s;
     ir2Triggered := ir2Triggered s; lastTriggerTime := lastTriggerTime s;
     emergencyPressCount := emergencyPressCount s;
     lastScannedName := lastScannedName s;
     lastScannedCount := lastScannedCount s;
     overloadCount := overloadCount s; numLoadedCards := v;
     buzzerOnTime := buzzerOnTime s; lastButtonState := lastButtonState s;
     lastEmergencyTime := lastEmergencyTime s;
     emergencyMode := emergencyMode s; servoOpen := servoOpen s;
     isOverloaded := isOverloaded s; registeredCards := registeredCards s;
     clock := clock s; servoAngle := servoAngle s; buzzerPin := buzzerPin s;
     eeprom := eeprom s; trace := trace s |}.
Definition set_buzzerOnTime (v : Z) (s : State) : State :=
  {| hasRotated := hasRotated s; lastMessageTime := lastMessageTime s;
     passengerCount := passengerCount s; ir1Triggered := ir1Triggered s;
     ir2Triggered := ir2Triggered s; lastTriggerTime := lastTriggerTime s;
     emergencyPressCount := emergencyPressCount s;
     lastScannedName := lastScannedName s;
     lastScannedCount := lastScannedCount s;
     overloadCount := overloadCount s; numLoadedCards := numLoadedCards s;
     buzzerOnTime := v; lastButtonState := lastButtonState s;
     lastEmergencyTime := lastEmergencyTime s;
     emergencyMode := emergencyMode s; servoOpen := servoOpen s;
     isOverloaded := isOverloaded s; registeredCards := registeredCards s;
     clock := clock s; servoAngle := servoAngle s; buzzerPin := buzzerPin s;
     eeprom := eeprom s; trace := trace s |}.
Definition set_lastButtonState (v : Level) (s : State) : State :=
  {| hasRotated := hasRotated s; lastMessageTime := lastMessageTime s;
     passengerCount := passengerCount s; ir1Triggered := ir1Triggered s;
     ir2Triggered := ir2Triggered s; lastTriggerTime := lastTriggerTime s;
     emergencyPressCount := emergencyPressCount s;
     lastScannedName := lastScannedName s;
     lastScannedCount := lastScannedCount s;
     overloadCount := overloadCount s; numLoadedCards := numLoadedCards s;
     buzzerOnTime := buzzerOnTime s; lastButtonState := v;
     lastEmergencyTime := lastEmergencyTime s;
     emergencyMode := emergencyMode s; servoOpen := servoOpen s;
     isOverloaded := isOverloaded s; registeredCards := registeredCards s;
     clock := clock s; servoAngle := servoAngle s; buzzerPin := buzzerPin s;
     eeprom := eeprom s; trace := trace s |}.
Definition set_lastEmergencyTime (v : Z) (s : State) : State :=
  {| hasRotated := hasRotated s; lastMessageTime := lastMessageTime s;
     passengerCount := passengerCount s; ir1Triggered := ir1Triggered s;
     ir2Triggered := ir2Triggered s; lastTriggerTime := lastTriggerTime s;
     emergencyPressCount := emergencyPressCount s;
     lastScannedName := lastScannedName s;
     lastScannedCount := lastScannedCount s;
     overloadCount := overloadCount s; numLoadedCards := numLoadedCards s;
     buzzerOnTime := buzzerOnTime s; lastButtonState := lastButtonState s;
     lastEmergencyTime := v; emergencyMode := emergencyMode s;
     servoOpen := servoOpen s; isOverloaded := isOverloaded s;
     registeredCards := registeredCards s; clock := clock s;
     servoAngle := servoAngle s; buzzerPin := buzzerPin s;
     eeprom := eeprom s; trace := trace s |}.
Definition set_emergencyMode (v : bool) (s : State) : State :=
  {| hasRotated := hasRotated s; lastMessageTime := lastMessageTime s;
     passengerCount := passengerCount s; ir1Triggered := ir1Triggered s;
     ir2Triggered := ir2Triggered s; lastTriggerTime := lastTriggerTime s;
     emergencyPressCount := emergencyPressCount s;
     lastScannedName := lastScannedName s;
     lastScannedCount := lastScannedCount s;
     overloadCount := overloadCount s; numLoadedCards := numLoadedCards s;
     buzzerOnTime := buzzerOnTime s; lastButtonState := lastButtonState s;
     lastEmergencyTime := lastEmergencyTime s; emergencyMode := v;
     servoOpen := servoOpen s; isOverloaded := isOverloaded s;
     registeredCards := registeredCards s; clock := clock s;
     servoAngle := servoAngle s; buzzerPin := buzzerPin s;
     eeprom := eeprom s; trace := trace s |}.
Definition set_servoOpen (v : bool) (s : State) : State :=
  {| hasRotated := hasRotated s; lastMessageTime := lastMessageTime s;
     passengerCount := passengerCount s; ir1Triggered := ir1Triggered s;
     ir2Triggered := ir2Triggered s; lastTriggerTime := lastTriggerTime s;
     emergencyPressCount := emergencyPressCount s;
     lastScannedName := lastScannedName s;
     lastScannedCount := lastScannedCount s;
     overloadCount := overloadCount s; numLoadedCards := numLoadedCards s;
     buzzerOnTime := buzzerOnTime s; lastButtonState := lastButtonState s;
     lastEmergencyTime := lastEmergencyTime s;
     emergencyMode := emergencyMode s; servoOpen := v;
     isOverloaded := isOverloaded s; registeredCards := registeredCards s;
     clock := clock s; servoAngle := servoAngle s; buzzerPin := buzzerPin s;
     eeprom := eeprom s; trace := trace s |}.
Definition set_isOverloaded (v : bool) (s : State) : State :=
  {| hasRotated := hasRotated s; lastMessageTime := lastMessageTime s;
     passengerCount := passengerCount s; ir1Triggered := ir1Triggered s;
     ir2Triggered := ir2Triggered s; lastTriggerTime := lastTriggerTime s;
     emergencyPressCount := emergencyPressCount s;
     lastScannedName := lastScannedName s;
     lastScannedCount := lastScannedCount s;
     overloadCount := overloadCount s; numLoadedCards := numLoadedCards s;
     buzzerOnTime := buzzerOnTime s; lastButtonState := lastButtonState s;
     lastEmergencyTime := lastEmergencyTime s;
     emergencyMode := emergencyMode s; servoOpen := servoOpen s;
     isOverloaded := v; registeredCards := registeredCards s;
     clock := clock s; servoAngle := servoAngle s; buzzerPin := buzzerPin s;
     eeprom := eeprom s; trace := trace s |}.
Definition set_registeredCards (v : list RegisteredCard) (s : State) : State :=
  {| hasRotated := hasRotated s; lastMessageTime := lastMessageTime s;
     passengerCount := passengerCount s; ir1Triggered := ir1Triggered s;
     ir2Triggered := ir2Triggered s; lastTriggerTime := lastTriggerTime s;
     emergencyPressCount := emergencyPressCount s;
     lastScannedName := lastScannedName s;
     lastScannedCount := lastScannedCount s;
     overloadCount := overloadCount s; numLoadedCards := numLoadedCards s;
     buzzerOnTime := buzzerOnTime s; lastButtonState := lastButtonState s;
     lastEmergencyTime := lastEmergencyTime s;
     emergencyMode := emergencyMode s; servoOpen := servoOpen s;
     isOverloaded := isOverloaded s; registeredCards := v; clock := clock s;
     servoAngle := servoAngle s; buzzerPin := buzzerPin s;
     eeprom := eeprom s; trace := trace s |}.
Definition set_clock (v : Z) (s : State) : State :=
  {| hasRotated := hasRotated s; lastMessageTime := lastMessageTime s;
     passengerCount := passengerCount s; ir1Triggered := ir1Triggered s;
     ir2Triggered := ir2Triggered s; lastTriggerTime := lastTriggerTime s;
     emergencyPressCount := emergencyPressCount s;
     lastScannedName := lastScannedName s;
     lastScannedCount := lastScannedCount s;
     overloadCount := overloadCount s; numLoadedCards := numLoadedCards s;
     buzzerOnTime := buzzerOnTime s; lastButtonState := lastButtonState s;
     lastEmergencyTime := lastEmergencyTime s;
     emergencyMode := emergencyMode s; servoOpen := servoOpen s;
     isOverloaded := isOverloaded s; registeredCards := registeredCards s;
     clock := v; servoAngle := servoAngle s; buzzerPin := buzzerPin s;
     eeprom := eeprom s; trace := trace s |}.
Definition set_servoAngle (v : Z) (s : State) : State :=
  {| hasRotated := hasRotated s; lastMessageTime := lastMessageTime s;
     passengerCount := passengerCount s; ir1Triggered := ir1Triggered s;
     ir2Triggered := ir2Triggered s; lastTriggerTime := lastTriggerTime s;
     emergencyPressCount := emergencyPressCount s;
     lastScannedName := lastScannedName s;
     lastScannedCount := lastScannedCount s;
     overloadCount := overloadCount s; numLoadedCards := numLoadedCards s;
     buzzerOnTime := buzzerOnTime s; lastButtonState := lastButtonState s;
     lastEmergencyTime := lastEmergencyTime s;
     emergencyMode := emergencyMode s; servoOpen := servoOpen s;
     isOverloaded := isOverloaded s; registeredCards := registeredCards s;
     clock := clock s; servoAngle := v; buzzerPin := buzzerPin s;
     eeprom := eeprom s; trace := trace s |}.
Definition set_buzzerPin (v : Level) (s : State) : State :=
  {| hasRotated := hasRotated s; lastMessageTime := lastMessageTime s;
     passengerCount := passengerCount s; ir1Triggered := ir1Triggered s;
     ir2Triggered := ir2Triggered s; lastTriggerTime := lastTriggerTime s;
     emergencyPressCount := emergencyPressCount s;
     lastScannedName := lastScannedName s;
     lastScannedCount := lastScannedCount s;
     overloadCount := overloadCount s; numLoadedCards := numLoadedCards s;
     buzzerOnTime := buzzerOnTime s; lastButtonState := lastButtonState s;
     lastEmergencyTime := lastEmergencyTime s;
     emergencyMode := emergencyMode s; servoOpen := servoOpen s;
     isOverloaded := isOverloaded s; registeredCards := registeredCards s;
     clock := clock s; servoAngle := servoAngle s; buzzerPin := v;
     eeprom := eeprom s; trace := trace s |}.
Definition set_eeprom (v : list Z) (s : State) : State :=
  {| hasRotated := hasRotated s; lastMessageTime := lastMessageTime s;
     passengerCount := passengerCount s; ir1Triggered := ir1Triggered s;
     ir2Triggered := ir2Triggered s; lastTriggerTime := lastTriggerTime s;
     emergencyPressCount := emergencyPressCount s;
     lastScannedName := lastScannedName s;
     lastScannedCount := lastScannedCount s;
     overloadCount := overloadCount s; numLoadedCards := numLoadedCards s;
     buzzerOnTime := buzzerOnTime s; lastButtonState := lastButtonState s;
     lastEmergencyTime := lastEmergencyTime s;
     emergencyMode := emergencyMode s; servoOpen := servoOpen s;
     isOverloaded := isOverloaded s; registeredCards := registeredCards s;
     clock := clock s; servoAngle := servoAngle s; buzzerPin := buzzerPin s;
     eeprom := v; trace := trace s |}.
Definition set_trace (v : list Event) (s : State) : State :=
  {| hasRotated := hasRotated s; lastMessageTime := lastMessageTime s;
     passengerCount := passengerCount s; ir1Triggered := ir1Triggered s;
     ir2Triggered := ir2Triggered s; lastTriggerTime := lastTriggerTime s;
     emergencyPressCount := emergencyPressCount s;
     lastScannedName := lastScannedName s;
     lastScannedCount := lastScannedCount s;
     overloadCount := overloadCount s; numLoadedCards := numLoadedCards s;
     buzzerOnTime := buzzerOnTime s; lastButtonState := lastButtonState s;
     lastEmergencyTime := lastEmergencyTime s;
     emergencyMode := emergencyMode s; servoOpen := servoOpen s;
     isOverloaded := isOverloaded s; registeredCards := registeredCards s;
     clock := clock s; servoAngle := servoAngle s; buzzerPin := buzzerPin s;
     eeprom := eeprom s; trace := v |}.

(** ** Statements *)

Definition Cmd : Type := State -> State.

Definition skip : Cmd := fun s => s.
Definition seqCmd (c1 c2 : Cmd) : Cmd := fun s => c2 (c1 s).
Definition when (b : State -> bool) (c : Cmd) : Cmd :=
  fun s => if b s then c s else s.
Definition ifelse (b : State -> bool) (c1 c2 : Cmd) : Cmd :=
  fun s => if b s then c1 s else c2 s.
(** [x = e;] for a global [x]. *)
Definition assign {A : Type} (set : A -> Cmd) (e : State -> A) : Cmd :=
  fun s => set (e s) s.
(** A local variable holding the value of [e]. *)
Definition local {A : Type} (e : State -> A) (k : A -> Cmd) : Cmd :=
  fun s => k (e s) s.
(** A loop body run for [i], [i+1], ..., [n] times in all. *)
Fixpoint for_loop (n : nat) (i : Z) (body : Z -> Cmd) : Cmd :=
  match n with
  | O => skip
  | S n' => seqCmd (body i) (for_loop n' (i + 1) body)
  end.

Declare Scope cmd_scope.
Delimit Scope cmd_scope with cmd.
Bind Scope cmd_scope with Cmd.
Notation "c1 ;; c2" := (seqCmd c1 c2) : cmd_scope.
Open Scope cmd_scope.

(** ** The board *)

Definition millis (s : State) : Z := wrap32 (clock s).

(** [millis() - t] in [unsigned long] arithmetic. *)
Definition since (s : State) (t : Z) : Z := wrap32 (millis s - t).

Definition emit (e : Event) : Cmd := fun s => set_trace (e :: trace s) s.

Definition delay (ms : Z) : Cmd :=
  emit (Delay ms) ;; assign set_clock (fun s => clock s + ms).

Definition Serial_print (x : string) : Cmd := emit (SerialPrint x).
Definition Serial_println (x : string) : Cmd := emit (SerialPrintln x).
Definition lcd_clear : Cmd := emit LcdClear.
Definition lcd_setCursor (col row : Z) : Cmd := emit (LcdSetCursor col row).
Definition lcd_print (x : string) : Cmd := emit (LcdPrint x).
Definition myServo_write (angle : Z) : Cmd :=
  emit (ServoWrite angle) ;; set_servoAngle angle.
Definition digitalWrite_BUZZER (l : Level) : Cmd :=
  emit (BuzzerWrite l) ;; set_buzzerPin l.
Definition tone (frequency duration : Z) : Cmd := emit (Tone frequency duration).
Definition noTone : Cmd := emit NoTone.

Definition EEPROM_read (e : list Z) (a : Z) : Z :=
  default 255 (e !! Z.to_nat a).

(** [EEPROM.get] of a [uint16_t]: low byte first. *)
Definition EEPROM_get16 (e : list Z) (a : Z) : Z :=
  EEPROM_read e a + 256 * EEPROM_read e (a + 1).

(** [EEPROM.get] of an object of [n] bytes. *)
Definition EEPROM_get (e : list Z) (a : Z) (n : Z) : list Z :=
  map (fun k => EEPROM_read e (a + k)) (seqZ 0 n).

(** [EEPROM.put] of an object given by its bytes. *)
Definition EEPROM_put (a : Z) (bytes : list Z) : Cmd :=
  assign set_eeprom (fun s => list_inserts (Z.to_nat a) bytes (eeprom s)).

(** ** Helper functions of the sketch *)

(** The padding loop after a line of the display. *)
Definition lcdPad (buffer : string) : Cmd :=
  for_loop (16 - String.length buffer) (Z.of_nat (String.length buffer))
    (fun _ => lcd_print " ").

Definition updateLCD : Cmd :=
  lcd_setCursor 0 1 ;;
  ifelse (fun s => 5 <? passengerCount s)
    ( when (fun s => negb (isOverloaded s))
        ( set_isOverloaded true ;;
          digitalWrite_BUZZER HIGH ;;
          assign set_buzzerOnTime millis ;;
          assign set_overloadCount (fun s => wrap16 (overloadCount s + 1)) ;;
          Serial_println "Overload detected, buzzer ON." ) ;;
      local (fun s => dec (passengerCount s) +:+ " (Overload)")
        (fun buffer => lcd_print buffer ;; lcdPad buffer) )
    ( when isOverloaded
        ( set_isOverloaded false ;;
          Serial_println "Passenger count normal. Overload state reset." ) ;;
      local (fun s => "Count: " +:+ dec (passengerCount s))
        (fun buffer => lcd_print buffer ;; lcdPad buffer) ;;
      digitalWrite_BUZZER LOW ).

Definition resetIRStates : Cmd :=
  set_ir1Triggered false ;; set_ir2Triggered false.

(** The text that [sendAdminData] builds in [buffer]. *)
Fixpoint adminPairs (cards : list RegisteredCard) (n : nat) (i : Z)
    (buffer : string) : string :=
  match n with
  | O => buffer
  | S n' =>
      let c := cards !!! Z.to_nat i in
      let userData := "," +:+ name c +:+ "," +:+ dec (scanCount c) in
      adminPairs cards n' (i + 1) (buffer +:+ userData)
  end.

Definition adminBuffer (s : State) : string :=
  adminPairs (registeredCards s) (Z.to_nat (numLoadedCards s)) 0
    ("D:" +:+ dec (passengerCount s) +:+ "," +:+ dec (emergencyPressCount s)
       +:+ "," +:+ dec (overloadCount s)).

Definition sendAdminData : Cmd :=
  local adminBuffer (fun buffer =>
    Serial_println buffer ;;
    Serial_print "Sent to Admin: " ;;
    Serial_println buffer).

(** The inner loop of [findCardIndex]: the first [n] bytes from [j] agree. *)
Fixpoint uidMatches (c : RegisteredCard) (u : list Z) (n : nat) (j : Z) : bool :=
  match n with
  | O => true
  | S n' =>
      if negb (c.(uid) !!! Z.to_nat j =? u !!! Z.to_nat j) then false
      else uidMatches c u n' (j + 1)
  end.

Fixpoint findCardFrom (cards : list RegisteredCard) (u : list Z) (usize : Z)
    (n : nat) (i : Z) : Z :=
  match n with
  | O => -1
  | S n' =>
      let c := cards !!! Z.to_nat i in
      if negb (uidSize c =? usize) then findCardFrom cards u usize n' (i + 1)
      else if uidMatches c u (Z.to_nat usize) 0 then i
      else findCardFrom cards u usize n' (i + 1)
  end.

Definition findCardIndex (s : State) (u : list Z) (usize : Z) : Z :=
  findCardFrom (registeredCards s) u usize (Z.to_nat (numLoadedCards s)) 0.

Definition activateServo : Cmd :=
  Serial_println "Activating servo..." ;;
  myServo_write 120 ;;
  set_servoOpen true ;;
  assign set_lastMessageTime millis.

(** The button went from released to pressed since the last pass. *)
Definition pressed (buttonState : Level) (s : State) : bool :=
  isLow buttonState && isHigh (lastButtonState s).

Definition raiseEmergency : Cmd :=
  set_emergencyMode true ;;
  assign set_lastEmergencyTime millis ;;
  assign set_emergencyPressCount
    (fun s => wrap16 (emergencyPressCount s + 1)) ;;
  tone 1000 200 ;;
  Serial_println "Emergency button pressed! Buzzer and LCD activated." ;;
  lcd_clear ;;
  lcd_setCursor 0 0 ;;
  lcd_print "EMERGENCY!!!" ;;
  lcd_setCursor 0 1 ;;
  lcd_print "Alert! Button!".

(** The emergency is in force and has lasted longer than the timeout. *)
Definition emergencyExpired (s : State) : bool :=
  emergencyMode s && (since s (lastEmergencyTime s) >? EMERGENCY_TIMEOUT_MS).

Definition clearEmergency : Cmd :=
  set_emergencyMode false ;;
  noTone ;;
  lcd_clear ;;
  lcd_setCursor 0 0 ;;
  lcd_print "Passenger Count:" ;;
  updateLCD ;;
  Serial_println "Emergency alert timed out.".

Definition handleEmergencyButton (buttonState : Level) : Cmd :=
  when (pressed buttonState) raiseEmergency ;;
  when emergencyExpired clearEmergency ;;
  set_lastButtonState buttonState.

(** [Serial.print] of the first [n] identifier bytes, in hexadecimal.
    The card reader gives [n <= 10].  A stored length byte can be larger:
    the sketch then reads on past [uid[10]] into the members that follow
    it, where this list has no bytes and 0 is printed; nothing is concluded
    about what power-up prints for such a record. *)
Definition printUidBytes (bytes : list Z) (n : Z) : Cmd :=
  for_loop (Z.to_nat n) 0 (fun j =>
    let b := bytes !!! Z.to_nat j in
    Serial_print (if b <? 16 then " 0" else " ") ;;
    Serial_print (hex b)).

(** ** Persistent registry *)

(** [registeredCards[i] = c]. *)
Definition setCard (i : Z) (c : RegisteredCard) : Cmd :=
  assign set_registeredCards (fun s => <[Z.to_nat i := c]> (registeredCards s)).

(** The bytes of [card_to_store] in [writePredefinedCardsToEEPROM]: a local
    of 28 bytes that starts as whatever the stack holds ([garbage]), then
    receives the identifier, the length byte and the name with its NUL. *)
Definition cardImage (garbage : list Z) (c : RegisteredCard) : list Z :=
  let card_to_store := take 28 (garbage ++ replicate 28 0) in
  let card_to_store := list_inserts 0 (take 10 (uid c)) card_to_store in
  let card_to_store := list_inserts 10 [uidSize c] card_to_store in
  list_inserts 11 (bytesOfString (name c) ++ [0]) card_to_store.

(** One round of the loop of [writePredefinedCardsToEEPROM]. *)
Definition storeCard (garbage : Z -> list Z) (i : Z) : Cmd :=
  let startAddress := EEPROM_ADDR_CARDS_DATA + i * CARD_RECORD_SIZE in
  EEPROM_put startAddress
    (cardImage (garbage i) (predefinedUsers !!! Z.to_nat i)).

Definition writePredefinedCardsToEEPROM (garbage : Z -> list Z) : Cmd :=
  when (fun _ => NUM_PREDEFINED_USERS >? MAX_REGISTERED_CARDS)
    (Serial_println "WARNING: Too many predefined users to fit in EEPROM!") ;;
  EEPROM_put EEPROM_ADDR_NUM_CARDS [NUM_PREDEFINED_USERS] ;;
  for_loop (Z.to_nat NUM_PREDEFINED_USERS) 0 (storeCard garbage) ;;
  Serial_println "Predefined cards written to EEPROM.".

(** One round of the loop of [loadCardsFromEEPROM].  The name is what
    [strcpy] copies from the name field, its bytes up to the first NUL.  A
    field of 17 bytes without a NUL makes the sketch copy on past the
    record and past [name[17]]; here the name ends with the field, and
    what is concluded about the length of loaded names is concluded for
    stores whose name fields hold a NUL. *)
Definition loadCard (i : Z) : Cmd :=
  let startAddress := EEPROM_ADDR_CARDS_DATA + i * CARD_RECORD_SIZE in
  local (fun s => EEPROM_get (eeprom s) startAddress CARD_RECORD_SIZE)
    (fun card_from_eeprom =>
       let loaded :=
         mkCard (take 10 card_from_eeprom)
                (card_from_eeprom !!! 10%nat)
                (cstr (drop 11 card_from_eeprom))
                0 in
       setCard i loaded ;;
       Serial_print "Loaded Card " ;;
       Serial_print (dec (i + 1)) ;;
       Serial_print ": UID=" ;;
       printUidBytes (uid loaded) (uidSize loaded) ;;
       Serial_print ", Name=" ;;
       Serial_println (name loaded)).

Definition loadCardsFromEEPROM : Cmd :=
  assign set_numLoadedCards
    (fun s => EEPROM_read (eeprom s) EEPROM_ADDR_NUM_CARDS) ;;
  ifelse (fun s => (numLoadedCards s >? MAX_REGISTERED_CARDS)
                   || (numLoadedCards s <? 0))
    ( Serial_println "Error: Invalid card count in EEPROM, resetting to 0." ;;
      set_numLoadedCards 0 )
    ( local numLoadedCards (fun n => for_loop (Z.to_nat n) 0 loadCard) ;;
      Serial_print "Total cards loaded: " ;;
      local numLoadedCards (fun n => Serial_println (dec n)) ).

(** The globals as the C start-up code leaves them, on a board whose
    EEPROM holds [e]. *)
Definition powerOn (e : list Z) : State :=
  {| hasRotated := false; lastMessageTime := 0; passengerCount := 0;
     ir1Triggered := false; ir2Triggered := false; lastTriggerTime := 0;
     emergencyPressCount := 0; lastScannedName := "None";
     lastScannedCount := 0; overloadCount := 0; numLoadedCards := 0;
     buzzerOnTime := 0; lastButtonState := HIGH; lastEmergencyTime := 0;
     emergencyMode := false; servoOpen := false; isOverloaded := false;
     registeredCards := replicate 5 blankCard;
     clock := 0; servoAngle := 0; buzzerPin := LOW; eeprom := e;
     trace := [] |}.

(** Lines 93-115 of [setup]: serial port, display, servo, buzzer. *)
Definition initBoard : Cmd :=
  Serial_println "System Ready: Bus System Operational." ;;
  emit LcdInit ;;
  emit LcdBacklight ;;
  lcd_setCursor 0 0 ;;
  lcd_print "Passenger Count:" ;;
  updateLCD ;;
  myServo_write 60 ;;
  digitalWrite_BUZZER LOW.

(** The marker of the store is not [MAGIC_VALUE]. *)
Definition storeBlank (s : State) : bool :=
  negb (EEPROM_get16 (eeprom s) EEPROM_ADDR_MAGIC =? MAGIC_VALUE).

(** Lines 117-126 of [setup]: seed the store when its marker is missing. *)
Definition initStore (garbage : Z -> list Z) : Cmd :=
  ifelse storeBlank
    ( Serial_println "EEPROM not initialized. Writing predefined cards..." ;;
      writePredefinedCardsToEEPROM garbage ;;
      EEPROM_put EEPROM_ADDR_MAGIC
        [MAGIC_VALUE mod 256; MAGIC_VALUE / 256] )
    ( Serial_println "EEPROM already initialized. Loading cards..." ).

Definition setup (garbage : Z -> list Z) : Cmd :=
  initBoard ;;
  initStore garbage ;;
  loadCardsFromEEPROM.

(** The controller after power-up and [setup]. *)
Definition boot (e : list Z) (garbage : Z -> list Z) : State :=
  setup garbage (powerOn e).

(** ** The control loop *)

(** The time that passes between two calls of [loop]. *)
Definition tick (i : Input) : Cmd :=
  assign set_clock (fun s => clock s + elapsed i).

Section Controller.

(** The open-hold timeout, [TIMEOUT_MS] in the sketch. *)
Variable timeout : Z.

Definition checkAndCloseServo (i : Input) : Cmd :=
  when servoOpen
    (when (fun s => since s (lastMessageTime s)
                    >? timeout + GATE_BLOCK_CHECK_DELAY_MS)
       (ifelse (fun _ => isHigh (ir1_close i) && isHigh (ir2_close i))
          ( myServo_write 60 ;;
            set_servoOpen false ;;
            Serial_println "Servo closed successfully." ;;
            lcd_clear ;;
            lcd_setCursor 0 0 ;;
            lcd_print "Passenger Count:" ;;
            updateLCD )
          ( Serial_println "Cannot close servo: Gate is blocked." ;;
            lcd_clear ;;
            lcd_setCursor 0 0 ;;
            lcd_print "Gate blocked!" ;;
            lcd_setCursor 0 1 ;;
            lcd_print "Please move away" ;;
            assign set_lastMessageTime millis ))).

(** [msg.indexOf("Hello from Master") != -1]. *)
Definition isHeartbeat (msg : string) : bool :=
  negb (indexOf msg "Hello from Master" =? -1).

(** Lines 136-147: a line from the station. *)
Definition handleBluetooth (i : Input) : Cmd :=
  match serialIn i with
  | None => skip
  | Some msg =>
      Serial_print "Received via Bluetooth: " ;;
      Serial_println msg ;;
      assign set_lastMessageTime millis ;;
      when (fun s => isHeartbeat msg && negb (hasRotated s))
        ( delay 6000 ;;
          myServo_write 120 ;;
          set_hasRotated true ;;
          sendAdminData )
  end.

(** Lines 150-170: the timeout of the remote open. *)
Definition bluetoothTimeout (i : Input) : Cmd :=
  when hasRotated
    (when (fun s => since s (lastMessageTime s) >? timeout)
       (when (fun s => since s (lastMessageTime s)
                       >? timeout + GATE_BLOCK_CHECK_DELAY_MS)
          (ifelse (fun _ => isHigh (ir1_link i) && isHigh (ir2_link i))
             ( Serial_println "Bluetooth timeout -> Reset servo to 0" ;;
               myServo_write 60 ;;
               set_hasRotated false ;;
               lcd_clear ;;
               lcd_setCursor 0 0 ;;
               lcd_print "Passenger Count:" ;;
               updateLCD )
             ( lcd_clear ;;
               lcd_setCursor 0 0 ;;
               lcd_print "Gate blocked!" ;;
               lcd_setCursor 0 1 ;;
               lcd_print "Please move away" )))).

(** [registeredCards[cardIndex].scanCount++]. *)
Definition bumpScanCount (cardIndex : Z) : Cmd :=
  local (fun s => registeredCards s !!! Z.to_nat cardIndex) (fun c =>
    setCard cardIndex
      (mkCard (uid c) (uidSize c) (name c) (wrap16 (scanCount c + 1)))).

(** Lines 172-196: a card at the reader. *)
Definition handleRFID (i : Input) : Cmd :=
  when (fun s => negb (hasRotated s))
    match card i with
    | None => skip
    | Some u =>
        Serial_print "Scanned Card UID:" ;;
        printUidBytes (uidByte u) (size u) ;;
        Serial_println "" ;;
        local (fun s => findCardIndex s (uidByte u) (size u))
          (fun cardIndex =>
             if negb (cardIndex =? -1) then
               Serial_print "Access Granted! Welcome, " ;;
               local (fun s => name (registeredCards s !!! Z.to_nat cardIndex))
                 Serial_println ;;
               bumpScanCount cardIndex ;;
               assign set_lastScannedName
                 (fun s => name (registeredCards s !!! Z.to_nat cardIndex)) ;;
               assign set_lastScannedCount
                 (fun s => scanCount (registeredCards s !!! Z.to_nat cardIndex)) ;;
               activateServo
             else
               Serial_println "Access Denied: Unknown Card.") ;;
        emit PiccHalt ;;
        emit PcdStopCrypto
    end.

(** Lines 202-214: the entry sequence, sensor 1 then sensor 2. *)
Definition armEntry (i : Input) : Cmd :=
  when (fun s => isLow (reading1 i) && negb (ir1Triggered s)
                 && negb (ir2Triggered s))
    ( set_ir1Triggered true ;;
      assign set_lastTriggerTime millis ).

Definition entryCompletes (i : Input) (s : State) : bool :=
  ir1Triggered s && isLow (reading2 i)
  && (since s (lastTriggerTime s) <? SEQ_TIMEOUT_MS).

(** Lines 208-213; [passengerCount++] is the increment of an [int]. *)
Definition countEntry : Cmd :=
  assign set_passengerCount (fun s => int16 (passengerCount s + 1)) ;;
  updateLCD ;;
  Serial_print "Entry -> Count: " ;;
  local passengerCount (fun n => Serial_println (dec n)) ;;
  resetIRStates ;;
  delay IR_DEBOUNCE_MS.

Definition irEntry (i : Input) : Cmd :=
  armEntry i ;; when (entryCompletes i) countEntry.

(** Lines 216-228: the exit sequence, sensor 2 then sensor 1. *)
Definition armExit (i : Input) : Cmd :=
  when (fun s => isLow (reading2 i) && negb (ir2Triggered s)
                 && negb (ir1Triggered s))
    ( set_ir2Triggered true ;;
      assign set_lastTriggerTime millis ).

Definition exitCompletes (i : Input) (s : State) : bool :=
  ir2Triggered s && isLow (reading1 i)
  && (since s (lastTriggerTime s) <? SEQ_TIMEOUT_MS).

(** [if (passengerCount > 0) passengerCount--;] *)
Definition decrementOccupancy : Cmd :=
  when (fun s => passengerCount s >? 0)
    (assign set_passengerCount (fun s => passengerCount s - 1)).

Definition countExit : Cmd :=
  decrementOccupancy ;;
  updateLCD ;;
  Serial_print "Exit  -> Count: " ;;
  local passengerCount (fun n => Serial_println (dec n)) ;;
  resetIRStates ;;
  delay IR_DEBOUNCE_MS.

Definition irExit (i : Input) : Cmd :=
  armExit i ;; when (exitCompletes i) countExit.

(** Lines 230-233: an armed sequence that timed out. *)
Definition irTimeout : Cmd :=
  when (fun s => (ir1Triggered s || ir2Triggered s)
                 && (since s (lastTriggerTime s) >? SEQ_TIMEOUT_MS))
    resetIRStates.

(** Lines 235-239: the overload buzzer has sounded long enough. *)
Definition buzzerTimeout : Cmd :=
  when (fun s => isHigh (buzzerPin s)
                 && (since s (buzzerOnTime s) >? BUZZER_DURATION_MS))
    ( digitalWrite_BUZZER LOW ;;
      Serial_println "Overload buzzer timed out, turning OFF." ).

(** What [loop] does when no emergency is in force. *)
Definition normalPass (i : Input) : Cmd :=
  handleBluetooth i ;;
  bluetoothTimeout i ;;
  handleRFID i ;;
  irEntry i ;;
  irExit i ;;
  irTimeout ;;
  buzzerTimeout ;;
  checkAndCloseServo i.

Definition loop (i : Input) : Cmd :=
  handleEmergencyButton (button i) ;;
  when (fun s => negb (emergencyMode s)) (normalPass i).

(** Time passes, then [loop] runs once. *)
Definition step (i : Input) : Cmd :=
  tick i ;; loop i.

(** [loop] called again and again, once per input. *)
Fixpoint run (ins : list Input) : Cmd :=
  match ins with
  | [] => skip
  | i :: rest => step i ;; run rest
  end.

End Controller.

(** * Vocabulary of the statements *)

(** ** Predicates kept by a statement *)

Definition Stable (P : State -> Prop) (c : Cmd) : Prop :=
  forall s, P s -> P (c s).

(** A statement that only talks to the outside world. *)
Definition emits (evs : list Event) : Cmd :=
  fun s => set_trace (evs ++ trace s) s.

(** The events of a run, oldest first. *)
Definition history (s : State) : list Event := rev (trace s).

(** ** Reachable states *)

(** The registry array has its five elements and the count of loaded cards
    is within it. *)
Definition RegistryOK (s : State) : Prop :=
  length (registeredCards s) = 5%nat /\ 0 <= numLoadedCards s <= 5.

(** ** The passes of the loop *)

(** The emergency is in force in this pass: [loop] stops after
    [handleEmergencyButton]. *)
Definition suspended (i : Input) (s : State) : bool :=
  emergencyMode (handleEmergencyButton (button i) (tick i s)).

(** The state in which a pass that is not suspended reaches the reader. *)
Definition atReader (T : Z) (i : Input) (s : State) : State :=
  bluetoothTimeout T i
    (handleBluetooth i (handleEmergencyButton (button i) (tick i s))).

(** The state in which a pass that is not suspended reaches the passenger
    counter. *)
Definition atCounter (T : Z) (i : Input) (s : State) : State :=
  handleRFID i (atReader T i s).

(** ** The persisted registry *)

(** A name without a NUL character. *)
Fixpoint noNul (s : string) : Prop :=
  match s with
  | EmptyString => True
  | String c rest => c <> Ascii.zero /\ noNul rest
  end.

(** The 28 bytes of a stored record: the 10 bytes of the identifier, the
    length byte, the name with its NUL, and whatever follows the NUL. *)
Definition recordOf (c : RegisteredCard) (bytes : list Z) : Prop :=
  exists pad,
    bytes = uid c ++ [uidSize c] ++ bytesOfString (name c) ++ [0] ++ pad /\
    length bytes = 28%nat /\ length (uid c) = 10%nat.

(** The store holds the marker, the count and the records of [cards]. *)
Definition holds (e : list Z) (cards : list RegisteredCard) : Prop :=
  EEPROM_get16 e EEPROM_ADDR_MAGIC = MAGIC_VALUE /\
  EEPROM_read e EEPROM_ADDR_NUM_CARDS = Z.of_nat (length cards) /\
  forall (i : nat) (c : RegisteredCard),
    cards !! i = Some c ->
    recordOf c
      (EEPROM_get e (EEPROM_ADDR_CARDS_DATA + Z.of_nat i * CARD_RECORD_SIZE)
         CARD_RECORD_SIZE).

(** A card as it is loaded: the scan count starts at 0. *)
Definition freshCard (c : RegisteredCard) : RegisteredCard :=
  mkCard (uid c) (uidSize c) (name c) 0.

(** The loop of [loadCardsFromEEPROM] after [j] rounds, loading [cards]
    from the store [e]. *)
Definition Loaded (e : list Z) (cards : list RegisteredCard) (j : nat)
    (s : State) : Prop :=
  eeprom s = e /\ numLoadedCards s = Z.of_nat (length cards) /\
  length (registeredCards s) = 5%nat /\
  take j (registeredCards s) = map freshCard (take j cards).

(** ** The emergency window *)

(** No input of the list presses the button anew: it is not read pressed
    right after it was read released ([last] is the reading before the
    first input). *)
Fixpoint noPress (last : Level) (ins : list Input) : Prop :=
  match ins with
  | [] => True
  | i :: rest =>
      isLow (button i) && isHigh last = false /\ noPress (button i) rest
  end.

(** The time that passes before the passes of [ins]. *)
Fixpoint duration (ins : list Input) : Z :=
  match ins with
  | [] => 0
  | i :: rest => elapsed i + duration rest
  end.

(** The last reading of the button. *)
Fixpoint lastButton (last : Level) (ins : list Input) : Level :=
  match ins with
  | [] => last
  | i :: rest => lastButton (button i) rest
  end.

(** ** The passenger counter and the overload alarm *)

(** The latch of the alarm agrees with the occupancy. *)
Definition LatchOK (s : State) : Prop :=
  isOverloaded s = (5 <? passengerCount s).

Definition isAlarm (e : Event) : bool :=
  match e with
  | BuzzerWrite HIGH => true
  | _ => false
  end.

(** How often the overload alarm was switched on. *)
Fixpoint alarms (tr : list Event) : nat :=
  match tr with
  | [] => 0
  | e :: rest => (if isAlarm e then 1 else 0) + alarms rest
  end.

(** Occupancy, overload count and number of alarms are [p], [n] and [k],
    and the latch agrees with the occupancy. *)
Definition Counts (p n : Z) (k : nat) (s : State) : Prop :=
  passengerCount s = p /\ overloadCount s = n /\ alarms (trace s) = k
  /\ isOverloaded s = (5 <? p).

(** Occupancy goes from at most 5 to more than 5. *)
Definition crossesUp (before after : Z) : bool :=
  (before <=? 5) && (5 <? after).

(** The pass counts an entry. *)
Definition entered (T : Z) (i : Input) (s : State) : bool :=
  negb (suspended i s) && entryCompletes i (armEntry i (atCounter T i s)).

(** The pass counts an exit. *)
Definition exited (T : Z) (i : Input) (s : State) : bool :=
  negb (suspended i s)
  && exitCompletes i (armExit i (irEntry i (atCounter T i s))).

(** The occupancy of a pass after its entry sequence. *)
Definition occupancyAfterEntry (T : Z) (i : Input) (s : State) : Z :=
  if suspended i s then passengerCount s
  else passengerCount (irEntry i (atCounter T i s)).

(** What every reachable state satisfies. *)
Definition CounterOK (s : State) : Prop :=
  - 2 ^ 15 <= passengerCount s < 2 ^ 15 /\ LatchOK s.

(** No crossing sequence is armed. *)
Definition Idle (s : State) : Prop :=
  ir1Triggered s = false /\ ir2Triggered s = false.

(** ** The gate *)

Definition isClose (e : Event) : bool :=
  match e with
  | ServoWrite angle => angle =? 60
  | _ => false
  end.

(** How often the servo was sent to the closed position. *)
Fixpoint closes (tr : list Event) : nat :=
  match tr with
  | [] => 0
  | e :: rest => (if isClose e then 1 else 0) + closes rest
  end.

(** The servo is at the open position and was sent to the closed position
    [k] times; the open flags that were set are still set. *)
Definition GateHeld (remote byCard : bool) (k : nat) (s : State) : Prop :=
  servoAngle s = 120 /\ closes (trace s) = k /\
  (remote = true -> hasRotated s = true) /\
  (byCard = true -> servoOpen s = true).

(** The registry and the record of the last scan. *)
Definition Scans (cards : list RegisteredCard) (who : string) (n : Z)
    (s : State) : Prop :=
  registeredCards s = cards /\ lastScannedName s = who /\
  lastScannedCount s = n.

(** The pass reads a line from the station. *)
Definition lineRead (i : Input) (s : State) : bool :=
  negb (suspended i s) && (if serialIn i is Some _ then true else false).

(** Lines keep coming.  [lastRx] is the clock value at which the last line
    was read; in every pass of [ins] that is not suspended, a line is read
    or the last line was read at most [TIMEOUT_MS] ms before the pass. *)
Fixpoint fed (lastRx : Z) (ins : list Input) (s : State) : Prop :=
  match ins with
  | [] => True
  | i :: rest =>
      let now := clock s + elapsed i in
      0 <= elapsed i /\
      (suspended i s = true \/ lineRead i s = true
       \/ now - lastRx <= TIMEOUT_MS) /\
      fed (if lineRead i s then now else lastRx) rest (step TIMEOUT_MS i s)
  end.

(** The gate is held open by the remote path, the servo was sent to the
    closed position [k] times, and the close timeout was last re-armed at a
    clock value between [lastRx] and now. *)
Definition RemoteOpen (k : nat) (lastRx : Z) (s : State) : Prop :=
  GateHeld true false k s /\
  exists t, lastMessageTime s = wrap32 t /\ lastRx <= t <= clock s.

Definition ClockIs (c : Z) (s : State) : Prop := clock s = c.

(** ** What a pass emits *)

(** The events between state [s] and a later state [s'], oldest first. *)
Definition passEvents (s s' : State) : list Event :=
  rev (take (length (trace s') - length (trace s)) (trace s')).

(** The lines that a sequence of events puts on the serial port; text
    printed without a line end is the beginning of the next line. *)
Fixpoint linesFrom (pending : string) (evs : list Event) : list string :=
  match evs with
  | [] => []
  | SerialPrint x :: rest => linesFrom (pending +:+ x) rest
  | SerialPrintln x :: rest => (pending +:+ x) :: linesFrom "" rest
  | _ :: rest => linesFrom pending rest
  end.

Definition serialLines (evs : list Event) : list string := linesFrom "" evs.

(** ** The serial line *)

Definition Hoare (P : State -> Prop) (c : Cmd) (Q : State -> Prop) : Prop :=
  forall s, P s -> Q (c s).

(** A line that the station takes for a snapshot. *)
Definition startsWithD (x : string) : bool :=
  match x with
  | String a (String b _) => Ascii.eqb a "D" && Ascii.eqb b ":"
  | _ => false
  end.

(** The serial port after the events of a trace (newest first): the
    number of complete lines that start with "D:", and the text of the line
    in progress. *)
Fixpoint serialState (tr : list Event) : nat * string :=
  match tr with
  | [] => (0%nat, "")
  | e :: older =>
      let '(k, pending) := serialState older in
      match e with
      | SerialPrint x => (k, pending +:+ x)
      | SerialPrintln x =>
          (if startsWithD (pending +:+ x) then S k else k, "")
      | _ => (k, pending)
      end
  end.

(** The number of snapshot lines sent so far. *)
Definition snapshotLines (s : State) : nat := fst (serialState (trace s)).

Definition notD (p : string) : bool :=
  match p with
  | String c _ => negb (Ascii.eqb c "D")
  | EmptyString => false
  end.

Definition isSerial (e : Event) : bool :=
  match e with
  | SerialPrint _ | SerialPrintln _ => true
  | _ => false
  end.

(** [k] snapshot lines were sent and the port is at the start of a line. *)
Definition AtLineStart (k : nat) (s : State) : Prop :=
  serialState (trace s) = (k, "").

(** [k] snapshot lines were sent and the port is in a line that does not
    begin with the letter D. *)
Definition InLine (k : nat) (s : State) : Prop :=
  exists p, serialState (trace s) = (k, p) /\ notD p = true.

Definition isSettle (e : Event) : bool :=
  match e with
  | Delay ms => ms =? 6000
  | _ => false
  end.

(** How often the settle delay of the arrival sequence was taken. *)
Fixpoint settles (tr : list Event) : nat :=
  match tr with
  | [] => 0
  | e :: rest => (if isSettle e then 1 else 0) + settles rest
  end.

(** The settle delay was taken [n] times. *)
Definition Settled (n : nat) (s : State) : Prop := settles (trace s) = n.

(** The trace extends [old]. *)
Definition Extends (old : list Event) (s : State) : Prop :=
  exists new, trace s = new ++ old.

(** The pass begins the arrival sequence: it is not suspended and reads a
    line with the heartbeat text while the remote-open flag is clear. *)
Definition arrival (i : Input) (s : State) : bool :=
  negb (suspended i s)
  && match serialIn i with
     | Some msg => isHeartbeat msg && negb (hasRotated s)
     | None => false
     end.

(** ** The snapshot line *)

Definition snapshotHeader (s : State) : string :=
  "D:" +:+ dec (passengerCount s) +:+ "," +:+ dec (emergencyPressCount s)
    +:+ "," +:+ dec (overloadCount s).

Definition snapshotPair (c : RegisteredCard) : string :=
  "," +:+ name c +:+ "," +:+ dec (scanCount c).

Definition joinStrings (l : list string) : string :=
  foldr String.append "" l.

(** The registry entries in use. *)
Definition loadedCards (s : State) : list RegisteredCard :=
  take (Z.to_nat (numLoadedCards s)) (registeredCards s).

(** The line with one pair per loaded card. *)
Definition allCardsLine (s : State) : string :=
  snapshotHeader s +:+ joinStrings (map snapshotPair (loadedCards s)).

(** The line with one pair per loaded card that was scanned this session
    and no pair for the others. *)
Definition usedCardsLine (s : State) : string :=
  snapshotHeader s +:+
  joinStrings (map snapshotPair
                 (filter (fun c => 0 < scanCount c) (loadedCards s))).

(** ** Concrete boards and inputs *)

(** An EEPROM that was never written. *)
Definition erasedEEPROM : list Z := replicate 1024 255.

(** The controller after its first power-up. *)
Definition firstBoot : State := boot erasedEEPROM (fun _ => []).

(** A pass in which nothing happens outside: button released, no line, no
    card, both sensors clear. *)
Definition quiet (dt : Z) : Input :=
  mkInput dt HIGH None None HIGH HIGH HIGH HIGH HIGH HIGH.

(** A pass in which only the button matters. *)
Definition buttonAt (dt : Z) (b : Level) : Input :=
  mkInput dt b None None HIGH HIGH HIGH HIGH HIGH HIGH.

(** A store with the marker and a card count of 9. *)
Definition overfullEEPROM : list Z := [203; 175; 9] ++ replicate 1021 255.

(** The controller after a first boot and a press of the panic button. *)
Definition panicked : State := step TIMEOUT_MS (buttonAt 100 LOW) firstBoot.

(** A pass in which the station's heartbeat line is read. *)
Definition heartbeat (dt : Z) : Input :=
  mkInput dt HIGH (Some "Hello from Master") None HIGH HIGH HIGH HIGH HIGH HIGH.

(** The controller after a first boot and the first heartbeat: the gate is
    open by the remote path. *)
Definition arrived : State := step TIMEOUT_MS (heartbeat 100) firstBoot.

(** A pass in which some other line is read. *)
Definition chatter (dt : Z) : Input :=
  mkInput dt HIGH (Some "status?") None HIGH HIGH HIGH HIGH HIGH HIGH.

(** A pass in which a card is read. *)
Definition scan (dt : Z) (u : Uid) : Input :=
  mkInput dt HIGH None (Some u) HIGH HIGH HIGH HIGH HIGH HIGH.

(** A pass in which the sensors read [a] and [b] wherever they are read. *)
Definition sensors (dt : Z) (a b : Level) : Input :=
  mkInput dt HIGH None None a b a b a b.

(** One passenger walks in: sensor 1, then sensor 2, then a pause longer
    than the sequence window. *)
Definition entering : list Input :=
  [sensors 10 LOW HIGH; sensors 10 HIGH LOW; quiet 1100].

(** One passenger walks out: sensor 2, then sensor 1, then a pause. *)
Definition leaving : list Input :=
  [sensors 10 HIGH LOW; sensors 10 LOW HIGH; quiet 1100].

Definition entries (n : nat) : list Input := concat (replicate n entering).

(** The controller after a first boot and [n] passengers walking in. *)
Definition aboard (n : nat) : State := run TIMEOUT_MS (entries n) firstBoot.

Definition driverCard : Uid := mkUid [0xF3; 0x97; 0x17; 0x2D; 0; 0; 0; 0; 0; 0] 4.
(** ** Looking a card up *)

(** The registry entry [c] answers to the identifier [u] of [usize] bytes:
    same length byte, and the same bytes below it. *)
Definition matchesCard (c : RegisteredCard) (u : list Z) (usize : Z) : Prop :=
  uidSize c = usize /\
  forall j, 0 <= j < usize -> uid c !!! Z.to_nat j = u !!! Z.to_nat j.

(** What [printUidBytes] puts on the serial port, oldest first. *)
Definition uidEvents (bytes : list Z) (n : Z) : list Event :=
  concat (map (fun j =>
                 let b := bytes !!! Z.to_nat j in
                 [ SerialPrint (if b <? 16 then " 0" else " ");
                   SerialPrint (hex b) ])
              (seqZ 0 n)).

(** The log of a card read, up to the look-up. *)
Definition scanEvents (u : Uid) : list Event :=
  [SerialPrint "Scanned Card UID:"] ++ uidEvents (uidByte u) (size u) ++
  [SerialPrintln ""].

(** What a pass emits for a card that is turned away, oldest first. *)
Definition deniedEvents (u : Uid) : list Event :=
  scanEvents u ++
  [SerialPrintln "Access Denied: Unknown Card."; PiccHalt; PcdStopCrypto].

(** What a pass emits for a card that is granted to [who], oldest first. *)
Definition grantedEvents (u : Uid) (who : string) : list Event :=
  scanEvents u ++
  [ SerialPrint "Access Granted! Welcome, ";
    SerialPrintln who; SerialPrintln "Activating servo..."; ServoWrite 120;
    PiccHalt; PcdStopCrypto ].

(** A registry entry after one more scan. *)
Definition scannedOnce (c : RegisteredCard) : RegisteredCard :=
  mkCard (uid c) (uidSize c) (name c) (wrap16 (scanCount c + 1)).

(** A card that is not in the factory set. *)
Definition strangerCard : Uid :=
  mkUid [0xDE; 0xAD; 0xBE; 0xEF; 0; 0; 0; 0; 0; 0] 4.

(** The second card of the factory set. *)
Definition helperCard : Uid :=
  mkUid [0x19; 0x78; 0x97; 0x3F; 0; 0; 0; 0; 0; 0] 4.

(** ** The panic button *)

(** The number of presses among the readings of [ins]: readings that are
    pressed right after a released one ([last] is the reading before the
    first input). *)
Fixpoint presses (last : Level) (ins : list Input) : Z :=
  match ins with
  | [] => 0
  | i :: rest =>
      (if isLow (button i) && isHigh last then 1 else 0)
      + presses (button i) rest
  end.

(** ** The registry over time *)

(** The count of loaded cards is [n] and the registry entries are, scan
    counts apart, those of [r]. *)
Definition SameCards (n : Z) (r : list RegisteredCard) (s : State) : Prop :=
  numLoadedCards s = n /\ map freshCard (registeredCards s) = r.

(** The record at index [i] of the store [e], as [loadCardsFromEEPROM]
    reads it: the name is the name field up to its first NUL (the whole
    field when it holds none, see [loadCard]). *)
Definition decodeCard (e : list Z) (i : Z) : RegisteredCard :=
  let r := EEPROM_get e (EEPROM_ADDR_CARDS_DATA + i * CARD_RECORD_SIZE)
             CARD_RECORD_SIZE in
  mkCard (take 10 r) (r !!! 10%nat) (cstr (drop 11 r)) 0.

(** The card count of the store [e], 0 when the stored byte is out of
    range. *)
Definition storedCount (e : list Z) : Z :=
  let n := EEPROM_read e EEPROM_ADDR_NUM_CARDS in
  if (n >? MAX_REGISTERED_CARDS) || (n <? 0) then 0 else n.

(** The cards that the store [e] holds, whatever wrote it. *)
Definition storedCards (e : list Z) : list RegisteredCard :=
  map (decodeCard e) (seqZ 0 (storedCount e)).

(** ** The gate over time *)

(** The clock is at [c] or later. *)
Definition ClockFrom (c : Z) (s : State) : Prop := c <= clock s.

(** The close timeout was last armed at a clock value between [t] and
    now. *)
Definition Stamp (t : Z) (s : State) : Prop :=
  exists t', lastMessageTime s = wrap32 t' /\ t <= t' <= clock s.

(** The servo is at [angle] and was sent to the closed position [k] times;
    the open flags are [remote] and [byCard]. *)
Definition GateAt (angle : Z) (k : nat) (remote byCard : bool) (s : State)
    : Prop :=
  servoAngle s = angle /\ closes (trace s) = k /\
  hasRotated s = remote /\ servoOpen s = byCard.

(** The controller after a first boot and a grant to the driver's card:
    the gate is open by the card path. *)
Definition granted : State := step TIMEOUT_MS (scan 100 driverCard) firstBoot.

(** ** Decimal text *)

(** The decimal digit [r] put in front of the little-endian number [d]. *)
Definition digitOf (r : N) (d : Decimal.uint) : Decimal.uint :=
  match r with
  | 0%N => Decimal.D0 d
  | 1%N => Decimal.D1 d
  | 2%N => Decimal.D2 d
  | 3%N => Decimal.D3 d
  | 4%N => Decimal.D4 d
  | 5%N => Decimal.D5 d
  | 6%N => Decimal.D6 d
  | 7%N => Decimal.D7 d
  | 8%N => Decimal.D8 d
  | _ => Decimal.D9 d
  end.

(** The [k] lowest decimal digits of [n], lowest first. *)
Fixpoint littleDigits (k : nat) (n : N) : Decimal.uint :=
  match k with
  | O => Decimal.Nil
  | S k' => digitOf (n mod 10) (littleDigits k' (n / 10))
  end.

(** ** The display *)

Definition isLcd (e : Event) : bool :=
  match e with
  | LcdInit | LcdBacklight | LcdClear | LcdSetCursor _ _ | LcdPrint _ => true
  | _ => false
  end.

(** The events that go to the display. *)
Fixpoint lcdOnly (evs : list Event) : list Event :=
  match evs with
  | [] => []
  | e :: rest => if isLcd e then e :: lcdOnly rest else lcdOnly rest
  end.

(** The text that [updateLCD] formats for the second row. *)
Definition rowText (s : State) : string :=
  if 5 <? passengerCount s then dec (passengerCount s) +:+ " (Overload)"
  else "Count: " +:+ dec (passengerCount s).

(** ** The snapshot buffer *)

(** The counters that [sendAdminData] prints with [%u] are 16-bit values
    and the names in the registry have at most 17 characters, the size of
    the name field of a stored record. *)
Definition Bounded (s : State) : Prop :=
  0 <= emergencyPressCount s < 2 ^ 16 /\
  0 <= overloadCount s < 2 ^ 16 /\
  Forall (fun c => 0 <= scanCount c < 2 ^ 16 /\
                   (String.length (name c) <= 17)%nat)
    (registeredCards s).

(** The 17 bytes of the name field of record [i] of a store. *)
Definition nameField (e : list Z) (i : Z) : list Z :=
  EEPROM_get e
    (EEPROM_ADDR_CARDS_DATA + i * CARD_RECORD_SIZE + UID_MAX_SIZE + 1)
    (MAX_NAME_LENGTH + 1).

(** A store that [loadCardsFromEEPROM] can load: when it carries the
    marker and a count of at most 5, the name field of every counted
    record holds a NUL, so that the [strcpy] of line 313 ends inside the
    record.  (A store without the marker is written anew at power-up, and a
    count above 5 loads nothing.) *)
Definition TerminatedNames (e : list Z) : Prop :=
  EEPROM_get16 e EEPROM_ADDR_MAGIC = MAGIC_VALUE ->
  EEPROM_read e EEPROM_ADDR_NUM_CARDS <= MAX_REGISTERED_CARDS ->
  forall i, 0 <= i < EEPROM_read e EEPROM_ADDR_NUM_CARDS ->
    0 ∈ nameField e i.

(** ** Crossings over several passes *)

(** The crossing flags are [a] and [b], the sequence was armed at [m], the
    clock is at [c] and the occupancy is [p]. *)
Definition Crossing (a b : bool) (m c p : Z) (s : State) : Prop :=
  ir1Triggered s = a /\ ir2Triggered s = b /\ lastTriggerTime s = m /\
  clock s = c /\ passengerCount s = p.

(** The line that the pass reads, if any, begins an arrival. *)
Definition heartbeatDue (i : Input) (s : State) : bool :=
  match serialIn i with
  | Some msg => isHeartbeat msg && negb (hasRotated s)
  | None => false
  end.

(** * The station

    A shallow embedding of [Bus Station (Master).ino], the sketch at the
    admin station: it asks the bus for data every 5 seconds, parses the
    snapshot line that the bus sends back, keeps the parsed data in its own
    EEPROM and shows it on its display.  The conventions are those of the
    vehicle: [int] is 16 bits wide, [unsigned long] is 32 bits wide, and
    what the sketch does to the outside world is appended to [trace]. *)

Module Station.

Definition REQUEST_INTERVAL_MS : Z := 5000.
Definition DISPLAY_ROTATE_MS : Z := 4000.
Definition MAX_USERS : Z := 5.
Definition MAGIC_BYTE : Z := 0xAA.
Definition EEPROM_START_ADDR : Z := 0.

(** [struct UserData]: the 17 bytes of [name] and [scanCount]. *)
Record UserData : Type := mkUser {
  name : list Z;
  scanCount : Z
}.

(** A zero-initialised array element. *)
Definition blankUser : UserData := mkUser (replicate 17 0) 0.

#[global] Instance UserData_inhabited : Inhabited UserData :=
  populate blankUser.

Record State : Type := mkState {
  users : list UserData;
  passengerCount : Z;
  emergencyCount : Z;
  overloadCount : Z;
  numUsers : Z;
  dataReceived : bool;
  lastRequestTime : Z;
  lastDisplayChangeTime : Z;
  currentDisplayScreen : Z;
  clock : Z;            (* milliseconds since power-up, not wrapped *)
  eeprom : list Z;      (* one byte per cell *)
  trace : list Event    (* newest first *)
}.

(** What one pass of [loop] reads from the outside world. *)
Record Input : Type := mkInput {
  elapsed : Z;               (* ms between the previous pass and this one *)
  serialIn : option string   (* the text before the newline, when
                                Serial.available() *)
}.

Definition set_users (v : list UserData) (s : State) : State :=
  mkState v (passengerCount s) (emergencyCount s) (overloadCount s)
    (numUsers s) (dataReceived s) (lastRequestTime s)
    (lastDisplayChangeTime s) (currentDisplayScreen s) (clock s) (eeprom s)
    (trace s).
Definition set_passengerCount (v : Z) (s : State) : State :=
  mkState (users s) v (emergencyCount s) (overloadCount s)
    (numUsers s) (dataReceived s) (lastRequestTime s)
    (lastDisplayChangeTime s) (currentDisplayScreen s) (clock s) (eeprom s)
    (trace s).
Definition set_emergencyCount (v : Z) (s : State) : State :=
  mkState (users s) (passengerCount s) v (overloadCount s)
    (numUsers s) (dataReceived s) (lastRequestTime s)
    (lastDisplayChangeTime s) (currentDisplayScreen s) (clock s) (eeprom s)
    (trace s).
Definition set_overloadCount (v : Z) (s : State) : State :=
  mkState (users s) (passengerCount s) (emergencyCount s) v
    (numUsers s) (dataReceived s) (lastRequestTime s)
    (lastDisplayChangeTime s) (currentDisplayScreen s) (clock s) (eeprom s)
    (trace s).
Definition set_numUsers (v : Z) (s : State) : State :=
  mkState (users s) (passengerCount s) (emergencyCount s) (overloadCount s)
    v (dataReceived s) (lastRequestTime s)
    (lastDisplayChangeTime s) (currentDisplayScreen s) (clock s) (eeprom s)
    (trace s).
Definition set_dataReceived (v : bool) (s : State) : State :=
  mkState (users s) (passengerCount s) (emergencyCount s) (overloadCount s)
    (numUsers s) v (lastRequestTime s)
    (lastDisplayChangeTime s) (currentDisplayScreen s) (clock s) (eeprom s)
    (trace s).
Definition set_lastRequestTime (v : Z) (s : State) : State :=
  mkState (users s) (passengerCount s) (emergencyCount s) (overloadCount s)
    (numUsers s) (dataReceived s) v
    (lastDisplayChangeTime s) (currentDisplayScreen s) (clock s) (eeprom s)
    (trace s).
Definition set_lastDisplayChangeTime (v : Z) (s : State) : State :=
  mkState (users s) (passengerCount s) (emergencyCount s) (overloadCount s)
    (numUsers s) (dataReceived s) (lastRequestTime s)
    v (currentDisplayScreen s) (clock s) (eeprom s)
    (trace s).
Definition set_currentDisplayScreen (v : Z) (s : State) : State :=
  mkState (users s) (passengerCount s) (emergencyCount s) (overloadCount s)
    (numUsers s) (dataReceived s) (lastRequestTime s)
    (lastDisplayChangeTime s) v (clock s) (eeprom s)
    (trace s).
Definition set_clock (v : Z) (s : State) : State :=
  mkState (users s) (passengerCount s) (emergencyCount s) (overloadCount s)
    (numUsers s) (dataReceived s) (lastRequestTime s)
    (lastDisplayChangeTime s) (currentDisplayScreen s) v (eeprom s)
    (trace s).
Definition set_eeprom (v : list Z) (s : State) : State :=
  mkState (users s) (passengerCount s) (emergencyCount s) (overloadCount s)
    (numUsers s) (dataReceived s) (lastRequestTime s)
    (lastDisplayChangeTime s) (currentDisplayScreen s) (clock s) v
    (trace s).
Definition set_trace (v : list Event) (s : State) : State :=
  mkState (users s) (passengerCount s) (emergencyCount s) (overloadCount s)
    (numUsers s) (dataReceived s) (lastRequestTime s)
    (lastDisplayChangeTime s) (currentDisplayScreen s) (clock s) (eeprom s)
    v.

Definition millis (s : State) : Z := wrap32 (clock s).

Definition emit (e : Event) (s : State) : State :=
  set_trace (e :: trace s) s.

Definition delay (ms : Z) (s : State) : State :=
  set_clock (clock s + ms) (emit (Delay ms) s).

(** ** Text *)

(** [isspace] of the C library. *)
Definition isSpace (c : ascii) : bool :=
  let n := Ascii.nat_of_ascii c in
  (n =? 32)%nat || ((9 <=? n)%nat && (n <=? 13)%nat).

Fixpoint skipSpaces (s : string) : string :=
  match s with
  | String c rest => if isSpace c then skipSpaces rest else s
  | EmptyString => EmptyString
  end.

Definition reverse (s : string) : string :=
  String.string_of_list_ascii (rev (String.list_ascii_of_string s)).

(** [String::trim]: leading and trailing white space removed. *)
Definition trim (s : string) : string :=
  reverse (skipSpaces (reverse (skipSpaces s))).

(** [data.remove(0, n)]. *)
Fixpoint remove0 (n : nat) (s : string) : string :=
  match n, s with
  | S n', String _ rest => remove0 n' rest
  | _, _ => s
  end.

(** The C string that [toCharArray] leaves in the buffer: the characters
    before the first NUL. *)
Fixpoint cString (s : string) : string :=
  match s with
  | String c rest =>
      if Ascii.eqb c Ascii.zero then EmptyString else String c (cString rest)
  | EmptyString => EmptyString
  end.

(** The tokens that repeated calls of [strtok(..., ",")] return: the
    maximal runs of characters other than the comma; [acc] is the token in
    progress. *)
Fixpoint tokensFrom (acc : string) (s : string) : list string :=
  match s with
  | EmptyString => if acc is EmptyString then [] else [acc]
  | String c rest =>
      if Ascii.eqb c ","
      then (if acc is EmptyString then tokensFrom "" rest
            else acc :: tokensFrom "" rest)
      else tokensFrom (acc +:+ String c "") rest
  end.

Definition strtokAll (buffer : string) : list string := tokensFrom "" buffer.

Definition isDigit (c : ascii) : bool :=
  let n := Ascii.nat_of_ascii c in (48 <=? n)%nat && (n <=? 57)%nat.

(** The digits at the start of [s], read as a decimal number after
    [acc]. *)
Fixpoint digitsValue (acc : Z) (s : string) : Z :=
  match s with
  | String c rest =>
      if isDigit c
      then digitsValue (acc * 10 + (Z.of_nat (Ascii.nat_of_ascii c) - 48)) rest
      else acc
  | EmptyString => acc
  end.

(** [atoi]: white space, an optional sign, digits.  The C library leaves
    the result open when the number does not fit an [int]; avr-libc
    computes in 16 bits, which is what [int16] gives. *)
Definition atoi (s : string) : Z :=
  match skipSpaces s with
  | String c rest =>
      if Ascii.eqb c "-" then int16 (- digitsValue 0 rest)
      else if Ascii.eqb c "+" then int16 (digitsValue 0 rest)
      else int16 (digitsValue 0 (String c rest))
  | EmptyString => 0
  end.

(** [strncpy(name, token, 16); name[16] = '\0';] on the 17 bytes of a
    name. *)
Definition copyName (token : string) : list Z :=
  take 16 (bytesOfString token ++ replicate 16 0) ++ [0].

(** ** [parseData] *)

(** The body of the [while] loop for one token. *)
Definition parseToken (tokenIndex : Z) (token : string) (s : State) : State :=
  if tokenIndex =? 0 then set_passengerCount (atoi token) s
  else if tokenIndex =? 1 then set_emergencyCount (atoi token) s
  else if tokenIndex =? 2 then set_overloadCount (atoi token) s
  else if (tokenIndex mod 2 =? 1) && (numUsers s <? MAX_USERS) then
    let n := Z.to_nat (numUsers s) in
    let u := users s !!! n in
    set_users (<[n := mkUser (copyName token) (scanCount u)]> (users s)) s
  else if numUsers s <? MAX_USERS then
    let n := Z.to_nat (numUsers s) in
    let u := users s !!! n in
    set_numUsers (numUsers s + 1)
      (set_users (<[n := mkUser (name u) (atoi token)]> (users s)) s)
  else s.

Fixpoint parseTokens (tokens : list string) (tokenIndex : Z) (s : State)
    : State :=
  match tokens with
  | [] => s
  | token :: rest => parseTokens rest (tokenIndex + 1) (parseToken tokenIndex token s)
  end.

(** [EEPROM.put] of an [int]: low byte first. *)
Definition intBytes (z : Z) : list Z := [z mod 256; (z / 256) mod 256].

(** [EEPROM.get] of an [int]. *)
Definition getInt (e : list Z) (a : Z) : Z :=
  int16 (EEPROM_read e a + 256 * EEPROM_read e (a + 1)).

(** [bytes] written from cell [a] on.  A cell past the end of the list is
    not written: the theorems about the saved data ask for an EEPROM that
    has room for it. *)
Definition EEPROM_write (a : Z) (bytes : list Z) (s : State) : State :=
  set_eeprom (list_inserts (Z.to_nat a) bytes (eeprom s)) s.

(** The 17 bytes of a name array. *)
Definition nameBytes (u : UserData) : list Z :=
  map (fun j => name u !!! j) (seq 0 17).

(** The saving loop: [n] users from index [i], the next free cell being
    [addr]. *)
Fixpoint saveUsers (n : nat) (i : Z) (addr : Z) (s : State) : State :=
  match n with
  | O => s
  | S n' =>
      let u := users s !!! Z.to_nat i in
      let s := EEPROM_write addr (nameBytes u) s in
      let s := EEPROM_write (addr + 17) (intBytes (scanCount u)) s in
      saveUsers n' (i + 1) (addr + 17 + 2) s
  end.

Definition saveData (s : State) : State :=
  let s := EEPROM_write EEPROM_START_ADDR [MAGIC_BYTE] s in
  let s := EEPROM_write (EEPROM_START_ADDR + 1) [numUsers s mod 256] s in
  let s := EEPROM_write (EEPROM_START_ADDR + 2) (intBytes (passengerCount s)) s in
  let s := EEPROM_write (EEPROM_START_ADDR + 4) (intBytes (emergencyCount s)) s in
  let s := EEPROM_write (EEPROM_START_ADDR + 6) (intBytes (overloadCount s)) s in
  saveUsers (Z.to_nat (numUsers s)) 0 (EEPROM_START_ADDR + 8) s.

Definition parseData (data : string) (s : State) : State :=
  let data := remove0 2 data in
  let dataBuffer := cString data in
  saveData (parseTokens (strtokAll dataBuffer) 0 (set_numUsers 0 s)).

(** ** [setup] *)

(** The loading loop: [n] users from index [i], the next cell to read
    being [addr].  With a stored count above 5 the sketch writes past the
    end of [users]; the list is left alone there, and the theorems about
    [setup] ask for a stored count of at most 5. *)
Fixpoint loadUsers (n : nat) (i : Z) (addr : Z) (s : State) : State :=
  match n with
  | O => s
  | S n' =>
      let nm := map (fun j => EEPROM_read (eeprom s) (addr + Z.of_nat j))
                    (seq 0 17) in
      let sc := getInt (eeprom s) (addr + 17) in
      loadUsers n' (i + 1) (addr + 17 + 2)
        (set_users (<[Z.to_nat i := mkUser nm sc]> (users s)) s)
  end.

(** The globals as the C start-up code leaves them, on a board whose
    EEPROM holds [e]. *)
Definition powerOn (e : list Z) : State :=
  mkState (replicate 5 blankUser) 0 0 0 0 false 0 0 0 0 e [].

Definition setup (s : State) : State :=
  let s := emit LcdBacklight (emit LcdInit s) in
  if EEPROM_read (eeprom s) EEPROM_START_ADDR =? MAGIC_BYTE then
    let s := set_numUsers (EEPROM_read (eeprom s) (EEPROM_START_ADDR + 1)) s in
    let s := set_passengerCount (getInt (eeprom s) (EEPROM_START_ADDR + 2)) s in
    let s := set_emergencyCount (getInt (eeprom s) (EEPROM_START_ADDR + 4)) s in
    let s := set_overloadCount (getInt (eeprom s) (EEPROM_START_ADDR + 6)) s in
    let s := loadUsers (Z.to_nat (numUsers s)) 0 (EEPROM_START_ADDR + 8) s in
    let s := set_dataReceived true s in
    let s := set_currentDisplayScreen 0 s in
    let s := set_lastDisplayChangeTime
               (wrap32 (millis s - DISPLAY_ROTATE_MS)) s in
    let s := emit (LcdSetCursor 0 0) s in
    let s := emit (LcdPrint "Data loaded from") s in
    let s := emit (LcdSetCursor 0 1) s in
    let s := emit (LcdPrint "EEPROM") s in
    delay 2000 s
  else
    let s := emit (LcdSetCursor 0 0) s in
    let s := emit (LcdPrint "Admin Station") s in
    let s := emit (LcdSetCursor 0 1) s in
    emit (LcdPrint "Waiting for data") s.

Definition boot (e : list Z) : State := setup (powerOn e).

(** ** [updateDisplay] and [loop] *)

Definition showMain (s : State) : State :=
  let s := emit (LcdSetCursor 0 0) s in
  let s := emit (LcdPrint "P:") s in
  let s := emit (LcdPrint (dec (passengerCount s))) s in
  let s := emit (LcdPrint " E:") s in
  let s := emit (LcdPrint (dec (emergencyCount s))) s in
  let s := emit (LcdSetCursor 0 1) s in
  let s := emit (LcdPrint "Overload: ") s in
  emit (LcdPrint (dec (overloadCount s))) s.

Definition showUser (userIndex : Z) (s : State) : State :=
  if userIndex <? numUsers s then
    let u := users s !!! Z.to_nat userIndex in
    let s := emit (LcdSetCursor 0 0) s in
    let s := emit (LcdPrint (cstr (name u))) s in
    let s := emit (LcdSetCursor 0 1) s in
    let s := emit (LcdPrint "Scans: ") s in
    emit (LcdPrint (dec (scanCount u))) s
  else s.

Definition updateDisplay (s : State) : State :=
  if wrap32 (millis s - lastDisplayChangeTime s) >? DISPLAY_ROTATE_MS then
    let s := set_currentDisplayScreen (int16 (currentDisplayScreen s + 1)) s in
    let s := if currentDisplayScreen s >? numUsers s
             then set_currentDisplayScreen 0 s else s in
    let s := set_lastDisplayChangeTime (millis s) s in
    let s := emit LcdClear s in
    if currentDisplayScreen s =? 0 then showMain s
    else showUser (currentDisplayScreen s - 1) s
  else s.

(** The station takes the line for a snapshot. *)
Definition accepts (raw : string) : bool := startsWithD (trim raw).

Definition receive (raw : string) (s : State) : State :=
  let dataPacket := trim raw in
  if startsWithD dataPacket then
    let s := parseData dataPacket s in
    let s := set_dataReceived true s in
    let s := set_currentDisplayScreen 0 s in
    set_lastDisplayChangeTime (wrap32 (millis s - DISPLAY_ROTATE_MS)) s
  else s.

Definition request (s : State) : State :=
  if wrap32 (millis s - lastRequestTime s) >? REQUEST_INTERVAL_MS then
    set_lastRequestTime (millis s) (emit (SerialPrintln "Hello from Master") s)
  else s.

Definition loop (i : Input) (s : State) : State :=
  let s := request s in
  let s := match serialIn i with
           | Some raw => receive raw s
           | None => s
           end in
  if dataReceived s then updateDisplay s else s.

Definition step (i : Input) (s : State) : State :=
  loop i (set_clock (clock s + elapsed i) s).

Fixpoint run (ins : list Input) (s : State) : State :=
  match ins with
  | [] => s
  | i :: rest => run rest (step i s)
  end.

End Station.

(** ** Well-formed station data *)

(** A user entry as [parseData] leaves it: the name fills its 17 bytes and
    ends with a NUL, and the scan count is an [int]. *)
Definition WFUser (u : Station.UserData) : Prop :=
  length (Station.name u) = 17%nat /\
  Forall (fun b => 0 <= b < 256) (Station.name u) /\
  Station.name u !! 16%nat = Some 0 /\
  - 2 ^ 15 <= Station.scanCount u < 2 ^ 15.

(** The station's data is within its arrays. *)
Definition StationOK (s : Station.State) : Prop :=
  0 <= Station.numUsers s <= 5 /\
  length (Station.users s) = 5%nat /\
  Forall WFUser (Station.users s).

(** ** Tokens *)

(** A text without a comma. *)
Fixpoint noComma (x : string) : Prop :=
  match x with
  | EmptyString => True
  | String c rest => c <> ","%char /\ noComma rest
  end.

(** A text of digits. *)
Fixpoint digitsOnly (x : string) : Prop :=
  match x with
  | EmptyString => True
  | String c rest => Station.isDigit c = true /\ digitsOnly rest
  end.

(** The tokens joined as the snapshot joins them: a comma before each. *)
Definition commaJoin (tokens : list string) : string :=
  joinStrings (map (fun t => "," +:+ t) tokens).

(** The tokens of the name and count pairs of [cards]. *)
Definition pairTokens (cards : list RegisteredCard) : list string :=
  concat (map (fun c => [name c; dec (scanCount c)]) cards).

(** A user entry as the station parses it from the pair of [c]. *)
Definition parsedUser (c : RegisteredCard) : Station.UserData :=
  Station.mkUser (Station.copyName (name c)) (Station.atoi (dec (scanCount c))).

(** What the station shows of a user entry. *)
Definition userView (u : Station.UserData) : string * Z :=
  (cstr (Station.name u), Station.scanCount u).

(** A registry entry that the snapshot can carry to the station: the name
    is not empty, has no NUL and no comma and at most 16 characters, and
    the scan count is an [int]. *)
Definition sendable (c : RegisteredCard) : Prop :=
  name c <> "" /\ noNul (name c) /\ noComma (name c) /\
  (String.length (name c) <= 16)%nat /\ scanCount c < 2 ^ 15.

(** The cells of [e] from [a] on hold [bytes]. *)
Definition Holds (e : list Z) (a : Z) (bytes : list Z) : Prop :=
  forall j, (j < length bytes)%nat ->
    EEPROM_read e (a + Z.of_nat j) = bytes !!! j.

(** The station's counters are [int]s. *)
Definition StationInts (s : Station.State) : Prop :=
  - 2 ^ 15 <= Station.passengerCount s < 2 ^ 15 /\
  - 2 ^ 15 <= Station.emergencyCount s < 2 ^ 15 /\
  - 2 ^ 15 <= Station.overloadCount s < 2 ^ 15.

(** The carriage return that [println] sends before the newline. *)
Definition CR : string := String "013"%char "".

(** A text whose last character is a digit. *)
Definition EndsDigit (x : string) : Prop :=
  exists y c, x = y +:+ String c "" /\ Station.isDigit c = true.

(** The screen number is that of the main screen or of a stored user, and
    the stored users fit the array. *)
Definition ScreenOK (s : Station.State) : Prop :=
  0 <= Station.currentDisplayScreen s <= Station.numUsers s /\
  Station.numUsers s <= 5 /\
  length (Station.users s) = 5%nat.

(** * Reasoning about statements *)

(** ** Predicates kept by a statement *)

Section StableRules.

Variable P : State -> Prop.

Lemma stable_skip : Stable P skip.
Proof. intros s H. exact H. Qed.

Lemma stable_seq (c1 c2 : Cmd) :
  Stable P c1 -> Stable P c2 -> Stable P (c1 ;; c2).
Proof. intros H1 H2 s H. apply H2, H1, H. Qed.

Lemma stable_when (b : State -> bool) (c : Cmd) :
  Stable P c -> Stable P (when b c).
Proof. intros Hc s H. unfold when. destruct (b s); auto. Qed.

Lemma stable_ifelse (b : State -> bool) (c1 c2 : Cmd) :
  Stable P c1 -> Stable P c2 -> Stable P (ifelse b c1 c2).
Proof. intros H1 H2 s H. unfold ifelse. destruct (b s); auto. Qed.

Lemma stable_ifelse_false (b : bool) (c1 c2 : Cmd) :
  b = false -> Stable P c2 -> Stable P (ifelse (fun _ => b) c1 c2).
Proof. intros -> H2 s H. apply H2, H. Qed.

Lemma stable_assign {A : Type} (set : A -> Cmd) (e : State -> A) :
  (forall v, Stable P (set v)) -> Stable P (assign set e).
Proof. intros Hs s H. apply Hs, H. Qed.

Lemma stable_local {A : Type} (e : State -> A) (k : A -> Cmd) :
  (forall a, Stable P (k a)) -> Stable P (local e k).
Proof. intros Hk s H. apply Hk, H. Qed.

Lemma stable_for_loop (body : Z -> Cmd) :
  (forall j, Stable P (body j)) ->
  forall n i, Stable P (for_loop n i body).
Proof.
  intros Hb n. induction n as [|n IH]; intros i.
  - apply stable_skip.
  - apply stable_seq; [apply Hb | apply IH].
Qed.

End StableRules.

(** A statement that does not write what [P] reads keeps [P]: the goal and
    the hypothesis are then convertible. *)
Ltac stable_atom := let s := fresh "s" in let H := fresh "H" in
  intros s H; exact H.

Ltac head_of c :=
  lazymatch c with
  | ?f _ => head_of f
  | _ => c
  end.

Create HintDb stable discriminated.

(** Syntax-directed proof that a statement keeps a predicate: known facts
    first (hypotheses and the [stable] hints), then the structure of the
    statement, then the body of the function it calls. *)
Ltac stable_known := first [assumption | solve [auto with stable nocore]].

Ltac stable_step :=
  lazymatch goal with
  | |- Stable _ skip => apply stable_skip
  | |- Stable _ (seqCmd _ _) => apply stable_seq
  | |- Stable _ (when _ _) => apply stable_when
  | |- Stable _ (ifelse (fun _ => ?b) _ _) =>
      first [ apply stable_ifelse_false; [assumption|] | apply stable_ifelse ]
  | |- Stable _ (ifelse _ _ _) => apply stable_ifelse
  | |- Stable _ (assign _ _) => apply stable_assign; intro
  | |- Stable _ (local _ _) => apply stable_local; intro
  | |- Stable _ (for_loop _ _ _) => apply stable_for_loop; intro
  | |- Stable _ (if ?b then _ else _) => destruct b
  | |- Stable _ (match ?x with _ => _ end) => destruct x
  | |- Stable _ ?c =>
      first [ stable_atom
            | let h := head_of c in progress unfold h ]
  end.

Ltac stable := repeat first [stable_known | stable_step].

(** ** Branches *)

Lemma seq_apply (c1 c2 : Cmd) (s : State) : (c1 ;; c2) s = c2 (c1 s).
Proof. reflexivity. Qed.

Lemma local_apply {A : Type} (e : State -> A) (k : A -> Cmd) (s : State) :
  local e k s = k (e s) s.
Proof. reflexivity. Qed.

Lemma ifelse_cases (b : State -> bool) (c1 c2 : Cmd) (s : State)
    (Q : State -> Prop) :
  (b s = true -> Q (c1 s)) -> (b s = false -> Q (c2 s)) ->
  Q (ifelse b c1 c2 s).
Proof. intros H1 H2. unfold ifelse. destruct (b s); auto. Qed.

Lemma when_cases (b : State -> bool) (c : Cmd) (s : State)
    (Q : State -> Prop) :
  (b s = true -> Q (c s)) -> (b s = false -> Q s) -> Q (when b c s).
Proof. intros H1 H2. unfold when. destruct (b s); auto. Qed.

Lemma when_true (b : State -> bool) (c : Cmd) (s : State) :
  b s = true -> when b c s = c s.
Proof. intros H. unfold when. rewrite H. reflexivity. Qed.

Lemma when_false (b : State -> bool) (c : Cmd) (s : State) :
  b s = false -> when b c s = s.
Proof. intros H. unfold when. rewrite H. reflexivity. Qed.

(** ** Statements that only talk to the outside world *)

Lemma for_loop_emits (ev : Z -> list Event) (body : Z -> Cmd) :
  (forall j s, body j s = emits (ev j) s) ->
  forall n i s, exists evs, for_loop n i body s = emits evs s.
Proof.
  intros Hb n. induction n as [|n IH]; intros i s.
  - exists []. destruct s; reflexivity.
  - cbn [for_loop]. unfold seqCmd at 1. rewrite Hb.
    destruct (IH (i + 1) (emits (ev i) s)) as [evs ->].
    exists (evs ++ ev i). unfold emits; simpl.
    rewrite <- app_assoc. reflexivity.
Qed.

Lemma lcdPad_emits (buffer : string) (s : State) :
  exists evs, lcdPad buffer s = emits evs s.
Proof.
  unfold lcdPad. apply (for_loop_emits (fun _ => [LcdPrint " "])).
  reflexivity.
Qed.

(** ** The clock *)

Lemma wrap32_small (z : Z) : 0 <= z < 2 ^ 32 -> wrap32 z = z.
Proof. intros H. unfold wrap32. apply Z.mod_small. exact H. Qed.

(** The time elapsed since a stamp taken at clock value [t0], as the
    sketch computes it, is the true elapsed time while that is below
    2^32 ms. *)
Lemma since_stamp (s : State) (t0 : Z) :
  0 <= clock s - t0 < 2 ^ 32 ->
  since s (wrap32 t0) = clock s - t0.
Proof.
  intros H. unfold since, millis, wrap32.
  rewrite <- Zminus_mod. apply Z.mod_small. exact H.
Qed.

(** ** Well-formed registry *)

Lemma setCard_RegistryOK (i : Z) (c : RegisteredCard) :
  Stable RegistryOK (setCard i c).
Proof.
  intros s [Hlen Hn]. split; [|exact Hn].
  unfold setCard, assign. cbn. rewrite length_insert. exact Hlen.
Qed.

#[global] Hint Resolve setCard_RegistryOK : stable.

Lemma loop_RegistryOK (T : Z) (i : Input) : Stable RegistryOK (loop T i).
Proof. stable. Qed.

Lemma step_RegistryOK (T : Z) (i : Input) : Stable RegistryOK (step T i).
Proof. stable. Qed.

Lemma run_RegistryOK (T : Z) (ins : list Input) : Stable RegistryOK (run T ins).
Proof.
  induction ins as [|i rest IH]; cbn [run].
  - apply stable_skip.
  - apply stable_seq; [apply step_RegistryOK | exact IH].
Qed.

Lemma setCard_length (n : nat) (i : Z) (c : RegisteredCard) :
  Stable (fun s => length (registeredCards s) = n) (setCard i c).
Proof.
  intros s H. unfold setCard, assign. cbn. rewrite length_insert. exact H.
Qed.

#[global] Hint Resolve setCard_length : stable.

Lemma loadCardsFromEEPROM_count (s : State) :
  0 <= numLoadedCards (loadCardsFromEEPROM s) <= 5.
Proof.
  unfold loadCardsFromEEPROM. rewrite seq_apply.
  apply ifelse_cases; intros E.
  - rewrite seq_apply. simpl. lia.
  - apply orb_false_elim in E as [E1 E2].
    unfold MAX_REGISTERED_CARDS in E1.
    match goal with
    | |- _ <= numLoadedCards (?c ?s1) <= _ =>
        assert (H : Stable (fun s => 0 <= numLoadedCards s <= 5) c) by stable;
        apply H; lia
    end.
Qed.

Lemma boot_RegistryOK (e : list Z) (g : Z -> list Z) : RegistryOK (boot e g).
Proof.
  split.
  - assert (H : Stable (fun s => length (registeredCards s) = 5%nat) (setup g))
      by stable.
    apply H. reflexivity.
  - unfold boot, setup, seqCmd. apply loadCardsFromEEPROM_count.
Qed.

(** Every state that the controller can be in satisfies [RegistryOK]. *)
Lemma reachable_RegistryOK (T : Z) (e : list Z) (g : Z -> list Z)
    (ins : list Input) :
  RegistryOK (run T ins (boot e g)).
Proof. apply run_RegistryOK, boot_RegistryOK. Qed.


(** * The snapshot line *)

Lemma append_assoc (a b c : string) : (a +:+ b) +:+ c = a +:+ (b +:+ c).
Proof.
  induction a as [|x a IH]; [reflexivity|].
  change (String x ((a +:+ b) +:+ c) = String x (a +:+ (b +:+ c))).
  rewrite IH. reflexivity.
Qed.

Lemma append_empty_r (a : string) : a +:+ "" = a.
Proof.
  induction a as [|x a IH]; [reflexivity|].
  change (String x (a +:+ "") = String x a). rewrite IH. reflexivity.
Qed.

(** The loop of [sendAdminData] appends the pairs of the entries [i], ...,
    [i + n - 1]. *)
Lemma adminPairs_spec (cards : list RegisteredCard) (n : nat) :
  forall (i : nat) (buffer : string),
    (i + n <= length cards)%nat ->
    adminPairs cards n (Z.of_nat i) buffer =
    buffer +:+ joinStrings (map snapshotPair (take n (drop i cards))).
Proof.
  induction n as [|n IH]; intros i buffer Hlen.
  - simpl. rewrite append_empty_r. reflexivity.
  - cbn [adminPairs]. rewrite Nat2Z.id.
    replace (Z.of_nat i + 1) with (Z.of_nat (S i)) by lia.
    rewrite IH by lia.
    assert (Hi : cards !! i = Some (cards !!! i))
      by (apply list_lookup_lookup_total_lt; lia).
    rewrite (drop_S _ _ _ Hi). cbn [take map joinStrings foldr].
    rewrite append_assoc. reflexivity.
Qed.

Lemma adminBuffer_all_cards (s : State) :
  RegistryOK s -> adminBuffer s = allCardsLine s.
Proof.
  intros [Hlen Hn]. unfold adminBuffer, allCardsLine, loadedCards.
  rewrite (adminPairs_spec _ _ 0) by lia.
  rewrite drop_0. reflexivity.
Qed.

(** C1, as amended: whenever the controller transmits a snapshot, the
    line is [D:<occupancy>,<pressCount>,<overloadCount>] followed by one
    [,<name>,<scanCount>] pair for every loaded registry entry, in registry
    order, whether or not the card was scanned this session; it goes out
    once as a line of its own and once more behind the prefix
    "Sent to Admin: ". *)
Theorem C1_snapshot_lists_every_loaded_card
    (T : Z) (e : list Z) (g : Z -> list Z) (ins : list Input) :
  let s := run T ins (boot e g) in
  adminBuffer s = allCardsLine s /\
  trace (sendAdminData s) =
    SerialPrintln (allCardsLine s) :: SerialPrint "Sent to Admin: "
      :: SerialPrintln (allCardsLine s) :: trace s.
Proof.
  intros s.
  assert (H : adminBuffer s = allCardsLine s)
    by apply adminBuffer_all_cards, reachable_RegistryOK.
  split; [exact H|].
  unfold sendAdminData, local. rewrite H. reflexivity.
Qed.

(** C1 as stated fails: after a first boot no card has been scanned, yet
    the snapshot sent on a heartbeat lists all three factory cards with a
    scan count of 0, where the claim allows no pair at all. *)
Lemma C1_unused_cards_are_listed :
  usedCardsLine firstBoot = "D:0,0,0" /\
  adminBuffer firstBoot = "D:0,0,0,BUS DRIVER,0,HELPER,0,STATION MASTER,0" /\
  In (SerialPrintln "D:0,0,0,BUS DRIVER,0,HELPER,0,STATION MASTER,0")
     (trace (step TIMEOUT_MS (heartbeat 100) firstBoot)) /\
  ~ In (SerialPrintln (usedCardsLine firstBoot))
       (trace (step TIMEOUT_MS (heartbeat 100) firstBoot)).
Proof.
  split; [vm_compute; reflexivity|].
  split; [vm_compute; reflexivity|].
  split.
  - vm_compute. tauto.
  - vm_compute. intros H.
    repeat (destruct H as [H|H]; [discriminate H|]). exact H.
Qed.

(** * The passenger counter and the overload alarm *)

Lemma alarms_cons (e : Event) (tr : list Event) :
  alarms (e :: tr) = ((if isAlarm e then 1 else 0) + alarms tr)%nat.
Proof. reflexivity. Qed.

Lemma alarms_app (a b : list Event) : alarms (a ++ b) = (alarms a + alarms b)%nat.
Proof.
  induction a as [|e a IH]; [reflexivity|].
  cbn [app alarms]. rewrite IH. lia.
Qed.

Lemma emit_Counts (p n : Z) (k : nat) (e : Event) :
  isAlarm e = false -> Stable (Counts p n k) (emit e).
Proof.
  intros He s (H1 & H2 & H3 & H4). repeat split; try assumption.
  change (alarms (e :: trace s) = k). rewrite alarms_cons, He. exact H3.
Qed.

#[global] Hint Extern 1 (Stable (Counts _ _ _) (emit _)) =>
  apply emit_Counts; reflexivity : stable.

(** [updateLCD] is edge-triggered: it switches the alarm on and counts an
    overload when the occupancy is above 5 and the latch is not set, and
    at no other time; it leaves the latch in agreement with the occupancy. *)
Lemma updateLCD_edge (s : State) :
  let fire := (5 <? passengerCount s) && negb (isOverloaded s) in
  Counts (passengerCount s)
         (if fire then wrap16 (overloadCount s + 1) else overloadCount s)
         (if fire then S (alarms (trace s)) else alarms (trace s))
         (updateLCD s).
Proof.
  assert (Hpad : forall b p n k, Stable (Counts p n k) (lcdPad b))
    by (intros; stable).
  unfold updateLCD. rewrite seq_apply.
  set (s1 := lcd_setCursor 0 1 s).
  apply ifelse_cases; change (passengerCount s1) with (passengerCount s);
    intros E; rewrite E; cbn [andb].
  - rewrite seq_apply. destruct (isOverloaded s) eqn:L; cbn [negb].
    + rewrite when_false by (cbn; rewrite L; reflexivity).
      assert (H0 : Counts (passengerCount s) (overloadCount s)
                     (alarms (trace s)) s1)
        by (subst s1; repeat split; cbn; congruence).
      revert H0. generalize s1. fold (Stable (Counts (passengerCount s)
        (overloadCount s) (alarms (trace s)))
        (local (λ s0, dec (passengerCount s0) +:+ " (Overload)")
           (λ buffer, lcd_print buffer;; lcdPad buffer))).
      stable.
    + rewrite when_true by (cbn; rewrite L; reflexivity).
      match goal with |- Counts ?p ?n ?k (?c ?s2) =>
        assert (H0 : Counts p n k s2)
          by (subst s1; repeat split; cbn; rewrite ?E; reflexivity);
        revert H0; generalize s2; fold (Stable (Counts p n k) c) end.
      stable.
  - rewrite seq_apply. destruct (isOverloaded s) eqn:L.
    + rewrite when_true by (cbn; exact L).
      match goal with |- Counts ?p ?n ?k (?c ?s2) =>
        assert (H0 : Counts p n k s2)
          by (subst s1; repeat split; cbn; rewrite ?E; reflexivity);
        revert H0; generalize s2; fold (Stable (Counts p n k) c) end.
      stable.
    + rewrite when_false by (cbn; exact L).
      match goal with |- Counts ?p ?n ?k (?c ?s2) =>
        assert (H0 : Counts p n k s2)
          by (subst s1; repeat split; cbn; rewrite ?E, ?L; reflexivity);
        revert H0; generalize s2; fold (Stable (Counts p n k) c) end.
      stable.
Qed.

(** While the latch agrees with the occupancy, [updateLCD] changes none of
    the counts. *)
Lemma updateLCD_Counts (p n : Z) (k : nat) : Stable (Counts p n k) updateLCD.
Proof.
  intros s (H1 & H2 & H3 & H4). pose proof (updateLCD_edge s) as H.
  cbv zeta in H. rewrite H1, H2, H3, H4 in H.
  destruct (5 <? p); exact H.
Qed.

#[global] Hint Resolve updateLCD_Counts : stable.

(** Only the two counting statements touch the counts. *)
Lemma tick_Counts p n k i : Stable (Counts p n k) (tick i).
Proof. stable. Qed.

Lemma handleEmergencyButton_Counts p n k b :
  Stable (Counts p n k) (handleEmergencyButton b).
Proof. stable. Qed.

Lemma handleBluetooth_Counts p n k i : Stable (Counts p n k) (handleBluetooth i).
Proof. stable. Qed.

Lemma bluetoothTimeout_Counts p n k T i :
  Stable (Counts p n k) (bluetoothTimeout T i).
Proof. stable. Qed.

Lemma handleRFID_Counts p n k i : Stable (Counts p n k) (handleRFID i).
Proof. stable. Qed.

Lemma armEntry_Counts p n k i : Stable (Counts p n k) (armEntry i).
Proof. stable. Qed.

Lemma armExit_Counts p n k i : Stable (Counts p n k) (armExit i).
Proof. stable. Qed.

Lemma irTimeout_Counts p n k : Stable (Counts p n k) irTimeout.
Proof. stable. Qed.

Lemma buzzerTimeout_Counts p n k : Stable (Counts p n k) buzzerTimeout.
Proof. stable. Qed.

Lemma checkAndCloseServo_Counts p n k T i :
  Stable (Counts p n k) (checkAndCloseServo T i).
Proof. stable. Qed.

#[global] Hint Resolve tick_Counts handleEmergencyButton_Counts
  handleBluetooth_Counts bluetoothTimeout_Counts handleRFID_Counts
  armEntry_Counts armExit_Counts irTimeout_Counts buzzerTimeout_Counts
  checkAndCloseServo_Counts : stable.

Lemma counts_intro (s : State) :
  LatchOK s ->
  Counts (passengerCount s) (overloadCount s) (alarms (trace s)) s.
Proof. intros H. repeat split. exact H. Qed.

Lemma countEntry_Counts (p n : Z) (k : nat) (s : State) :
  Counts p n k s ->
  Counts (int16 (p + 1))
         (if crossesUp p (int16 (p + 1)) then wrap16 (n + 1) else n)
         (if crossesUp p (int16 (p + 1)) then S k else k)
         (countEntry s).
Proof.
  intros (H1 & H2 & H3 & H4). unfold countEntry. do 2 rewrite seq_apply.
  set (s1 := assign set_passengerCount _ s).
  pose proof (updateLCD_edge s1) as H. cbv zeta in H.
  change (passengerCount s1) with (int16 (passengerCount s + 1)) in H.
  change (isOverloaded s1) with (isOverloaded s) in H.
  change (overloadCount s1) with (overloadCount s) in H.
  change (trace s1) with (trace s) in H.
  rewrite H1, H2, H3, H4 in H.
  replace ((5 <? int16 (p + 1)) && negb (5 <? p))
    with (crossesUp p (int16 (p + 1))) in H
    by (unfold crossesUp; destruct (5 <? p) eqn:?, (p <=? 5) eqn:?;
        destruct (5 <? int16 (p + 1)) eqn:?; try reflexivity; lia).
  revert H. generalize (updateLCD s1).
  match goal with |- forall s2, Counts ?a ?b ?c s2 -> Counts _ _ _ (?f s2) =>
    fold (Stable (Counts a b c) f) end.
  stable.
Qed.

Lemma countExit_Counts (p n : Z) (k : nat) (s : State) :
  Counts p n k s ->
  Counts (if p >? 0 then p - 1 else p) n k (countExit s).
Proof.
  intros (H1 & H2 & H3 & H4). unfold countExit. do 2 rewrite seq_apply.
  set (s1 := decrementOccupancy s).
  assert (Hp : passengerCount s1 = if p >? 0 then p - 1 else p).
  { subst s1. unfold decrementOccupancy, when, assign. rewrite H1.
    destruct (p >? 0); [reflexivity | exact H1]. }
  assert (Hrest : isOverloaded s1 = isOverloaded s /\
                  overloadCount s1 = overloadCount s /\ trace s1 = trace s).
  { subst s1. unfold decrementOccupancy, when, assign.
    destruct (passengerCount s >? 0); repeat split. }
  destruct Hrest as (Ho & Hn & Ht).
  pose proof (updateLCD_edge s1) as H. cbv zeta in H.
  rewrite Hp, Ho, Hn, Ht, H2, H3, H4 in H.
  replace ((5 <? (if p >? 0 then p - 1 else p)) && negb (5 <? p)) with false in H
    by (destruct (p >? 0) eqn:?, (5 <? p) eqn:?;
        try destruct (5 <? p - 1) eqn:?; try reflexivity; lia).
  revert H. generalize (updateLCD s1).
  match goal with |- forall s2, Counts ?a ?b ?c s2 -> Counts _ _ _ (?f s2) =>
    fold (Stable (Counts a b c) f) end.
  stable.
Qed.

(** ** One pass *)

Lemma step_suspended (T : Z) (i : Input) (s : State) :
  suspended i s = true ->
  step T i s = handleEmergencyButton (button i) (tick i s).
Proof.
  intros H. unfold step, loop. rewrite !seq_apply.
  apply when_false. unfold suspended in H. rewrite H. reflexivity.
Qed.

Lemma step_normal (T : Z) (i : Input) (s : State) :
  suspended i s = false ->
  step T i s =
  checkAndCloseServo T i
    (buzzerTimeout (irTimeout (irExit i (irEntry i (atCounter T i s))))).
Proof.
  intros H. unfold step, loop. rewrite !seq_apply.
  rewrite when_true by (unfold suspended in H; rewrite H; reflexivity).
  reflexivity.
Qed.

Lemma irEntry_Counts (p n : Z) (k : nat) (i : Input) (s : State) :
  Counts p n k s ->
  let e := entryCompletes i (armEntry i s) in
  Counts (if e then int16 (p + 1) else p)
         (if e && crossesUp p (int16 (p + 1)) then wrap16 (n + 1) else n)
         (if e && crossesUp p (int16 (p + 1)) then S k else k)
         (irEntry i s).
Proof.
  intros H e. unfold irEntry. rewrite seq_apply.
  apply (armEntry_Counts _ _ _ i) in H.
  subst e. apply when_cases; intros E; rewrite E; cbn [andb].
  - apply countEntry_Counts, H.
  - exact H.
Qed.

Lemma irExit_Counts (p n : Z) (k : nat) (i : Input) (s : State) :
  Counts p n k s ->
  let x := exitCompletes i (armExit i s) in
  Counts (if x then (if p >? 0 then p - 1 else p) else p) n k (irExit i s).
Proof.
  intros H x. unfold irExit. rewrite seq_apply.
  apply (armExit_Counts _ _ _ i) in H.
  subst x. apply when_cases; intros E; rewrite E.
  - apply countExit_Counts, H.
  - exact H.
Qed.

Lemma atCounter_Counts (p n : Z) (k : nat) (T : Z) (i : Input) :
  Stable (Counts p n k) (atCounter T i).
Proof.
  intros s H. unfold atCounter, atReader.
  apply handleRFID_Counts, bluetoothTimeout_Counts, handleBluetooth_Counts,
    handleEmergencyButton_Counts, tick_Counts, H.
Qed.

(** The counts after one pass, from the counts before it. *)
Lemma step_Counts (T : Z) (i : Input) (p n : Z) (k : nat) (s : State) :
  Counts p n k s ->
  let p1 := if entered T i s then int16 (p + 1) else p in
  let up := entered T i s && crossesUp p (int16 (p + 1)) in
  Counts (if exited T i s then (if p1 >? 0 then p1 - 1 else p1) else p1)
         (if up then wrap16 (n + 1) else n)
         (if up then S k else k)
         (step T i s).
Proof.
  intros H p1 up. subst p1 up. unfold entered, exited.
  destruct (suspended i s) eqn:Hs; cbn [negb andb].
  - rewrite step_suspended by exact Hs.
    apply handleEmergencyButton_Counts, tick_Counts, H.
  - rewrite step_normal by exact Hs.
    apply checkAndCloseServo_Counts, buzzerTimeout_Counts, irTimeout_Counts.
    apply irExit_Counts.
    apply (irEntry_Counts p n k i), atCounter_Counts, H.
Qed.

Lemma int16_range (z : Z) : - 2 ^ 15 <= int16 z < 2 ^ 15.
Proof.
  unfold int16.
  pose proof (Z.mod_pos_bound (z + 2 ^ 15) (2 ^ 16) ltac:(lia)). lia.
Qed.

Lemma int16_small (z : Z) : - 2 ^ 15 <= z < 2 ^ 15 -> int16 z = z.
Proof.
  intros H. unfold int16. rewrite Z.mod_small by lia. lia.
Qed.

(** At 32767 the increment of an [int] gives -32768. *)
Lemma int16_succ (p : Z) :
  - 2 ^ 15 <= p < 2 ^ 15 ->
  int16 (p + 1) = if p =? 2 ^ 15 - 1 then - 2 ^ 15 else p + 1.
Proof.
  intros H. destruct (p =? 2 ^ 15 - 1) eqn:E.
  - apply Z.eqb_eq in E. subst p. reflexivity.
  - apply Z.eqb_neq in E. apply int16_small. lia.
Qed.

Lemma crossesUp_step (p : Z) :
  - 2 ^ 15 <= p < 2 ^ 15 -> crossesUp p (int16 (p + 1)) = (p =? 5).
Proof.
  intros H. rewrite int16_succ by exact H. unfold crossesUp.
  destruct (p =? 2 ^ 15 - 1) eqn:E0.
  - apply Z.eqb_eq in E0. subst p. reflexivity.
  - apply Z.eqb_neq in E0.
    destruct (p <=? 5) eqn:?, (5 <? p + 1) eqn:?, (p =? 5) eqn:?;
      try reflexivity; lia.
Qed.

Lemma step_CounterOK (T : Z) (i : Input) : Stable CounterOK (step T i).
Proof.
  intros s [H0 HL].
  pose proof (step_Counts T i _ _ _ s (counts_intro s HL)) as (Hp & _ & _ & Hl).
  cbv zeta in Hp, Hl. split.
  - rewrite Hp.
    pose proof (int16_range (passengerCount s + 1)) as Hr.
    destruct (entered T i s), (exited T i s);
      repeat match goal with |- context [?a >? 0] => destruct (a >? 0) eqn:? end;
      lia.
  - unfold LatchOK. rewrite Hl, Hp. reflexivity.
Qed.

Lemma run_CounterOK (T : Z) (ins : list Input) : Stable CounterOK (run T ins).
Proof.
  induction ins as [|i rest IH]; cbn [run].
  - apply stable_skip.
  - apply stable_seq; [apply step_CounterOK | exact IH].
Qed.

Lemma boot_Counts (e : list Z) (g : Z -> list Z) : Counts 0 0 0 (boot e g).
Proof.
  assert (H : Stable (Counts 0 0 0) (setup g)) by stable.
  apply H. repeat split.
Qed.

Lemma reachable_CounterOK (T : Z) (e : list Z) (g : Z -> list Z)
    (ins : list Input) :
  CounterOK (run T ins (boot e g)).
Proof.
  apply run_CounterOK. destruct (boot_Counts e g) as (Hp & _ & _ & Hl).
  split; [rewrite Hp; lia | unfold LatchOK; rewrite Hl, Hp; reflexivity].
Qed.

(** * Occupancy *)

(** Occupancy changes in [countEntry] and [countExit] only. *)
Lemma countEntry_occupancy (s : State) :
  passengerCount (countEntry s) = int16 (passengerCount s + 1).
Proof.
  unfold countEntry. rewrite seq_apply.
  match goal with |- passengerCount (?c ?s1) = ?v =>
    assert (H : Stable (fun s' => passengerCount s' = v) c) by stable;
    apply H; reflexivity end.
Qed.

Lemma countExit_occupancy (s : State) :
  passengerCount (countExit s) =
  if passengerCount s >? 0 then passengerCount s - 1 else passengerCount s.
Proof.
  unfold countExit. rewrite seq_apply.
  match goal with |- passengerCount (?c ?s1) = ?v =>
    assert (H : Stable (fun s' => passengerCount s' = v) c) by stable;
    apply H end.
  unfold decrementOccupancy, when, assign.
  destruct (passengerCount s >? 0); reflexivity.
Qed.

Lemma atCounter_occupancy (T : Z) (i : Input) (s : State) :
  passengerCount (atCounter T i s) = passengerCount s.
Proof.
  assert (H : Stable (fun s' => passengerCount s' = passengerCount s)
                (tick i ;; handleEmergencyButton (button i) ;; handleBluetooth i ;;
                 bluetoothTimeout T i ;; handleRFID i)) by stable.
  apply H. reflexivity.
Qed.

Lemma irEntry_occupancy (i : Input) (s : State) :
  passengerCount (irEntry i s) =
  if entryCompletes i (armEntry i s) then int16 (passengerCount s + 1)
  else passengerCount s.
Proof.
  assert (Ha : passengerCount (armEntry i s) = passengerCount s).
  { assert (H : Stable (fun s' => passengerCount s' = passengerCount s)
                  (armEntry i)) by stable.
    apply H. reflexivity. }
  unfold irEntry. rewrite seq_apply.
  apply when_cases; intros E; rewrite E; [|exact Ha].
  rewrite countEntry_occupancy, Ha. reflexivity.
Qed.

Lemma irExit_occupancy (i : Input) (s : State) :
  passengerCount (irExit i s) =
  if exitCompletes i (armExit i s)
  then (if passengerCount s >? 0 then passengerCount s - 1 else passengerCount s)
  else passengerCount s.
Proof.
  assert (Ha : passengerCount (armExit i s) = passengerCount s).
  { assert (H : Stable (fun s' => passengerCount s' = passengerCount s)
                  (armExit i)) by stable.
    apply H. reflexivity. }
  unfold irExit. rewrite seq_apply.
  apply when_cases; intros E; rewrite E; [|exact Ha].
  rewrite countExit_occupancy, Ha. reflexivity.
Qed.

(** The occupancy after a pass, from the occupancy after its entry
    sequence. *)
Lemma step_occupancy (T : Z) (i : Input) (s : State) :
  let o := occupancyAfterEntry T i s in
  passengerCount (step T i s) =
  if exited T i s then (if o >? 0 then o - 1 else o) else o.
Proof.
  unfold occupancyAfterEntry, exited.
  destruct (suspended i s) eqn:Hs; cbn [negb andb].
  - rewrite step_suspended by exact Hs.
    assert (H : Stable (fun s' => passengerCount s' = passengerCount s)
                  (tick i ;; handleEmergencyButton (button i))) by stable.
    apply H. reflexivity.
  - rewrite step_normal by exact Hs.
    rewrite <- irExit_occupancy.
    match goal with |- passengerCount (?a (?b (?c ?s1))) = ?v =>
      assert (H : Stable (fun s' => passengerCount s' = v) (c ;; b ;; a))
        by stable;
      apply H; reflexivity end.
Qed.

Lemma occupancyAfterEntry_cases (T : Z) (i : Input) (s : State) :
  occupancyAfterEntry T i s =
  if entered T i s then int16 (passengerCount s + 1) else passengerCount s.
Proof.
  unfold occupancyAfterEntry, entered.
  destruct (suspended i s); cbn [negb andb]; [reflexivity|].
  rewrite irEntry_occupancy, atCounter_occupancy. reflexivity.
Qed.

(** * Claims about the counter *)

Lemma run_app (T : Z) (a b : list Input) (s : State) :
  run T (a ++ b) s = run T b (run T a s).
Proof.
  revert s. induction a as [|i a IH]; intros s; [reflexivity|].
  cbn [app run]. rewrite !seq_apply. apply IH.
Qed.

(** A pass keeps a non-negative occupancy non-negative, unless it begins
    at 32767. *)
Lemma step_nonneg (T : Z) (i : Input) (s : State) :
  0 <= passengerCount s < 2 ^ 15 - 1 -> 0 <= passengerCount (step T i s).
Proof.
  intros H. rewrite step_occupancy, occupancyAfterEntry_cases.
  rewrite int16_small by lia.
  destruct (entered T i s), (exited T i s);
    repeat match goal with |- context [?a >? 0] => destruct (a >? 0) eqn:? end;
    lia.
Qed.

(** C5, as amended: when a pass counts an exit at occupancy [o >= 0], the
    occupancy becomes [max (o - 1) 0]; and the occupancy is non-negative in
    every state that the controller reaches from power-up through states
    with an occupancy below 32767.  (The counter is an [int]: the entry
    that is counted at 32767 makes it -32768.) *)
Theorem C5_exit_floors_occupancy_at_zero :
  (forall (T : Z) (i : Input) (s : State),
     let o := occupancyAfterEntry T i s in
     exited T i s = true -> 0 <= o ->
     passengerCount (step T i s) = Z.max (o - 1) 0) /\
  (forall (T : Z) (e : list Z) (g : Z -> list Z) (ins : list Input),
     (forall k, (k < length ins)%nat ->
        passengerCount (run T (take k ins) (boot e g)) < 2 ^ 15 - 1) ->
     0 <= passengerCount (run T ins (boot e g))).
Proof.
  split.
  - intros T i s o Hx Ho. rewrite step_occupancy. fold o. rewrite Hx.
    destruct (o >? 0) eqn:E; lia.
  - intros T e g ins. induction ins as [|i ins IH] using rev_ind; intros H.
    + destruct (boot_Counts e g) as (Hp & _).
      change (run T [] (boot e g)) with (boot e g). rewrite Hp. lia.
    + assert (H0 : 0 <= passengerCount (run T ins (boot e g))).
      { apply IH. intros k Hk.
        specialize (H k ltac:(rewrite length_app; cbn; lia)).
        rewrite take_app_le in H by lia. exact H. }
      specialize (H (length ins) ltac:(rewrite length_app; cbn; lia)).
      rewrite take_app_length in H.
      rewrite run_app. cbn [run]. rewrite seq_apply. unfold skip.
      apply step_nonneg. lia.
Qed.

(** C5 at work: with two passengers aboard, a passenger who passed sensor 2
    reaches sensor 1 and the occupancy drops to 1; with nobody aboard it
    stays 0; and the occupancy is not negative after two passengers walked
    in. *)
Lemma C5_exit_floors_occupancy_at_zero_witness :
  passengerCount
    (step TIMEOUT_MS (sensors 10 LOW HIGH)
       (run TIMEOUT_MS [sensors 10 HIGH LOW] (aboard 2))) = 1 /\
  passengerCount
    (step TIMEOUT_MS (sensors 10 LOW HIGH)
       (run TIMEOUT_MS [sensors 10 HIGH LOW] firstBoot)) = 0 /\
  0 <= passengerCount (aboard 2).
Proof.
  split; [|split].
  - apply (proj1 C5_exit_floors_occupancy_at_zero TIMEOUT_MS
             (sensors 10 LOW HIGH)
             (run TIMEOUT_MS [sensors 10 HIGH LOW] (aboard 2)));
      vm_compute; [reflexivity | discriminate].
  - apply (proj1 C5_exit_floors_occupancy_at_zero TIMEOUT_MS
             (sensors 10 LOW HIGH)
             (run TIMEOUT_MS [sensors 10 HIGH LOW] firstBoot));
      vm_compute; [reflexivity | discriminate].
  - apply (proj2 C5_exit_floors_occupancy_at_zero TIMEOUT_MS erasedEEPROM
             (fun _ => []) (entries 2)).
    intros k Hk.
    do 6 (destruct k as [|k]; [vm_compute; reflexivity|]).
    vm_compute in Hk. lia.
Defined.

(** C5 as stated fails: the occupancy is an [int], and the entry counted
    at 32767 makes it negative.  After a first boot and 32768 passengers
    walking in the occupancy is -32768. *)
Lemma C5_occupancy_wraps_to_negative :
  passengerCount
    (run TIMEOUT_MS (entries (Z.to_nat (2 ^ 15)))
       (boot erasedEEPROM (fun _ => []))) = - 2 ^ 15 /\
  ~ (forall (T : Z) (e : list Z) (g : Z -> list Z) (ins : list Input),
       0 <= passengerCount (run T ins (boot e g))).
Proof.
  assert (H : passengerCount
                (run TIMEOUT_MS (entries (Z.to_nat (2 ^ 15)))
                   (boot erasedEEPROM (fun _ => []))) = - 2 ^ 15)
    by (vm_compute; reflexivity).
  split; [exact H|]. intros A.
  specialize (A TIMEOUT_MS erasedEEPROM (fun _ => [])
                (entries (Z.to_nat (2 ^ 15)))).
  rewrite H in A. lia.
Qed.

(** C6: in every state that the controller reaches, a pass switches the
    overload alarm on and increments [overloadCount] exactly when the
    occupancy rises from at most 5 to more than 5 in that pass, and then
    once; the occupancy changes in the entry sequence of a pass only by the
    increment of an [int] (one up, or from 32767 to -32768);
    afterwards the latch is set exactly while the occupancy is above 5.  In
    particular six passengers walking in after a first boot fire the alarm
    at the sixth entry and not before, and three more do not fire it
    again. *)
Theorem C6_overload_alarm_once_per_upward_crossing :
  (forall (T : Z) (e : list Z) (g : Z -> list Z) (ins : list Input)
          (i : Input),
     let s := run T ins (boot e g) in
     let s' := step T i s in
     let o := passengerCount s in
     let o1 := occupancyAfterEntry T i s in
     (o1 = o \/ o1 = int16 (o + 1)) /\
     passengerCount s' <= o1 /\
     overloadCount s' =
       (if crossesUp o o1 then wrap16 (overloadCount s + 1)
        else overloadCount s) /\
     alarms (trace s') =
       (if crossesUp o o1 then S (alarms (trace s)) else alarms (trace s)) /\
     isOverloaded s' = (5 <? passengerCount s')) /\
  (passengerCount (aboard 5) = 5 /\ overloadCount (aboard 5) = 0 /\
   alarms (trace (aboard 5)) = 0%nat) /\
  (passengerCount (aboard 6) = 6 /\ overloadCount (aboard 6) = 1 /\
   alarms (trace (aboard 6)) = 1%nat) /\
  (passengerCount (aboard 9) = 9 /\ overloadCount (aboard 9) = 1 /\
   alarms (trace (aboard 9)) = 1%nat).
Proof.
  split; [|vm_compute; repeat split].
  intros T e g ins i s s' o o1.
  destruct (reachable_CounterOK T e g ins) as [H0 HL]. fold s in H0, HL.
  pose proof (step_Counts T i _ _ _ s (counts_intro s HL))
    as (Hp & Hn & Hk & Hl).
  cbv zeta in Hp, Hn, Hk, Hl. fold s' o in Hp, Hn, Hk, Hl.
  assert (Ho1 : o1 = if entered T i s then int16 (o + 1) else o)
    by apply occupancyAfterEntry_cases.
  assert (Hup : crossesUp o o1
                = entered T i s && crossesUp o (int16 (o + 1))).
  { rewrite Ho1. destruct (entered T i s); cbn [andb]; [reflexivity|].
    unfold crossesUp. destruct (o <=? 5) eqn:?, (5 <? o) eqn:?;
      try reflexivity; lia. }
  rewrite Hup, Hn, Hk.
  split; [rewrite Ho1; destruct (entered T i s); auto|].
  split.
  { subst s'. rewrite step_occupancy. fold o1.
    destruct (exited T i s); [destruct (o1 >? 0) eqn:?|]; lia. }
  repeat split. rewrite Hl, Hp. reflexivity.
Qed.

(** * Both sensors at once *)

Lemma wrap32_diag (x : Z) : wrap32 (x - x) = 0.
Proof. rewrite Z.sub_diag. reflexivity. Qed.

Lemma atCounter_sequence (T : Z) (i : Input) (s : State) :
  ir1Triggered (atCounter T i s) = ir1Triggered s /\
  ir2Triggered (atCounter T i s) = ir2Triggered s /\
  lastTriggerTime (atCounter T i s) = lastTriggerTime s.
Proof.
  assert (H : Stable (fun s' => ir1Triggered s' = ir1Triggered s /\
                                ir2Triggered s' = ir2Triggered s /\
                                lastTriggerTime s' = lastTriggerTime s)
                (tick i ;; handleEmergencyButton (button i) ;; handleBluetooth i ;;
                 bluetoothTimeout T i ;; handleRFID i)) by stable.
  apply H. repeat split.
Qed.

Lemma countEntry_idle (s : State) : Idle (countEntry s).
Proof. split; reflexivity. Qed.

Lemma countExit_idle (s : State) : Idle (countExit s).
Proof. split; reflexivity. Qed.

(** From the idle state, sensor 1 arms the entry sequence, and the
    sequence completes at once when sensor 2 reads fired as well. *)
Lemma idle_entry (i : Input) (s : State) :
  Idle s -> reading1 i = LOW -> reading2 i = LOW ->
  entryCompletes i (armEntry i s) = true /\ Idle (irEntry i s).
Proof.
  intros [H1 H2] R1 R2.
  assert (Ha : armEntry i s =
               assign set_lastTriggerTime millis (set_ir1Triggered true s)).
  { unfold armEntry. rewrite when_true; [reflexivity|].
    rewrite R1, H1, H2. reflexivity. }
  assert (He : entryCompletes i (armEntry i s) = true).
  { rewrite Ha. unfold entryCompletes, assign. cbn [ir1Triggered set_lastTriggerTime
      set_ir1Triggered lastTriggerTime]. rewrite R2. cbn [isLow andb].
    unfold since. change (millis (set_lastTriggerTime _ _)) with (millis s).
    change (millis (set_ir1Triggered true s)) with (millis s).
    rewrite wrap32_diag. reflexivity. }
  split; [exact He|].
  unfold irEntry. rewrite seq_apply, when_true by exact He.
  apply countEntry_idle.
Qed.

(** Likewise for sensor 2 and the exit sequence. *)
Lemma idle_exit (i : Input) (s : State) :
  Idle s -> reading1 i = LOW -> reading2 i = LOW ->
  exitCompletes i (armExit i s) = true /\ Idle (irExit i s).
Proof.
  intros [H1 H2] R1 R2.
  assert (Ha : armExit i s =
               assign set_lastTriggerTime millis (set_ir2Triggered true s)).
  { unfold armExit. rewrite when_true; [reflexivity|].
    rewrite R2, H1, H2. reflexivity. }
  assert (He : exitCompletes i (armExit i s) = true).
  { rewrite Ha. unfold exitCompletes, assign. cbn [ir2Triggered set_lastTriggerTime
      set_ir2Triggered lastTriggerTime]. rewrite R1. cbn [isLow andb].
    unfold since. change (millis (set_lastTriggerTime _ _)) with (millis s).
    change (millis (set_ir2Triggered true s)) with (millis s).
    rewrite wrap32_diag. reflexivity. }
  split; [exact He|].
  unfold irExit. rewrite seq_apply, when_true by exact He.
  apply countExit_idle.
Qed.

Lemma after_counter_idle (T : Z) (i : Input) (s : State) :
  Idle s -> Idle (checkAndCloseServo T i (buzzerTimeout (irTimeout s))).
Proof.
  intros H.
  assert (HS : Stable Idle (irTimeout ;; buzzerTimeout ;; checkAndCloseServo T i)).
  { apply stable_seq; [|stable].
    intros s0 [H1 H2]. unfold irTimeout.
    rewrite when_false; [split; assumption|].
    rewrite H1, H2. reflexivity. }
  apply HS, H.
Qed.


(** * The gate *)

Lemma emit_GateHeld (h o : bool) (k : nat) (e : Event) :
  isClose e = false -> Stable (GateHeld h o k) (emit e).
Proof.
  intros He s (H1 & H2 & H3 & H4). repeat split; try assumption.
  change (closes (e :: trace s) = k). cbn [closes]. rewrite He. exact H2.
Qed.

Lemma open_GateHeld (h o : bool) (k : nat) :
  Stable (GateHeld h o k) (set_servoAngle 120).
Proof. intros s (H1 & H2 & H3 & H4). repeat split; assumption. Qed.

Lemma hasRotated_GateHeld (h o : bool) (k : nat) :
  Stable (GateHeld h o k) (set_hasRotated true).
Proof. intros s (H1 & H2 & H3 & H4). repeat split; assumption. Qed.

Lemma servoOpen_GateHeld (h o : bool) (k : nat) :
  Stable (GateHeld h o k) (set_servoOpen true).
Proof. intros s (H1 & H2 & H3 & H4). repeat split; assumption. Qed.

#[global] Hint Extern 1 (Stable (GateHeld _ _ _) (emit _)) =>
  apply emit_GateHeld; reflexivity : stable.
#[global] Hint Resolve open_GateHeld hasRotated_GateHeld servoOpen_GateHeld
  : stable.

(** While a sensor reads non-clear at both places where closing is
    decided, a pass does not close the gate, for any value of the open-hold
    timeout: the servo stays at the open position, no close command is
    sent, and neither open flag is cleared. *)
Lemma blocked_gate_stays_open (T : Z) (i : Input) (h o : bool) (k : nat) :
  isHigh (ir1_link i) && isHigh (ir2_link i) = false ->
  isHigh (ir1_close i) && isHigh (ir2_close i) = false ->
  Stable (GateHeld h o k) (step T i).
Proof. intros Hl Hc. stable. Qed.

(** While the emergency is in force or the remote-open flag is set when
    the reader's turn comes, a pass leaves the registry and the record of
    the last scan as they are. *)
Lemma token_ignored (T : Z) (i : Input) (s : State) :
  suspended i s = true \/ hasRotated (atReader T i s) = true ->
  Scans (registeredCards s) (lastScannedName s) (lastScannedCount s)
    (step T i s).
Proof.
  set (P := Scans (registeredCards s) (lastScannedName s) (lastScannedCount s)).
  assert (H0 : P s) by (repeat split).
  assert (Hr : P (atReader T i s)).
  { assert (H : Stable P (tick i ;; handleEmergencyButton (button i) ;;
                          handleBluetooth i ;; bluetoothTimeout T i))
      by (subst P; stable).
    apply H, H0. }
  destruct (suspended i s) eqn:Hs.
  - intros _. rewrite step_suspended by exact Hs.
    assert (H : Stable P (tick i ;; handleEmergencyButton (button i)))
      by (subst P; stable).
    apply H, H0.
  - intros [Hx|Hh]; [discriminate Hx|].
    rewrite step_normal by exact Hs. unfold atCounter.
    assert (Hskip : handleRFID i (atReader T i s) = atReader T i s)
      by (unfold handleRFID; apply when_false; rewrite Hh; reflexivity).
    rewrite Hskip.
    assert (H : Stable P (irEntry i ;; irExit i ;; irTimeout ;; buzzerTimeout ;;
                          checkAndCloseServo T i))
      by (subst P; stable).
    apply H, Hr.
Qed.

(** C3, the failing input: after a first boot the driver's card opens the
    gate; 100 ms later the gate is open (servo at 120, [servoOpen] set), no
    emergency is in force, and the same card is presented again.  The
    sketch evaluates it: the card is looked up and granted, its scan count
    goes from 1 to 2, and [activateServo] runs again and re-arms the close
    timeout. *)
Theorem C3_card_evaluated_while_gate_open_by_card :
  let s1 := step TIMEOUT_MS (scan 100 driverCard) firstBoot in
  let s2 := step TIMEOUT_MS (scan 100 driverCard) s1 in
  (servoAngle s1 = 120 /\ servoOpen s1 = true /\ hasRotated s1 = false /\
   emergencyMode s1 = false /\ suspended (scan 100 driverCard) s1 = false) /\
  map scanCount (registeredCards s1) = [1; 0; 0; 0; 0] /\
  map scanCount (registeredCards s2) = [2; 0; 0; 0; 0] /\
  serialLines (passEvents s1 s2) =
    [ "Scanned Card UID: F3 97 17 2D"; "Access Granted! Welcome, BUS DRIVER";
      "Activating servo..." ] /\
  lastMessageTime s1 = 100 /\ lastMessageTime s2 = 200.
Proof. vm_compute. repeat split; reflexivity. Qed.

(** C4, the failing input: the gate was opened by the station's heartbeat
    and the open-hold timeout has run out while sensor 1 reads non-clear.
    The link timeout keeps the gate open and reports the obstruction on the
    display, but it does not re-arm the timeout: [lastMessageTime] stays as
    it was, and the gate closes in the first pass with clear sensors, 10 ms
    later.  For a gate opened by a card, [checkAndCloseServo] does re-arm
    it in the same situation, and the gate stays open. *)
Theorem C4_link_timeout_not_rearmed_while_blocked :
  let opened := step TIMEOUT_MS (heartbeat 100) firstBoot in
  let blocked := step TIMEOUT_MS (sensors 6000 LOW HIGH) opened in
  let cleared := step TIMEOUT_MS (quiet 10) blocked in
  let opened' := step TIMEOUT_MS (scan 100 driverCard) firstBoot in
  let blocked' := step TIMEOUT_MS (sensors 12000 LOW HIGH) opened' in
  let cleared' := step TIMEOUT_MS (quiet 10) blocked' in
  (hasRotated opened = true /\ servoAngle opened = 120 /\
   lastMessageTime opened = 100 /\ clock blocked = 12100) /\
  (hasRotated blocked = true /\ servoAngle blocked = 120 /\
   passEvents opened blocked =
     [ LcdClear; LcdSetCursor 0 0; LcdPrint "Gate blocked!";
       LcdSetCursor 0 1; LcdPrint "Please move away" ]) /\
  lastMessageTime blocked = 100 /\
  (hasRotated cleared = false /\ servoAngle cleared = 60) /\
  (servoOpen opened' = true /\ lastMessageTime opened' = 100 /\
   clock blocked' = 12100) /\
  (servoOpen blocked' = true /\ servoAngle blocked' = 120 /\
   lastMessageTime blocked' = 12100) /\
  (servoOpen cleared' = true /\ servoAngle cleared' = 120).
Proof. vm_compute. repeat split; reflexivity. Qed.

(** * The emergency window *)

Lemma raiseEmergency_not_expired (s : State) :
  emergencyExpired (raiseEmergency s) = false.
Proof.
  unfold emergencyExpired.
  change (emergencyMode (raiseEmergency s)) with true.
  change (since (raiseEmergency s) (lastEmergencyTime (raiseEmergency s)))
    with (wrap32 (millis s - millis s)).
  rewrite wrap32_diag. reflexivity.
Qed.

(** The button is pressed: the emergency begins. *)
Lemma handler_press (b : Level) (s : State) :
  pressed b s = true ->
  handleEmergencyButton b s = set_lastButtonState b (raiseEmergency s).
Proof.
  intros H. unfold handleEmergencyButton. rewrite !seq_apply.
  rewrite (when_true _ _ s) by exact H.
  rewrite when_false by apply raiseEmergency_not_expired.
  reflexivity.
Qed.

(** No press, and the emergency is not in force or has not expired. *)
Lemma handler_hold (b : Level) (s : State) :
  pressed b s = false -> emergencyExpired s = false ->
  handleEmergencyButton b s = set_lastButtonState b s.
Proof.
  intros H1 H2. unfold handleEmergencyButton. rewrite !seq_apply.
  rewrite (when_false _ _ s) by exact H1.
  rewrite when_false by exact H2. reflexivity.
Qed.

(** No press, and the emergency has expired: it ends. *)
Lemma handler_release (b : Level) (s : State) :
  pressed b s = false -> emergencyExpired s = true ->
  handleEmergencyButton b s = set_lastButtonState b (clearEmergency s).
Proof.
  intros H1 H2. unfold handleEmergencyButton. rewrite !seq_apply.
  rewrite (when_false _ _ s) by exact H1.
  rewrite when_true by exact H2. reflexivity.
Qed.

Lemma mode_after_sample (b : Level) (s : State) :
  emergencyMode (set_lastButtonState b s) = emergencyMode s.
Proof. reflexivity. Qed.

Lemma clearEmergency_mode (s : State) : emergencyMode (clearEmergency s) = false.
Proof.
  unfold clearEmergency. rewrite seq_apply.
  match goal with |- emergencyMode (?c ?s1) = _ =>
    assert (H : Stable (fun s' => emergencyMode s' = false) c) by stable;
    apply H; reflexivity end.
Qed.

(** A pass that is not suspended did not see a press. *)
Lemma not_suspended_no_press (i : Input) (s : State) :
  suspended i s = false -> pressed (button i) (tick i s) = false.
Proof.
  intros H. destruct (pressed (button i) (tick i s)) eqn:E; [|reflexivity].
  unfold suspended in H. rewrite handler_press in H by exact E.
  discriminate H.
Qed.

Lemma normalPass_mode (T : Z) (i : Input) (m : bool) :
  Stable (fun s => emergencyMode s = m) (normalPass T i).
Proof. stable. Qed.

Lemma expired_iff (s : State) (t0 : Z) :
  emergencyMode s = true -> lastEmergencyTime s = wrap32 t0 ->
  0 <= clock s - t0 < 2 ^ 32 ->
  emergencyExpired s = (clock s - t0 >? EMERGENCY_TIMEOUT_MS).
Proof.
  intros Hm Ht Hr. unfold emergencyExpired.
  rewrite Hm, Ht, since_stamp by exact Hr. reflexivity.
Qed.

(** While the emergency is in force, passes without a new press that
    start within 5000 ms of the activation change nothing but the clock
    and the button sample. *)
Lemma suspended_run (T : Z) (t0 : Z) (ins : list Input) :
  forall s,
    emergencyMode s = true -> lastEmergencyTime s = wrap32 t0 ->
    t0 <= clock s ->
    Forall (fun i => 0 <= elapsed i) ins ->
    noPress (lastButtonState s) ins ->
    clock s + duration ins - t0 <= EMERGENCY_TIMEOUT_MS ->
    run T ins s =
    set_lastButtonState (lastButton (lastButtonState s) ins)
      (set_clock (clock s + duration ins) s).
Proof.
  induction ins as [|i rest IH]; intros s Hm Ht H0 Hpos Hnp Hd.
  - cbn [run duration lastButton skip]. rewrite Z.add_0_r.
    destruct s; reflexivity.
  - cbn [run duration lastButton noPress] in *.
    apply Forall_cons in Hpos as [Hi Hpos]. destruct Hnp as [Hp Hnp].
    assert (Hrest : 0 <= duration rest).
    { clear -Hpos. induction Hpos; cbn [duration]; lia. }
    unfold EMERGENCY_TIMEOUT_MS in *.
    assert (Hstep : step T i s = set_lastButtonState (button i) (tick i s)).
    { unfold step, loop. rewrite !seq_apply.
      assert (Hx : emergencyExpired (tick i s) = false).
      { rewrite (expired_iff _ t0) by (cbn; first [assumption | lia]).
        cbn. unfold EMERGENCY_TIMEOUT_MS. lia. }
      rewrite handler_hold by assumption.
      apply when_false. cbn. rewrite Hm. reflexivity. }
    rewrite seq_apply, Hstep.
    rewrite IH; try assumption; cbn; try lia.
    rewrite Z.add_assoc. reflexivity.
Qed.

Lemma passEvents_app (s s' : State) (new : list Event) :
  trace s' = new ++ trace s -> passEvents s s' = rev new.
Proof.
  intros H. unfold passEvents. rewrite H, length_app.
  replace (length new + length (trace s) - length (trace s))%nat
    with (length new) by lia.
  rewrite take_app_length. reflexivity.
Qed.

Lemma passEvents_rev (s s' : State) (evs : list Event) :
  trace s' = rev evs ++ trace s -> passEvents s s' = evs.
Proof. intros H. rewrite (passEvents_app _ _ _ H). apply rev_involutive. Qed.

(** C7, as amended.  A press of the panic button (released before, pressed
    now) sets the emergency, stamps it with the current time, increments
    [pressCount], sounds the confirmation tone, and nothing else is
    evaluated in that pass.  While the emergency is in force, passes that
    start at most 5000 ms after the stamp and see no new press change
    nothing but the clock and the button sample: gate, access, link and
    counting are suspended.  The first pass that starts more than 5000 ms
    after the stamp and sees no new press clears the emergency and runs
    the normal evaluation at once.  A new press during the window is a
    press like any other: it stamps the emergency again, so the 5000 ms
    count from the most recent press. *)
Theorem C7_emergency_suspends_for_5000ms_after_latest_press (T : Z) :
  (forall (i : Input) (s : State),
     pressed (button i) (tick i s) = true ->
     step T i s = set_lastButtonState (button i) (raiseEmergency (tick i s)) /\
     emergencyMode (step T i s) = true /\
     emergencyPressCount (step T i s) = wrap16 (emergencyPressCount s + 1) /\
     lastEmergencyTime (step T i s) = wrap32 (clock s + elapsed i) /\
     passEvents s (step T i s) =
       [ Tone 1000 200;
         SerialPrintln "Emergency button pressed! Buzzer and LCD activated.";
         LcdClear; LcdSetCursor 0 0; LcdPrint "EMERGENCY!!!";
         LcdSetCursor 0 1; LcdPrint "Alert! Button!" ]) /\
  (forall (t0 : Z) (ins : list Input) (s : State),
     emergencyMode s = true -> lastEmergencyTime s = wrap32 t0 ->
     t0 <= clock s ->
     Forall (fun i => 0 <= elapsed i) ins ->
     noPress (lastButtonState s) ins ->
     clock s + duration ins - t0 <= EMERGENCY_TIMEOUT_MS ->
     run T ins s =
     set_lastButtonState (lastButton (lastButtonState s) ins)
       (set_clock (clock s + duration ins) s)) /\
  (forall (t0 : Z) (i : Input) (s : State),
     emergencyMode s = true -> lastEmergencyTime s = wrap32 t0 ->
     pressed (button i) (tick i s) = false ->
     EMERGENCY_TIMEOUT_MS < clock s + elapsed i - t0 < 2 ^ 32 ->
     suspended i s = false /\
     emergencyMode (step T i s) = false /\
     step T i s =
     normalPass T i
       (set_lastButtonState (button i) (clearEmergency (tick i s)))).
Proof.
  split; [|split].
  - intros i s Hp.
    assert (Hs : step T i s =
                 set_lastButtonState (button i) (raiseEmergency (tick i s))).
    { unfold step, loop. rewrite !seq_apply, handler_press by exact Hp.
      apply when_false. reflexivity. }
    rewrite Hs. do 4 (split; [reflexivity|]). apply passEvents_rev. reflexivity.
  - intros t0 ins s. apply suspended_run.
  - intros t0 i s Hm Ht Hp Hr. unfold EMERGENCY_TIMEOUT_MS in Hr.
    assert (Hx : emergencyExpired (tick i s) = true).
    { rewrite (expired_iff _ t0) by (cbn; first [assumption | lia]).
      cbn. unfold EMERGENCY_TIMEOUT_MS. lia. }
    assert (Hh : handleEmergencyButton (button i) (tick i s) =
                 set_lastButtonState (button i) (clearEmergency (tick i s)))
      by (apply handler_release; assumption).
    assert (Hmode : emergencyMode
              (set_lastButtonState (button i) (clearEmergency (tick i s)))
            = false)
      by (rewrite mode_after_sample; apply clearEmergency_mode).
    assert (Hs : step T i s =
                 normalPass T i
                   (set_lastButtonState (button i) (clearEmergency (tick i s)))).
    { unfold step, loop. rewrite !seq_apply, Hh.
      apply when_true. rewrite Hmode. reflexivity. }
    split; [unfold suspended; rewrite Hh; exact Hmode|].
    split; [|exact Hs].
    rewrite Hs. apply normalPass_mode, Hmode.
Qed.

(** C7 at work: a press 100 ms after a first boot; 5000 ms later the
    controller is as it was but for the clock and the button sample; one
    millisecond later the emergency is over. *)
Lemma C7_emergency_suspends_for_5000ms_after_latest_press_witness :
  emergencyMode panicked = true /\
  run TIMEOUT_MS [buttonAt 2000 HIGH; buttonAt 3000 HIGH] panicked =
    set_lastButtonState
      (lastButton (lastButtonState panicked)
         [buttonAt 2000 HIGH; buttonAt 3000 HIGH])
      (set_clock
         (clock panicked + duration [buttonAt 2000 HIGH; buttonAt 3000 HIGH])
         panicked) /\
  emergencyMode
    (step TIMEOUT_MS (buttonAt 1 HIGH)
       (run TIMEOUT_MS [buttonAt 2000 HIGH; buttonAt 3000 HIGH] panicked))
    = false.
Proof.
  destruct (C7_emergency_suspends_for_5000ms_after_latest_press TIMEOUT_MS)
    as (Hpress & Hrun & Hrelease).
  split; [|split].
  - destruct (Hpress (buttonAt 100 LOW) firstBoot) as (_ & Hm & _);
      [reflexivity | exact Hm].
  - apply (Hrun 100).
    + vm_compute; reflexivity.
    + vm_compute; reflexivity.
    + vm_compute; discriminate.
    + repeat constructor; vm_compute; discriminate.
    + vm_compute. repeat split.
    + vm_compute; discriminate.
  - destruct (Hrelease 100 (buttonAt 1 HIGH)
                (run TIMEOUT_MS [buttonAt 2000 HIGH; buttonAt 3000 HIGH]
                   panicked)) as (_ & Hm & _); [..| exact Hm].
    + vm_compute; reflexivity.
    + vm_compute; reflexivity.
    + vm_compute; reflexivity.
    + vm_compute. split; reflexivity.
Defined.

(** C7 as stated fails: the button is pressed 100 ms after a first boot,
    released, and pressed again 4000 ms after the first press.  5100 ms
    after the press that set the emergency, the emergency is still in
    force and the pass is suspended; it ends only after 5000 ms have
    passed since the second press. *)
Lemma C7_second_press_restarts_window :
  let s1 := step TIMEOUT_MS (buttonAt 100 LOW) firstBoot in
  let s2 := step TIMEOUT_MS (buttonAt 1000 HIGH) s1 in
  let s3 := step TIMEOUT_MS (buttonAt 3000 LOW) s2 in
  let s4 := step TIMEOUT_MS (buttonAt 1100 HIGH) s3 in
  let s5 := step TIMEOUT_MS (buttonAt 4000 HIGH) s4 in
  emergencyMode firstBoot = false /\
  (emergencyMode s1 = true /\ lastEmergencyTime s1 = 100 /\
   emergencyPressCount s1 = 1) /\
  (clock s3 = 4100 /\ lastEmergencyTime s3 = 4100 /\
   emergencyPressCount s3 = 2) /\
  (clock s3 + 1100 - lastEmergencyTime s1 = 5100 /\
   suspended (buttonAt 1100 HIGH) s3 = true /\ emergencyMode s4 = true) /\
  (clock s5 = 9200 /\ emergencyMode s5 = false).
Proof. vm_compute. repeat split; reflexivity. Qed.

(** * The serial line *)

(** ** Triples *)

Section HoareRules.

Variables P Q R : State -> Prop.

Lemma hoare_skip : Hoare P skip P.
Proof. intros s H. exact H. Qed.

Lemma hoare_seq (c1 c2 : Cmd) :
  Hoare P c1 R -> Hoare R c2 Q -> Hoare P (c1 ;; c2) Q.
Proof. intros H1 H2 s H. apply H2, H1, H. Qed.

Lemma hoare_when (b : State -> bool) (c : Cmd) :
  Hoare P c P -> Hoare P (when b c) P.
Proof. intros Hc s H. unfold when. destruct (b s); auto. Qed.

Lemma hoare_ifelse (b : State -> bool) (c1 c2 : Cmd) :
  Hoare P c1 Q -> Hoare P c2 Q -> Hoare P (ifelse b c1 c2) Q.
Proof. intros H1 H2 s H. unfold ifelse. destruct (b s); auto. Qed.

Lemma hoare_assign {A : Type} (set : A -> Cmd) (e : State -> A) :
  (forall v, Hoare P (set v) Q) -> Hoare P (assign set e) Q.
Proof. intros Hs s H. apply Hs, H. Qed.

Lemma hoare_local {A : Type} (e : State -> A) (k : A -> Cmd) :
  (forall a, Hoare P (k a) Q) -> Hoare P (local e k) Q.
Proof. intros Hk s H. apply Hk, H. Qed.

Lemma hoare_for_loop (body : Z -> Cmd) :
  (forall j, Hoare P (body j) P) ->
  forall n i, Hoare P (for_loop n i body) P.
Proof.
  intros Hb n. induction n as [|n IH]; intros i s H.
  - exact H.
  - cbn [for_loop]. rewrite seq_apply. apply IH, Hb, H.
Qed.

End HoareRules.

(** ** What each kind of event does to the line *)

Lemma notD_append (p x : string) : notD p = true -> notD (p +:+ x) = true.
Proof. destruct p as [|c p]; [discriminate|]. intros H. exact H. Qed.

Lemma notD_not_snapshot (p x : string) :
  notD p = true -> startsWithD (p +:+ x) = false.
Proof.
  destruct p as [|c p]; [discriminate|]. cbn [notD]. intros H.
  change (String c p +:+ x) with (String c (p +:+ x)).
  unfold startsWithD. destruct (p +:+ x); [reflexivity|].
  destruct (Ascii.eqb c "D"); [discriminate H | reflexivity].
Qed.

Lemma print_start (k : nat) (x : string) :
  notD x = true -> Hoare (AtLineStart k) (emit (SerialPrint x)) (InLine k).
Proof.
  intros Hx s H. exists x. split; [|exact Hx].
  unfold AtLineStart in H. unfold emit. cbn [trace set_trace serialState].
  rewrite H. reflexivity.
Qed.

Lemma print_more (k : nat) (x : string) :
  Hoare (InLine k) (emit (SerialPrint x)) (InLine k).
Proof.
  intros s (p & H & Hp). exists (p +:+ x). split; [|apply notD_append, Hp].
  unfold emit. cbn [trace set_trace serialState]. rewrite H. reflexivity.
Qed.

Lemma println_end (k : nat) (x : string) :
  Hoare (InLine k) (emit (SerialPrintln x)) (AtLineStart k).
Proof.
  intros s (p & H & Hp). unfold AtLineStart, emit.
  cbn [trace set_trace serialState]. rewrite H.
  rewrite (notD_not_snapshot p x Hp). reflexivity.
Qed.

Lemma println_whole (k : nat) (x : string) :
  startsWithD x = false ->
  Hoare (AtLineStart k) (emit (SerialPrintln x)) (AtLineStart k).
Proof.
  intros Hx s H. unfold AtLineStart in *. unfold emit.
  cbn [trace set_trace serialState]. rewrite H.
  change ("" +:+ x) with x. rewrite Hx. reflexivity.
Qed.

Lemma println_snapshot (k : nat) (x : string) :
  startsWithD x = true ->
  Hoare (AtLineStart k) (emit (SerialPrintln x)) (AtLineStart (S k)).
Proof.
  intros Hx s H. unfold AtLineStart in *. unfold emit.
  cbn [trace set_trace serialState]. rewrite H.
  change ("" +:+ x) with x. rewrite Hx. reflexivity.
Qed.

Lemma silent_start (k : nat) (e : Event) :
  isSerial e = false -> Hoare (AtLineStart k) (emit e) (AtLineStart k).
Proof.
  intros He s H. unfold AtLineStart in *. unfold emit.
  cbn [trace set_trace serialState]. rewrite H.
  destruct e; try discriminate He; reflexivity.
Qed.

Lemma silent_inline (k : nat) (e : Event) :
  isSerial e = false -> Hoare (InLine k) (emit e) (InLine k).
Proof.
  intros He s (p & H & Hp). exists p. split; [|exact Hp]. unfold emit.
  cbn [trace set_trace serialState]. rewrite H.
  destruct e; try discriminate He; reflexivity.
Qed.

(** A statement that does not write what the precondition reads. *)
Ltac hoare_atom :=
  lazymatch goal with
  | |- Hoare ?P _ ?Q => unify P Q
  end;
  let s := fresh "s" in let H := fresh "H" in intros s H; exact H.

Create HintDb hoare discriminated.

Ltac hoare_step :=
  lazymatch goal with
  | |- Hoare _ skip _ => apply hoare_skip
  | |- Hoare _ (seqCmd _ _) _ => eapply hoare_seq
  | |- Hoare _ (when _ _) _ => apply hoare_when
  | |- Hoare _ (ifelse _ _ _) _ => apply hoare_ifelse
  | |- Hoare _ (assign _ _) _ => apply hoare_assign; intro
  | |- Hoare _ (local _ _) _ => apply hoare_local; intro
  | |- Hoare _ (for_loop _ _ _) _ => apply hoare_for_loop; intro
  | |- Hoare _ (if ?b then _ else _) _ => destruct b
  | |- Hoare _ (match ?x with _ => _ end) _ => destruct x
  | |- Hoare _ (emit _) _ =>
      first [ apply print_more
            | apply println_end
            | apply print_start; reflexivity
            | apply println_whole; reflexivity
            | apply silent_start; reflexivity
            | apply silent_inline; reflexivity
            | hoare_atom ]
  | |- Hoare _ ?c _ =>
      first [ hoare_atom
            | let h := head_of c in progress unfold h ]
  end.

Ltac hoare := repeat first [assumption | solve [eauto with hoare nocore] | hoare_step].

(** ** The statements of the sketch *)

Lemma updateLCD_line (k : nat) : Hoare (AtLineStart k) updateLCD (AtLineStart k).
Proof. hoare. Qed.

#[global] Hint Resolve updateLCD_line : hoare.

Lemma handleEmergencyButton_line (k : nat) (b : Level) :
  Hoare (AtLineStart k) (handleEmergencyButton b) (AtLineStart k).
Proof. hoare. Qed.

Lemma bluetoothTimeout_line (k : nat) (T : Z) (i : Input) :
  Hoare (AtLineStart k) (bluetoothTimeout T i) (AtLineStart k).
Proof. hoare. Qed.

Lemma handleRFID_line (k : nat) (i : Input) :
  Hoare (AtLineStart k) (handleRFID i) (AtLineStart k).
Proof. hoare. Qed.

Lemma counter_line (k : nat) (T : Z) (i : Input) :
  Hoare (AtLineStart k)
    (irEntry i ;; irExit i ;; irTimeout ;; buzzerTimeout ;; checkAndCloseServo T i)
    (AtLineStart k).
Proof. hoare. Qed.

Lemma adminPairs_extends (cards : list RegisteredCard) (n : nat) :
  forall (i : Z) (buffer : string),
    exists rest, adminPairs cards n i buffer = buffer +:+ rest.
Proof.
  induction n as [|n IH]; intros i buffer.
  - exists "". symmetry. apply append_empty_r.
  - cbn [adminPairs]. destruct (IH (i + 1) (buffer +:+ ("," +:+
      name (cards !!! Z.to_nat i) +:+ "," +:+
      dec (scanCount (cards !!! Z.to_nat i))))) as [rest ->].
    eexists. apply append_assoc.
Qed.

(** The station takes the snapshot line for a snapshot. *)
Lemma adminBuffer_starts_with_D (s : State) : startsWithD (adminBuffer s) = true.
Proof.
  unfold adminBuffer.
  destruct (adminPairs_extends (registeredCards s)
              (Z.to_nat (numLoadedCards s)) 0
              ("D:" +:+ dec (passengerCount s) +:+ "," +:+
               dec (emergencyPressCount s) +:+ "," +:+ dec (overloadCount s)))
    as [rest ->].
  reflexivity.
Qed.

Lemma sendAdminData_line (k : nat) :
  Hoare (AtLineStart k) sendAdminData (AtLineStart (S k)).
Proof.
  intros s H. unfold sendAdminData, local.
  pose proof (adminBuffer_starts_with_D s) as Hb.
  revert Hb. generalize (adminBuffer s). intros buffer Hb. revert s H.
  change (Hoare (AtLineStart k)
            (Serial_println buffer ;; Serial_print "Sent to Admin: " ;;
             Serial_println buffer)
            (AtLineStart (S k))).
  eapply hoare_seq; [apply println_snapshot, Hb|]. hoare.
Qed.

(** The link step sends one snapshot line when it begins the arrival
    sequence and none otherwise. *)
Lemma handleBluetooth_line (k : nat) (i : Input) (s : State) :
  AtLineStart k s ->
  AtLineStart
    (if match serialIn i with
        | Some msg => isHeartbeat msg && negb (hasRotated s)
        | None => false
        end
     then S k else k)
    (handleBluetooth i s).
Proof.
  intros H. unfold handleBluetooth. destruct (serialIn i) as [msg|]; [|exact H].
  do 3 rewrite seq_apply.
  set (s1 := assign set_lastMessageTime millis
               (Serial_println msg (Serial_print "Received via Bluetooth: " s))).
  assert (H1 : AtLineStart k s1).
  { assert (Hh : Hoare (AtLineStart k)
                   (Serial_print "Received via Bluetooth: " ;;
                    Serial_println msg ;; assign set_lastMessageTime millis)
                   (AtLineStart k)) by hoare.
    apply Hh, H. }
  change (hasRotated s) with (hasRotated s1).
  apply when_cases; intros E; rewrite E; [|exact H1].
  revert H1. generalize s1.
  change (Hoare (AtLineStart k)
            (delay 6000 ;; myServo_write 120 ;; set_hasRotated true ;;
             sendAdminData)
            (AtLineStart (S k))).
  do 3 (eapply hoare_seq; [solve [hoare]|]). apply sendAdminData_line.
Qed.

Lemma start_hasRotated (i : Input) (s : State) :
  hasRotated (handleEmergencyButton (button i) (tick i s)) = hasRotated s.
Proof.
  assert (H : Stable (fun s' => hasRotated s' = hasRotated s)
                (tick i ;; handleEmergencyButton (button i))) by stable.
  apply H. reflexivity.
Qed.

(** A pass sends one snapshot line when it begins the arrival sequence
    and none otherwise. *)
Lemma step_line (T : Z) (i : Input) (k : nat) (s : State) :
  AtLineStart k s ->
  AtLineStart (if arrival i s then S k else k) (step T i s).
Proof.
  intros H. unfold arrival.
  assert (H1 : AtLineStart k (handleEmergencyButton (button i) (tick i s))).
  { apply handleEmergencyButton_line. exact H. }
  destruct (suspended i s) eqn:Hs; cbn [negb andb].
  - rewrite step_suspended by exact Hs. exact H1.
  - rewrite step_normal by exact Hs. unfold atCounter, atReader.
    apply (handleBluetooth_line k i) in H1. rewrite start_hasRotated in H1.
    revert H1.
    generalize (handleBluetooth i (handleEmergencyButton (button i) (tick i s))).
    intros s2 H2.
    assert (Hr : Hoare (AtLineStart (if match serialIn i with
                                        | Some msg =>
                                            isHeartbeat msg && negb (hasRotated s)
                                        | None => false
                                        end then S k else k))
                   (bluetoothTimeout T i ;; handleRFID i ;; irEntry i ;;
                    irExit i ;; irTimeout ;; buzzerTimeout ;;
                    checkAndCloseServo T i)
                   (AtLineStart (if match serialIn i with
                                    | Some msg =>
                                        isHeartbeat msg && negb (hasRotated s)
                                    | None => false
                                    end then S k else k))).
    { eapply hoare_seq; [apply bluetoothTimeout_line|].
      eapply hoare_seq; [apply handleRFID_line|]. apply counter_line. }
    apply Hr, H2.
Qed.

Lemma boot_line (e : list Z) (g : Z -> list Z) : AtLineStart 0 (boot e g).
Proof.
  assert (H : Hoare (AtLineStart 0) (setup g) (AtLineStart 0)) by hoare.
  apply H. reflexivity.
Qed.

(** Between two passes the serial port is at the start of a line. *)
Lemma reachable_line (T : Z) (e : list Z) (g : Z -> list Z) (ins : list Input) :
  AtLineStart (snapshotLines (run T ins (boot e g))) (run T ins (boot e g)).
Proof.
  assert (H : forall s, (exists k, AtLineStart k s) ->
                        exists k, AtLineStart k (run T ins s)).
  { induction ins as [|i rest IH]; intros s [k Hk]; cbn [run].
    - exists k. exact Hk.
    - rewrite seq_apply. apply IH. eexists. apply step_line, Hk. }
  destruct (H (boot e g)) as [k Hk]; [exists 0%nat; apply boot_line|].
  unfold snapshotLines. unfold AtLineStart in Hk |- *. rewrite Hk. reflexivity.
Qed.

(** ** The arrival sequence *)

Lemma emit_Settled (n : nat) (e : Event) :
  isSettle e = false -> Stable (Settled n) (emit e).
Proof.
  intros He s H. unfold Settled in *. change (settles (e :: trace s) = n).
  cbn [settles]. rewrite He. exact H.
Qed.

#[global] Hint Extern 1 (Stable (Settled _) (emit _)) =>
  apply emit_Settled; reflexivity : stable.

Lemma emit_Extends (old : list Event) (e : Event) :
  Stable (Extends old) (emit e).
Proof. intros s [new H]. exists (e :: new). cbn. rewrite H. reflexivity. Qed.

#[global] Hint Resolve emit_Extends : stable.

Lemma handleBluetooth_settles (n : nat) (i : Input) (s : State) :
  Settled n s ->
  Settled
    (if match serialIn i with
        | Some msg => isHeartbeat msg && negb (hasRotated s)
        | None => false
        end
     then S n else n)
    (handleBluetooth i s).
Proof.
  intros H. unfold handleBluetooth. destruct (serialIn i) as [msg|]; [|exact H].
  do 3 rewrite seq_apply.
  set (s1 := assign set_lastMessageTime millis
               (Serial_println msg (Serial_print "Received via Bluetooth: " s))).
  assert (H1 : Settled n s1).
  { assert (Hh : Stable (Settled n)
                   (Serial_print "Received via Bluetooth: " ;;
                    Serial_println msg ;; assign set_lastMessageTime millis))
      by stable.
    apply Hh, H. }
  change (hasRotated s) with (hasRotated s1).
  apply when_cases; intros E; rewrite E; [|exact H1].
  rewrite seq_apply.
  assert (H2 : Settled (S n) (delay 6000 s1)).
  { unfold Settled in *. change (S (settles (trace s1)) = S n).
    rewrite H1. reflexivity. }
  revert H2. generalize (delay 6000 s1).
  change (Stable (Settled (S n))
            (myServo_write 120 ;; set_hasRotated true ;; sendAdminData)).
  stable.
Qed.

Lemma step_settles (T : Z) (i : Input) (n : nat) (s : State) :
  Settled n s -> Settled (if arrival i s then S n else n) (step T i s).
Proof.
  intros H. unfold arrival.
  assert (H1 : Settled n (handleEmergencyButton (button i) (tick i s))).
  { assert (Hh : Stable (Settled n) (tick i ;; handleEmergencyButton (button i)))
      by stable.
    apply Hh, H. }
  destruct (suspended i s) eqn:Hs; cbn [negb andb].
  - rewrite step_suspended by exact Hs. exact H1.
  - rewrite step_normal by exact Hs. unfold atCounter, atReader.
    apply (handleBluetooth_settles n i) in H1. rewrite start_hasRotated in H1.
    revert H1.
    generalize (handleBluetooth i (handleEmergencyButton (button i) (tick i s))).
    match goal with |- forall s2, Settled ?m s2 -> _ =>
      assert (Hr : Stable (Settled m)
                     (bluetoothTimeout T i ;; handleRFID i ;; irEntry i ;;
                      irExit i ;; irTimeout ;; buzzerTimeout ;;
                      checkAndCloseServo T i)) by stable;
      exact Hr end.
Qed.

(** The events of the link step when it begins the arrival sequence. *)
Lemma handleBluetooth_arrival (i : Input) (msg : string) (s : State) :
  serialIn i = Some msg -> isHeartbeat msg = true -> hasRotated s = false ->
  trace (handleBluetooth i s) =
  rev [ SerialPrint "Received via Bluetooth: "; SerialPrintln msg;
        Delay 6000; ServoWrite 120; SerialPrintln (adminBuffer s);
        SerialPrint "Sent to Admin: "; SerialPrintln (adminBuffer s) ]
  ++ trace s.
Proof.
  intros Hm Hb Hr. unfold handleBluetooth. rewrite Hm.
  do 3 rewrite seq_apply.
  rewrite when_true by (cbn; rewrite Hb, Hr; reflexivity).
  reflexivity.
Qed.

Lemma adminBuffer_ext (a b : State) :
  passengerCount a = passengerCount b ->
  emergencyPressCount a = emergencyPressCount b ->
  overloadCount a = overloadCount b ->
  registeredCards a = registeredCards b ->
  numLoadedCards a = numLoadedCards b ->
  adminBuffer a = adminBuffer b.
Proof. intros H1 H2 H3 H4 H5. unfold adminBuffer. congruence. Qed.

(** In a pass that is not suspended, the emergency handler leaves what the
    snapshot reports as it is, provided the latch agrees with the
    occupancy. *)
Lemma start_adminBuffer (i : Input) (s : State) :
  LatchOK s -> suspended i s = false ->
  adminBuffer (handleEmergencyButton (button i) (tick i s)) = adminBuffer s.
Proof.
  intros HL Hs.
  pose proof (handleEmergencyButton_Counts _ _ _ (button i) _
                (tick_Counts _ _ _ i _ (counts_intro s HL)))
    as (Hp & Hn & _).
  assert (Hreg : registeredCards (handleEmergencyButton (button i) (tick i s))
                 = registeredCards s /\
                 numLoadedCards (handleEmergencyButton (button i) (tick i s))
                 = numLoadedCards s).
  { assert (H : Stable (fun s' => registeredCards s' = registeredCards s /\
                                  numLoadedCards s' = numLoadedCards s)
                  (tick i ;; handleEmergencyButton (button i))) by stable.
    apply H. split; reflexivity. }
  destruct Hreg as [Hc Hl].
  assert (He : emergencyPressCount (handleEmergencyButton (button i) (tick i s))
               = emergencyPressCount s).
  { unfold handleEmergencyButton. rewrite seq_apply.
    rewrite (when_false _ _ (tick i s))
      by (apply not_suspended_no_press, Hs).
    assert (H : Stable (fun s' => emergencyPressCount s' = emergencyPressCount s)
                  (when emergencyExpired clearEmergency ;;
                   set_lastButtonState (button i))) by stable.
    apply H. reflexivity. }
  apply adminBuffer_ext; assumption.
Qed.

Lemma step_arrival_events (T : Z) (i : Input) (s : State) :
  LatchOK s -> RegistryOK s -> arrival i s = true ->
  exists msg before after,
    serialIn i = Some msg /\
    passEvents s (step T i s) =
    before ++
    [ SerialPrint "Received via Bluetooth: "; SerialPrintln msg;
      Delay 6000; ServoWrite 120; SerialPrintln (allCardsLine s);
      SerialPrint "Sent to Admin: "; SerialPrintln (allCardsLine s) ]
    ++ after.
Proof.
  intros HL HR Ha. unfold arrival in Ha.
  destruct (suspended i s) eqn:Hs; [discriminate Ha|]. cbn [negb andb] in Ha.
  destruct (serialIn i) as [msg|] eqn:Hm; [|discriminate Ha].
  apply andb_prop in Ha as [Hb Hr]. apply negb_true_iff in Hr.
  set (s1 := handleEmergencyButton (button i) (tick i s)).
  assert (E1 : Extends (trace s) s1).
  { assert (H : Stable (Extends (trace s))
                  (tick i ;; handleEmergencyButton (button i))) by stable.
    apply H. exists []. reflexivity. }
  destruct E1 as [before E1].
  assert (E2 : trace (handleBluetooth i s1) =
               rev [ SerialPrint "Received via Bluetooth: "; SerialPrintln msg;
                     Delay 6000; ServoWrite 120; SerialPrintln (allCardsLine s);
                     SerialPrint "Sent to Admin: ";
                     SerialPrintln (allCardsLine s) ] ++ trace s1).
  { rewrite (handleBluetooth_arrival i msg s1 Hm Hb)
      by (subst s1; rewrite start_hasRotated; exact Hr).
    subst s1. rewrite start_adminBuffer by assumption.
    rewrite adminBuffer_all_cards by exact HR. reflexivity. }
  assert (E3 : Extends (trace (handleBluetooth i s1)) (step T i s)).
  { rewrite step_normal by exact Hs. unfold atCounter, atReader. fold s1.
    assert (H : Stable (Extends (trace (handleBluetooth i s1)))
                  (bluetoothTimeout T i ;; handleRFID i ;; irEntry i ;;
                   irExit i ;; irTimeout ;; buzzerTimeout ;;
                   checkAndCloseServo T i)) by stable.
    apply H. exists []. reflexivity. }
  destruct E3 as [after E3].
  exists msg, (rev before), (rev after). split; [reflexivity|].
  rewrite (passEvents_app s (step T i s)
             (after ++ rev [ SerialPrint "Received via Bluetooth: ";
                             SerialPrintln msg; Delay 6000; ServoWrite 120;
                             SerialPrintln (allCardsLine s);
                             SerialPrint "Sent to Admin: ";
                             SerialPrintln (allCardsLine s) ] ++ before)).
  - rewrite !rev_app_distr, rev_involutive, <- app_assoc. reflexivity.
  - rewrite E3, E2, E1, <- !app_assoc. reflexivity.
Qed.


Lemma run_nil (T : Z) (s : State) : run T [] s = s.
Proof. reflexivity. Qed.

(** C8, as amended.  In every state that the controller reaches, a pass
    begins the arrival sequence exactly when it is not suspended, reads a
    line that contains the heartbeat text, and the remote-open flag
    [hasRotated] is clear.  Such a pass echoes the line, waits the settle
    delay, sends the servo to the open position and then transmits the
    snapshot with the current counters, in this order; it takes the settle
    delay once and puts exactly one line that starts with "D:" on the
    serial port.  Any other pass takes no settle delay and sends no such
    line; in particular a heartbeat read while the remote-open flag is set
    begins nothing.  The flag of a gate opened by a card, [servoOpen], is
    not consulted. *)
Theorem C8_heartbeat_begins_arrival_unless_remote_open
    (T : Z) (e : list Z) (g : Z -> list Z) (ins : list Input) (i : Input) :
  let s := run T ins (boot e g) in
  let s' := step T i s in
  snapshotLines s' =
    (if arrival i s then S (snapshotLines s) else snapshotLines s) /\
  settles (trace s') =
    (if arrival i s then S (settles (trace s)) else settles (trace s)) /\
  (arrival i s = true ->
   exists msg before after,
     serialIn i = Some msg /\
     passEvents s s' =
     before ++
     [ SerialPrint "Received via Bluetooth: "; SerialPrintln msg;
       Delay 6000; ServoWrite 120; SerialPrintln (allCardsLine s);
       SerialPrint "Sent to Admin: "; SerialPrintln (allCardsLine s) ]
     ++ after) /\
  (hasRotated s = true -> arrival i s = false).
Proof.
  intros s s'. split; [|split; [|split]].
  - pose proof (step_line T i _ _ (reachable_line T e g ins)) as H.
    fold s s' in H. unfold AtLineStart in H. unfold snapshotLines at 1.
    rewrite H. reflexivity.
  - apply (step_settles T i (settles (trace s)) s). reflexivity.
  - apply step_arrival_events.
    + apply reachable_CounterOK.
    + apply reachable_RegistryOK.
  - intros H. unfold arrival. rewrite H.
    destruct (suspended i s), (serialIn i) as [msg|]; cbn [negb andb];
      try reflexivity. apply andb_false_r.
Qed.

(** C8 at work: the first heartbeat after a first boot. *)
Lemma C8_heartbeat_begins_arrival_unless_remote_open_witness :
  snapshotLines (step TIMEOUT_MS (heartbeat 100) firstBoot) = 1%nat /\
  settles (trace (step TIMEOUT_MS (heartbeat 100) firstBoot)) = 1%nat /\
  exists msg before after,
    serialIn (heartbeat 100) = Some msg /\
    passEvents firstBoot (step TIMEOUT_MS (heartbeat 100) firstBoot) =
    before ++
    [ SerialPrint "Received via Bluetooth: "; SerialPrintln msg;
      Delay 6000; ServoWrite 120; SerialPrintln (allCardsLine firstBoot);
      SerialPrint "Sent to Admin: "; SerialPrintln (allCardsLine firstBoot) ]
    ++ after.
Proof.
  pose proof (C8_heartbeat_begins_arrival_unless_remote_open TIMEOUT_MS
                erasedEEPROM (fun _ => []) [] (heartbeat 100)) as H.
  cbv zeta in H. rewrite run_nil in H. unfold firstBoot.
  destruct H as (Hl & Hs & Hev & _).
  assert (Ha : arrival (heartbeat 100) (boot erasedEEPROM (fun _ => [])) = true)
    by (vm_compute; reflexivity).
  rewrite Ha in Hl, Hs.
  split; [rewrite Hl; vm_compute; reflexivity|].
  split; [rewrite Hs; vm_compute; reflexivity|].
  exact (Hev Ha).
Defined.

(** C8 as stated fails for the card path: after a first boot the driver's
    card opens the gate; 100 ms later, with the gate open ([servoOpen] set,
    servo at 120), a heartbeat line is read.  The sketch begins the arrival
    sequence: it waits the settle delay, writes the servo and sends a
    snapshot. *)
Lemma C8_heartbeat_during_card_open_begins_arrival :
  let s := step TIMEOUT_MS (scan 100 driverCard) firstBoot in
  let s' := step TIMEOUT_MS (heartbeat 100) s in
  (servoOpen s = true /\ servoAngle s = 120 /\ hasRotated s = false) /\
  arrival (heartbeat 100) s = true /\
  passEvents s s' =
    [ SerialPrint "Received via Bluetooth: "; SerialPrintln "Hello from Master";
      Delay 6000; ServoWrite 120;
      SerialPrintln "D:0,0,0,BUS DRIVER,1,HELPER,0,STATION MASTER,0";
      SerialPrint "Sent to Admin: ";
      SerialPrintln "D:0,0,0,BUS DRIVER,1,HELPER,0,STATION MASTER,0" ] /\
  hasRotated s' = true.
Proof. vm_compute. repeat split; reflexivity. Qed.
(** * Both sensors at once: the claim *)

(** The end of both counting blocks: the label, the occupancy, the sensor
    flags cleared and the debounce delay. *)
Lemma count_report (label : string) (u : State) :
  trace ((Serial_print label ;;
          local passengerCount (fun n => Serial_println (dec n)) ;;
          resetIRStates ;; delay IR_DEBOUNCE_MS) u)
  = Delay IR_DEBOUNCE_MS :: SerialPrintln (dec (passengerCount u))
    :: SerialPrint label :: trace u.
Proof. reflexivity. Qed.

Lemma updateLCD_occupancy (s : State) :
  passengerCount (updateLCD s) = passengerCount s.
Proof. destruct (updateLCD_edge s) as (H & _). exact H. Qed.

Lemma updateLCD_extends (s : State) : Extends (trace s) (updateLCD s).
Proof.
  assert (H : Stable (Extends (trace s)) updateLCD) by stable.
  apply H. exists []. reflexivity.
Qed.

Lemma countEntry_trace (s : State) :
  exists lcd,
    trace (countEntry s) =
    Delay IR_DEBOUNCE_MS
    :: SerialPrintln (dec (int16 (passengerCount s + 1)))
    :: SerialPrint "Entry -> Count: " :: lcd ++ trace s.
Proof.
  unfold countEntry. do 2 rewrite seq_apply.
  set (s1 := assign set_passengerCount _ s).
  destruct (updateLCD_extends s1) as [lcd H].
  pose proof (updateLCD_occupancy s1) as Hp.
  change (passengerCount s1) with (int16 (passengerCount s + 1)) in Hp.
  change (trace s1) with (trace s) in H.
  revert H Hp. generalize (updateLCD s1). intros u H Hp.
  exists lcd. rewrite count_report, Hp, H. reflexivity.
Qed.

Lemma countExit_trace (s : State) :
  exists lcd,
    trace (countExit s) =
    Delay IR_DEBOUNCE_MS
    :: SerialPrintln (dec (passengerCount (countExit s)))
    :: SerialPrint "Exit  -> Count: " :: lcd ++ trace s.
Proof.
  rewrite countExit_occupancy.
  unfold countExit. do 2 rewrite seq_apply.
  assert (Hd : passengerCount (decrementOccupancy s) =
               (if passengerCount s >? 0 then passengerCount s - 1
                else passengerCount s) /\
               trace (decrementOccupancy s) = trace s).
  { unfold decrementOccupancy, when, assign.
    destruct (passengerCount s >? 0); split; reflexivity. }
  destruct Hd as [Hd Ht]. revert Hd Ht.
  generalize (decrementOccupancy s). intros s1 Hd Ht.
  destruct (updateLCD_extends s1) as [lcd H].
  pose proof (updateLCD_occupancy s1) as Hp.
  revert H Hp. generalize (updateLCD s1). intros u H Hp.
  exists lcd. rewrite count_report, Hp, H, Hd, Ht. reflexivity.
Qed.

Lemma armEntry_trace (i : Input) (s : State) :
  trace (armEntry i s) = trace s.
Proof. unfold armEntry, when. destruct (_ && _); reflexivity. Qed.

Lemma armExit_trace (i : Input) (s : State) :
  trace (armExit i s) = trace s.
Proof. unfold armExit, when. destruct (_ && _); reflexivity. Qed.

(** C2, as amended: when no sequence is armed and a pass that is not
    suspended reads both sensors fired, the pass counts an entry and then,
    at once, an exit, and logs both.  No sequence is armed afterwards and
    an occupancy [o] with [0 <= o < 32767] ends where it began, but the
    event is not discarded: the occupancy is [o + 1] in between (the
    increment of an [int]), and from [o = 5] the overload alarm fires and
    [overloadCount] is incremented. *)
Theorem C2_both_sensors_count_entry_then_exit
    (T : Z) (i : Input) (s : State) :
  suspended i s = false -> Idle s ->
  reading1 i = LOW -> reading2 i = LOW ->
  entered T i s = true /\ exited T i s = true /\
  occupancyAfterEntry T i s = int16 (passengerCount s + 1) /\
  Idle (step T i s) /\
  (0 <= passengerCount s < 2 ^ 15 - 1 ->
   occupancyAfterEntry T i s = passengerCount s + 1 /\
   passengerCount (step T i s) = passengerCount s) /\
  (exists before between after,
     passEvents s (step T i s) =
     before ++
     [ SerialPrint "Entry -> Count: ";
       SerialPrintln (dec (occupancyAfterEntry T i s)) ] ++
     between ++
     [ SerialPrint "Exit  -> Count: ";
       SerialPrintln (dec (passengerCount (step T i s))) ] ++
     after) /\
  (LatchOK s -> passengerCount s = 5 ->
   overloadCount (step T i s) = wrap16 (overloadCount s + 1) /\
   alarms (trace (step T i s)) = S (alarms (trace s))).
Proof.
  intros Hs [H1 H2] R1 R2.
  destruct (atCounter_sequence T i s) as (F1 & F2 & _).
  assert (Hc : Idle (atCounter T i s)) by (split; congruence).
  destruct (idle_entry i _ Hc R1 R2) as [He Hi].
  destruct (idle_exit i _ Hi R1 R2) as [Hx Hj].
  assert (Hent : entered T i s = true)
    by (unfold entered; rewrite Hs, He; reflexivity).
  assert (Hex : exited T i s = true)
    by (unfold exited; rewrite Hs, Hx; reflexivity).
  assert (Ho : occupancyAfterEntry T i s = int16 (passengerCount s + 1))
    by (rewrite occupancyAfterEntry_cases, Hent; reflexivity).
  split; [exact Hent|]. split; [exact Hex|]. split; [exact Ho|].
  split; [rewrite step_normal by exact Hs; apply after_counter_idle, Hj|].
  split; [|split].
  - intros H0. rewrite step_occupancy, Hex, Ho. rewrite int16_small by lia.
    split; [reflexivity|].
    destruct (passengerCount s + 1 >? 0) eqn:E; lia.
  - rewrite Ho.
    assert (Hfin : passengerCount (step T i s)
                   = passengerCount (irExit i (irEntry i (atCounter T i s)))).
    { rewrite step_normal by exact Hs.
      match goal with |- passengerCount (?a (?b (?c ?s1))) = ?v =>
        assert (H : Stable (fun s' => passengerCount s' = v) (c ;; b ;; a))
          by stable;
        apply H; reflexivity end. }
    rewrite Hfin.
    assert (E0 : Extends (trace s) (atCounter T i s)).
    { unfold atCounter, atReader.
      assert (H : Stable (Extends (trace s))
                    (tick i ;; handleEmergencyButton (button i) ;;
                     handleBluetooth i ;; bluetoothTimeout T i ;;
                     handleRFID i)) by stable.
      apply H. exists []. reflexivity. }
    destruct E0 as [before E0].
    assert (Hpc : passengerCount (atCounter T i s) = passengerCount s)
      by apply atCounter_occupancy.
    assert (E3 : Extends (trace (irExit i (irEntry i (atCounter T i s))))
                   (step T i s)).
    { rewrite step_normal by exact Hs.
      assert (H : Stable (Extends (trace (irExit i (irEntry i (atCounter T i s)))))
                    (irTimeout ;; buzzerTimeout ;; checkAndCloseServo T i))
        by stable.
      apply H. exists []. reflexivity. }
    destruct E3 as [after E3].
    revert He Hx E0 Hpc E3. unfold irExit, irEntry.
    rewrite !seq_apply. generalize (atCounter T i s). intros s0 He Hx E0 Hpc E3.
    rewrite (when_true (entryCompletes i) countEntry (armEntry i s0) He)
      in Hx, E3 |- *.
    assert (Ha : passengerCount (armEntry i s0) = passengerCount s0 /\
                 trace (armEntry i s0) = trace s0).
    { split; [|apply armEntry_trace].
      unfold armEntry, when. destruct (_ && _); reflexivity. }
    destruct Ha as [Ha Hat].
    destruct (countEntry_trace (armEntry i s0)) as [lcd1 E1].
    rewrite Ha, Hat, Hpc, E0 in E1.
    revert Hx E1 E3. generalize (countEntry (armEntry i s0)).
    intros s1 Hx E1 E3.
    rewrite (when_true (exitCompletes i) countExit (armExit i s1) Hx)
      in E3 |- *.
    destruct (countExit_trace (armExit i s1)) as [lcd2 E2].
    rewrite armExit_trace, E1 in E2.
    revert E2 E3. generalize (countExit (armExit i s1)). intros s2 E2 E3.
    exists (rev before ++ rev lcd1), (Delay IR_DEBOUNCE_MS :: rev lcd2),
      (Delay IR_DEBOUNCE_MS :: rev after).
    rewrite (passEvents_app s (step T i s)
               (after ++
                [ Delay IR_DEBOUNCE_MS; SerialPrintln (dec (passengerCount s2));
                  SerialPrint "Exit  -> Count: " ] ++ lcd2 ++
                [ Delay IR_DEBOUNCE_MS;
                  SerialPrintln (dec (int16 (passengerCount s + 1)));
                  SerialPrint "Entry -> Count: " ] ++ lcd1 ++ before)).
    + rewrite !rev_app_distr. cbn [rev app]. rewrite <- !app_assoc.
      cbn [app]. reflexivity.
    + rewrite E3, E2. rewrite <- app_assoc. f_equal. cbn [app].
      do 3 f_equal. rewrite <- app_assoc. f_equal. cbn [app].
      do 3 f_equal. rewrite <- app_assoc. reflexivity.
  - intros H H0.
    pose proof (step_Counts T i _ _ _ s (counts_intro s H)) as (_ & Hn & Hk & _).
    cbv zeta in Hn, Hk. rewrite Hn, Hk, Hent, H0. split; reflexivity.
Qed.

(** C2 at work: five passengers aboard, no sequence armed, both sensors
    fired in one pass. *)
Lemma C2_both_sensors_count_entry_then_exit_witness :
  entered TIMEOUT_MS (sensors 10 LOW LOW) (aboard 5) = true /\
  exited TIMEOUT_MS (sensors 10 LOW LOW) (aboard 5) = true /\
  passengerCount (step TIMEOUT_MS (sensors 10 LOW LOW) (aboard 5)) = 5 /\
  overloadCount (step TIMEOUT_MS (sensors 10 LOW LOW) (aboard 5)) = 1.
Proof.
  destruct (C2_both_sensors_count_entry_then_exit TIMEOUT_MS
              (sensors 10 LOW LOW) (aboard 5))
    as (He & Hx & _ & _ & Hp & _ & Hn);
    [ vm_compute; reflexivity | split; vm_compute; reflexivity
    | reflexivity | reflexivity | ].
  split; [exact He|]. split; [exact Hx|]. split.
  - destruct Hp as [_ Hp];
      [vm_compute; split; [discriminate | reflexivity]|].
    rewrite Hp. vm_compute. reflexivity.
  - destruct Hn as [Hn _]; [vm_compute; reflexivity .. |].
    rewrite Hn. vm_compute. reflexivity.
Defined.

(** C2 as stated fails: with five passengers aboard and no sequence armed,
    one pass with both sensors fired is not discarded.  It is counted as an
    entry and as an exit, the serial log shows both, the overload alarm
    fires and [overloadCount] goes from 0 to 1. *)
Lemma C2_simultaneous_event_is_counted :
  let s := aboard 5 in
  let s' := step TIMEOUT_MS (sensors 10 LOW LOW) s in
  Idle s /\ suspended (sensors 10 LOW LOW) s = false /\
  passengerCount s = 5 /\ overloadCount s = 0 /\
  serialLines (passEvents s s') =
    [ "Overload detected, buzzer ON."; "Entry -> Count: 6";
      "Passenger count normal. Overload state reset."; "Exit  -> Count: 5" ] /\
  overloadCount s' = 1 /\
  ~ (entered TIMEOUT_MS (sensors 10 LOW LOW) s = false /\
     exited TIMEOUT_MS (sensors 10 LOW LOW) s = false).
Proof.
  vm_compute. repeat split; try reflexivity.
  intros [H _]. discriminate H.
Qed.

(** * Lines from the station and the close timeout *)

Lemma delay_clock (c ms : Z) : Hoare (ClockIs c) (delay ms) (ClockIs (c + ms)).
Proof. intros s H. unfold ClockIs in *. cbn. rewrite H. reflexivity. Qed.

#[global] Hint Resolve delay_clock : hoare.

Lemma countEntry_clock (c : Z) :
  Hoare (ClockIs c) countEntry (ClockIs (c + IR_DEBOUNCE_MS)).
Proof. hoare. Qed.

Lemma countExit_clock (c : Z) :
  Hoare (ClockIs c) countExit (ClockIs (c + IR_DEBOUNCE_MS)).
Proof. hoare. Qed.

(** The counter takes at most two debounce delays. *)
Lemma counter_clock (i : Input) (s : State) :
  clock s <= clock (buzzerTimeout (irTimeout (irExit i (irEntry i s))))
          <= clock s + 2 * IR_DEBOUNCE_MS.
Proof.
  assert (Ha : forall c, Stable (ClockIs c) (armEntry i)) by (intros; stable).
  assert (Hb : forall c, Stable (ClockIs c) (armExit i)) by (intros; stable).
  assert (Hc : forall c, Stable (ClockIs c) (irTimeout ;; buzzerTimeout))
    by (intros; stable).
  assert (H1 : clock s <= clock (irEntry i s) <= clock s + IR_DEBOUNCE_MS).
  { unfold irEntry. rewrite seq_apply. pose proof (Ha _ s eq_refl) as H.
    apply when_cases; intros _.
    - rewrite (countEntry_clock _ _ H). unfold IR_DEBOUNCE_MS. lia.
    - rewrite H. unfold IR_DEBOUNCE_MS. lia. }
  set (s1 := irEntry i s) in *.
  assert (H2 : clock s1 <= clock (irExit i s1) <= clock s1 + IR_DEBOUNCE_MS).
  { unfold irExit. rewrite seq_apply. pose proof (Hb _ s1 eq_refl) as H.
    apply when_cases; intros _.
    - rewrite (countExit_clock _ _ H). unfold IR_DEBOUNCE_MS. lia.
    - rewrite H. unfold IR_DEBOUNCE_MS. lia. }
  set (s2 := irExit i s1) in *.
  rewrite (Hc _ s2 eq_refl). lia.
Qed.

(** The counter leaves the gate alone. *)
Lemma counter_gate (h o : bool) (k : nat) (m : Z) (i : Input) :
  Stable (fun s => GateHeld h o k s /\ lastMessageTime s = m /\
                   servoOpen s = o)
    (irEntry i ;; irExit i ;; irTimeout ;; buzzerTimeout).
Proof.
  assert (H1 : Stable (GateHeld h o k)
                 (irEntry i ;; irExit i ;; irTimeout ;; buzzerTimeout))
    by stable.
  assert (H2 : Stable (fun s => lastMessageTime s = m /\ servoOpen s = o)
                 (irEntry i ;; irExit i ;; irTimeout ;; buzzerTimeout))
    by stable.
  intros s [Hg Hm]. split; [apply H1, Hg | apply H2, Hm].
Qed.

(** With no line due, neither timeout does anything. *)
Lemma bluetoothTimeout_idle (T : Z) (i : Input) (s : State) :
  since s (lastMessageTime s) <= T -> bluetoothTimeout T i s = s.
Proof.
  intros H. unfold bluetoothTimeout.
  destruct (hasRotated s) eqn:E; [|apply when_false; exact E].
  rewrite when_true by exact E.
  apply when_false. rewrite Z.gtb_ltb. apply Z.ltb_ge. exact H.
Qed.

Lemma checkAndCloseServo_idle (T : Z) (i : Input) (s : State) :
  since s (lastMessageTime s) <= T + GATE_BLOCK_CHECK_DELAY_MS ->
  checkAndCloseServo T i s = s.
Proof.
  intros H. unfold checkAndCloseServo.
  destruct (servoOpen s) eqn:E; [|apply when_false; exact E].
  rewrite when_true by exact E.
  apply when_false. rewrite Z.gtb_ltb. apply Z.ltb_ge. exact H.
Qed.

Lemma handleRFID_remote (i : Input) (s : State) :
  hasRotated s = true -> handleRFID i s = s.
Proof. intros H. apply when_false. rewrite H. reflexivity. Qed.

(** A line read while the gate is held open by the remote path re-arms
    the timeout and does nothing else to the controller. *)
Lemma handleBluetooth_remote (i : Input) (msg : string) (s : State) :
  serialIn i = Some msg -> hasRotated s = true ->
  handleBluetooth i s =
  assign set_lastMessageTime millis
    (Serial_println msg (Serial_print "Received via Bluetooth: " s)).
Proof.
  intros Hm Hr. unfold handleBluetooth. rewrite Hm. do 3 rewrite seq_apply.
  apply when_false. cbn. rewrite Hr. apply andb_false_r.
Qed.

Lemma start_clock (i : Input) (s : State) :
  clock (handleEmergencyButton (button i) (tick i s)) = clock s + elapsed i.
Proof.
  assert (H : Stable (ClockIs (clock s + elapsed i))
                (handleEmergencyButton (button i))) by stable.
  apply H. reflexivity.
Qed.

Lemma start_gate (h o : bool) (k : nat) (m : Z) (i : Input) :
  Stable (fun s => GateHeld h o k s /\ lastMessageTime s = m)
    (tick i ;; handleEmergencyButton (button i)).
Proof.
  assert (H1 : Stable (GateHeld h o k)
                 (tick i ;; handleEmergencyButton (button i))) by stable.
  assert (H2 : Stable (fun s => lastMessageTime s = m)
                 (tick i ;; handleEmergencyButton (button i))) by stable.
  intros s [Hg Hm]. split; [apply H1, Hg | apply H2, Hm].
Qed.

(** The rest of a pass, from the link step on, when the gate is held open
    by the remote path and the timeout was re-armed at most [TIMEOUT_MS] ms
    ago: nothing closes the gate. *)
Lemma rest_of_pass_remote (i : Input) (k : nat) (t : Z) (s : State) :
  GateHeld true false k s -> lastMessageTime s = wrap32 t ->
  0 <= clock s - t <= TIMEOUT_MS ->
  let s' := checkAndCloseServo TIMEOUT_MS i
              (buzzerTimeout (irTimeout (irExit i (irEntry i
                 (handleRFID i (bluetoothTimeout TIMEOUT_MS i s)))))) in
  GateHeld true false k s' /\ lastMessageTime s' = wrap32 t /\
  clock s <= clock s'.
Proof.
  intros Hg Hm Ht. unfold TIMEOUT_MS in Ht.
  assert (Hs : since s (lastMessageTime s) = clock s - t)
    by (rewrite Hm; apply since_stamp; lia).
  rewrite bluetoothTimeout_idle by (rewrite Hs; unfold TIMEOUT_MS; lia).
  rewrite handleRFID_remote by (apply Hg; reflexivity).
  pose proof (counter_clock i s) as Hc. unfold IR_DEBOUNCE_MS in Hc.
  set (s3 := buzzerTimeout (irTimeout (irExit i (irEntry i s)))) in *.
  assert (Hg3 : GateHeld true false k s3 /\ lastMessageTime s3 = wrap32 t).
  { assert (H1 : Stable (GateHeld true false k)
                   (irEntry i ;; irExit i ;; irTimeout ;; buzzerTimeout))
      by stable.
    assert (H2 : Stable (fun s0 => lastMessageTime s0 = wrap32 t)
                   (irEntry i ;; irExit i ;; irTimeout ;; buzzerTimeout))
      by stable.
    split; [apply (H1 s Hg) | apply (H2 s Hm)]. }
  destruct Hg3 as [Hg3 Hm3].
  assert (Hs3 : since s3 (lastMessageTime s3) = clock s3 - t)
    by (rewrite Hm3; apply since_stamp; lia).
  cbv zeta.
  rewrite checkAndCloseServo_idle
    by (rewrite Hs3; unfold TIMEOUT_MS, GATE_BLOCK_CHECK_DELAY_MS; lia).
  repeat split; try apply Hg3; try assumption. lia.
Qed.

(** One pass while lines keep coming. *)
Lemma step_remote_open (i : Input) (k : nat) (lastRx : Z) (s : State) :
  RemoteOpen k lastRx s -> 0 <= elapsed i ->
  (suspended i s = true \/ lineRead i s = true
   \/ clock s + elapsed i - lastRx <= TIMEOUT_MS) ->
  RemoteOpen k (if lineRead i s then clock s + elapsed i else lastRx)
    (step TIMEOUT_MS i s).
Proof.
  intros [Hg (t & Hm & Hlo & Hhi)] He Hfed.
  set (s1 := handleEmergencyButton (button i) (tick i s)).
  assert (Hc1 : clock s1 = clock s + elapsed i) by apply start_clock.
  assert (Hg1 : GateHeld true false k s1 /\ lastMessageTime s1 = wrap32 t).
  { apply (start_gate true false k (wrap32 t) i s). split; assumption. }
  destruct Hg1 as [Hg1 Hm1].
  unfold lineRead in *.
  destruct (suspended i s) eqn:Hs; cbn [negb andb] in *.
  - rewrite step_suspended by exact Hs. fold s1.
    split; [exact Hg1|]. exists t. split; [exact Hm1|]. lia.
  - rewrite step_normal by exact Hs. unfold atCounter, atReader. fold s1.
    destruct (serialIn i) as [msg|] eqn:Hmsg.
    + rewrite (handleBluetooth_remote i msg s1 Hmsg)
        by (apply Hg1; reflexivity).
      set (s2 := assign set_lastMessageTime millis _).
      assert (Hg2 : GateHeld true false k s2).
      { assert (H : Stable (GateHeld true false k)
                      (Serial_print "Received via Bluetooth: " ;;
                       Serial_println msg ;; assign set_lastMessageTime millis))
          by stable.
        apply (H s1 Hg1). }
      assert (Hm2 : lastMessageTime s2 = wrap32 (clock s + elapsed i)).
      { subst s2. unfold assign.
        change (millis (Serial_println msg
                  (Serial_print "Received via Bluetooth: " s1)) =
                wrap32 (clock s + elapsed i)).
        unfold millis.
        change (clock (Serial_println msg
                  (Serial_print "Received via Bluetooth: " s1)))
          with (clock s1).
        rewrite Hc1. reflexivity. }
      assert (Hc2 : clock s2 = clock s + elapsed i).
      { subst s2. change (clock s1 = clock s + elapsed i). exact Hc1. }
      destruct (rest_of_pass_remote i k (clock s + elapsed i) s2 Hg2 Hm2)
        as (Hg' & Hm' & Hc'); [unfold TIMEOUT_MS; lia|].
      split; [exact Hg'|]. exists (clock s + elapsed i).
      split; [exact Hm'|]. lia.
    + assert (Hb : handleBluetooth i s1 = s1)
        by (unfold handleBluetooth; rewrite Hmsg; reflexivity).
      rewrite Hb.
      destruct Hfed as [Hf|[Hf|Hf]]; try discriminate Hf.
      destruct (rest_of_pass_remote i k t s1 Hg1 Hm1)
        as (Hg' & Hm' & Hc'); [unfold TIMEOUT_MS in *; lia|].
      split; [exact Hg'|]. exists t. split; [exact Hm'|]. lia.
Qed.

(** While lines keep coming, the gate held open by the remote path stays
    open. *)
Lemma run_remote_open (ins : list Input) :
  forall (k : nat) (lastRx : Z) (s : State),
    RemoteOpen k lastRx s -> fed lastRx ins s ->
    exists lastRx', RemoteOpen k lastRx' (run TIMEOUT_MS ins s).
Proof.
  induction ins as [|i rest IH]; intros k lastRx s H Hfed.
  - exists lastRx. exact H.
  - cbn [fed] in Hfed. destruct Hfed as (He & Hf & Hrest).
    cbn [run]. rewrite seq_apply.
    apply (IH k _ _ (step_remote_open i k lastRx s H He Hf) Hrest).
Qed.

(** C10: a line read from the station, whatever its text, sets the
    reference time of the close timeout to the current time; and while the
    gate is held open by the remote path, it stays open for as long as in
    every pass that is not suspended a line is read or the last line was
    read at most 10 seconds before: the open flag stays set, the servo
    stays at the open position and is never sent to the closed one. *)
Theorem C10_any_line_rearms_close_timeout :
  (forall (i : Input) (msg : string) (s : State),
     serialIn i = Some msg ->
     lastMessageTime (handleBluetooth i s) = millis s) /\
  (forall (ins : list Input) (lastRx : Z) (s : State),
     hasRotated s = true -> servoAngle s = 120 ->
     lastMessageTime s = wrap32 lastRx -> lastRx <= clock s ->
     fed lastRx ins s ->
     hasRotated (run TIMEOUT_MS ins s) = true /\
     servoAngle (run TIMEOUT_MS ins s) = 120 /\
     closes (trace (run TIMEOUT_MS ins s)) = closes (trace s)).
Proof.
  split.
  - intros i msg s Hm. unfold handleBluetooth. rewrite Hm.
    do 3 rewrite seq_apply.
    match goal with |- lastMessageTime (?c ?s1) = _ =>
      assert (H : Stable (fun s' => lastMessageTime s' = millis s) c)
        by stable;
      apply H; reflexivity end.
  - intros ins lastRx s Hr Ha Hm Hle Hfed.
    assert (H0 : RemoteOpen (closes (trace s)) lastRx s).
    { split;
        [split; [exact Ha | split; [reflexivity | split;
           [intros _; exact Hr | intros X; discriminate X]]]|].
      exists lastRx. split; [exact Hm | lia]. }
    destruct (run_remote_open ins _ _ _ H0 Hfed) as (lastRx' & Hg & _).
    destruct Hg as (H1 & H2 & H3 & _).
    split; [apply H3; reflexivity|]. split; assumption.
Qed.

(** C10 at work: the gate was opened by the first heartbeat; lines that
    are not heartbeats arrive less than 10 seconds apart, and 22 seconds
    later the gate is still open. *)
Lemma C10_any_line_rearms_close_timeout_witness :
  hasRotated
    (run TIMEOUT_MS [chatter 3000; quiet 9000; chatter 900; quiet 9990] arrived)
    = true /\
  servoAngle
    (run TIMEOUT_MS [chatter 3000; quiet 9000; chatter 900; quiet 9990] arrived)
    = 120 /\
  closes (trace
    (run TIMEOUT_MS [chatter 3000; quiet 9000; chatter 900; quiet 9990] arrived))
    = closes (trace arrived).
Proof.
  apply (proj2 C10_any_line_rearms_close_timeout
           [chatter 3000; quiet 9000; chatter 900; quiet 9990] 100 arrived).
  - vm_compute; reflexivity.
  - vm_compute; reflexivity.
  - vm_compute; reflexivity.
  - vm_compute; discriminate.
  - cbn [fed].
    repeat (split; [vm_compute; discriminate|];
            split; [first [ left; vm_compute; reflexivity
                          | right; left; vm_compute; reflexivity
                          | right; right; vm_compute; discriminate ]|]).
    exact I.
Defined.

(** * The persisted registry *)

(** ** Bytes and text *)

Lemma char_byte_char (c : ascii) : charOfByte (byteOfChar c) = c.
Proof.
  unfold charOfByte, byteOfChar. rewrite N2Z.id. apply Ascii.ascii_N_embedding.
Qed.

Lemma byteOfChar_zero (c : ascii) : byteOfChar c = 0 -> c = Ascii.zero.
Proof.
  intros H. rewrite <- (char_byte_char c), H. reflexivity.
Qed.

(** Reading back a name that was stored with its NUL. *)
Lemma cstr_stored (nm : string) (pad : list Z) :
  noNul nm -> cstr (bytesOfString nm ++ [0] ++ pad) = nm.
Proof.
  induction nm as [|c rest IH]; intros Hn.
  - reflexivity.
  - destruct Hn as [Hc Hrest].
    change (bytesOfString (String c rest))
      with (byteOfChar c :: bytesOfString rest).
    cbn [app cstr].
    destruct (byteOfChar c =? 0) eqn:E.
    + apply Z.eqb_eq, byteOfChar_zero in E. contradiction.
    + rewrite char_byte_char. f_equal. apply IH, Hrest.
Qed.

(** ** Cells of the store *)

Lemma EEPROM_read_app_r (pre post : list Z) (a : Z) :
  a = Z.of_nat (length pre) ->
  forall k, EEPROM_read (pre ++ post) (a + Z.of_nat k) = default 255 (post !! k).
Proof.
  intros -> k. unfold EEPROM_read.
  replace (Z.to_nat (Z.of_nat (length pre) + Z.of_nat k))
    with (length pre + k)%nat by lia.
  rewrite lookup_app_r by lia.
  replace (length pre + k - length pre)%nat with k by lia. reflexivity.
Qed.

(** An object read from the store where it lies. *)
Lemma EEPROM_get_chunk (pre obj post : list Z) (a n : Z) :
  a = Z.of_nat (length pre) -> n = Z.of_nat (length obj) ->
  EEPROM_get (pre ++ obj ++ post) a n = obj.
Proof.
  intros Ha ->. unfold EEPROM_get. apply list_eq. intros k.
  rewrite list_lookup_fmap.
  destruct (decide (k < length obj)%nat) as [Hk|Hk].
  - rewrite lookup_seqZ_lt by lia. cbn [fmap option_fmap option_map].
    rewrite Z.add_0_l, (EEPROM_read_app_r pre _ a Ha k).
    rewrite lookup_app_l by exact Hk.
    destruct (lookup_lt_is_Some_2 obj k Hk) as [x Hx]. rewrite Hx. reflexivity.
  - rewrite lookup_seqZ_ge by lia. rewrite lookup_ge_None_2 by lia.
    reflexivity.
Qed.

(** An object written over cells of the same size. *)
Lemma put_chunk (pre old new post : list Z) :
  length old = length new ->
  list_inserts (length pre) new (pre ++ old ++ post) = pre ++ new ++ post.
Proof.
  intros H. rewrite <- (Nat.add_0_r (length pre)), list_inserts_app_r.
  rewrite list_inserts_0_r by (symmetry; exact H). reflexivity.
Qed.

(** A list cut at [n]. *)
Lemma cut (l : list Z) (n : nat) :
  (n <= length l)%nat ->
  exists a b, l = a ++ b /\ length a = n /\ b = drop n l.
Proof.
  intros H. exists (take n l), (drop n l).
  rewrite take_drop, length_take. repeat split. lia.
Qed.

Lemma length_bytesOfString (nm : string) :
  length (bytesOfString nm) = String.length nm.
Proof.
  unfold bytesOfString. rewrite length_map.
  induction nm as [|c rest IH]; [reflexivity|].
  cbn [String.list_ascii_of_string length String.length]. rewrite IH.
  reflexivity.
Qed.

(** What [writePredefinedCardsToEEPROM] stores for a card is a record of
    that card, whatever the stack held. *)
Lemma cardImage_recordOf (garbage : list Z) (c : RegisteredCard) :
  length (uid c) = 10%nat -> (String.length (name c) <= 16)%nat ->
  recordOf c (cardImage garbage c).
Proof.
  intros Hu Hn. unfold cardImage.
  set (T := take 28 (garbage ++ replicate 28 0)).
  assert (HT : length T = 28%nat).
  { subst T. rewrite length_take, length_app, length_replicate. lia. }
  clearbody T.
  set (nm := bytesOfString (name c) ++ [0]).
  assert (Hnm : length nm = S (String.length (name c))).
  { subst nm. rewrite length_app, length_bytesOfString. cbn. lia. }
  destruct (cut T 10) as (A & T1 & -> & HA & _); [lia|].
  rewrite length_app in HT.
  destruct (cut T1 1) as (B & T2 & -> & HB & _); [lia|].
  rewrite length_app in HT.
  destruct (cut T2 (length nm)) as (C & D & -> & HC & _); [lia|].
  rewrite length_app in HT.
  rewrite take_ge by lia.
  rewrite (list_inserts_0_r (uid c) A) by lia.
  replace 11%nat with (length (uid c ++ [uidSize c]))
    by (rewrite length_app, Hu; reflexivity).
  replace 10%nat with (length (uid c)) by exact Hu.
  rewrite (put_chunk (uid c) B [uidSize c] (C ++ D)) by (rewrite HB; reflexivity).
  rewrite (app_assoc (uid c) [uidSize c]).
  rewrite (put_chunk (uid c ++ [uidSize c]) C nm D) by exact HC.
  exists D. split; [|split; [|exact Hu]].
  - subst nm. rewrite <- !app_assoc. reflexivity.
  - rewrite !length_app, Hu, Hnm. cbn [length]. lia.
Qed.

(** ** Seeding *)

(** The cells of the store after the writes of a first boot: count,
    three records, marker. *)
Lemma seeded_cells (e : list Z) (count m0 m1 : Z) (r0 r1 r2 : list Z) :
  (87 <= length e)%nat ->
  length r0 = 28%nat -> length r1 = 28%nat -> length r2 = 28%nat ->
  list_inserts 0 [m0; m1]
    (list_inserts 59 r2
       (list_inserts 31 r1
          (list_inserts 3 r0 (list_inserts 2 [count] e)))) =
  [m0; m1] ++ [count] ++ r0 ++ r1 ++ r2 ++ drop 87 e.
Proof.
  intros He H0 H1 H2.
  destruct (cut e 2) as (A & e1 & -> & HA & _); [lia|].
  rewrite length_app in He.
  destruct (cut e1 1) as (B & e2 & -> & HB & _); [lia|].
  rewrite length_app in He.
  destruct (cut e2 28) as (R0 & e3 & -> & HR0 & _); [lia|].
  rewrite length_app in He.
  destruct (cut e3 28) as (R1 & e4 & -> & HR1 & _); [lia|].
  rewrite length_app in He.
  destruct (cut e4 28) as (R2 & tail & -> & HR2 & _); [lia|].
  assert (Hd : drop 87 (A ++ B ++ R0 ++ R1 ++ R2 ++ tail) = tail).
  { rewrite !app_assoc. apply drop_app_length'.
    rewrite !length_app. lia. }
  rewrite Hd.
  replace 59%nat with (length (((A ++ [count]) ++ r0) ++ r1))
    by (rewrite !length_app, HA, H0, H1; reflexivity).
  replace 31%nat with (length ((A ++ [count]) ++ r0))
    by (rewrite !length_app, HA, H0; reflexivity).
  replace 3%nat with (length (A ++ [count]))
    by (rewrite length_app, HA; reflexivity).
  replace 2%nat with (length A) by exact HA.
  rewrite (put_chunk A B [count]) by (rewrite HB; reflexivity).
  rewrite (app_assoc A [count]).
  rewrite (put_chunk (A ++ [count]) R0 r0) by lia.
  rewrite (app_assoc (A ++ [count]) r0).
  rewrite (put_chunk ((A ++ [count]) ++ r0) R1 r1) by lia.
  rewrite (app_assoc ((A ++ [count]) ++ r0) r1).
  rewrite (put_chunk (((A ++ [count]) ++ r0) ++ r1) R2 r2 tail) by lia.
  rewrite <- !app_assoc.
  rewrite (list_inserts_0_r [m0; m1] A) by (rewrite HA; reflexivity).
  reflexivity.
Qed.

(** ** Loading *)

Lemma for_loop_rounds (Inv : nat -> State -> Prop) (body : Z -> Cmd) (n : nat) :
  (forall j s, (j < n)%nat -> Inv j s -> Inv (S j) (body (Z.of_nat j) s)) ->
  forall s, Inv 0%nat s -> Inv n (for_loop n 0 body s).
Proof.
  intros Hbody.
  assert (H : forall m k s, (k + m = n)%nat -> Inv k s ->
                            Inv n (for_loop m (Z.of_nat k) body s)).
  { induction m as [|m IH]; intros k s Hk Hs.
    - replace n with k by lia. exact Hs.
    - cbn [for_loop]. rewrite seq_apply.
      replace (Z.of_nat k + 1) with (Z.of_nat (S k)) by lia.
      apply IH; [lia|]. apply Hbody; [lia | exact Hs]. }
  intros s Hs. apply (H n 0%nat s); [lia | exact Hs].
Qed.

(** What a record decodes to. *)
Lemma record_decoded (c : RegisteredCard) (bytes : list Z) :
  recordOf c bytes -> noNul (name c) ->
  mkCard (take 10 bytes) (bytes !!! 10%nat) (cstr (drop 11 bytes)) 0 = freshCard c.
Proof.
  intros (pad & -> & _ & Hu) Hn. unfold freshCard. f_equal.
  - apply take_app_length'. symmetry. exact Hu.
  - rewrite lookup_total_app_r by lia. rewrite Hu. reflexivity.
  - rewrite drop_app_ge by lia. rewrite Hu. cbn [drop Nat.sub app].
    apply cstr_stored, Hn.
Qed.

(** One round of the loading loop. *)
Lemma loadCard_round (e : list Z) (cards : list RegisteredCard) (j : nat)
    (s : State) :
  holds e cards -> Forall (fun c => noNul (name c)) cards ->
  (length cards <= 5)%nat -> (j < length cards)%nat ->
  Loaded e cards j s -> Loaded e cards (S j) (loadCard (Z.of_nat j) s).
Proof.
  intros (_ & _ & Hrec) Hnn Hmax Hj (He & Hn & Hlen & Htake).
  destruct (lookup_lt_is_Some_2 cards j Hj) as [c Hc].
  specialize (Hrec j c Hc).
  assert (Hnc : noNul (name c)).
  { rewrite Forall_forall in Hnn. apply Hnn.
    apply list_elem_of_lookup. exists j. exact Hc. }
  unfold loadCard, local. rewrite He, seq_apply.
  rewrite (record_decoded c _ Hrec Hnc).
  match goal with |- Loaded _ _ _ (?rest ?s1) =>
    assert (Hs : Stable (Loaded e cards (S j)) rest) by stable;
    apply Hs end.
  unfold setCard, assign. rewrite Nat2Z.id.
  split; [exact He|]. split; [exact Hn|].
  cbn [registeredCards set_registeredCards].
  split; [rewrite length_insert; exact Hlen|].
  rewrite (take_S_r cards j c Hc), map_app, <- Htake.
  rewrite (take_S_r _ j (freshCard c))
    by (apply list_lookup_insert_eq; lia).
  rewrite take_insert_ge by lia. reflexivity.
Qed.

(** Loading from a store that holds [cards]. *)
Lemma loadCardsFromEEPROM_holds (e : list Z) (cards : list RegisteredCard)
    (s : State) :
  eeprom s = e -> length (registeredCards s) = 5%nat ->
  holds e cards -> Forall (fun c => noNul (name c)) cards ->
  (length cards <= 5)%nat ->
  eeprom (loadCardsFromEEPROM s) = e /\
  numLoadedCards (loadCardsFromEEPROM s) = Z.of_nat (length cards) /\
  loadedCards (loadCardsFromEEPROM s) = map freshCard cards.
Proof.
  intros He Hlen Hh Hnn Hmax.
  assert (HL : Loaded e cards (length cards) (loadCardsFromEEPROM s)).
  { unfold loadCardsFromEEPROM. rewrite seq_apply.
    set (s1 := assign set_numLoadedCards _ s).
    assert (Hn1 : numLoadedCards s1 = Z.of_nat (length cards)).
    { subst s1. unfold assign. cbn [numLoadedCards set_numLoadedCards].
      rewrite He. apply Hh. }
    assert (H1 : Loaded e cards 0 s1).
    { split; [exact He|]. split; [exact Hn1|]. split; [exact Hlen|].
      reflexivity. }
    unfold ifelse. rewrite Hn1.
    replace ((Z.of_nat (length cards) >? MAX_REGISTERED_CARDS)
             || (Z.of_nat (length cards) <? 0)) with false
      by (symmetry; apply orb_false_intro;
          [rewrite Z.gtb_ltb; apply Z.ltb_ge; unfold MAX_REGISTERED_CARDS; lia
          | apply Z.ltb_ge; lia]).
    rewrite seq_apply, (local_apply numLoadedCards _ s1), Hn1, Nat2Z.id.
    match goal with |- Loaded _ _ _ (?rest ?s2) =>
      assert (Hs : Stable (Loaded e cards (length cards)) rest) by stable;
      apply Hs end.
    apply (for_loop_rounds (Loaded e cards)); [|exact H1].
    intros j s0 Hj. apply loadCard_round; assumption. }
  destruct HL as (He' & Hn' & _ & Ht).
  split; [exact He'|]. split; [exact Hn'|].
  unfold loadedCards. rewrite Hn', Nat2Z.id, Ht.
  rewrite take_ge by lia. reflexivity.
Qed.

(** ** Power-up *)

Lemma initBoard_powerOn (e : list Z) :
  eeprom (initBoard (powerOn e)) = e /\
  length (registeredCards (initBoard (powerOn e))) = 5%nat.
Proof.
  assert (H : Stable (fun s => eeprom s = e /\
                               length (registeredCards s) = 5%nat) initBoard)
    by stable.
  apply H. split; reflexivity.
Qed.

Lemma length_cardImage (garbage : list Z) (c : RegisteredCard) :
  length (cardImage garbage c) = 28%nat.
Proof.
  unfold cardImage. rewrite !length_inserts, length_take, length_app,
    length_replicate. lia.
Qed.

(** The store after the seeding of a first boot. *)
Lemma seeded_store (g : Z -> list Z) (s : State) :
  (87 <= length (eeprom s))%nat ->
  eeprom (EEPROM_put EEPROM_ADDR_MAGIC [MAGIC_VALUE mod 256; MAGIC_VALUE / 256]
            (writePredefinedCardsToEEPROM g
               (Serial_println
                  "EEPROM not initialized. Writing predefined cards..." s))) =
  [203; 175] ++ [3] ++
  cardImage (g 0) (predefinedUsers !!! 0%nat) ++
  cardImage (g 1) (predefinedUsers !!! 1%nat) ++
  cardImage (g 2) (predefinedUsers !!! 2%nat) ++ drop 87 (eeprom s).
Proof.
  intros H.
  rewrite <- (seeded_cells (eeprom s) 3 203 175 _ _ _ H
                (length_cardImage _ _) (length_cardImage _ _)
                (length_cardImage _ _)).
  reflexivity.
Qed.

Lemma seeded_holds (g : Z -> list Z) (tail : list Z) :
  holds ([203; 175] ++ [3] ++
         cardImage (g 0) (predefinedUsers !!! 0%nat) ++
         cardImage (g 1) (predefinedUsers !!! 1%nat) ++
         cardImage (g 2) (predefinedUsers !!! 2%nat) ++ tail)
    predefinedUsers.
Proof.
  split; [reflexivity|]. split; [reflexivity|].
  intros i c Hc.
  destruct i as [|[|[|i]]]; try discriminate Hc;
    injection Hc as <-.
  - rewrite (app_assoc [203; 175] [3]).
    rewrite EEPROM_get_chunk
      by (try reflexivity; rewrite length_cardImage; reflexivity).
    apply cardImage_recordOf; [reflexivity | cbn; lia].
  - rewrite (app_assoc [203; 175] [3]), (app_assoc ([203; 175] ++ [3])).
    rewrite EEPROM_get_chunk
      by (rewrite ?length_app, ?length_cardImage; reflexivity).
    apply cardImage_recordOf; [reflexivity | cbn; lia].
  - rewrite (app_assoc [203; 175] [3]), (app_assoc ([203; 175] ++ [3])),
      (app_assoc (([203; 175] ++ [3]) ++ _)).
    rewrite EEPROM_get_chunk
      by (rewrite ?length_app, ?length_cardImage; reflexivity).
    apply cardImage_recordOf; [reflexivity | cbn; lia].
Qed.

Lemma boot_unfold (e : list Z) (g : Z -> list Z) :
  boot e g = loadCardsFromEEPROM (initStore g (initBoard (powerOn e))).
Proof. unfold boot, setup. rewrite !seq_apply. reflexivity. Qed.

(** Loading from a store whose count is out of range. *)
Lemma loadCardsFromEEPROM_invalid (e : list Z) (s : State) :
  eeprom s = e ->
  ~ (0 <= EEPROM_read e EEPROM_ADDR_NUM_CARDS <= MAX_REGISTERED_CARDS) ->
  eeprom (loadCardsFromEEPROM s) = e /\
  numLoadedCards (loadCardsFromEEPROM s) = 0 /\
  loadedCards (loadCardsFromEEPROM s) = [].
Proof.
  intros He Hc. unfold loadCardsFromEEPROM. rewrite seq_apply.
  assert (Hn1 : numLoadedCards
                  (assign set_numLoadedCards
                     (fun s => EEPROM_read (eeprom s) EEPROM_ADDR_NUM_CARDS) s)
                = EEPROM_read e EEPROM_ADDR_NUM_CARDS)
    by (unfold assign; cbn [numLoadedCards set_numLoadedCards];
        rewrite He; reflexivity).
  assert (He1 : eeprom
                  (assign set_numLoadedCards
                     (fun s => EEPROM_read (eeprom s) EEPROM_ADDR_NUM_CARDS) s)
                = e) by exact He.
  revert Hn1 He1.
  generalize (assign set_numLoadedCards
                (fun s => EEPROM_read (eeprom s) EEPROM_ADDR_NUM_CARDS) s).
  intros s1 Hn1 He1.
  unfold ifelse. rewrite Hn1.
  replace ((EEPROM_read e EEPROM_ADDR_NUM_CARDS >? MAX_REGISTERED_CARDS)
           || (EEPROM_read e EEPROM_ADDR_NUM_CARDS <? 0)) with true
    by (symmetry; apply orb_true_iff; rewrite Z.gtb_ltb, !Z.ltb_lt; lia).
  rewrite seq_apply. split; [exact He1|]. split; reflexivity.
Qed.

(** C9.  With the marker in place and a stored count of at most 5,
    power-up loads the stored cards (scan counts 0) and leaves the store as
    it is.  Without the marker, power-up writes the count, the records of
    the factory cards and the marker, and loads the factory cards.  With
    the marker in place and a stored count outside 0..5, power-up leaves
    the registry empty (count 0) and the store as it is. *)
Theorem C9_registry_load (g : Z -> list Z) :
  (forall (e : list Z) (cards : list RegisteredCard),
     holds e cards -> (length cards <= 5)%nat ->
     Forall (fun c => noNul (name c)) cards ->
     eeprom (boot e g) = e /\
     numLoadedCards (boot e g) = Z.of_nat (length cards) /\
     loadedCards (boot e g) = map freshCard cards) /\
  (forall (e : list Z),
     EEPROM_get16 e EEPROM_ADDR_MAGIC <> MAGIC_VALUE ->
     (87 <= length e)%nat ->
     holds (eeprom (boot e g)) predefinedUsers /\
     drop 87 (eeprom (boot e g)) = drop 87 e /\
     numLoadedCards (boot e g) = 3 /\
     loadedCards (boot e g) = predefinedUsers) /\
  (forall (e : list Z),
     EEPROM_get16 e EEPROM_ADDR_MAGIC = MAGIC_VALUE ->
     ~ (0 <= EEPROM_read e EEPROM_ADDR_NUM_CARDS <= MAX_REGISTERED_CARDS) ->
     eeprom (boot e g) = e /\
     numLoadedCards (boot e g) = 0 /\
     loadedCards (boot e g) = []).
Proof.
  split; [|split].
  - intros e cards Hh Hmax Hnn. rewrite boot_unfold.
    destruct (initBoard_powerOn e) as [He Hlen].
    revert He Hlen. generalize (initBoard (powerOn e)). intros s0 He Hlen.
    assert (Hs : initStore g s0 =
                 Serial_println "EEPROM already initialized. Loading cards..."
                   s0).
    { unfold initStore, ifelse, storeBlank. rewrite He.
      destruct Hh as (Hm & _). rewrite Hm, Z.eqb_refl. reflexivity. }
    rewrite Hs. apply loadCardsFromEEPROM_holds; assumption.
  - intros e Hm Hlen. rewrite boot_unfold.
    destruct (initBoard_powerOn e) as [He Hl].
    revert He Hl. generalize (initBoard (powerOn e)). intros s0 He Hl.
    assert (Hs : initStore g s0 =
                 EEPROM_put EEPROM_ADDR_MAGIC
                   [MAGIC_VALUE mod 256; MAGIC_VALUE / 256]
                   (writePredefinedCardsToEEPROM g
                      (Serial_println
                         "EEPROM not initialized. Writing predefined cards..."
                         s0))).
    { unfold initStore, ifelse, storeBlank. rewrite He.
      apply Z.eqb_neq in Hm. rewrite Hm. reflexivity. }
    rewrite Hs.
    pose proof (seeded_store g s0) as He1. rewrite He in He1.
    specialize (He1 Hlen).
    assert (Hl1 : Stable (fun s => length (registeredCards s) = 5%nat)
                    (Serial_println
                       "EEPROM not initialized. Writing predefined cards..." ;;
                     writePredefinedCardsToEEPROM g ;;
                     EEPROM_put EEPROM_ADDR_MAGIC
                       [MAGIC_VALUE mod 256; MAGIC_VALUE / 256])) by stable.
    specialize (Hl1 s0 Hl). rewrite !seq_apply in Hl1.
    revert He1 Hl1.
    generalize (EEPROM_put EEPROM_ADDR_MAGIC
                  [MAGIC_VALUE mod 256; MAGIC_VALUE / 256]
                  (writePredefinedCardsToEEPROM g
                     (Serial_println
                        "EEPROM not initialized. Writing predefined cards..."
                        s0))).
    intros s1 He1 Hl1.
    destruct (loadCardsFromEEPROM_holds _ predefinedUsers s1 He1 Hl1
                (seeded_holds g (drop 87 e)))
      as (H1 & H2 & H3).
    { repeat constructor; discriminate. }
    { cbn. lia. }
    rewrite H1, H2, H3.
    split; [apply seeded_holds|]. split; [|split; reflexivity].
    rewrite !app_assoc. apply drop_app_length'.
    rewrite !length_app, !length_cardImage. reflexivity.
  - intros e Hm Hc. rewrite boot_unfold.
    destruct (initBoard_powerOn e) as [He Hl].
    revert He Hl. generalize (initBoard (powerOn e)). intros s0 He Hl.
    assert (Hs : initStore g s0 =
                 Serial_println "EEPROM already initialized. Loading cards..."
                   s0).
    { unfold initStore, ifelse, storeBlank.
      rewrite He, Hm, Z.eqb_refl. reflexivity. }
    rewrite Hs. apply loadCardsFromEEPROM_invalid; [exact He | exact Hc].
Qed.

(** The three cases of C9 on concrete stores: an erased store is seeded
    with the factory cards; powering up again on the seeded store loads
    the same three cards and writes nothing; a store with the marker and a
    count of 9 gives an empty registry. *)
Lemma C9_registry_load_witness :
  (EEPROM_get16 erasedEEPROM EEPROM_ADDR_MAGIC <> MAGIC_VALUE /\
   (87 <= length erasedEEPROM)%nat /\
   holds (eeprom (boot erasedEEPROM (fun _ => []))) predefinedUsers /\
   numLoadedCards (boot erasedEEPROM (fun _ => [])) = 3 /\
   loadedCards (boot erasedEEPROM (fun _ => [])) = predefinedUsers) /\
  (eeprom (boot (eeprom (boot erasedEEPROM (fun _ => []))) (fun _ => []))
   = eeprom (boot erasedEEPROM (fun _ => [])) /\
   loadedCards (boot (eeprom (boot erasedEEPROM (fun _ => []))) (fun _ => []))
   = map freshCard predefinedUsers) /\
  (EEPROM_get16 overfullEEPROM EEPROM_ADDR_MAGIC = MAGIC_VALUE /\
   ~ (0 <= EEPROM_read overfullEEPROM EEPROM_ADDR_NUM_CARDS
      <= MAX_REGISTERED_CARDS) /\
   eeprom (boot overfullEEPROM (fun _ => [])) = overfullEEPROM /\
   numLoadedCards (boot overfullEEPROM (fun _ => [])) = 0 /\
   loadedCards (boot overfullEEPROM (fun _ => [])) = []).
Proof.
  destruct (C9_registry_load (fun _ => [])) as (Hstored & Hfirst & Hbad).
  assert (Hm : EEPROM_get16 erasedEEPROM EEPROM_ADDR_MAGIC <> MAGIC_VALUE)
    by (vm_compute; discriminate).
  assert (Hlen : (87 <= length erasedEEPROM)%nat)
    by (unfold erasedEEPROM; rewrite length_replicate; lia).
  assert (Hm' : EEPROM_get16 overfullEEPROM EEPROM_ADDR_MAGIC = MAGIC_VALUE)
    by (vm_compute; reflexivity).
  assert (Hc : ~ (0 <= EEPROM_read overfullEEPROM EEPROM_ADDR_NUM_CARDS
                  <= MAX_REGISTERED_CARDS))
    by (intros [_ H]; vm_compute in H; apply H; reflexivity).
  destruct (Hfirst erasedEEPROM Hm Hlen) as (Hh & _ & Hn & Hl).
  assert (Hnn : Forall (fun c => noNul (name c)) predefinedUsers)
    by (repeat constructor; discriminate).
  assert (H5 : (length predefinedUsers <= 5)%nat) by (cbn; lia).
  destruct (Hstored _ predefinedUsers Hh H5 Hnn) as (He2 & _ & Hl2).
  destruct (Hbad overfullEEPROM Hm' Hc) as (He3 & Hn3 & Hl3).
  split; [|split].
  - split; [exact Hm|]. split; [exact Hlen|]. split; [exact Hh|].
    split; [exact Hn | exact Hl].
  - split; [exact He2 | exact Hl2].
  - split; [exact Hm'|]. split; [exact Hc|]. split; [exact He3|].
    split; [exact Hn3 | exact Hl3].
Defined.
(** * The card reader *)

Lemma uidMatches_spec (c : RegisteredCard) (u : list Z) (n : nat) :
  forall j, 0 <= j ->
    uidMatches c u n j = true <->
    forall k, j <= k < j + Z.of_nat n ->
              uid c !!! Z.to_nat k = u !!! Z.to_nat k.
Proof.
  induction n as [|n IH]; intros j Hj; cbn [uidMatches].
  - split; [intros _ k Hk; lia | reflexivity].
  - destruct (uid c !!! Z.to_nat j =? u !!! Z.to_nat j) eqn:E; cbn [negb].
    + apply Z.eqb_eq in E. rewrite IH by lia. split.
      * intros H k Hk. destruct (decide (k = j)) as [->|Hne]; [exact E|].
        apply H. lia.
      * intros H k Hk. apply H. lia.
    + apply Z.eqb_neq in E. split; [discriminate|].
      intros H. exfalso. apply E, H. lia.
Qed.

Lemma uidMatches_matchesCard (c : RegisteredCard) (u : list Z) (usize : Z) :
  uidSize c = usize ->
  uidMatches c u (Z.to_nat usize) 0 = true <-> matchesCard c u usize.
Proof.
  intros Hs. rewrite uidMatches_spec by lia. unfold matchesCard. split.
  - intros H. split; [exact Hs|]. intros j Hj. apply H. lia.
  - intros [_ H] k Hk. apply H. lia.
Qed.

Lemma findCardFrom_spec (cards : list RegisteredCard) (u : list Z) (usize : Z)
    (n : nat) :
  forall i, 0 <= i ->
    let r := findCardFrom cards u usize n i in
    (r = -1 /\
     forall k, i <= k < i + Z.of_nat n ->
               ~ matchesCard (cards !!! Z.to_nat k) u usize) \/
    (i <= r < i + Z.of_nat n /\
     matchesCard (cards !!! Z.to_nat r) u usize /\
     forall k, i <= k < r -> ~ matchesCard (cards !!! Z.to_nat k) u usize).
Proof.
  induction n as [|n IH]; intros i Hi; cbn [findCardFrom]; cbv zeta.
  - left. split; [reflexivity|]. intros k Hk. lia.
  - assert (Hskip :
      ~ matchesCard (cards !!! Z.to_nat i) u usize ->
      let r := findCardFrom cards u usize n (i + 1) in
      (r = -1 /\
       forall k, i <= k < i + Z.of_nat (S n) ->
                 ~ matchesCard (cards !!! Z.to_nat k) u usize) \/
      (i <= r < i + Z.of_nat (S n) /\
       matchesCard (cards !!! Z.to_nat r) u usize /\
       forall k, i <= k < r -> ~ matchesCard (cards !!! Z.to_nat k) u usize)).
    { intros Hno. cbv zeta.
      destruct (IH (i + 1)) as [[Hr Hall]|(Hr & Hm & Hall)]; [lia|..].
      - left. split; [exact Hr|]. intros k Hk.
        destruct (decide (k = i)) as [->|Hne]; [exact Hno|]. apply Hall. lia.
      - right. split; [lia|]. split; [exact Hm|]. intros k Hk.
        destruct (decide (k = i)) as [->|Hne]; [exact Hno|]. apply Hall. lia. }
    destruct (uidSize (cards !!! Z.to_nat i) =? usize) eqn:Es; cbn [negb].
    + apply Z.eqb_eq in Es.
      destruct (uidMatches (cards !!! Z.to_nat i) u (Z.to_nat usize) 0) eqn:Em.
      * right. split; [lia|]. split.
        -- apply uidMatches_matchesCard; assumption.
        -- intros k Hk. lia.
      * apply Hskip. intros Hm.
        apply (uidMatches_matchesCard _ _ _ Es) in Hm. congruence.
    + apply Z.eqb_neq in Es. apply Hskip. intros [Hm _]. contradiction.
Qed.

(** X1.  [findCardIndex] returns the index of the first loaded registry
    entry that answers to the presented identifier (same length byte and
    the same bytes below it), and -1 when no loaded entry does; entries at
    or beyond [numLoadedCards] are never looked at. *)
Theorem X1_findCardIndex_first_match (s : State) (u : list Z) (usize : Z) :
  let r := findCardIndex s u usize in
  (r = -1 /\
   forall k, 0 <= k < numLoadedCards s ->
             ~ matchesCard (registeredCards s !!! Z.to_nat k) u usize) \/
  (0 <= r < numLoadedCards s /\
   matchesCard (registeredCards s !!! Z.to_nat r) u usize /\
   forall k, 0 <= k < r ->
             ~ matchesCard (registeredCards s !!! Z.to_nat k) u usize).
Proof.
  cbv zeta. unfold findCardIndex.
  destruct (findCardFrom_spec (registeredCards s) u usize
              (Z.to_nat (numLoadedCards s)) 0) as [[Hr H]|(Hr & Hm & H)];
    [lia|..].
  - left. split; [exact Hr|]. intros k Hk. apply H. lia.
  - right. split; [lia|]. split; [exact Hm | exact H].
Qed.

Lemma emit_emits (e : Event) (s : State) : emit e s = emits [e] s.
Proof. reflexivity. Qed.

Lemma emits_emits (a b : list Event) (s : State) :
  emits a (emits b s) = emits (a ++ b) s.
Proof. unfold emits. cbn. rewrite app_assoc. reflexivity. Qed.

Lemma emits_nil (s : State) : emits [] s = s.
Proof. destruct s; reflexivity. Qed.

(** A loop whose rounds only talk to the outside world. *)
Lemma for_loop_events (ev : Z -> list Event) (body : Z -> Cmd) :
  (forall j s, body j s = emits (rev (ev j)) s) ->
  forall n i s,
    for_loop n i body s =
    emits (rev (concat (map ev (seqZ i (Z.of_nat n))))) s.
Proof.
  intros Hb n. induction n as [|n IH]; intros i s.
  - cbn. symmetry. apply emits_nil.
  - cbn [for_loop]. rewrite seq_apply, Hb, IH, emits_emits.
    rewrite (seqZ_cons i (Z.of_nat (S n))) by lia.
    replace (Z.pred (Z.of_nat (S n))) with (Z.of_nat n) by lia.
    replace (Z.succ i) with (i + 1) by lia.
    cbn [map concat]. rewrite rev_app_distr. reflexivity.
Qed.

Lemma printUidBytes_events (bytes : list Z) (n : Z) (s : State) :
  printUidBytes bytes n s = emits (rev (uidEvents bytes n)) s.
Proof.
  unfold printUidBytes, uidEvents.
  rewrite (for_loop_events
             (fun j => let b := bytes !!! Z.to_nat j in
                       [ SerialPrint (if b <? 16 then " 0" else " ");
                         SerialPrint (hex b) ])) by reflexivity.
  destruct (Z.le_gt_cases 0 n) as [H|H].
  - rewrite Z2Nat.id by exact H. reflexivity.
  - replace (Z.to_nat n) with 0%nat by lia.
    rewrite (seqZ_nil 0 n) by lia. reflexivity.
Qed.

Lemma findCardIndex_emits (evs : list Event) (s : State) (u : list Z) (n : Z) :
  findCardIndex (emits evs s) u n = findCardIndex s u n.
Proof. reflexivity. Qed.

(** The first matching entry is the one that [findCardIndex] returns. *)
Lemma findCardIndex_first (s : State) (u : list Z) (usize k : Z) :
  0 <= k < numLoadedCards s ->
  matchesCard (registeredCards s !!! Z.to_nat k) u usize ->
  (forall j, 0 <= j < k ->
             ~ matchesCard (registeredCards s !!! Z.to_nat j) u usize) ->
  findCardIndex s u usize = k.
Proof.
  intros Hk Hm Hfirst. unfold findCardIndex.
  destruct (findCardFrom_spec (registeredCards s) u usize
              (Z.to_nat (numLoadedCards s)) 0) as [[_ H]|(Hr & Hm' & H)];
    [lia|..].
  - exfalso. apply (H k); [lia | exact Hm].
  - set (r := findCardFrom _ _ _ _ _) in *.
    destruct (Z.lt_trichotomy r k) as [Hlt|[Heq|Hgt]]; [|exact Heq|].
    + exfalso. apply (Hfirst r); [lia | exact Hm'].
    + exfalso. apply (H k); [lia | exact Hm].
Qed.

(** The reader's block up to the look-up. *)
Lemma scan_prefix (u : Uid) (s : State) :
  Serial_println ""
    (printUidBytes (uidByte u) (size u) (Serial_print "Scanned Card UID:" s)) =
  emits (rev (scanEvents u)) s.
Proof.
  rewrite printUidBytes_events. unfold Serial_println, Serial_print.
  rewrite !emit_emits, !emits_emits. unfold scanEvents. f_equal.
  rewrite ?rev_app_distr. cbn [rev app]. rewrite <- ?app_assoc. reflexivity.
Qed.

Lemma handleRFID_scan (i : Input) (u : Uid) (s : State) :
  card i = Some u -> hasRotated s = false ->
  handleRFID i s =
  emit PcdStopCrypto
    (emit PiccHalt
       (local (fun s => findCardIndex s (uidByte u) (size u))
          (fun cardIndex =>
             if negb (cardIndex =? -1) then
               Serial_print "Access Granted! Welcome, " ;;
               local (fun s => name (registeredCards s !!! Z.to_nat cardIndex))
                 Serial_println ;;
               bumpScanCount cardIndex ;;
               assign set_lastScannedName
                 (fun s => name (registeredCards s !!! Z.to_nat cardIndex)) ;;
               assign set_lastScannedCount
                 (fun s => scanCount (registeredCards s !!! Z.to_nat cardIndex)) ;;
               activateServo
             else
               Serial_println "Access Denied: Unknown Card.")
          (emits (rev (scanEvents u)) s))).
Proof.
  intros Hc Hr. unfold handleRFID.
  rewrite when_true by (rewrite Hr; reflexivity).
  rewrite Hc. do 5 rewrite seq_apply. rewrite scan_prefix. reflexivity.
Qed.

(** X2.  A card that answers to no loaded registry entry is turned away:
    the pass logs the identifier and "Access Denied: Unknown Card." and
    changes nothing else, so the gate is not opened, no scan is counted
    and the close timeout is not re-armed. *)
Theorem X2_unknown_card_is_denied (i : Input) (u : Uid) (s : State) :
  card i = Some u -> hasRotated s = false ->
  (forall k, 0 <= k < numLoadedCards s ->
             ~ matchesCard (registeredCards s !!! Z.to_nat k)
                 (uidByte u) (size u)) ->
  handleRFID i s = emits (rev (deniedEvents u)) s.
Proof.
  intros Hc Hr Hno. rewrite (handleRFID_scan i u s Hc Hr).
  assert (Hidx : findCardIndex s (uidByte u) (size u) = -1).
  { destruct (findCardFrom_spec (registeredCards s) (uidByte u) (size u)
                (Z.to_nat (numLoadedCards s)) 0) as [[H _]|(Hk & Hm & _)];
      [lia | exact H |].
    exfalso. revert Hk Hm. generalize (findCardFrom (registeredCards s)
      (uidByte u) (size u) (Z.to_nat (numLoadedCards s)) 0).
    intros r Hk Hm. apply (Hno r); [lia | exact Hm]. }
  rewrite local_apply, findCardIndex_emits, Hidx. cbn [Z.eqb negb Pos.eqb].
  unfold Serial_println. rewrite !emit_emits, !emits_emits.
  f_equal. unfold deniedEvents. rewrite rev_app_distr. reflexivity.
Qed.

(** X3.  A card that answers to a loaded registry entry is granted to the
    first such entry: its scan count goes up by one (modulo 2^16) and no
    other entry changes, the entry's name and new count are recorded as the
    last scan, the servo is sent to the open position, the card-open flag is
    set and the close timeout is re-armed at the current time. *)
Theorem X3_known_card_is_granted (i : Input) (u : Uid) (s : State) (k : Z) :
  card i = Some u -> hasRotated s = false -> RegistryOK s ->
  0 <= k < numLoadedCards s ->
  matchesCard (registeredCards s !!! Z.to_nat k) (uidByte u) (size u) ->
  (forall j, 0 <= j < k ->
             ~ matchesCard (registeredCards s !!! Z.to_nat j)
                 (uidByte u) (size u)) ->
  let c := registeredCards s !!! Z.to_nat k in
  let s' := handleRFID i s in
  registeredCards s' = <[Z.to_nat k := scannedOnce c]> (registeredCards s) /\
  lastScannedName s' = name c /\
  lastScannedCount s' = wrap16 (scanCount c + 1) /\
  servoOpen s' = true /\ servoAngle s' = 120 /\
  lastMessageTime s' = millis s /\
  passEvents s s' = grantedEvents u (name c).
Proof.
  intros Hc Hr [Hlen Hn] Hk Hm Hfirst c s'. subst s'.
  rewrite (handleRFID_scan i u s Hc Hr).
  rewrite local_apply, findCardIndex_emits.
  rewrite (findCardIndex_first s _ _ k Hk Hm Hfirst).
  replace (negb (k =? -1)) with true
    by (symmetry; apply negb_true_iff, Z.eqb_neq; lia).
  assert (Hcards : registeredCards (emits (rev (scanEvents u)) s)
                   = registeredCards s) by reflexivity.
  assert (Hclock : millis (emits (rev (scanEvents u)) s) = millis s)
    by reflexivity.
  assert (Htrace : trace (emits (rev (scanEvents u)) s)
                   = rev (scanEvents u) ++ trace s) by reflexivity.
  revert Hcards Hclock Htrace.
  generalize (emits (rev (scanEvents u)) s). intros s1 Hcards Hclock Htrace.
  do 5 rewrite seq_apply.
  assert (Hin : (Z.to_nat k < length (registeredCards s1))%nat)
    by (rewrite Hcards; lia).
  split; [|split; [|split; [|split; [|split; [|split]]]]].
  - cbn. rewrite Hcards. reflexivity.
  - cbn. rewrite list_lookup_total_insert_eq by exact Hin.
    rewrite Hcards. reflexivity.
  - cbn. rewrite list_lookup_total_insert_eq by exact Hin.
    rewrite Hcards. reflexivity.
  - reflexivity.
  - reflexivity.
  - cbn. exact Hclock.
  - apply passEvents_rev. unfold grantedEvents.
    rewrite (rev_app_distr (scanEvents u)), <- app_assoc, <- Htrace.
    cbn. rewrite Hcards. reflexivity.
Qed.

(** X2 at work: a card that is not in the factory set, after a first
    boot. *)
Lemma X2_unknown_card_is_denied_witness :
  handleRFID (scan 100 strangerCard) firstBoot =
  emits (rev (deniedEvents strangerCard)) firstBoot.
Proof.
  apply X2_unknown_card_is_denied.
  - reflexivity.
  - vm_compute. reflexivity.
  - intros k Hk [_ Hb].
    assert (H0 : uid (registeredCards firstBoot !!! Z.to_nat k) !!! 0%nat
                 = uidByte strangerCard !!! 0%nat)
      by (apply (Hb 0); vm_compute; split; [discriminate | reflexivity]).
    assert (Hk' : 0 <= k < 3) by exact Hk.
    assert (Hc : k = 0 \/ k = 1 \/ k = 2) by lia.
    destruct Hc as [->|[->| ->]]; vm_compute in H0; discriminate H0.
Defined.

(** X3 at work: the second factory card, after a first boot. *)
Lemma X3_known_card_is_granted_witness :
  map scanCount (registeredCards (handleRFID (scan 100 helperCard) firstBoot))
  = [0; 1; 0; 0; 0] /\
  lastScannedName (handleRFID (scan 100 helperCard) firstBoot) = "HELPER" /\
  servoOpen (handleRFID (scan 100 helperCard) firstBoot) = true.
Proof.
  destruct (X3_known_card_is_granted (scan 100 helperCard) helperCard
              firstBoot 1) as (Hcards & Hname & _ & Hopen & _).
  - reflexivity.
  - vm_compute. reflexivity.
  - apply boot_RegistryOK.
  - vm_compute. split; [discriminate | reflexivity].
  - split; [vm_compute; reflexivity|].
    intros j Hj.
    assert (Hj' : 0 <= j < 4) by exact Hj.
    assert (Hc : j = 0 \/ j = 1 \/ j = 2 \/ j = 3) by lia.
    destruct Hc as [->|[->|[->| ->]]]; vm_compute; reflexivity.
  - intros j Hj [_ Hb].
    assert (H0 : uid (registeredCards firstBoot !!! Z.to_nat j) !!! 0%nat
                 = uidByte helperCard !!! 0%nat)
      by (apply (Hb 0); vm_compute; split; [discriminate | reflexivity]).
    assert (Hc : j = 0) by lia. subst j.
    vm_compute in H0. discriminate H0.
  - split; [rewrite Hcards; vm_compute; reflexivity|].
    split; [rewrite Hname; vm_compute; reflexivity | exact Hopen].
Defined.

(** * The panic button *)

Lemma step_button (T : Z) (i : Input) (s : State) :
  emergencyPressCount (step T i s) =
    (if pressed (button i) (tick i s)
     then wrap16 (emergencyPressCount s + 1) else emergencyPressCount s) /\
  lastButtonState (step T i s) = button i.
Proof.
  assert (HN : forall n b,
             Stable (fun s => emergencyPressCount s = n /\ lastButtonState s = b)
               (when (fun s => negb (emergencyMode s)) (normalPass T i)))
    by (intros n b; stable).
  unfold step, loop. rewrite !seq_apply. apply HN.
  destruct (pressed (button i) (tick i s)) eqn:Hp.
  - rewrite handler_press by exact Hp. split; reflexivity.
  - unfold handleEmergencyButton. rewrite !seq_apply.
    rewrite (when_false _ _ _ Hp).
    assert (HC : Stable (fun s' => emergencyPressCount s' = emergencyPressCount s)
                   (when emergencyExpired clearEmergency)) by stable.
    split; [|reflexivity]. apply (HC (tick i s)). reflexivity.
Qed.

Lemma run_button (T : Z) (ins : list Input) :
  forall s, 0 <= emergencyPressCount s < 2 ^ 16 ->
    emergencyPressCount (run T ins s) =
      wrap16 (emergencyPressCount s + presses (lastButtonState s) ins) /\
    lastButtonState (run T ins s) = lastButton (lastButtonState s) ins.
Proof.
  induction ins as [|i rest IH]; intros s Hs.
  - cbn [run presses lastButton]. unfold skip. split; [|reflexivity].
    unfold wrap16. rewrite Z.add_0_r, Z.mod_small by exact Hs. reflexivity.
  - cbn [run presses lastButton]. rewrite seq_apply.
    destruct (step_button T i s) as [Hc Hb].
    assert (Hp : pressed (button i) (tick i s)
                 = isLow (button i) && isHigh (lastButtonState s))
      by reflexivity.
    rewrite Hp in Hc.
    destruct (IH (step T i s)) as [Hc' Hb'].
    { rewrite Hc. destruct (isLow (button i) && isHigh (lastButtonState s));
        [apply Z.mod_pos_bound; lia | exact Hs]. }
    rewrite Hc', Hb', Hb, Hc. split; [|reflexivity].
    destruct (isLow (button i) && isHigh (lastButtonState s)).
    + unfold wrap16. rewrite Zplus_mod_idemp_l. f_equal. lia.
    + f_equal.
Qed.

Lemma boot_button (e : list Z) (g : Z -> list Z) :
  emergencyPressCount (boot e g) = 0 /\ lastButtonState (boot e g) = HIGH.
Proof.
  assert (H : Stable (fun s => emergencyPressCount s = 0
                               /\ lastButtonState s = HIGH) (setup g))
    by stable.
  apply H. split; reflexivity.
Qed.

(** X4.  [emergencyPressCount] counts the presses of the panic button
    since power-up, modulo 2^16: every reading that is pressed right after
    a released one counts once, whether or not an emergency is already in
    force, and a button that is held counts once. *)
Theorem X4_press_count_counts_press_edges
    (T : Z) (e : list Z) (g : Z -> list Z) (ins : list Input) :
  emergencyPressCount (run T ins (boot e g)) = wrap16 (presses HIGH ins) /\
  lastButtonState (run T ins (boot e g)) = lastButton HIGH ins.
Proof.
  destruct (boot_button e g) as [Hc Hb].
  destruct (run_button T ins (boot e g)) as [Hc' Hb'].
  { rewrite Hc. lia. }
  rewrite Hc', Hb', Hc, Hb. split; reflexivity.
Qed.

(** * What the loop leaves alone *)

Lemma step_eeprom (T : Z) (i : Input) (e : list Z) :
  Stable (fun s => eeprom s = e) (step T i).
Proof. stable. Qed.

(** X5.  The control loop never writes the EEPROM: whatever the inputs,
    the store is after any number of passes what it was before. *)
Theorem X5_loop_never_writes_store (T : Z) (ins : list Input) (s : State) :
  eeprom (run T ins s) = eeprom s.
Proof.
  revert s. induction ins as [|i rest IH]; intros s; [reflexivity|].
  cbn [run]. rewrite seq_apply, IH. apply step_eeprom. reflexivity.
Qed.

Lemma run_eeprom (T : Z) (ins : list Input) (s : State) :
  eeprom (run T ins s) = eeprom s.
Proof.
  revert s. induction ins as [|i rest IH]; intros s; [reflexivity|].
  cbn [run]. rewrite seq_apply, IH. apply step_eeprom. reflexivity.
Qed.

Lemma freshCard_scannedOnce (c : RegisteredCard) :
  freshCard (scannedOnce c) = freshCard c.
Proof. reflexivity. Qed.

Lemma bumpScanCount_SameCards (n : Z) (r : list RegisteredCard) (k : Z) :
  Stable (SameCards n r) (bumpScanCount k).
Proof.
  intros s [Hn Hr]. split; [exact Hn|].
  unfold bumpScanCount, local, setCard, assign.
  cbn [registeredCards set_registeredCards].
  rewrite <- Hr.
  change (map freshCard) with (fmap (M:=list) freshCard).
  rewrite list_fmap_insert. cbn [freshCard uid uidSize name].
  apply list_insert_id'. rewrite length_fmap. intros Hk.
  rewrite list_lookup_fmap, (list_lookup_lookup_total_lt _ _ Hk).
  reflexivity.
Qed.

#[global] Hint Resolve bumpScanCount_SameCards : stable.

Lemma step_SameCards (T : Z) (i : Input) (n : Z) (r : list RegisteredCard) :
  Stable (SameCards n r) (step T i).
Proof. stable. Qed.

Lemma run_SameCards (T : Z) (ins : list Input) (n : Z)
    (r : list RegisteredCard) :
  Stable (SameCards n r) (run T ins).
Proof.
  induction ins as [|i rest IH]; cbn [run].
  - apply stable_skip.
  - apply stable_seq; [apply step_SameCards | exact IH].
Qed.

(** X6.  The control loop never edits the identity of a registry entry:
    after any number of passes the count of loaded cards is the same and
    every entry has the identifier, length byte and name it had; only scan
    counts change. *)
Theorem X6_loop_keeps_registry_identities
    (T : Z) (ins : list Input) (s : State) :
  numLoadedCards (run T ins s) = numLoadedCards s /\
  map freshCard (registeredCards (run T ins s))
  = map freshCard (registeredCards s).
Proof.
  apply (run_SameCards T ins (numLoadedCards s)
           (map freshCard (registeredCards s)) s).
  split; reflexivity.
Qed.

(** * Power cycles *)

Lemma freshCard_decodeCard (e : list Z) (i : Z) :
  freshCard (decodeCard e i) = decodeCard e i.
Proof. reflexivity. Qed.

Lemma map_freshCard_decoded (e : list Z) (l : list Z) :
  map freshCard (map (decodeCard e) l) = map (decodeCard e) l.
Proof.
  induction l as [|i l IH]; [reflexivity|]. cbn [map]. rewrite IH. reflexivity.
Qed.

(** One round of the loading loop, whatever the store holds. *)
Lemma loadCard_decodes (e : list Z) (n : Z) (j : nat) (s : State) :
  0 <= n <= 5 -> (j < Z.to_nat n)%nat ->
  Loaded e (map (decodeCard e) (seqZ 0 n)) j s ->
  Loaded e (map (decodeCard e) (seqZ 0 n)) (S j) (loadCard (Z.of_nat j) s).
Proof.
  intros Hn Hj (He & Hc & Hlen & Htake).
  assert (Hj' : map (decodeCard e) (seqZ 0 n) !! j
                = Some (decodeCard e (Z.of_nat j))).
  { change (map (decodeCard e)) with (fmap (M:=list) (decodeCard e)).
    rewrite list_lookup_fmap, lookup_seqZ_lt by lia. reflexivity. }
  unfold loadCard, local. rewrite He, seq_apply.
  match goal with |- Loaded _ _ _ (?rest ?s1) =>
    assert (Hs : Stable (Loaded e (map (decodeCard e) (seqZ 0 n)) (S j)) rest)
      by stable;
    apply Hs end.
  unfold setCard, assign. rewrite Nat2Z.id.
  split; [exact He|]. split; [exact Hc|].
  cbn [registeredCards set_registeredCards].
  split; [rewrite length_insert; exact Hlen|].
  rewrite (take_S_r _ j _ Hj'), map_app, <- Htake.
  rewrite (take_S_r _ j (decodeCard e (Z.of_nat j)))
    by (apply list_lookup_insert_eq; lia).
  rewrite take_insert_ge by lia. reflexivity.
Qed.

(** Loading from any store: the registry is what the store decodes to. *)
Lemma loadCardsFromEEPROM_decodes (s : State) :
  length (registeredCards s) = 5%nat ->
  eeprom (loadCardsFromEEPROM s) = eeprom s /\
  numLoadedCards (loadCardsFromEEPROM s) = storedCount (eeprom s) /\
  loadedCards (loadCardsFromEEPROM s) = storedCards (eeprom s).
Proof.
  intros Hlen. unfold storedCards, storedCount.
  destruct ((EEPROM_read (eeprom s) EEPROM_ADDR_NUM_CARDS >? MAX_REGISTERED_CARDS)
            || (EEPROM_read (eeprom s) EEPROM_ADDR_NUM_CARDS <? 0)) eqn:E.
  - apply loadCardsFromEEPROM_invalid; [reflexivity|].
    apply orb_true_iff in E. rewrite Z.gtb_ltb, !Z.ltb_lt in E. lia.
  - apply orb_false_elim in E as [E1 E2].
    rewrite Z.gtb_ltb in E1. apply Z.ltb_ge in E1, E2.
    unfold MAX_REGISTERED_CARDS in E1.
    set (e := eeprom s) in *.
    set (n := EEPROM_read e EEPROM_ADDR_NUM_CARDS) in *.
    assert (HL : Loaded e (map (decodeCard e) (seqZ 0 n)) (Z.to_nat n)
                   (loadCardsFromEEPROM s)).
    { unfold loadCardsFromEEPROM. rewrite seq_apply.
      assert (Hn1 : numLoadedCards
                      (assign set_numLoadedCards
                         (fun s => EEPROM_read (eeprom s) EEPROM_ADDR_NUM_CARDS)
                         s) = n) by reflexivity.
      assert (H1 : Loaded e (map (decodeCard e) (seqZ 0 n)) 0
                     (assign set_numLoadedCards
                        (fun s => EEPROM_read (eeprom s) EEPROM_ADDR_NUM_CARDS)
                        s)).
      { split; [reflexivity|]. split; [|split; [exact Hlen | reflexivity]].
        rewrite Hn1, length_map, length_seqZ. lia. }
      revert Hn1 H1.
      generalize (assign set_numLoadedCards
                    (fun s => EEPROM_read (eeprom s) EEPROM_ADDR_NUM_CARDS) s).
      intros s1 Hn1 H1.
      unfold ifelse. rewrite Hn1.
      replace ((n >? MAX_REGISTERED_CARDS) || (n <? 0)) with false
        by (symmetry; apply orb_false_intro;
            [rewrite Z.gtb_ltb; apply Z.ltb_ge; unfold MAX_REGISTERED_CARDS; lia
            | apply Z.ltb_ge; lia]).
      rewrite seq_apply, (local_apply numLoadedCards _ s1), Hn1.
      match goal with |- Loaded _ _ _ (?rest ?s2) =>
        assert (Hs : Stable (Loaded e (map (decodeCard e) (seqZ 0 n))
                               (Z.to_nat n)) rest) by stable;
        apply Hs end.
      apply (for_loop_rounds (Loaded e (map (decodeCard e) (seqZ 0 n))));
        [|exact H1].
      intros j s0 Hj. apply loadCard_decodes; [lia | exact Hj]. }
    destruct HL as (He' & Hn' & _ & Ht).
    split; [exact He'|].
    assert (Hlen' : length (map (decodeCard e) (seqZ 0 n)) = Z.to_nat n)
      by (rewrite length_map, length_seqZ; reflexivity).
    split; [rewrite Hn', Hlen'; lia|].
    unfold loadedCards. rewrite Hn', Nat2Z.id, Hlen', Ht.
    rewrite take_ge by lia. apply map_freshCard_decoded.
Qed.

Lemma initStore_length (g : Z -> list Z) :
  Stable (fun s => length (registeredCards s) = 5%nat) (initStore g).
Proof. stable. Qed.

(** After power-up the store carries the marker, and the registry is what
    the store decodes to. *)
Lemma boot_store (e : list Z) (g : Z -> list Z) :
  (87 <= length e)%nat ->
  EEPROM_get16 (eeprom (boot e g)) EEPROM_ADDR_MAGIC = MAGIC_VALUE /\
  numLoadedCards (boot e g) = storedCount (eeprom (boot e g)) /\
  loadedCards (boot e g) = storedCards (eeprom (boot e g)).
Proof.
  intros Hlen. rewrite boot_unfold.
  destruct (initBoard_powerOn e) as [He Hl].
  revert He Hl. generalize (initBoard (powerOn e)). intros s0 He Hl.
  assert (Hm : EEPROM_get16 (eeprom (initStore g s0)) EEPROM_ADDR_MAGIC
               = MAGIC_VALUE).
  { unfold initStore, ifelse, storeBlank.
    destruct (EEPROM_get16 (eeprom s0) EEPROM_ADDR_MAGIC =? MAGIC_VALUE) eqn:E;
      cbn [negb].
    - apply Z.eqb_eq in E. exact E.
    - rewrite !seq_apply, seeded_store by (rewrite He; exact Hlen).
      reflexivity. }
  pose proof (initStore_length g s0 Hl) as Hl1.
  revert Hm Hl1. generalize (initStore g s0). intros s1 Hm Hl1.
  destruct (loadCardsFromEEPROM_decodes s1 Hl1) as (H1 & H2 & H3).
  rewrite H1, H2, H3. split; [exact Hm|]. split; reflexivity.
Qed.

(** Power-up on a store that carries the marker writes nothing and loads
    what the store decodes to. *)
Lemma boot_marked (e : list Z) (g : Z -> list Z) :
  EEPROM_get16 e EEPROM_ADDR_MAGIC = MAGIC_VALUE ->
  eeprom (boot e g) = e /\
  numLoadedCards (boot e g) = storedCount e /\
  loadedCards (boot e g) = storedCards e.
Proof.
  intros Hm. rewrite boot_unfold.
  destruct (initBoard_powerOn e) as [He Hl].
  revert He Hl. generalize (initBoard (powerOn e)). intros s0 He Hl.
  assert (Hs : initStore g s0 =
               Serial_println "EEPROM already initialized. Loading cards..."
                 s0).
  { unfold initStore, ifelse, storeBlank.
    rewrite He, Hm, Z.eqb_refl. reflexivity. }
  rewrite Hs.
  assert (He1 : eeprom (Serial_println
                  "EEPROM already initialized. Loading cards..." s0) = e)
    by exact He.
  assert (Hl1 : length (registeredCards (Serial_println
                  "EEPROM already initialized. Loading cards..." s0)) = 5%nat)
    by exact Hl.
  revert He1 Hl1.
  generalize (Serial_println "EEPROM already initialized. Loading cards..." s0).
  intros s1 He1 Hl1.
  destruct (loadCardsFromEEPROM_decodes s1 Hl1) as (H1 & H2 & H3).
  rewrite H1, H2, H3, He1. repeat split.
Qed.

Lemma take_map_freshCard (n : nat) (l : list RegisteredCard) :
  map freshCard (take n l) = take n (map freshCard l).
Proof.
  change (map freshCard) with (fmap (M:=list) freshCard).
  apply fmap_take.
Qed.

Lemma loadedCards_unfold (s : State) :
  loadedCards s = take (Z.to_nat (numLoadedCards s)) (registeredCards s).
Proof. reflexivity. Qed.

Lemma SameCards_refl (s : State) :
  SameCards (numLoadedCards s) (map freshCard (registeredCards s)) s.
Proof. split; reflexivity. Qed.

Lemma SameCards_elim (n : Z) (r : list RegisteredCard) (s : State) :
  SameCards n r s ->
  numLoadedCards s = n /\ map freshCard (registeredCards s) = r.
Proof. intros H. exact H. Qed.

(** X7.  A power cycle keeps the registry and resets the scan counts: when
    the controller is powered up again on the store that a run left
    behind, it writes nothing to the store and loads the same number of
    cards with the same identifiers, length bytes and names, each with a
    scan count of 0. *)
Theorem X7_power_cycle_keeps_cards_resets_counts
    (T : Z) (e : list Z) (g g' : Z -> list Z) (ins : list Input) :
  (87 <= length e)%nat ->
  let s := run T ins (boot e g) in
  let s' := boot (eeprom s) g' in
  eeprom s' = eeprom s /\
  numLoadedCards s' = numLoadedCards s /\
  loadedCards s' = map freshCard (loadedCards s).
Proof.
  intros Hlen s s'. subst s s'. rewrite run_eeprom.
  destruct (boot_store e g Hlen) as (Hm & Hn & Hc).
  destruct (SameCards_elim _ _ _
              (run_SameCards T ins _ _ (boot e g) (SameCards_refl (boot e g))))
    as [Hn' Hc'].
  rewrite (loadedCards_unfold (run T ins (boot e g))).
  rewrite Hn', take_map_freshCard, Hc', <- take_map_freshCard.
  rewrite <- loadedCards_unfold, Hc, Hn.
  revert Hm. generalize (eeprom (boot e g)). intros e1 Hm.
  destruct (boot_marked e1 g' Hm) as (H1 & H2 & H3).
  rewrite H1, H2, H3. split; [reflexivity|]. split; [reflexivity|].
  unfold storedCards. symmetry. apply map_freshCard_decoded.
Qed.

(** X7 at work: a first boot on an erased store, a granted card, and a
    second power-up. *)
Lemma X7_power_cycle_keeps_cards_resets_counts_witness :
  map scanCount
    (loadedCards (run TIMEOUT_MS [scan 100 helperCard] firstBoot))
  = [0; 1; 0] /\
  loadedCards
    (boot (eeprom (run TIMEOUT_MS [scan 100 helperCard]
                     (boot erasedEEPROM (fun _ => []))))
       (fun _ => []))
  = map freshCard
      (loadedCards (run TIMEOUT_MS [scan 100 helperCard]
                      (boot erasedEEPROM (fun _ => [])))).
Proof.
  split; [vm_compute; reflexivity|].
  apply (X7_power_cycle_keeps_cards_resets_counts TIMEOUT_MS erasedEEPROM
           (fun _ => []) (fun _ => []) [scan 100 helperCard]).
  unfold erasedEEPROM. rewrite length_replicate. lia.
Defined.

(** * The gate over time *)

(** X8.  A gate that is open is not closed by a pass in which a sensor
    reads non-clear at both places where closing is decided, for every
    timeout value and however long ago the timeout was armed: the servo
    stays at the open position, no close command is sent and no open flag
    is cleared. *)
Theorem X8_blocked_gate_is_never_closed (T : Z) (i : Input) (s : State) :
  isHigh (ir1_link i) && isHigh (ir2_link i) = false ->
  isHigh (ir1_close i) && isHigh (ir2_close i) = false ->
  servoAngle s = 120 ->
  servoAngle (step T i s) = 120 /\
  closes (trace (step T i s)) = closes (trace s) /\
  (hasRotated s = true -> hasRotated (step T i s) = true) /\
  (servoOpen s = true -> servoOpen (step T i s) = true).
Proof.
  intros Hl Hc Ha.
  destruct (hasRotated s) eqn:Hr, (servoOpen s) eqn:Ho;
    match goal with
    | Hr : hasRotated s = ?h, Ho : servoOpen s = ?o |- _ =>
        destruct (blocked_gate_stays_open T i h o (closes (trace s)) Hl Hc s)
          as (H1 & H2 & H3 & H4);
          [ split; [exact Ha|]; split; [reflexivity|];
            split; intros X; first [assumption | discriminate X]
          | split; [exact H1|]; split; [exact H2|];
            split; intros X; first [apply H3; exact X | apply H4; exact X
                                   | discriminate X] ]
    end.
Qed.

Lemma clockFrom_delay (c ms : Z) :
  0 <= ms -> Stable (ClockFrom c) (delay ms).
Proof.
  intros Hms s H. unfold ClockFrom in *. unfold delay. rewrite seq_apply.
  unfold assign. cbn. lia.
Qed.

#[global] Hint Extern 1 (Stable (ClockFrom _) (delay _)) =>
  apply clockFrom_delay; unfold IR_DEBOUNCE_MS; lia : stable.

Lemma loop_ClockFrom (T : Z) (i : Input) (c : Z) :
  Stable (ClockFrom c) (loop T i).
Proof. stable. Qed.

Lemma step_mono (T : Z) (i : Input) (s : State) :
  0 <= elapsed i -> clock s <= clock (step T i s).
Proof.
  intros He. unfold step. rewrite seq_apply.
  apply (loop_ClockFrom T i (clock s)). unfold ClockFrom, tick, assign. cbn.
  lia.
Qed.

Lemma run_mono (T : Z) (ins : list Input) :
  forall s, Forall (fun i => 0 <= elapsed i) ins ->
            clock s <= clock (run T ins s).
Proof.
  induction ins as [|i rest IH]; intros s Hins.
  - cbn. unfold skip. lia.
  - cbn [run]. rewrite seq_apply.
    apply Forall_cons in Hins as [Hi Hrest].
    pose proof (step_mono T i s Hi). pose proof (IH (step T i s) Hrest). lia.
Qed.

Lemma bluetoothTimeout_band (T : Z) (i : Input) (s : State) :
  since s (lastMessageTime s) <= T + GATE_BLOCK_CHECK_DELAY_MS ->
  bluetoothTimeout T i s = s.
Proof.
  intros H. unfold bluetoothTimeout.
  apply when_cases; intros _; [|reflexivity].
  apply when_cases; intros _; [|reflexivity].
  apply when_false. rewrite Z.gtb_ltb. apply Z.ltb_ge. exact H.
Qed.

Lemma stamp_arm (t : Z) : Stable (Stamp t) (assign set_lastMessageTime millis).
Proof.
  intros s (t' & Hm & Ht). exists (clock s). split; [reflexivity|].
  cbn. lia.
Qed.

Lemma stamp_delay (t ms : Z) : 0 <= ms -> Stable (Stamp t) (delay ms).
Proof.
  intros Hms s (t' & Hm & Ht). exists t'. split; [exact Hm|].
  unfold delay. rewrite seq_apply. unfold assign. cbn. lia.
Qed.

Lemma stamp_tick (t : Z) (i : Input) :
  0 <= elapsed i -> Stable (Stamp t) (tick i).
Proof.
  intros He s (t' & Hm & Ht). exists t'. split; [exact Hm|].
  unfold tick, assign. cbn. lia.
Qed.

#[global] Hint Resolve stamp_arm : stable.
#[global] Hint Extern 1 (Stable (Stamp _) (delay _)) =>
  apply stamp_delay; unfold IR_DEBOUNCE_MS; lia : stable.
#[global] Hint Extern 1 (Stable (Stamp _) (tick _)) =>
  apply stamp_tick; assumption : stable.

Lemma loop_Stamp (T : Z) (i : Input) (t : Z) : Stable (Stamp t) (loop T i).
Proof. stable. Qed.

(** The time since the close timeout was armed, as the sketch computes
    it, is at most the time since [t]. *)
Lemma stamp_since (t limit : Z) (s : State) :
  Stamp t s -> clock s - t <= limit -> limit < 2 ^ 32 ->
  since s (lastMessageTime s) <= limit.
Proof.
  intros (t' & Hm & Ht) Hc Hl. rewrite Hm, since_stamp by lia. lia.
Qed.

Lemma checkAndCloseServo_ClockIs (T : Z) (i : Input) (c : Z) :
  Stable (ClockIs c) (checkAndCloseServo T i).
Proof. stable. Qed.

(** One pass that ends at most [T + 1500] ms after the close timeout was
    armed. *)
Lemma step_held (T : Z) (i : Input) (h o : bool) (k : nat) (t : Z) (s : State) :
  GateHeld h o k s -> Stamp t s -> 0 <= elapsed i ->
  clock (step T i s) - t <= T + GATE_BLOCK_CHECK_DELAY_MS ->
  T + GATE_BLOCK_CHECK_DELAY_MS < 2 ^ 32 ->
  GateHeld h o k (step T i s) /\ Stamp t (step T i s).
Proof.
  intros Hg Hst He Hfin Hlim.
  assert (HS : Stamp t (step T i s)).
  { unfold step. rewrite seq_apply. apply loop_Stamp, stamp_tick; assumption. }
  split; [|exact HS].
  destruct (suspended i s) eqn:Hs.
  - rewrite step_suspended by exact Hs.
    assert (H : Stable (GateHeld h o k)
                  (tick i ;; handleEmergencyButton (button i))) by stable.
    apply H, Hg.
  - rewrite step_normal in Hfin |- * by exact Hs.
    unfold atCounter, atReader in Hfin |- *.
    assert (H2 : Stable (fun s' => GateHeld h o k s' /\ Stamp t s')
                   (tick i ;; handleEmergencyButton (button i) ;;
                    handleBluetooth i)).
    { intros s0 [G0 S0]. split.
      - assert (H : Stable (GateHeld h o k)
                      (tick i ;; handleEmergencyButton (button i) ;;
                       handleBluetooth i)) by stable.
        apply H, G0.
      - assert (H : Stable (Stamp t)
                      (tick i ;; handleEmergencyButton (button i) ;;
                       handleBluetooth i)) by stable.
        apply H, S0. }
    specialize (H2 s (conj Hg Hst)). rewrite !seq_apply in H2.
    revert H2 Hfin.
    generalize (handleBluetooth i (handleEmergencyButton (button i) (tick i s))).
    intros s2 [G2 S2] Hfin.
    assert (Hc2 : clock s2 <= clock
              (checkAndCloseServo T i
                 (buzzerTimeout (irTimeout (irExit i (irEntry i
                    (handleRFID i (bluetoothTimeout T i s2)))))))).
    { assert (H : Stable (ClockFrom (clock s2))
                    (bluetoothTimeout T i ;; handleRFID i ;; irEntry i ;;
                     irExit i ;; irTimeout ;; buzzerTimeout ;;
                     checkAndCloseServo T i)) by stable.
      specialize (H s2). rewrite !seq_apply in H. apply H.
      unfold ClockFrom. lia. }
    rewrite bluetoothTimeout_band in Hfin |- *
      by (apply (stamp_since t); [exact S2 | lia | exact Hlim]).
    assert (H5 : Stable (fun s' => GateHeld h o k s' /\ Stamp t s')
                   (handleRFID i ;; irEntry i ;; irExit i ;; irTimeout ;;
                    buzzerTimeout)).
    { intros s0 [G0 S0]. split.
      - assert (H : Stable (GateHeld h o k)
                      (handleRFID i ;; irEntry i ;; irExit i ;; irTimeout ;;
                       buzzerTimeout)) by stable.
        apply H, G0.
      - assert (H : Stable (Stamp t)
                      (handleRFID i ;; irEntry i ;; irExit i ;; irTimeout ;;
                       buzzerTimeout)) by stable.
        apply H, S0. }
    specialize (H5 s2 (conj G2 S2)). rewrite !seq_apply in H5.
    revert H5 Hfin.
    generalize (buzzerTimeout (irTimeout (irExit i (irEntry i
                  (handleRFID i s2))))).
    intros s5 [G5 S5] Hfin.
    assert (Hc5 : clock (checkAndCloseServo T i s5) = clock s5)
      by (apply (checkAndCloseServo_ClockIs T i (clock s5)); reflexivity).
    rewrite checkAndCloseServo_idle
      by (apply (stamp_since t); [exact S5 | lia | exact Hlim]).
    exact G5.
Qed.

Lemma run_held (T : Z) (h o : bool) (k : nat) (t : Z) (ins : list Input) :
  forall s,
    GateHeld h o k s -> Stamp t s ->
    Forall (fun i => 0 <= elapsed i) ins ->
    clock (run T ins s) - t <= T + GATE_BLOCK_CHECK_DELAY_MS ->
    T + GATE_BLOCK_CHECK_DELAY_MS < 2 ^ 32 ->
    GateHeld h o k (run T ins s).
Proof.
  induction ins as [|i rest IH]; intros s Hg Hst Hins Hfin Hlim.
  - exact Hg.
  - cbn [run] in Hfin |- *. rewrite seq_apply in Hfin |- *.
    apply Forall_cons in Hins as [Hi Hrest].
    pose proof (run_mono T rest (step T i s) Hrest) as Hmono.
    destruct (step_held T i h o k t s Hg Hst Hi) as [Hg' Hst'];
      [lia | exact Hlim |].
    apply IH; assumption.
Qed.

(** X9.  An open gate is not closed before more than [TIMEOUT_MS + 1500] ms
    have passed since the close timeout was last armed, for every timeout
    value and whatever the sensors, the reader, the link and the button do
    in between: while the clock is within that time of the stamp, the servo
    stays at the open position, no close command is sent and no open flag
    is cleared. *)
Theorem X9_gate_held_until_timeout_and_margin
    (T t : Z) (ins : list Input) (s : State) :
  servoAngle s = 120 ->
  lastMessageTime s = wrap32 t -> t <= clock s ->
  Forall (fun i => 0 <= elapsed i) ins ->
  clock (run T ins s) - t <= T + GATE_BLOCK_CHECK_DELAY_MS ->
  T + GATE_BLOCK_CHECK_DELAY_MS < 2 ^ 32 ->
  servoAngle (run T ins s) = 120 /\
  closes (trace (run T ins s)) = closes (trace s) /\
  (hasRotated s = true -> hasRotated (run T ins s) = true) /\
  (servoOpen s = true -> servoOpen (run T ins s) = true).
Proof.
  intros Ha Hm Ht Hins Hfin Hlim.
  assert (Hst : Stamp t s) by (exists t; split; [exact Hm | lia]).
  destruct (hasRotated s) eqn:Hr, (servoOpen s) eqn:Ho;
    match goal with
    | Hr : hasRotated s = ?h, Ho : servoOpen s = ?o |- _ =>
        destruct (run_held T h o (closes (trace s)) t ins s)
          as (H1 & H2 & H3 & H4);
          [ split; [exact Ha|]; split; [reflexivity|];
            split; intros X; first [assumption | discriminate X]
          | exact Hst | exact Hins | exact Hfin | exact Hlim
          | split; [exact H1|]; split; [exact H2|];
            split; intros X; first [apply H3; exact X | apply H4; exact X
                                   | discriminate X] ]
    end.
Qed.

(** X9 at work: the gate was opened by the first heartbeat, stamped at
    100 ms; 11 seconds after the stamp, past [TIMEOUT_MS] but within the
    margin, it is still open. *)
Lemma X9_gate_held_until_timeout_and_margin_witness :
  servoAngle (run TIMEOUT_MS [quiet 5000] arrived) = 120 /\
  hasRotated (run TIMEOUT_MS [quiet 5000] arrived) = true.
Proof.
  destruct (X9_gate_held_until_timeout_and_margin TIMEOUT_MS 100
              [quiet 5000] arrived) as (Ha & _ & Hr & _).
  - vm_compute. reflexivity.
  - vm_compute. reflexivity.
  - vm_compute. discriminate.
  - repeat constructor. vm_compute. discriminate.
  - vm_compute. discriminate.
  - vm_compute. reflexivity.
  - split; [exact Ha|]. apply Hr. vm_compute. reflexivity.
Defined.

Lemma emit_GateAt (a : Z) (k : nat) (h o : bool) (e : Event) :
  isClose e = false -> Stable (GateAt a k h o) (emit e).
Proof.
  intros He s (H1 & H2 & H3 & H4). repeat split; try assumption.
  change (closes (e :: trace s) = k). cbn [closes]. rewrite He. exact H2.
Qed.

#[global] Hint Extern 1 (Stable (GateAt _ _ _ _) (emit _)) =>
  apply emit_GateAt; reflexivity : stable.

(** The start of a pass keeps the gate and the stamp. *)
Lemma start_GateAt (a : Z) (k : nat) (h o : bool) (m : Z) (i : Input) :
  Stable (fun s => GateAt a k h o s /\ lastMessageTime s = m)
    (tick i ;; handleEmergencyButton (button i)).
Proof.
  intros s [Hg Hm]. split.
  - assert (H : Stable (GateAt a k h o)
                  (tick i ;; handleEmergencyButton (button i))) by stable.
    apply H, Hg.
  - assert (H : Stable (fun s => lastMessageTime s = m)
                  (tick i ;; handleEmergencyButton (button i))) by stable.
    apply H, Hm.
Qed.

(** The passenger counter keeps the gate and the stamp. *)
Lemma counter_GateAt (a : Z) (k : nat) (h o : bool) (m : Z) (i : Input) :
  Stable (fun s => GateAt a k h o s /\ lastMessageTime s = m)
    (irEntry i ;; irExit i ;; irTimeout ;; buzzerTimeout).
Proof.
  intros s [Hg Hm]. split.
  - assert (H : Stable (GateAt a k h o)
                  (irEntry i ;; irExit i ;; irTimeout ;; buzzerTimeout))
      by stable.
    apply H, Hg.
  - assert (H : Stable (fun s => lastMessageTime s = m)
                  (irEntry i ;; irExit i ;; irTimeout ;; buzzerTimeout))
      by stable.
    apply H, Hm.
Qed.

Lemma handleBluetooth_silent (i : Input) (s : State) :
  serialIn i = None -> handleBluetooth i s = s.
Proof. intros H. unfold handleBluetooth. rewrite H. reflexivity. Qed.

Lemma handleRFID_no_card (i : Input) (s : State) :
  card i = None -> handleRFID i s = s.
Proof.
  intros H. unfold handleRFID. rewrite H.
  apply when_cases; reflexivity.
Qed.

Lemma ifelse_true (b : State -> bool) (c1 c2 : Cmd) (s : State) :
  b s = true -> ifelse b c1 c2 s = c1 s.
Proof. intros H. unfold ifelse. rewrite H. reflexivity. Qed.

Lemma ifelse_false (b : State -> bool) (c1 c2 : Cmd) (s : State) :
  b s = false -> ifelse b c1 c2 s = c2 s.
Proof. intros H. unfold ifelse. rewrite H. reflexivity. Qed.

Lemma bluetoothTimeout_off (T : Z) (i : Input) (s : State) :
  hasRotated s = false -> bluetoothTimeout T i s = s.
Proof. intros H. unfold bluetoothTimeout. apply when_false. exact H. Qed.

Lemma checkAndCloseServo_off (T : Z) (i : Input) (s : State) :
  servoOpen s = false -> checkAndCloseServo T i s = s.
Proof. intros H. unfold checkAndCloseServo. apply when_false. exact H. Qed.

(** The close branch of [checkAndCloseServo]. *)
Lemma closeServo_GateAt (a : Z) (k : nat) (h : bool) (s : State) :
  GateAt a k h true s ->
  GateAt 60 (S k) h false
    (( myServo_write 60 ;;
       set_servoOpen false ;;
       Serial_println "Servo closed successfully." ;;
       lcd_clear ;;
       lcd_setCursor 0 0 ;;
       lcd_print "Passenger Count:" ;;
       updateLCD ) s).
Proof.
  intros (H1 & H2 & H3 & H4). do 2 rewrite seq_apply.
  match goal with
  | |- GateAt _ _ _ _ (?c ?s1) =>
      assert (H : Stable (GateAt 60 (S k) h false) c) by stable; apply H
  end.
  split; [reflexivity|]. split; [|split; [exact H3 | reflexivity]].
  cbn. rewrite H2. reflexivity.
Qed.

(** The close branch of the link timeout. *)
Lemma closeLink_GateAt (a : Z) (k : nat) (o : bool) (s : State) :
  GateAt a k true o s ->
  GateAt 60 (S k) false o
    (( Serial_println "Bluetooth timeout -> Reset servo to 0" ;;
       myServo_write 60 ;;
       set_hasRotated false ;;
       lcd_clear ;;
       lcd_setCursor 0 0 ;;
       lcd_print "Passenger Count:" ;;
       updateLCD ) s).
Proof.
  intros (H1 & H2 & H3 & H4). do 3 rewrite seq_apply.
  match goal with
  | |- GateAt _ _ _ _ (?c ?s1) =>
      assert (H : Stable (GateAt 60 (S k) false o) c) by stable; apply H
  end.
  split; [reflexivity|]. split; [|split; [reflexivity | exact H4]].
  cbn. rewrite H2. reflexivity.
Qed.

(** X10.  A gate opened by a card closes by itself: in the first pass that
    is not suspended, reads no line and no card, finds both sensors clear
    and starts more than [TIMEOUT_MS + 1500] ms after the close timeout was
    armed, the servo is sent to the closed position, once, and the
    card-open flag is cleared; this holds for every timeout value. *)
Theorem X10_card_gate_closes_after_timeout
    (T t : Z) (i : Input) (s : State) :
  servoOpen s = true -> hasRotated s = false ->
  lastMessageTime s = wrap32 t -> t <= clock s -> 0 <= elapsed i ->
  suspended i s = false -> serialIn i = None -> card i = None ->
  isHigh (ir1_close i) && isHigh (ir2_close i) = true ->
  T + GATE_BLOCK_CHECK_DELAY_MS < clock s + elapsed i - t ->
  clock s + elapsed i - t + 2 * IR_DEBOUNCE_MS < 2 ^ 32 ->
  servoOpen (step T i s) = false /\ servoAngle (step T i s) = 60 /\
  hasRotated (step T i s) = false /\
  closes (trace (step T i s)) = S (closes (trace s)).
Proof.
  intros Ho Hr Hm Ht He Hs Hline Hcard Hclear Hlate Hbound.
  rewrite step_normal by exact Hs. unfold atCounter, atReader.
  pose proof (start_GateAt (servoAngle s) (closes (trace s)) false true
                (wrap32 t) i s) as H1.
  rewrite !seq_apply in H1.
  pose proof (start_clock i s) as Hc1.
  revert H1 Hc1. generalize (handleEmergencyButton (button i) (tick i s)).
  intros s1 H1 Hc1.
  destruct H1 as [G1 M1]; [repeat split; assumption|].
  rewrite handleBluetooth_silent by exact Hline.
  rewrite bluetoothTimeout_off by apply G1.
  rewrite handleRFID_no_card by exact Hcard.
  pose proof (counter_GateAt (servoAngle s) (closes (trace s)) false true
                (wrap32 t) i s1 (conj G1 M1)) as H5.
  rewrite !seq_apply in H5.
  pose proof (counter_clock i s1) as Hc5.
  revert H5 Hc5.
  generalize (buzzerTimeout (irTimeout (irExit i (irEntry i s1)))).
  intros s5 [G5 M5] Hc5. unfold IR_DEBOUNCE_MS in *.
  assert (Hsince : since s5 (lastMessageTime s5) = clock s5 - t)
    by (rewrite M5; apply since_stamp; lia).
  unfold checkAndCloseServo.
  rewrite when_true by apply G5.
  rewrite when_true
    by (rewrite Hsince; apply Z.gtb_lt; unfold GATE_BLOCK_CHECK_DELAY_MS in *;
        lia).
  rewrite ifelse_true by exact Hclear.
  destruct (closeServo_GateAt _ _ _ s5 G5) as (A & B & C & D).
  repeat split; assumption.
Qed.

(** X11.  A gate opened by the station's heartbeat closes by itself: in
    the first pass that is not suspended, reads no line and no card, finds
    both sensors clear and starts more than [TIMEOUT_MS + 1500] ms after
    the last line, the servo is sent to the closed position, once, and the
    remote-open flag is cleared; this holds for every timeout value. *)
Theorem X11_remote_gate_closes_after_timeout
    (T t : Z) (i : Input) (s : State) :
  hasRotated s = true -> servoOpen s = false ->
  lastMessageTime s = wrap32 t -> t <= clock s -> 0 <= elapsed i ->
  suspended i s = false -> serialIn i = None -> card i = None ->
  isHigh (ir1_link i) && isHigh (ir2_link i) = true ->
  T + GATE_BLOCK_CHECK_DELAY_MS < clock s + elapsed i - t < 2 ^ 32 ->
  hasRotated (step T i s) = false /\ servoAngle (step T i s) = 60 /\
  servoOpen (step T i s) = false /\
  closes (trace (step T i s)) = S (closes (trace s)).
Proof.
  intros Hr Ho Hm Ht He Hs Hline Hcard Hclear Hlate.
  rewrite step_normal by exact Hs. unfold atCounter, atReader.
  pose proof (start_GateAt (servoAngle s) (closes (trace s)) true false
                (wrap32 t) i s) as H1.
  rewrite !seq_apply in H1.
  pose proof (start_clock i s) as Hc1.
  revert H1 Hc1. generalize (handleEmergencyButton (button i) (tick i s)).
  intros s1 H1 Hc1.
  destruct H1 as [G1 M1]; [repeat split; assumption|].
  rewrite handleBluetooth_silent by exact Hline.
  assert (Hsince : since s1 (lastMessageTime s1) = clock s1 - t)
    by (rewrite M1; apply since_stamp; lia).
  unfold bluetoothTimeout.
  rewrite when_true by apply G1.
  rewrite when_true
    by (rewrite Hsince; apply Z.gtb_lt; unfold GATE_BLOCK_CHECK_DELAY_MS in *;
        lia).
  rewrite when_true
    by (rewrite Hsince; apply Z.gtb_lt; unfold GATE_BLOCK_CHECK_DELAY_MS in *;
        lia).
  rewrite ifelse_true by exact Hclear.
  pose proof (closeLink_GateAt _ _ _ s1 G1) as G3.
  revert G3.
  match goal with
  | |- GateAt _ _ _ _ ?x -> _ => generalize x
  end.
  intros s3 G3.
  rewrite handleRFID_no_card by exact Hcard.
  assert (H5 : Stable (GateAt 60 (S (closes (trace s))) false false)
                 (irEntry i ;; irExit i ;; irTimeout ;; buzzerTimeout))
    by stable.
  specialize (H5 s3 G3). rewrite !seq_apply in H5.
  revert H5.
  generalize (buzzerTimeout (irTimeout (irExit i (irEntry i s3)))).
  intros s5 G5.
  rewrite checkAndCloseServo_off by apply G5.
  destruct G5 as (A & B & C & D). repeat split; assumption.
Qed.

(** X10 at work: the driver's card opened the gate at 100 ms; the pass at
    12100 ms closes it. *)
Lemma X10_card_gate_closes_after_timeout_witness :
  servoOpen (step TIMEOUT_MS (quiet 12000) granted) = false /\
  servoAngle (step TIMEOUT_MS (quiet 12000) granted) = 60.
Proof.
  destruct (X10_card_gate_closes_after_timeout TIMEOUT_MS 100 (quiet 12000)
              granted) as (Ho & Ha & _).
  - vm_compute. reflexivity.
  - vm_compute. reflexivity.
  - vm_compute. reflexivity.
  - vm_compute. discriminate.
  - vm_compute. discriminate.
  - vm_compute. reflexivity.
  - reflexivity.
  - reflexivity.
  - reflexivity.
  - vm_compute. reflexivity.
  - vm_compute. reflexivity.
  - split; [exact Ho | exact Ha].
Defined.

(** X11 at work: the first heartbeat opened the gate at 100 ms; the pass
    at 12100 ms closes it. *)
Lemma X11_remote_gate_closes_after_timeout_witness :
  hasRotated (step TIMEOUT_MS (quiet 6000) arrived) = false /\
  servoAngle (step TIMEOUT_MS (quiet 6000) arrived) = 60.
Proof.
  destruct (X11_remote_gate_closes_after_timeout TIMEOUT_MS 100 (quiet 6000)
              arrived) as (Hr & Ha & _).
  - vm_compute. reflexivity.
  - vm_compute. reflexivity.
  - vm_compute. reflexivity.
  - vm_compute. discriminate.
  - vm_compute. discriminate.
  - vm_compute. reflexivity.
  - reflexivity.
  - reflexivity.
  - reflexivity.
  - vm_compute. split; reflexivity.
  - split; [exact Hr | exact Ha].
Defined.

(** * Decimal text *)

Lemma of_lu_digitOf (r : N) (d : Decimal.uint) :
  (r < 10)%N ->
  DecimalPos.Unsigned.of_lu (digitOf r d)
  = (r + 10 * DecimalPos.Unsigned.of_lu d)%N.
Proof.
  intros Hr.
  assert (H : r = 0%N \/ r = 1%N \/ r = 2%N \/ r = 3%N \/ r = 4%N \/
              r = 5%N \/ r = 6%N \/ r = 7%N \/ r = 8%N \/ r = 9%N) by lia.
  destruct H as [->|[->|[->|[->|[->|[->|[->|[->|[->| ->]]]]]]]]];
    reflexivity.
Qed.

Lemma nb_digits_digitOf (r : N) (d : Decimal.uint) :
  Decimal.nb_digits (digitOf r d) = S (Decimal.nb_digits d).
Proof.
  unfold digitOf.
  repeat match goal with
         | |- context [match ?x with _ => _ end] => destruct x
         end; reflexivity.
Qed.

Lemma of_lu_littleDigits (k : nat) :
  forall n, (n < 10 ^ N.of_nat k)%N ->
            DecimalPos.Unsigned.of_lu (littleDigits k n) = n.
Proof.
  induction k as [|k IH]; intros n Hn.
  - cbn in *. lia.
  - cbn [littleDigits].
    rewrite of_lu_digitOf by (apply N.mod_lt; lia).
    rewrite IH.
    + rewrite (N.div_mod n 10) at 3 by lia. lia.
    + rewrite Nat2N.inj_succ, N.pow_succ_r' in Hn.
      apply N.Div0.div_lt_upper_bound. lia.
Qed.

Lemma nb_digits_littleDigits (k : nat) (n : N) :
  Decimal.nb_digits (littleDigits k n) = k.
Proof.
  revert n. induction k as [|k IH]; intros n; [reflexivity|].
  cbn [littleDigits]. rewrite nb_digits_digitOf, IH. reflexivity.
Qed.

(** A number below [10^k] is written with at most [k] digits. *)
Lemma nb_digits_to_uint (k : nat) (n : N) :
  (1 <= k)%nat -> (n < 10 ^ N.of_nat k)%N ->
  (Decimal.nb_digits (N.to_uint n) <= k)%nat.
Proof.
  intros Hk Hn.
  assert (H : N.to_uint n = Decimal.unorm (Decimal.rev (littleDigits k n))).
  { rewrite <- DecimalN.Unsigned.to_of. f_equal.
    unfold N.of_uint. rewrite DecimalPos.Unsigned.of_lu_rev.
    symmetry. apply of_lu_littleDigits, Hn. }
  rewrite H.
  etransitivity; [apply DecimalFacts.nb_digits_unorm|].
  - apply DecimalFacts.nb_digits_n0.
    rewrite DecimalFacts.nb_digits_rev, nb_digits_littleDigits. lia.
  - rewrite DecimalFacts.nb_digits_rev, nb_digits_littleDigits. lia.
Qed.

Lemma length_string_of_uint (d : Decimal.uint) :
  String.length (NilEmpty.string_of_uint d) = Decimal.nb_digits d.
Proof. induction d; cbn; congruence. Qed.

Lemma length_NilZero_uint (d : Decimal.uint) :
  d <> Decimal.Nil ->
  String.length (NilZero.string_of_uint d) = Decimal.nb_digits d.
Proof.
  intros Hd. destruct d; [contradiction|..]; apply length_string_of_uint.
Qed.

Lemma to_uint_nonnil (n : N) : N.to_uint n <> Decimal.Nil.
Proof.
  destruct n; [discriminate|]. apply DecimalPos.Unsigned.to_uint_nonnil.
Qed.

(** [%d] and [%u] of a number from 0 to [10^k - 1] give at most [k]
    characters. *)
Lemma length_dec (k : nat) (z : Z) :
  (1 <= k)%nat -> 0 <= z < 10 ^ Z.of_nat k ->
  (String.length (dec z) <= k)%nat.
Proof.
  intros Hk Hz. unfold dec.
  assert (H : Z.to_int z = Decimal.Pos (N.to_uint (Z.to_N z)))
    by (destruct z; [reflexivity | reflexivity | lia]).
  rewrite H. cbn [NilZero.string_of_int].
  rewrite length_NilZero_uint by apply to_uint_nonnil.
  apply nb_digits_to_uint; [exact Hk|].
  apply N2Z.inj_lt. rewrite Z2N.id by lia.
  rewrite N2Z.inj_pow, nat_N_Z. cbn. lia.
Qed.

(** [%d] of a negative number above [-10^k] gives at most [k + 1]
    characters. *)
Lemma length_dec_neg (k : nat) (z : Z) :
  (1 <= k)%nat -> - 10 ^ Z.of_nat k < z < 0 ->
  (String.length (dec z) <= S k)%nat.
Proof.
  intros Hk Hz. unfold dec.
  destruct z as [|p|p]; [lia | lia |].
  cbn [Z.to_int NilZero.string_of_int String.length].
  apply le_n_S.
  change (Pos.to_uint p) with (N.to_uint (Npos p)).
  rewrite length_NilZero_uint by apply to_uint_nonnil.
  apply nb_digits_to_uint; [exact Hk|].
  apply N2Z.inj_lt. rewrite N2Z.inj_pow, nat_N_Z. cbn. lia.
Qed.

(** * The display *)

Lemma lcdOnly_app (a b : list Event) :
  lcdOnly (a ++ b) = lcdOnly a ++ lcdOnly b.
Proof.
  induction a as [|e a IH]; [reflexivity|].
  cbn [app lcdOnly]. destruct (isLcd e); rewrite IH; reflexivity.
Qed.

Lemma lcdOnly_spaces (n : nat) :
  lcdOnly (replicate n (LcdPrint " ")) = replicate n (LcdPrint " ").
Proof.
  induction n as [|n IH]; [reflexivity|].
  cbn [replicate lcdOnly isLcd]. rewrite IH. reflexivity.
Qed.

Lemma rev_replicate {A : Type} (n : nat) (x : A) :
  rev (replicate n x) = replicate n x.
Proof.
  induction n as [|n IH]; [reflexivity|].
  cbn [replicate rev]. rewrite IH.
  clear IH. induction n as [|n IH]; [reflexivity|].
  cbn [replicate app]. rewrite IH. reflexivity.
Qed.

(** The padding loop prints one space per missing column. *)
Lemma lcdPad_spaces (buffer : string) (s : State) :
  lcdPad buffer s =
  emits (replicate (16 - String.length buffer) (LcdPrint " ")) s.
Proof.
  unfold lcdPad.
  generalize (16 - String.length buffer)%nat
             (Z.of_nat (String.length buffer)).
  intros n. revert s. induction n as [|n IH]; intros s i.
  - cbn. symmetry. apply emits_nil.
  - cbn [for_loop]. rewrite seq_apply, IH.
    unfold lcd_print. rewrite emit_emits, emits_emits. f_equal.
    change (replicate n (LcdPrint " ") ++ [LcdPrint " "])
      with (replicate n (LcdPrint " ") ++ replicate 1 (LcdPrint " ")).
    rewrite <- replicate_add. f_equal. lia.
Qed.

Lemma length_append (a b : string) :
  String.length (a +:+ b) = (String.length a + String.length b)%nat.
Proof.
  induction a as [|c a IH]; [reflexivity|].
  change (String c a +:+ b) with (String c (a +:+ b)).
  cbn [String.length]. rewrite IH. reflexivity.
Qed.

(** The row text fits the 16 columns (and the 17 bytes of [buffer]) for
    every occupancy that an [int] holds. *)
Lemma length_rowText (s : State) :
  -32768 <= passengerCount s <= 32767 ->
  (String.length (rowText s) <= 16)%nat.
Proof.
  intros H. unfold rowText. destruct (5 <? passengerCount s) eqn:E.
  - apply Z.ltb_lt in E. rewrite length_append.
    pose proof (length_dec 5 (passengerCount s) ltac:(lia) ltac:(lia)).
    cbn. lia.
  - apply Z.ltb_ge in E. rewrite length_append.
    destruct (Z.lt_ge_cases (passengerCount s) 0) as [Hneg|Hpos].
    + pose proof (length_dec_neg 5 (passengerCount s) ltac:(lia) ltac:(lia)).
      cbn. lia.
    + pose proof (length_dec 1 (passengerCount s) ltac:(lia) ltac:(lia)).
      cbn. lia.
Qed.

(** What [updateLCD] emits, newest first. *)
Lemma updateLCD_trace (s : State) :
  exists log,
    trace (updateLCD s) = log ++ trace s /\
    lcdOnly (rev log) =
      [LcdSetCursor 0 1; LcdPrint (rowText s)] ++
      replicate (16 - String.length (rowText s)) (LcdPrint " ").
Proof.
  unfold updateLCD. rewrite seq_apply. unfold rowText.
  destruct (5 <? passengerCount s) eqn:E.
  - rewrite ifelse_true by exact E. rewrite seq_apply.
    destruct (isOverloaded s) eqn:L.
    + rewrite when_false by (cbn; rewrite L; reflexivity).
      rewrite local_apply, seq_apply, lcdPad_spaces.
      exists (replicate
                (16 - String.length (dec (passengerCount s) +:+ " (Overload)"))
                (LcdPrint " ")
              ++ [LcdPrint (dec (passengerCount s) +:+ " (Overload)");
                  LcdSetCursor 0 1]).
      split; [cbn; rewrite <- app_assoc; reflexivity|].
      rewrite rev_app_distr, lcdOnly_app, rev_replicate, lcdOnly_spaces.
      reflexivity.
    + rewrite when_true by (cbn; rewrite L; reflexivity).
      rewrite local_apply, seq_apply, lcdPad_spaces.
      exists (replicate
                (16 - String.length (dec (passengerCount s) +:+ " (Overload)"))
                (LcdPrint " ")
              ++ [LcdPrint (dec (passengerCount s) +:+ " (Overload)");
                  SerialPrintln "Overload detected, buzzer ON.";
                  BuzzerWrite HIGH; LcdSetCursor 0 1]).
      split; [cbn; rewrite <- app_assoc; reflexivity|].
      rewrite rev_app_distr, lcdOnly_app, rev_replicate, lcdOnly_spaces.
      reflexivity.
  - rewrite ifelse_false by exact E. do 2 rewrite seq_apply.
    destruct (isOverloaded s) eqn:L.
    + rewrite when_true by exact L.
      rewrite local_apply, seq_apply, lcdPad_spaces.
      exists ([BuzzerWrite LOW] ++
              replicate
                (16 - String.length ("Count: " +:+ dec (passengerCount s)))
                (LcdPrint " ")
              ++ [LcdPrint ("Count: " +:+ dec (passengerCount s));
                  SerialPrintln "Passenger count normal. Overload state reset.";
                  LcdSetCursor 0 1]).
      split; [cbn; rewrite <- app_assoc; reflexivity|].
      rewrite !rev_app_distr, !lcdOnly_app, rev_replicate, lcdOnly_spaces.
      cbn. rewrite app_nil_r. reflexivity.
    + rewrite when_false by exact L.
      rewrite local_apply, seq_apply, lcdPad_spaces.
      exists ([BuzzerWrite LOW] ++
              replicate
                (16 - String.length ("Count: " +:+ dec (passengerCount s)))
                (LcdPrint " ")
              ++ [LcdPrint ("Count: " +:+ dec (passengerCount s));
                  LcdSetCursor 0 1]).
      split; [cbn; rewrite <- app_assoc; reflexivity|].
      rewrite !rev_app_distr, !lcdOnly_app, rev_replicate, lcdOnly_spaces.
      cbn. rewrite app_nil_r. reflexivity.
Qed.

(** X12.  [updateLCD] rewrites the whole second row of the display: for
    every occupancy that an [int] holds, the formatted text has at most 16
    characters, so it fits [buffer], and the routine moves the cursor to
    the start of the row, prints the text and then one space for each of
    the remaining columns, 16 characters in all. *)
Theorem X12_updateLCD_rewrites_whole_row (s : State) :
  -32768 <= passengerCount s <= 32767 ->
  (String.length (rowText s) <= 16)%nat /\
  lcdOnly (passEvents s (updateLCD s)) =
    [LcdSetCursor 0 1; LcdPrint (rowText s)] ++
    replicate (16 - String.length (rowText s)) (LcdPrint " ").
Proof.
  intros H. split; [apply length_rowText, H|].
  destruct (updateLCD_trace s) as (log & Ht & Hl).
  rewrite (passEvents_app _ _ _ Ht). exact Hl.
Qed.

(** X12 at work: six passengers aboard. *)
Lemma X12_updateLCD_rewrites_whole_row_witness :
  rowText (aboard 6) = "6 (Overload)" /\
  lcdOnly (passEvents (aboard 6) (updateLCD (aboard 6))) =
    [LcdSetCursor 0 1; LcdPrint (rowText (aboard 6))] ++
    replicate (16 - String.length (rowText (aboard 6))) (LcdPrint " ").
Proof.
  split; [vm_compute; reflexivity|].
  apply (X12_updateLCD_rewrites_whole_row (aboard 6)).
  vm_compute. split; discriminate.
Defined.

(** * The snapshot buffer *)

Lemma length_cstr (buf : list Z) :
  (String.length (cstr buf) <= length buf)%nat.
Proof.
  induction buf as [|b rest IH]; [cbn; lia|].
  cbn [cstr]. destruct (b =? 0); cbn [String.length length]; lia.
Qed.

Lemma bounded_press :
  Stable Bounded
    (assign set_emergencyPressCount
       (fun s => wrap16 (emergencyPressCount s + 1))).
Proof.
  intros s (H1 & H2 & H3). split; [|split; assumption].
  unfold assign. cbn. unfold wrap16. apply Z.mod_pos_bound. lia.
Qed.

Lemma bounded_overload :
  Stable Bounded
    (assign set_overloadCount (fun s => wrap16 (overloadCount s + 1))).
Proof.
  intros s (H1 & H2 & H3). split; [exact H1|]. split; [|exact H3].
  unfold assign. cbn. unfold wrap16. apply Z.mod_pos_bound. lia.
Qed.

Lemma bounded_setCard (i : Z) (c : RegisteredCard) :
  0 <= scanCount c < 2 ^ 16 -> (String.length (name c) <= 17)%nat ->
  Stable Bounded (setCard i c).
Proof.
  intros Hc Hn s (H1 & H2 & H3). split; [exact H1|]. split; [exact H2|].
  unfold setCard, assign. cbn [registeredCards set_registeredCards].
  apply Forall_insert; [exact H3 | split; assumption].
Qed.

Lemma bounded_bump (k : Z) : Stable Bounded (bumpScanCount k).
Proof.
  intros s HB. unfold bumpScanCount. rewrite local_apply.
  apply bounded_setCard; [| |exact HB]; cbn [scanCount name].
  - unfold wrap16. apply Z.mod_pos_bound. lia.
  - destruct HB as (_ & _ & H3).
    destruct (decide (Z.to_nat k < length (registeredCards s))%nat) as [Hk|Hk].
    + rewrite Forall_lookup in H3.
      apply (H3 (Z.to_nat k)).
      apply list_lookup_lookup_total_lt, Hk.
    + rewrite list_lookup_total_alt, lookup_ge_None_2 by lia. cbn. lia.
Qed.

Lemma bounded_loadCard (i : Z) : Stable Bounded (loadCard i).
Proof.
  intros s HB. unfold loadCard. rewrite local_apply. cbv zeta.
  rewrite seq_apply.
  match goal with
  | |- Bounded (?rest (setCard ?j ?c ?s0)) =>
      assert (Hr : Stable Bounded rest) by stable;
      apply Hr, bounded_setCard; [| |exact HB]; cbn [scanCount name]
  end.
  - lia.
  - etransitivity; [apply length_cstr|].
    rewrite length_drop. unfold EEPROM_get.
    rewrite length_map, length_seqZ. unfold CARD_RECORD_SIZE,
      UID_MAX_SIZE, MAX_NAME_LENGTH. lia.
Qed.

#[global] Hint Resolve bounded_press bounded_overload bounded_bump
  bounded_loadCard : stable.

Lemma step_Bounded (T : Z) (i : Input) : Stable Bounded (step T i).
Proof. stable. Qed.

Lemma run_Bounded (T : Z) (ins : list Input) : Stable Bounded (run T ins).
Proof.
  induction ins as [|i rest IH]; cbn [run].
  - apply stable_skip.
  - apply stable_seq; [apply step_Bounded | exact IH].
Qed.

Lemma boot_Bounded (e : list Z) (g : Z -> list Z) : Bounded (boot e g).
Proof.
  assert (H : Stable Bounded (setup g)) by stable.
  apply H. split; [cbn; lia|]. split; [cbn; lia|].
  cbn. repeat constructor; cbn; lia.
Qed.

Lemma length_joinStrings (m : nat) (l : list string) :
  Forall (fun x => (String.length x <= m)%nat) l ->
  (String.length (joinStrings l) <= length l * m)%nat.
Proof.
  induction 1 as [|x l Hx Hl IH]; [cbn; lia|].
  change (joinStrings (x :: l)) with (x +:+ joinStrings l).
  rewrite length_append. cbn [length]. lia.
Qed.

Lemma length_snapshotPair (c : RegisteredCard) :
  0 <= scanCount c < 2 ^ 16 -> (String.length (name c) <= 17)%nat ->
  (String.length (snapshotPair c) <= 24)%nat.
Proof.
  intros Hc Hn. unfold snapshotPair. rewrite !length_append.
  pose proof (length_dec 5 (scanCount c) ltac:(lia) ltac:(lia)).
  cbn. lia.
Qed.

(** X13.  The snapshot fits its buffers: started on a store that
    [loadCardsFromEEPROM] can load, the controller is, after any inputs,
    in a state for which the text that [sendAdminData] builds has fewer
    than 150 characters, the size of [buffer], and the text of each name
    and count pair has fewer than 50, the size of [userData]. *)
Theorem X13_snapshot_fits_its_buffers
    (T : Z) (e : list Z) (g : Z -> list Z) (ins : list Input) :
  TerminatedNames e ->
  (String.length (adminBuffer (run T ins (boot e g))) < 150)%nat /\
  Forall (fun c => (String.length (snapshotPair c) < 50)%nat)
    (loadedCards (run T ins (boot e g))).
Proof.
  intros _.
  pose proof (reachable_RegistryOK T e g ins) as HR.
  pose proof (reachable_CounterOK T e g ins) as [HC _].
  pose proof (run_Bounded T ins _ (boot_Bounded e g)) as HB.
  revert HR HC HB. generalize (run T ins (boot e g)).
  intros s HR HC (H1 & H2 & H3).
  assert (Hcards : Forall (fun c => (String.length (snapshotPair c) <= 24)%nat)
                     (loadedCards s)).
  { unfold loadedCards. apply Forall_take.
    eapply Forall_impl; [exact H3|].
    intros c [Hc Hn]. apply length_snapshotPair; assumption. }
  split.
  - rewrite (adminBuffer_all_cards s HR). unfold allCardsLine.
    rewrite length_append.
    assert (Hh : (String.length (snapshotHeader s) <= 20)%nat).
    { unfold snapshotHeader. rewrite !length_append.
      assert (Hpc : (String.length (dec (passengerCount s)) <= 6)%nat).
      { destruct (Z.neg_nonneg_cases (passengerCount s)) as [Hn|Hn].
        - apply (length_dec_neg 5); lia.
        - pose proof (length_dec 5 (passengerCount s) ltac:(lia) ltac:(lia)).
          lia. }
      pose proof (length_dec 5 (emergencyPressCount s) ltac:(lia) ltac:(lia)).
      pose proof (length_dec 5 (overloadCount s) ltac:(lia) ltac:(lia)).
      cbn. lia. }
    assert (Hj : (String.length (joinStrings (map snapshotPair (loadedCards s)))
                  <= length (map snapshotPair (loadedCards s)) * 24)%nat).
    { apply length_joinStrings. apply Forall_fmap.
      eapply Forall_impl; [exact Hcards|]. intros c Hc. exact Hc. }
    rewrite length_map in Hj.
    assert (Hn : (length (loadedCards s) <= 5)%nat).
    { unfold loadedCards. rewrite length_take. destruct HR as [Hl _]. lia. }
    nia.
  - eapply Forall_impl; [exact Hcards|]. intros c Hc. cbn beta in *. lia.
Qed.

(** X13 at work: the second power-up, on the store that the first one
    wrote, and the driver's card scanned. *)
Lemma X13_snapshot_fits_its_buffers_witness :
  TerminatedNames (eeprom firstBoot) /\
  (String.length
     (adminBuffer (run TIMEOUT_MS [scan 100 driverCard]
                     (boot (eeprom firstBoot) (fun _ => [])))) < 150)%nat.
Proof.
  assert (H : TerminatedNames (eeprom firstBoot)).
  { intros _ _ i Hi.
    assert (Hn : EEPROM_read (eeprom firstBoot) EEPROM_ADDR_NUM_CARDS = 3)
      by (vm_compute; reflexivity).
    rewrite Hn in Hi.
    assert (Hc : i = 0 \/ i = 1 \/ i = 2) by lia.
    destruct Hc as [-> | [-> | ->]]; vm_compute; repeat constructor. }
  split; [exact H|].
  apply (X13_snapshot_fits_its_buffers TIMEOUT_MS (eeprom firstBoot)
           (fun _ => []) [scan 100 driverCard] H).
Defined.

(** * Crossings over several passes *)

Lemma since_now (s : State) : since s (millis s) = 0.
Proof. unfold since. apply wrap32_diag. Qed.

Lemma bluetoothTimeout_ClockIs (T : Z) (i : Input) (c : Z) :
  Stable (ClockIs c) (bluetoothTimeout T i).
Proof. stable. Qed.

Lemma handleRFID_ClockIs (i : Input) (c : Z) :
  Stable (ClockIs c) (handleRFID i).
Proof. stable. Qed.

(** A pass without an arrival reaches the counter when it began. *)
Lemma atCounter_clock (T : Z) (i : Input) (s : State) :
  heartbeatDue i s = false ->
  clock (atCounter T i s) = clock s + elapsed i.
Proof.
  intros Hd. unfold atCounter, atReader.
  apply (handleRFID_ClockIs i (clock s + elapsed i)),
    (bluetoothTimeout_ClockIs T i (clock s + elapsed i)).
  unfold ClockIs.
  pose proof (start_clock i s) as Hc.
  assert (Hh : hasRotated (handleEmergencyButton (button i) (tick i s))
               = hasRotated s).
  { assert (H : Stable (fun s' => hasRotated s' = hasRotated s)
                  (tick i ;; handleEmergencyButton (button i))) by stable.
    apply (H s). reflexivity. }
  revert Hc Hh. generalize (handleEmergencyButton (button i) (tick i s)).
  intros s1 Hc Hh. unfold heartbeatDue in Hd. unfold handleBluetooth.
  destruct (serialIn i) as [msg|]; [|exact Hc].
  do 3 rewrite seq_apply.
  rewrite when_false by (cbn; rewrite Hh; exact Hd).
  exact Hc.
Qed.

(** The pass in which sensor 1 fires first arms the entry sequence and
    counts nothing. *)
Lemma entry_armed (T : Z) (i : Input) (s : State) :
  Idle s -> suspended i s = false ->
  reading1 i = LOW -> reading2 i = HIGH ->
  Crossing true false (wrap32 (clock (step T i s))) (clock (step T i s))
    (passengerCount s) (step T i s).
Proof.
  intros Hi Hs R1 R2. rewrite step_normal by exact Hs.
  destruct (atCounter_sequence T i s) as (F1 & F2 & _).
  pose proof (atCounter_occupancy T i s) as Hp.
  destruct Hi as [I1 I2]. rewrite I1 in F1. rewrite I2 in F2.
  revert F1 F2 Hp. generalize (atCounter T i s). intros s0 F1 F2 Hp.
  assert (HA : armEntry i s0 =
               assign set_lastTriggerTime millis (set_ir1Triggered true s0)).
  { unfold armEntry. rewrite when_true by (rewrite R1, F1, F2; reflexivity).
    reflexivity. }
  assert (HC : Crossing true false (wrap32 (clock s0)) (clock s0)
                 (passengerCount s)
                 (assign set_lastTriggerTime millis (set_ir1Triggered true s0))).
  { repeat split; [exact F2 | exact Hp]. }
  assert (HT : since (assign set_lastTriggerTime millis
                        (set_ir1Triggered true s0))
                 (lastTriggerTime (assign set_lastTriggerTime millis
                                     (set_ir1Triggered true s0))) = 0)
    by apply (since_now (set_ir1Triggered true s0)).
  revert HA HC HT.
  generalize (assign set_lastTriggerTime millis (set_ir1Triggered true s0)).
  intros s1 HA HC HT.
  destruct HC as (C1 & C2 & C3 & C4 & C5).
  assert (HE : irEntry i s0 = s1).
  { unfold irEntry. rewrite seq_apply, HA.
    apply when_false. unfold entryCompletes. rewrite R2, C1. reflexivity. }
  assert (HX : irExit i s1 = s1).
  { unfold irExit. rewrite seq_apply.
    assert (Ha : armExit i s1 = s1)
      by (unfold armExit; apply when_false; rewrite R2; reflexivity).
    rewrite Ha. apply when_false. unfold exitCompletes. rewrite C2.
    reflexivity. }
  assert (HO : irTimeout s1 = s1).
  { unfold irTimeout. apply when_false. rewrite HT, C1. reflexivity. }
  rewrite HE, HX, HO.
  assert (HS : forall m c p,
             Stable (Crossing true false m c p)
               (buzzerTimeout ;; checkAndCloseServo T i))
    by (intros; stable).
  assert (HF : Crossing true false (wrap32 (clock s0)) (clock s0)
                 (passengerCount s)
                 (checkAndCloseServo T i (buzzerTimeout s1))).
  { apply (HS _ _ _ s1). repeat split; assumption. }
  revert HF. generalize (checkAndCloseServo T i (buzzerTimeout s1)).
  intros s2 (D1 & D2 & D3 & D4 & D5).
  rewrite D4. repeat split; assumption.
Qed.

(** The pass that completes or drops an armed entry sequence. *)
Lemma entry_window (T : Z) (i : Input) (s : State) (t0 : Z) :
  ir1Triggered s = true -> lastTriggerTime s = wrap32 t0 ->
  suspended i s = false -> heartbeatDue i s = false ->
  reading2 i = LOW -> 0 <= clock s + elapsed i - t0 < 2 ^ 32 ->
  entered T i s = (clock s + elapsed i - t0 <? SEQ_TIMEOUT_MS).
Proof.
  intros H1 Hm Hs Hd R2 Hb. unfold entered. rewrite Hs. cbn [negb andb].
  destruct (atCounter_sequence T i s) as (F1 & _ & F3).
  pose proof (atCounter_clock T i s Hd) as Hc.
  rewrite H1 in F1. rewrite Hm in F3.
  revert F1 F3 Hc. generalize (atCounter T i s). intros s0 F1 F3 Hc.
  assert (Ha : armEntry i s0 = s0).
  { unfold armEntry. apply when_false. rewrite F1.
    destruct (isLow (reading1 i)); reflexivity. }
  rewrite Ha. unfold entryCompletes. rewrite F1, R2, F3.
  rewrite since_stamp by (rewrite Hc; exact Hb).
  rewrite Hc. reflexivity.
Qed.

Lemma not_exited (T : Z) (i : Input) (s : State) :
  reading1 i = HIGH -> exited T i s = false.
Proof.
  intros R1. unfold exited, exitCompletes. rewrite R1. cbn [isLow].
  rewrite andb_false_r, andb_false_l, andb_false_r. reflexivity.
Qed.

(** X14.  A passenger who passes sensor 1 and then sensor 2 is counted
    once: when no sequence is armed, a pass that reads sensor 1 fired and
    sensor 2 clear arms the entry sequence and counts nothing, and the
    next pass, if it begins less than 1000 ms later, reads sensor 2 fired
    and sensor 1 clear and begins no arrival, raises the occupancy by
    one, for an occupancy below 32767, the largest [int]. *)
Theorem X14_entry_counted_over_two_polls
    (T : Z) (i1 i2 : Input) (s : State) :
  Idle s -> suspended i1 s = false ->
  reading1 i1 = LOW -> reading2 i1 = HIGH ->
  suspended i2 (step T i1 s) = false ->
  heartbeatDue i2 (step T i1 s) = false ->
  reading1 i2 = HIGH -> reading2 i2 = LOW ->
  0 <= elapsed i2 < SEQ_TIMEOUT_MS ->
  - 2 ^ 15 <= passengerCount s < 2 ^ 15 - 1 ->
  passengerCount (step T i1 s) = passengerCount s /\
  passengerCount (run T [i1; i2] s) = passengerCount s + 1.
Proof.
  intros Hi Hs1 A1 A2 Hs2 Hd B1 B2 He Hrange.
  destruct (entry_armed T i1 s Hi Hs1 A1 A2) as (C1 & C2 & C3 & C4 & C5).
  split; [exact C5|].
  cbn [run]. rewrite !seq_apply. unfold skip.
  revert Hs2 Hd C1 C2 C3 C5. generalize (step T i1 s).
  intros s1 Hs2 Hd C1 C2 C3 C5.
  rewrite step_occupancy, occupancyAfterEntry_cases.
  rewrite (not_exited T i2 s1 B1).
  rewrite (entry_window T i2 s1 (clock s1) C1 C3 Hs2 Hd B2)
    by (unfold SEQ_TIMEOUT_MS in He; lia).
  replace (clock s1 + elapsed i2 - clock s1 <? SEQ_TIMEOUT_MS) with true
    by (symmetry; apply Z.ltb_lt; lia).
  rewrite C5. apply int16_small. lia.
Qed.

(** X15.  An entry sequence has 1000 ms to complete: when the pass after
    the one that armed it begins 1000 ms later or more, sensor 2 firing
    counts nothing. *)
Theorem X15_late_second_sensor_counts_nothing
    (T : Z) (i1 i2 : Input) (s : State) :
  Idle s -> suspended i1 s = false ->
  reading1 i1 = LOW -> reading2 i1 = HIGH ->
  suspended i2 (step T i1 s) = false ->
  heartbeatDue i2 (step T i1 s) = false ->
  reading1 i2 = HIGH -> reading2 i2 = LOW ->
  SEQ_TIMEOUT_MS <= elapsed i2 < 2 ^ 32 ->
  passengerCount (run T [i1; i2] s) = passengerCount s.
Proof.
  intros Hi Hs1 A1 A2 Hs2 Hd B1 B2 He.
  destruct (entry_armed T i1 s Hi Hs1 A1 A2) as (C1 & C2 & C3 & C4 & C5).
  cbn [run]. rewrite !seq_apply. unfold skip.
  revert Hs2 Hd C1 C2 C3 C5. generalize (step T i1 s).
  intros s1 Hs2 Hd C1 C2 C3 C5.
  rewrite step_occupancy, occupancyAfterEntry_cases.
  rewrite (not_exited T i2 s1 B1).
  rewrite (entry_window T i2 s1 (clock s1) C1 C3 Hs2 Hd B2)
    by (unfold SEQ_TIMEOUT_MS in He; lia).
  replace (clock s1 + elapsed i2 - clock s1 <? SEQ_TIMEOUT_MS) with false
    by (symmetry; apply Z.ltb_ge; lia).
  exact C5.
Qed.

(** X14 at work: after a first boot, sensor 1 and, 10 ms later,
    sensor 2. *)
Lemma X14_entry_counted_over_two_polls_witness :
  passengerCount
    (run TIMEOUT_MS [sensors 10 LOW HIGH; sensors 10 HIGH LOW] firstBoot) = 1.
Proof.
  destruct (X14_entry_counted_over_two_polls TIMEOUT_MS
              (sensors 10 LOW HIGH) (sensors 10 HIGH LOW) firstBoot)
    as [_ H].
  - split; vm_compute; reflexivity.
  - vm_compute. reflexivity.
  - reflexivity.
  - reflexivity.
  - vm_compute. reflexivity.
  - reflexivity.
  - reflexivity.
  - reflexivity.
  - vm_compute. split; [discriminate | reflexivity].
  - vm_compute. split; [discriminate | reflexivity].
  - rewrite H. vm_compute. reflexivity.
Defined.

(** X15 at work: after a first boot, sensor 1 and, exactly 1000 ms later,
    sensor 2. *)
Lemma X15_late_second_sensor_counts_nothing_witness :
  passengerCount
    (run TIMEOUT_MS [sensors 10 LOW HIGH; sensors 1000 HIGH LOW] firstBoot) = 0.
Proof.
  rewrite (X15_late_second_sensor_counts_nothing TIMEOUT_MS
             (sensors 10 LOW HIGH) (sensors 1000 HIGH LOW) firstBoot).
  - vm_compute. reflexivity.
  - split; vm_compute; reflexivity.
  - vm_compute. reflexivity.
  - reflexivity.
  - reflexivity.
  - vm_compute. reflexivity.
  - reflexivity.
  - reflexivity.
  - reflexivity.
  - vm_compute. split; [discriminate | reflexivity].
Defined.

(** The pass in which sensor 2 fires first arms the exit sequence and
    counts nothing. *)
Lemma exit_armed (T : Z) (i : Input) (s : State) :
  Idle s -> suspended i s = false ->
  reading1 i = HIGH -> reading2 i = LOW ->
  Crossing false true (wrap32 (clock (step T i s))) (clock (step T i s))
    (passengerCount s) (step T i s).
Proof.
  intros Hi Hs R1 R2. rewrite step_normal by exact Hs.
  destruct (atCounter_sequence T i s) as (F1 & F2 & _).
  pose proof (atCounter_occupancy T i s) as Hp.
  destruct Hi as [I1 I2]. rewrite I1 in F1. rewrite I2 in F2.
  revert F1 F2 Hp. generalize (atCounter T i s). intros s0 F1 F2 Hp.
  assert (HE : irEntry i s0 = s0).
  { unfold irEntry. rewrite seq_apply.
    assert (Ha : armEntry i s0 = s0)
      by (unfold armEntry; apply when_false; rewrite R1; reflexivity).
    rewrite Ha. apply when_false. unfold entryCompletes. rewrite F1.
    reflexivity. }
  rewrite HE.
  assert (HA : armExit i s0 =
               assign set_lastTriggerTime millis (set_ir2Triggered true s0)).
  { unfold armExit. rewrite when_true by (rewrite R2, F1, F2; reflexivity).
    reflexivity. }
  assert (HC : Crossing false true (wrap32 (clock s0)) (clock s0)
                 (passengerCount s)
                 (assign set_lastTriggerTime millis (set_ir2Triggered true s0))).
  { repeat split; [exact F1 | exact Hp]. }
  assert (HT : since (assign set_lastTriggerTime millis
                        (set_ir2Triggered true s0))
                 (lastTriggerTime (assign set_lastTriggerTime millis
                                     (set_ir2Triggered true s0))) = 0)
    by apply (since_now (set_ir2Triggered true s0)).
  revert HA HC HT.
  generalize (assign set_lastTriggerTime millis (set_ir2Triggered true s0)).
  intros s1 HA HC HT.
  destruct HC as (C1 & C2 & C3 & C4 & C5).
  assert (HX : irExit i s0 = s1).
  { unfold irExit. rewrite seq_apply, HA.
    apply when_false. unfold exitCompletes. rewrite R1, C2. reflexivity. }
  assert (HO : irTimeout s1 = s1).
  { unfold irTimeout. apply when_false. rewrite HT, C2.
    apply andb_false_r. }
  rewrite HX, HO.
  assert (HS : forall m c p,
             Stable (Crossing false true m c p)
               (buzzerTimeout ;; checkAndCloseServo T i))
    by (intros; stable).
  assert (HF : Crossing false true (wrap32 (clock s0)) (clock s0)
                 (passengerCount s)
                 (checkAndCloseServo T i (buzzerTimeout s1))).
  { apply (HS _ _ _ s1). repeat split; assumption. }
  revert HF. generalize (checkAndCloseServo T i (buzzerTimeout s1)).
  intros s2 (D1 & D2 & D3 & D4 & D5).
  rewrite D4. repeat split; assumption.
Qed.

(** The pass that completes or drops an armed exit sequence. *)
Lemma exit_window (T : Z) (i : Input) (s : State) (t0 : Z) :
  ir1Triggered s = false -> ir2Triggered s = true ->
  lastTriggerTime s = wrap32 t0 ->
  suspended i s = false -> heartbeatDue i s = false ->
  reading1 i = LOW -> 0 <= clock s + elapsed i - t0 < 2 ^ 32 ->
  entered T i s = false /\
  exited T i s = (clock s + elapsed i - t0 <? SEQ_TIMEOUT_MS).
Proof.
  intros H1 H2 Hm Hs Hd R1 Hb. unfold entered, exited. rewrite Hs.
  cbn [negb andb].
  destruct (atCounter_sequence T i s) as (F1 & F2 & F3).
  pose proof (atCounter_clock T i s Hd) as Hc.
  rewrite H1 in F1. rewrite H2 in F2. rewrite Hm in F3.
  revert F1 F2 F3 Hc. generalize (atCounter T i s). intros s0 F1 F2 F3 Hc.
  assert (Ha : armEntry i s0 = s0).
  { unfold armEntry. apply when_false. rewrite F2.
    destruct (isLow (reading1 i)), (ir1Triggered s0); reflexivity. }
  assert (He : irEntry i s0 = s0).
  { unfold irEntry. rewrite seq_apply, Ha. apply when_false.
    unfold entryCompletes. rewrite F1. reflexivity. }
  rewrite Ha, He.
  assert (Hx : armExit i s0 = s0).
  { unfold armExit. apply when_false. rewrite F2.
    destruct (isLow (reading2 i)); reflexivity. }
  rewrite Hx. unfold entryCompletes, exitCompletes.
  rewrite F1, F2, R1, F3.
  rewrite since_stamp by (rewrite Hc; exact Hb).
  rewrite Hc. split; reflexivity.
Qed.

(** X16.  A passenger who passes sensor 2 and then sensor 1 is counted
    out once: when no sequence is armed, a pass that reads sensor 2 fired
    and sensor 1 clear arms the exit sequence and counts nothing, and the
    next pass, if it begins less than 1000 ms later, reads sensor 1 fired
    and begins no arrival, lowers the occupancy by one, or leaves it at 0
    when nobody is aboard. *)
Theorem X16_exit_counted_over_two_polls
    (T : Z) (i1 i2 : Input) (s : State) :
  Idle s -> suspended i1 s = false ->
  reading1 i1 = HIGH -> reading2 i1 = LOW ->
  suspended i2 (step T i1 s) = false ->
  heartbeatDue i2 (step T i1 s) = false ->
  reading1 i2 = LOW ->
  0 <= elapsed i2 < SEQ_TIMEOUT_MS ->
  passengerCount (step T i1 s) = passengerCount s /\
  passengerCount (run T [i1; i2] s) =
    (if passengerCount s >? 0 then passengerCount s - 1 else passengerCount s).
Proof.
  intros Hi Hs1 A1 A2 Hs2 Hd B1 He.
  destruct (exit_armed T i1 s Hi Hs1 A1 A2) as (C1 & C2 & C3 & C4 & C5).
  split; [exact C5|].
  cbn [run]. rewrite !seq_apply. unfold skip.
  revert Hs2 Hd C1 C2 C3 C5. generalize (step T i1 s).
  intros s1 Hs2 Hd C1 C2 C3 C5.
  rewrite step_occupancy, occupancyAfterEntry_cases.
  destruct (exit_window T i2 s1 (clock s1) C1 C2 C3 Hs2 Hd B1) as [Hn Hx];
    [unfold SEQ_TIMEOUT_MS in He; lia|].
  rewrite Hn, Hx.
  replace (clock s1 + elapsed i2 - clock s1 <? SEQ_TIMEOUT_MS) with true
    by (symmetry; apply Z.ltb_lt; lia).
  rewrite C5. reflexivity.
Qed.

(** X16 at work: one passenger aboard walks out. *)
Lemma X16_exit_counted_over_two_polls_witness :
  passengerCount (aboard 1) = 1 /\
  passengerCount
    (run TIMEOUT_MS [sensors 10 HIGH LOW; sensors 10 LOW HIGH] (aboard 1)) = 0.
Proof.
  split; [vm_compute; reflexivity|].
  destruct (X16_exit_counted_over_two_polls TIMEOUT_MS
              (sensors 10 HIGH LOW) (sensors 10 LOW HIGH) (aboard 1))
    as [_ H].
  - split; vm_compute; reflexivity.
  - vm_compute. reflexivity.
  - reflexivity.
  - reflexivity.
  - vm_compute. reflexivity.
  - reflexivity.
  - reflexivity.
  - vm_compute. split; [discriminate | reflexivity].
  - rewrite H. vm_compute. reflexivity.
Defined.

(** X17.  While an emergency is in force, and while the gate is open by
    the remote path when the reader's turn comes, a card at the reader is
    not evaluated: the pass changes no registry entry and no scan count
    and leaves the record of the last scan as it is. *)
Theorem X17_card_not_evaluated_in_emergency_or_remote_open
    (T : Z) (i : Input) (s : State) :
  suspended i s = true \/ hasRotated (atReader T i s) = true ->
  registeredCards (step T i s) = registeredCards s /\
  lastScannedName (step T i s) = lastScannedName s /\
  lastScannedCount (step T i s) = lastScannedCount s.
Proof. intros H. apply (token_ignored T i s H). Qed.

(** X17 at work: the driver's card while the gate is open by the remote
    path. *)
Lemma X17_card_not_evaluated_in_emergency_or_remote_open_witness :
  registeredCards (step TIMEOUT_MS (scan 100 driverCard) arrived)
  = registeredCards arrived.
Proof.
  apply (X17_card_not_evaluated_in_emergency_or_remote_open TIMEOUT_MS
           (scan 100 driverCard) arrived).
  right. vm_compute. reflexivity.
Defined.

(** X8 at work: the gate is open by the remote path, the timeout has long
    run out, and sensor 1 reads non-clear. *)
Lemma X8_blocked_gate_is_never_closed_witness :
  servoAngle (step TIMEOUT_MS (sensors 60000 LOW HIGH) arrived) = 120.
Proof.
  apply (X8_blocked_gate_is_never_closed TIMEOUT_MS (sensors 60000 LOW HIGH)
           arrived).
  - reflexivity.
  - reflexivity.
  - vm_compute. reflexivity.
Defined.

Lemma not_entered (T : Z) (i : Input) (s : State) :
  reading2 i = HIGH -> entered T i s = false.
Proof.
  intros R2. unfold entered, entryCompletes. rewrite R2. cbn [isLow].
  rewrite andb_false_r, andb_false_l, andb_false_r. reflexivity.
Qed.

(** X18.  The occupancy changes only when a sensor fires: a pass that is
    suspended by an emergency, or that reads both sensors clear, leaves the
    occupancy as it is, whatever sequence is armed. *)
Theorem X18_occupancy_kept_without_sensor (T : Z) (i : Input) (s : State) :
  suspended i s = true \/ (reading1 i = HIGH /\ reading2 i = HIGH) ->
  passengerCount (step T i s) = passengerCount s.
Proof.
  intros H. rewrite step_occupancy, occupancyAfterEntry_cases.
  destruct H as [Hs|[R1 R2]].
  - unfold entered, exited. rewrite Hs. reflexivity.
  - rewrite (not_exited T i s R1), (not_entered T i s R2). reflexivity.
Qed.

(** X18 at work: six passengers aboard, a pass with both sensors clear. *)
Lemma X18_occupancy_kept_without_sensor_witness :
  passengerCount (step TIMEOUT_MS (quiet 500) (aboard 6))
  = passengerCount (aboard 6).
Proof.
  apply (X18_occupancy_kept_without_sensor TIMEOUT_MS (quiet 500) (aboard 6)).
  right. split; reflexivity.
Defined.

(** X20.  Power-up starts a new session whatever the store holds: the
    servo is sent to the closed position and both open flags are clear,
    the occupancy, the press count and the overload count are 0, no
    emergency is in force, no crossing sequence is armed and the last scan
    is "None". *)
Theorem X20_power_up_starts_closed_and_zeroed (e : list Z) (g : Z -> list Z) :
  servoAngle (boot e g) = 60 /\
  hasRotated (boot e g) = false /\ servoOpen (boot e g) = false /\
  passengerCount (boot e g) = 0 /\ emergencyPressCount (boot e g) = 0 /\
  overloadCount (boot e g) = 0 /\ emergencyMode (boot e g) = false /\
  Idle (boot e g) /\ lastScannedName (boot e g) = "None".
Proof.
  destruct (boot_Counts e g) as (Hp & Hn & _).
  assert (HS : Stable (fun s => hasRotated s = false /\ servoOpen s = false /\
                               emergencyPressCount s = 0 /\
                               emergencyMode s = false /\ Idle s /\
                               lastScannedName s = "None") (setup g))
    by stable.
  destruct (HS (powerOn e)) as (A & B & C & D & E & F);
    [repeat split; reflexivity|].
  assert (Ha : servoAngle (boot e g) = 60).
  { rewrite boot_unfold.
    assert (H1 : Stable (fun s => servoAngle s = 60)
                   (initStore g ;; loadCardsFromEEPROM)) by stable.
    specialize (H1 (initBoard (powerOn e))). rewrite seq_apply in H1.
    apply H1. unfold initBoard. rewrite !seq_apply.
    match goal with
    | |- servoAngle (digitalWrite_BUZZER LOW (myServo_write 60 ?x)) = _ =>
        generalize x
    end.
    intros s1. reflexivity. }
  split; [exact Ha|]. split; [exact A|]. split; [exact B|].
  split; [exact Hp|]. split; [exact C|]. split; [exact Hn|].
  split; [exact D|]. split; [exact E | exact F].
Qed.

(** * The station *)

Lemma byteOfChar_range (c : ascii) : 0 <= byteOfChar c < 256.
Proof.
  unfold byteOfChar. pose proof (Ascii.N_ascii_bounded c). lia.
Qed.

Lemma bytesOfString_range (x : string) :
  Forall (fun b => 0 <= b < 256) (bytesOfString x).
Proof.
  unfold bytesOfString. induction x as [|c x IH]; cbn; constructor.
  - apply byteOfChar_range.
  - exact IH.
Qed.

Lemma copyName_WF (token : string) (n : Z) :
  - 2 ^ 15 <= n < 2 ^ 15 -> WFUser (Station.mkUser (Station.copyName token) n).
Proof.
  intros Hn. unfold WFUser, Station.copyName. cbn [Station.name Station.scanCount].
  assert (Hl : length (take 16 (bytesOfString token ++ replicate 16 0))
               = 16%nat).
  { rewrite length_take, length_app, length_replicate. lia. }
  split; [rewrite length_app, Hl; reflexivity|].
  split; [|split; [|exact Hn]].
  - apply Forall_app. split; [|repeat constructor; lia].
    apply Forall_take, Forall_app. split; [apply bytesOfString_range|].
    apply Forall_replicate. lia.
  - rewrite lookup_app_r by lia. rewrite Hl. reflexivity.
Qed.

Lemma atoi_range (x : string) : - 2 ^ 15 <= Station.atoi x < 2 ^ 15.
Proof.
  unfold Station.atoi. destruct (Station.skipSpaces x) as [|c rest]; [lia|].
  destruct (Ascii.eqb c "-"); [apply int16_range|].
  destruct (Ascii.eqb c "+"); apply int16_range.
Qed.

Lemma parseToken_OK (k : Z) (token : string) (s : Station.State) :
  StationOK s -> StationOK (Station.parseToken k token s).
Proof.
  intros (Hn & Hl & Hu). unfold Station.parseToken.
  destruct (k =? 0); [exact (conj Hn (conj Hl Hu))|].
  destruct (k =? 1); [exact (conj Hn (conj Hl Hu))|].
  destruct (k =? 2); [exact (conj Hn (conj Hl Hu))|].
  assert (Hat : forall j, (j < 5)%nat ->
                  WFUser (Station.users s !!! j)).
  { intros j Hj. rewrite Forall_lookup in Hu. apply (Hu j).
    apply list_lookup_lookup_total_lt. lia. }
  destruct ((k mod 2 =? 1) && (Station.numUsers s <? Station.MAX_USERS)) eqn:E1.
  - apply andb_true_iff in E1 as [_ E1]. apply Z.ltb_lt in E1.
    unfold Station.MAX_USERS in E1. cbv zeta.
    split; [exact Hn|]. cbn [Station.users Station.set_users].
    split; [rewrite length_insert; exact Hl|].
    apply Forall_insert; [exact Hu|].
    apply copyName_WF. apply (Hat (Z.to_nat (Station.numUsers s))). lia.
  - destruct (Station.numUsers s <? Station.MAX_USERS) eqn:E2.
    + apply Z.ltb_lt in E2. unfold Station.MAX_USERS in E2. cbv zeta.
      split; [cbn; lia|].
      cbn [Station.users Station.set_users Station.set_numUsers].
      split; [rewrite length_insert; exact Hl|].
      apply Forall_insert; [exact Hu|].
      destruct (Hat (Z.to_nat (Station.numUsers s)) ltac:(lia))
        as (A & B & C & _).
      split; [exact A|]. split; [exact B|]. split; [exact C|].
      apply atoi_range.
    + exact (conj Hn (conj Hl Hu)).
Qed.

Lemma parseTokens_OK (tokens : list string) :
  forall k s, StationOK s -> StationOK (Station.parseTokens tokens k s).
Proof.
  induction tokens as [|token rest IH]; intros k s H; [exact H|].
  cbn [Station.parseTokens]. apply IH, parseToken_OK, H.
Qed.

(** The saving loop writes the EEPROM and nothing else. *)
Lemma saveUsers_frame (n : nat) :
  forall i addr s,
    Station.users (Station.saveUsers n i addr s) = Station.users s /\
    Station.numUsers (Station.saveUsers n i addr s) = Station.numUsers s /\
    Station.passengerCount (Station.saveUsers n i addr s)
    = Station.passengerCount s /\
    Station.emergencyCount (Station.saveUsers n i addr s)
    = Station.emergencyCount s /\
    Station.overloadCount (Station.saveUsers n i addr s)
    = Station.overloadCount s.
Proof.
  induction n as [|n IH]; intros i addr s.
  - cbn [Station.saveUsers]. repeat split.
  - cbn [Station.saveUsers]. cbv zeta.
    destruct (IH (i + 1) (addr + 17 + 2)
                (Station.EEPROM_write (addr + 17)
                   (Station.intBytes
                      (Station.scanCount (Station.users s !!! Z.to_nat i)))
                   (Station.EEPROM_write addr
                      (Station.nameBytes (Station.users s !!! Z.to_nat i)) s)))
      as (H1 & H2 & H3 & H4 & H5).
    rewrite H1, H2, H3, H4, H5. repeat split.
Qed.

Lemma saveData_frame (s : Station.State) :
  Station.users (Station.saveData s) = Station.users s /\
  Station.numUsers (Station.saveData s) = Station.numUsers s /\
  Station.passengerCount (Station.saveData s) = Station.passengerCount s /\
  Station.emergencyCount (Station.saveData s) = Station.emergencyCount s /\
  Station.overloadCount (Station.saveData s) = Station.overloadCount s.
Proof.
  unfold Station.saveData. cbv zeta.
  match goal with
  | |- context [Station.saveUsers ?n ?i ?a ?s1] =>
      destruct (saveUsers_frame n i a s1) as (H1 & H2 & H3 & H4 & H5)
  end.
  rewrite H1, H2, H3, H4, H5. repeat split.
Qed.

Lemma saveData_OK (s : Station.State) : StationOK s -> StationOK (Station.saveData s).
Proof.
  intros H. destruct (saveData_frame s) as (H1 & H2 & _).
  unfold StationOK. rewrite H1, H2. exact H.
Qed.

(** X21.  Whatever text follows "D:", [parseData] stays within the
    station's arrays: it stores at most 5 users, every name keeps its 17
    bytes and ends with a NUL (names are cut to 16 characters), and every
    parsed number is an [int]. *)
Theorem X21_station_parse_stays_within_arrays
    (data : string) (s : Station.State) :
  length (Station.users s) = 5%nat -> Forall WFUser (Station.users s) ->
  0 <= Station.numUsers (Station.parseData data s) <= 5 /\
  length (Station.users (Station.parseData data s)) = 5%nat /\
  Forall WFUser (Station.users (Station.parseData data s)).
Proof.
  intros Hl Hu. unfold Station.parseData. cbv zeta.
  apply saveData_OK, parseTokens_OK.
  split; [cbn; lia|]. split; [exact Hl | exact Hu].
Qed.

(** X21 at work: a line with seven names after the counters, the first
    of 20 characters. *)
Lemma X21_station_parse_stays_within_arrays_witness :
  Station.numUsers
    (Station.parseData
       "D:1,2,3,ABCDEFGHIJKLMNOPQRST,1,B,2,C,3,D,4,E,5,F,6,G,7"
       (Station.powerOn erasedEEPROM)) = 5 /\
  cstr (Station.name
          (Station.users
             (Station.parseData
                "D:1,2,3,ABCDEFGHIJKLMNOPQRST,1,B,2,C,3,D,4,E,5,F,6,G,7"
                (Station.powerOn erasedEEPROM)) !!! 0%nat))
  = "ABCDEFGHIJKLMNOP".
Proof.
  destruct (X21_station_parse_stays_within_arrays
              "D:1,2,3,ABCDEFGHIJKLMNOPQRST,1,B,2,C,3,D,4,E,5,F,6,G,7"
              (Station.powerOn erasedEEPROM)) as (_ & _ & _).
  - reflexivity.
  - repeat constructor; cbn; lia.
  - split; vm_compute; reflexivity.
Defined.

(** ** Numbers on the wire *)

Lemma digitsValue_uint (d : Decimal.uint) :
  forall acc,
    Station.digitsValue acc (NilEmpty.string_of_uint d) =
    acc * 10 ^ Z.of_N (DecimalPos.Unsigned.usize d)
    + Z.of_N (DecimalPos.Unsigned.of_lu (Decimal.rev d)).
Proof.
  induction d; intros acc;
    [ cbn; lia | .. ];
    cbn [NilEmpty.string_of_uint Station.digitsValue DecimalPos.Unsigned.usize];
    match goal with
    | |- context [Station.isDigit ?c] =>
        replace (Station.isDigit c) with true by reflexivity;
        let v := eval vm_compute in (Z.of_nat (Ascii.nat_of_ascii c) - 48) in
        change (Z.of_nat (Ascii.nat_of_ascii c) - 48) with v
    end;
    rewrite IHd;
    match goal with
    | |- context [Decimal.rev (?D d)] =>
        change (Decimal.rev (D d)) with (Decimal.revapp d (D Decimal.Nil));
        rewrite (DecimalPos.Unsigned.of_lu_revapp d (D Decimal.Nil))
    end;
    cbn [DecimalPos.Unsigned.of_lu];
    rewrite N2Z.inj_succ, Z.pow_succ_r by lia;
    rewrite N2Z.inj_add, N2Z.inj_mul, N2Z.inj_pow;
    cbn [Z.of_N N.mul N.add]; lia.
Qed.

Lemma dec_digits (z : Z) :
  0 <= z -> dec z = NilEmpty.string_of_uint (N.to_uint (Z.to_N z)).
Proof.
  intros Hz. unfold dec.
  assert (H : Z.to_int z = Decimal.Pos (N.to_uint (Z.to_N z)))
    by (destruct z; [reflexivity | reflexivity | lia]).
  rewrite H. cbn [NilZero.string_of_int]. unfold NilZero.string_of_uint.
  pose proof (to_uint_nonnil (Z.to_N z)).
  destruct (N.to_uint (Z.to_N z)); [contradiction|..]; reflexivity.
Qed.

Lemma digitsValue_dec (z : Z) : 0 <= z -> Station.digitsValue 0 (dec z) = z.
Proof.
  intros Hz. rewrite dec_digits, digitsValue_uint by exact Hz.
  rewrite <- DecimalPos.Unsigned.of_uint_alt.
  change (Pos.of_uint (N.to_uint (Z.to_N z)))
    with (N.of_uint (N.to_uint (Z.to_N z))).
  rewrite DecimalN.Unsigned.of_to. lia.
Qed.

Lemma uint_digitsOnly (d : Decimal.uint) :
  digitsOnly (NilEmpty.string_of_uint d).
Proof. induction d; cbn; auto. Qed.

Lemma dec_digitsOnly (z : Z) : 0 <= z -> digitsOnly (dec z) /\ dec z <> "".
Proof.
  intros Hz. rewrite dec_digits by exact Hz.
  split; [apply uint_digitsOnly|].
  pose proof (to_uint_nonnil (Z.to_N z)).
  destruct (N.to_uint (Z.to_N z)); [contradiction|..]; discriminate.
Qed.

Lemma digit_facts (c : ascii) :
  Station.isDigit c = true ->
  Station.isSpace c = false /\ Ascii.eqb c "-" = false /\
  Ascii.eqb c "+" = false /\ c <> ","%char /\ c <> Ascii.zero.
Proof.
  unfold Station.isDigit, Station.isSpace. cbv zeta. intros H.
  apply andb_true_iff in H as [H1 H2].
  apply Nat.leb_le in H1, H2.
  assert (Hne : forall k : nat, (k < 48)%nat ->
                  c <> Ascii.ascii_of_nat k).
  { intros k Hk ->. rewrite Ascii.nat_ascii_embedding in H1 by lia. lia. }
  split.
  - apply orb_false_iff. split.
    + apply Nat.eqb_neq. lia.
    + apply andb_false_iff. right. apply Nat.leb_gt. lia.
  - split; [apply Ascii.eqb_neq, (Hne 45%nat); lia|].
    split; [apply Ascii.eqb_neq, (Hne 43%nat); lia|].
    split; [apply (Hne 44%nat); lia | apply (Hne 0%nat); lia].
Qed.

(** [atoi] reads back what [%d] and [%u] print, as an [int]. *)
Lemma atoi_dec (z : Z) : 0 <= z -> Station.atoi (dec z) = int16 z.
Proof.
  intros Hz. pose proof (digitsValue_dec z Hz) as Hv.
  destruct (dec_digitsOnly z Hz) as [Hd Hne].
  destruct (dec z) as [|c rest]; [contradiction|].
  destruct Hd as [Hc _].
  destruct (digit_facts c Hc) as (H1 & H2 & H3 & _).
  unfold Station.atoi. cbn [Station.skipSpaces]. rewrite H1, H2, H3, Hv.
  reflexivity.
Qed.

Lemma digitsOnly_plain (x : string) : digitsOnly x -> noComma x /\ noNul x.
Proof.
  induction x as [|c x IH]; [split; exact I|].
  intros [Hc Hx]. destruct (digit_facts c Hc) as (_ & _ & _ & H4 & H5).
  destruct (IH Hx) as [A B]. split; split; assumption.
Qed.

(** A negative number is printed with its sign. *)
Lemma dec_neg (z : Z) : z < 0 -> dec z = String "-" (dec (- z)).
Proof.
  intros Hz. destruct z as [|p|p]; [lia | lia |]. reflexivity.
Qed.

Lemma dec_plain (z : Z) : dec z <> "" /\ noComma (dec z) /\ noNul (dec z).
Proof.
  destruct (Z.neg_nonneg_cases z) as [Hz|Hz].
  - rewrite dec_neg by exact Hz.
    destruct (dec_digitsOnly (- z) ltac:(lia)) as [D _].
    destruct (digitsOnly_plain _ D) as [F G].
    split; [discriminate|]. split; (split; [discriminate | assumption]).
  - destruct (dec_digitsOnly z Hz) as [D E].
    destruct (digitsOnly_plain _ D) as [F G]. repeat split; assumption.
Qed.

(** [atoi] reads back a signed number as well. *)
Lemma atoi_dec_int (z : Z) : Station.atoi (dec z) = int16 z.
Proof.
  destruct (Z.neg_nonneg_cases z) as [Hz|Hz]; [|apply atoi_dec, Hz].
  rewrite dec_neg by exact Hz. unfold Station.atoi.
  cbn [Station.skipSpaces]. change (Station.isSpace "-") with false.
  cbv iota. change (Ascii.eqb "-" "-") with true. cbv iota.
  rewrite digitsValue_dec by lia. f_equal. lia.
Qed.


(** ** Tokens *)

Lemma tokensFrom_plain (x : string) :
  forall acc rest,
    noComma x ->
    Station.tokensFrom acc (x +:+ rest) = Station.tokensFrom (acc +:+ x) rest.
Proof.
  induction x as [|c x IH]; intros acc rest Hx.
  - rewrite append_empty_r. reflexivity.
  - destruct Hx as [Hc Hx].
    change (String c x +:+ rest) with (String c (x +:+ rest)).
    cbn [Station.tokensFrom].
    replace (Ascii.eqb c ",") with false
      by (symmetry; apply Ascii.eqb_neq; exact Hc).
    rewrite IH by exact Hx. rewrite append_assoc. reflexivity.
Qed.

Lemma tokensFrom_comma (acc rest : string) :
  acc <> "" ->
  Station.tokensFrom acc ("," +:+ rest) = acc :: Station.tokensFrom "" rest.
Proof.
  intros H. change ("," +:+ rest) with (String "," rest).
  cbn [Station.tokensFrom]. rewrite Ascii.eqb_refl.
  destruct acc; [contradiction | reflexivity].
Qed.

(** A line of tokens is cut back into its tokens. *)
Lemma tokens_of_line (tokens : list string) :
  forall t0,
    t0 <> "" -> noComma t0 ->
    Forall (fun t => t <> "" /\ noComma t) tokens ->
    Station.strtokAll (t0 +:+ commaJoin tokens) = t0 :: tokens.
Proof.
  unfold Station.strtokAll.
  induction tokens as [|t1 rest IH]; intros t0 Hne Hc Hall.
  - unfold commaJoin. cbn [map joinStrings foldr].
    rewrite tokensFrom_plain by exact Hc.
    change ("" +:+ t0) with t0. unfold Station.tokensFrom.
    destruct t0; [contradiction | reflexivity].
  - apply Forall_cons in Hall as [[Hne1 Hc1] Hrest].
    rewrite tokensFrom_plain by exact Hc.
    change ("" +:+ t0) with t0.
    change (commaJoin (t1 :: rest))
      with (("," +:+ t1) +:+ commaJoin rest).
    rewrite append_assoc.
    rewrite tokensFrom_comma by exact Hne.
    rewrite (IH t1 Hne1 Hc1 Hrest). reflexivity.
Qed.

Lemma cString_noNul (x : string) : noNul x -> Station.cString x = x.
Proof.
  induction x as [|c x IH]; [reflexivity|].
  intros [Hc Hx]. cbn [Station.cString].
  replace (Ascii.eqb c Ascii.zero) with false
    by (symmetry; apply Ascii.eqb_neq; exact Hc).
  rewrite IH by exact Hx. reflexivity.
Qed.

Lemma noNul_append (a b : string) : noNul a -> noNul b -> noNul (a +:+ b).
Proof.
  induction a as [|c a IH]; intros Ha Hb; [exact Hb|].
  destruct Ha as [Hc Ha].
  change (String c a +:+ b) with (String c (a +:+ b)).
  split; [exact Hc | apply IH; assumption].
Qed.

Lemma noNul_commaJoin (tokens : list string) :
  Forall noNul tokens -> noNul (commaJoin tokens).
Proof.
  induction 1 as [|t rest Ht Hrest IH]; [exact I|].
  change (commaJoin (t :: rest)) with (("," +:+ t) +:+ commaJoin rest).
  apply noNul_append; [|exact IH].
  change ("," +:+ t) with (String "," t). split; [discriminate | exact Ht].
Qed.

Lemma pairs_commaJoin (cards : list RegisteredCard) :
  joinStrings (map snapshotPair cards) = commaJoin (pairTokens cards).
Proof.
  induction cards as [|c cards IH]; [reflexivity|].
  change (joinStrings (map snapshotPair (c :: cards)))
    with (snapshotPair c +:+ joinStrings (map snapshotPair cards)).
  change (commaJoin (pairTokens (c :: cards)))
    with (("," +:+ name c) +:+ ("," +:+ dec (scanCount c)) +:+
          commaJoin (pairTokens cards)).
  rewrite IH. unfold snapshotPair. rewrite !append_assoc. reflexivity.
Qed.

(** The snapshot line as a line of tokens. *)
Lemma allCardsLine_tokens (s : State) :
  allCardsLine s =
  "D:" +:+ dec (passengerCount s) +:+
  commaJoin (dec (emergencyPressCount s) :: dec (overloadCount s)
             :: pairTokens (loadedCards s)).
Proof.
  unfold allCardsLine, snapshotHeader. rewrite pairs_commaJoin.
  change (commaJoin (dec (emergencyPressCount s) :: dec (overloadCount s)
                     :: pairTokens (loadedCards s)))
    with (("," +:+ dec (emergencyPressCount s)) +:+
          ("," +:+ dec (overloadCount s)) +:+
          commaJoin (pairTokens (loadedCards s))).
  rewrite !append_assoc. reflexivity.
Qed.

(** ** Parsing the pairs *)

Lemma parseToken_name (k : Z) (token : string) (s : Station.State) :
  3 <= k -> k mod 2 = 1 -> Station.numUsers s < 5 ->
  Station.parseToken k token s =
  Station.set_users
    (<[Z.to_nat (Station.numUsers s) :=
         Station.mkUser (Station.copyName token)
           (Station.scanCount
              (Station.users s !!! Z.to_nat (Station.numUsers s)))]>
       (Station.users s)) s.
Proof.
  intros Hk Hodd Hn. unfold Station.parseToken.
  replace (k =? 0) with false by (symmetry; apply Z.eqb_neq; lia).
  replace (k =? 1) with false by (symmetry; apply Z.eqb_neq; lia).
  replace (k =? 2) with false by (symmetry; apply Z.eqb_neq; lia).
  rewrite Hodd. unfold Station.MAX_USERS.
  replace (Station.numUsers s <? 5) with true
    by (symmetry; apply Z.ltb_lt; exact Hn).
  reflexivity.
Qed.

Lemma parseToken_count (k : Z) (token : string) (s : Station.State) :
  3 <= k -> k mod 2 = 0 -> Station.numUsers s < 5 ->
  Station.parseToken k token s =
  Station.set_numUsers (Station.numUsers s + 1)
    (Station.set_users
       (<[Z.to_nat (Station.numUsers s) :=
            Station.mkUser
              (Station.name
                 (Station.users s !!! Z.to_nat (Station.numUsers s)))
              (Station.atoi token)]>
          (Station.users s)) s).
Proof.
  intros Hk Heven Hn. unfold Station.parseToken.
  replace (k =? 0) with false by (symmetry; apply Z.eqb_neq; lia).
  replace (k =? 1) with false by (symmetry; apply Z.eqb_neq; lia).
  replace (k =? 2) with false by (symmetry; apply Z.eqb_neq; lia).
  rewrite Heven. unfold Station.MAX_USERS.
  replace (Station.numUsers s <? 5) with true
    by (symmetry; apply Z.ltb_lt; exact Hn).
  reflexivity.
Qed.

(** The name and the count of one card, parsed into the next free entry. *)
Lemma parse_pair (k : Z) (c : RegisteredCard) (m : nat) (s : Station.State) :
  3 <= k -> k mod 2 = 1 ->
  Station.numUsers s = Z.of_nat m -> (m < 5)%nat ->
  length (Station.users s) = 5%nat ->
  Station.parseToken (k + 1) (dec (scanCount c))
    (Station.parseToken k (name c) s) =
  Station.set_numUsers (Z.of_nat (S m))
    (Station.set_users (<[m := parsedUser c]> (Station.users s)) s).
Proof.
  intros Hk Hodd Hn Hm Hl.
  rewrite (parseToken_name k) by (try assumption; lia).
  rewrite (parseToken_count (k + 1));
    [ | lia | rewrite <- Zplus_mod_idemp_l, Hodd; reflexivity
      | cbn [Station.numUsers Station.set_users]; lia ].
  cbn [Station.numUsers Station.users Station.set_users Station.set_numUsers].
  rewrite Hn, Nat2Z.id.
  rewrite list_lookup_total_insert_eq by lia.
  rewrite list_insert_insert_eq.
  cbn [Station.name]. unfold parsedUser.
  replace (Z.of_nat m + 1) with (Z.of_nat (S m)) by lia.
  reflexivity.
Qed.

Lemma parse_pairs (cards : list RegisteredCard) :
  forall (m : nat) (s : Station.State),
    Station.numUsers s = Z.of_nat m -> (m + length cards <= 5)%nat ->
    length (Station.users s) = 5%nat ->
    let s' := Station.parseTokens (pairTokens cards) (3 + 2 * Z.of_nat m) s in
    Station.numUsers s' = Z.of_nat (m + length cards) /\
    Station.passengerCount s' = Station.passengerCount s /\
    Station.emergencyCount s' = Station.emergencyCount s /\
    Station.overloadCount s' = Station.overloadCount s /\
    take (m + length cards) (Station.users s')
    = take m (Station.users s) ++ map parsedUser cards.
Proof.
  induction cards as [|c cards IH]; intros m s Hn Hm Hl; cbv zeta.
  - cbn [pairTokens map concat Station.parseTokens length].
    rewrite Nat.add_0_r, app_nil_r. repeat split. exact Hn.
  - cbn [length] in Hm.
    change (pairTokens (c :: cards))
      with (name c :: dec (scanCount c) :: pairTokens cards).
    cbn [Station.parseTokens].
    rewrite (parse_pair (3 + 2 * Z.of_nat m) c m s);
      [ | lia | replace (3 + 2 * Z.of_nat m) with (3 + Z.of_nat m * 2) by lia;
          rewrite Z_mod_plus_full; reflexivity
        | exact Hn | lia | exact Hl ].
    replace (3 + 2 * Z.of_nat m + 1 + 1) with (3 + 2 * Z.of_nat (S m)) by lia.
    destruct (IH (S m)
                (Station.set_numUsers (Z.of_nat (S m))
                   (Station.set_users (<[m := parsedUser c]> (Station.users s))
                      s)))
      as (H1 & H2 & H3 & H4 & H5);
      [ reflexivity | lia
      | cbn [Station.users Station.set_users Station.set_numUsers];
        rewrite length_insert; exact Hl | ].
    cbn [length]. replace (m + S (length cards))%nat
      with (S m + length cards)%nat by lia.
    split; [exact H1|]. split; [exact H2|]. split; [exact H3|].
    split; [exact H4|].
    rewrite H5. cbn [Station.users Station.set_users Station.set_numUsers map].
    rewrite (take_S_r _ m (parsedUser c))
      by (apply list_lookup_insert_eq; lia).
    rewrite take_insert_ge by lia. rewrite <- app_assoc. reflexivity.
Qed.

Lemma replicate_snoc_zero (k : nat) :
  replicate k 0 ++ [0] = [0] ++ replicate k 0.
Proof.
  induction k as [|k IH]; [reflexivity|].
  cbn [replicate app]. rewrite IH. reflexivity.
Qed.

(** A name of at most 16 characters survives [strncpy]. *)
Lemma cstr_copyName (nm : string) :
  noNul nm -> (String.length nm <= 16)%nat ->
  cstr (Station.copyName nm) = nm.
Proof.
  intros Hn Hl. unfold Station.copyName.
  rewrite take_app_ge by (rewrite length_bytesOfString; exact Hl).
  rewrite length_bytesOfString, take_replicate.
  rewrite <- app_assoc, replicate_snoc_zero.
  apply cstr_stored, Hn.
Qed.

Lemma remove_prefix (x : string) : Station.remove0 2 ("D:" +:+ x) = x.
Proof. reflexivity. Qed.

Lemma parse_header (t0 t1 t2 : string) (rest : list string) (s : Station.State) :
  Station.parseTokens (t0 :: t1 :: t2 :: rest) 0 s =
  Station.parseTokens rest (3 + 2 * Z.of_nat 0)
    (Station.set_overloadCount (Station.atoi t2)
       (Station.set_emergencyCount (Station.atoi t1)
          (Station.set_passengerCount (Station.atoi t0) s))).
Proof. reflexivity. Qed.

Lemma userView_parsed (c : RegisteredCard) :
  sendable c -> 0 <= scanCount c ->
  userView (parsedUser c) = (name c, scanCount c).
Proof.
  intros (_ & Hn & _ & Hl & Hs) H0. unfold userView, parsedUser.
  cbn [Station.name Station.scanCount].
  rewrite cstr_copyName by assumption.
  rewrite atoi_dec by exact H0. rewrite int16_small by lia. reflexivity.
Qed.

(** The station reads a snapshot line back. *)
Lemma parse_snapshot (s : State) (st : Station.State) :
  RegistryOK s -> Bounded s -> - 2 ^ 15 <= passengerCount s ->
  passengerCount s < 2 ^ 15 -> emergencyPressCount s < 2 ^ 15 ->
  overloadCount s < 2 ^ 15 ->
  Forall sendable (loadedCards s) ->
  length (Station.users st) = 5%nat ->
  let st' := Station.parseData (allCardsLine s) st in
  Station.passengerCount st' = passengerCount s /\
  Station.emergencyCount st' = emergencyPressCount s /\
  Station.overloadCount st' = overloadCount s /\
  Station.numUsers st' = numLoadedCards s /\
  map userView (take (Z.to_nat (numLoadedCards s)) (Station.users st'))
  = map (fun c => (name c, scanCount c)) (loadedCards s).
Proof.
  intros [HRl HRn] (HB1 & HB2 & HB3) Hp0 Hp He Ho Hs Hl. cbv zeta.
  assert (Hlen : length (loadedCards s) = Z.to_nat (numLoadedCards s))
    by (unfold loadedCards; rewrite length_take; lia).
  assert (Hcnt : Forall (fun c => 0 <= scanCount c) (loadedCards s)).
  { unfold loadedCards. apply Forall_take.
    eapply Forall_impl; [exact HB3|]. intros c [Hc _]. lia. }
  assert (Htok : Forall (fun t => t <> "" /\ noComma t /\ noNul t)
                   (pairTokens (loadedCards s))).
  { revert Hs Hcnt. generalize (loadedCards s). intros cards Hs Hcnt.
    induction Hs as [|c cards Hc Hs IH]; [constructor|].
    apply Forall_cons in Hcnt as [H0 Hcnt].
    change (pairTokens (c :: cards))
      with (name c :: dec (scanCount c) :: pairTokens cards).
    destruct Hc as (A & B & C & _).
    destruct (dec_digitsOnly (scanCount c) H0) as [D E].
    destruct (digitsOnly_plain _ D) as [F G].
    repeat constructor; try assumption. apply IH, Hcnt. }
  destruct (dec_plain (passengerCount s)) as (P1 & P2 & P3).
  destruct (dec_plain (emergencyPressCount s)) as (E1 & E2 & E3).
  destruct (dec_plain (overloadCount s)) as (O1 & O2 & O3).
  rewrite allCardsLine_tokens. unfold Station.parseData. cbv zeta.
  rewrite remove_prefix.
  rewrite cString_noNul.
  2:{ apply noNul_append; [exact P3|]. apply noNul_commaJoin.
      repeat constructor; try assumption.
      eapply Forall_impl; [exact Htok|]. intros t (_ & _ & H). exact H. }
  rewrite tokens_of_line; [ | exact P1 | exact P2 | ].
  2:{ repeat constructor; try assumption.
      eapply Forall_impl; [exact Htok|]. intros t (A & B & _).
      split; assumption. }
  destruct (saveData_frame
              (Station.parseTokens
                 (dec (passengerCount s) :: dec (emergencyPressCount s)
                  :: dec (overloadCount s) :: pairTokens (loadedCards s))
                 0 (Station.set_numUsers 0 st)))
    as (F1 & F2 & F3 & F4 & F5).
  rewrite F1, F2, F3, F4, F5. rewrite parse_header.
  destruct (parse_pairs (loadedCards s) 0
              (Station.set_overloadCount (Station.atoi (dec (overloadCount s)))
                 (Station.set_emergencyCount
                    (Station.atoi (dec (emergencyPressCount s)))
                    (Station.set_passengerCount
                       (Station.atoi (dec (passengerCount s)))
                       (Station.set_numUsers 0 st)))))
    as (H1 & H2 & H3 & H4 & H5); [reflexivity | lia | exact Hl |].
  rewrite H1, H2, H3, H4.
  rewrite <- Hlen. change (length (loadedCards s))
    with (0 + length (loadedCards s))%nat at 2.
  rewrite H5. clear H1 H2 H3 H4 H5.
  cbn [Station.passengerCount Station.emergencyCount Station.overloadCount
       Station.set_overloadCount Station.set_emergencyCount
       Station.set_passengerCount Station.set_numUsers].
  rewrite !atoi_dec_int. rewrite !int16_small by lia.
  split; [reflexivity|]. split; [reflexivity|]. split; [reflexivity|].
  split; [lia|].
  rewrite take_0. cbn [app]. rewrite map_map.
  revert Hs Hcnt. generalize (loadedCards s). intros cards Hs Hcnt.
  induction Hs as [|c cards Hc Hs IH]; [reflexivity|].
  apply Forall_cons in Hcnt as [H0 Hcnt].
  cbn [map]. rewrite userView_parsed by assumption.
  rewrite IH by exact Hcnt. reflexivity.
Qed.

(** X22.  The station reads the vehicle's snapshot back: for every state
    that the vehicle reaches in which the three counters and the scan
    counts fit an [int] and every loaded name is not empty, has no comma
    and no NUL and at most 16 characters, [parseData] applied to the text
    that [sendAdminData] builds sets the station's occupancy, emergency
    count and overload count to the vehicle's, its user count to the
    number of loaded cards, and its users to the loaded cards' names and
    scan counts, in registry order. *)
Theorem X22_station_reads_the_snapshot_back
    (T : Z) (e : list Z) (g : Z -> list Z) (ins : list Input)
    (st : Station.State) :
  passengerCount (run T ins (boot e g)) < 2 ^ 15 ->
  emergencyPressCount (run T ins (boot e g)) < 2 ^ 15 ->
  overloadCount (run T ins (boot e g)) < 2 ^ 15 ->
  Forall sendable (loadedCards (run T ins (boot e g))) ->
  length (Station.users st) = 5%nat ->
  let st' := Station.parseData (adminBuffer (run T ins (boot e g))) st in
  Station.passengerCount st' = passengerCount (run T ins (boot e g)) /\
  Station.emergencyCount st' = emergencyPressCount (run T ins (boot e g)) /\
  Station.overloadCount st' = overloadCount (run T ins (boot e g)) /\
  Station.numUsers st' = numLoadedCards (run T ins (boot e g)) /\
  map userView
    (take (Z.to_nat (numLoadedCards (run T ins (boot e g))))
       (Station.users st'))
  = map (fun c => (name c, scanCount c))
      (loadedCards (run T ins (boot e g))).
Proof.
  pose proof (reachable_RegistryOK T e g ins) as HR.
  pose proof (reachable_CounterOK T e g ins) as [[HC _] _].
  pose proof (run_Bounded T ins _ (boot_Bounded e g)) as HB.
  revert HR HC HB. generalize (run T ins (boot e g)).
  intros s HR HC HB Hp He Ho Hs Hl.
  rewrite (adminBuffer_all_cards s HR).
  apply parse_snapshot; assumption.
Qed.

Lemma X22_station_reads_the_snapshot_back_witness :
  let s := run TIMEOUT_MS [scan 100 driverCard] (boot erasedEEPROM (fun _ => [])) in
  let st' := Station.parseData (adminBuffer s) (Station.powerOn erasedEEPROM) in
  Station.passengerCount st' = passengerCount s /\
  Station.emergencyCount st' = emergencyPressCount s /\
  Station.overloadCount st' = overloadCount s /\
  Station.numUsers st' = numLoadedCards s /\
  map userView (take (Z.to_nat (numLoadedCards s)) (Station.users st'))
  = map (fun c => (name c, scanCount c)) (loadedCards s).
Proof.
  apply (X22_station_reads_the_snapshot_back TIMEOUT_MS erasedEEPROM
           (fun _ => []) [scan 100 driverCard] (Station.powerOn erasedEEPROM)).
  - vm_compute. reflexivity.
  - vm_compute. reflexivity.
  - vm_compute. reflexivity.
  - vm_compute. repeat constructor; discriminate.
  - reflexivity.
Defined.

(** * The station's EEPROM *)

Lemma holds_write (e : list Z) (a : Z) (bytes : list Z) :
  0 <= a -> a + Z.of_nat (length bytes) <= Z.of_nat (length e) ->
  Holds (list_inserts (Z.to_nat a) bytes e) a bytes.
Proof.
  intros Ha Hl j Hj. unfold EEPROM_read.
  rewrite list_lookup_inserts by lia.
  replace (Z.to_nat (a + Z.of_nat j) - Z.to_nat a)%nat with j by lia.
  rewrite list_lookup_total_alt.
  destruct (lookup_lt_is_Some_2 bytes j Hj) as [x Hx]. rewrite Hx. reflexivity.
Qed.

Lemma holds_keep (e : list Z) (a : Z) (bytes : list Z) (b : Z) (bs : list Z) :
  0 <= a -> 0 <= b ->
  b + Z.of_nat (length bs) <= a \/ a + Z.of_nat (length bytes) <= b ->
  Holds e b bs -> Holds (list_inserts (Z.to_nat a) bytes e) b bs.
Proof.
  intros Ha Hb Hd H j Hj. rewrite <- (H j Hj). unfold EEPROM_read.
  destruct Hd;
    [rewrite list_lookup_inserts_lt by lia
    |rewrite list_lookup_inserts_ge by lia]; reflexivity.
Qed.

Lemma holds_app (e : list Z) (a : Z) (x y : list Z) :
  Holds e a x -> Holds e (a + Z.of_nat (length x)) y -> Holds e a (x ++ y).
Proof.
  intros Hx Hy j Hj. rewrite length_app in Hj.
  destruct (decide (j < length x)%nat) as [Hlt|Hge].
  - rewrite lookup_total_app_l by exact Hlt. apply Hx, Hlt.
  - rewrite lookup_total_app_r by lia. rewrite <- Hy by lia.
    f_equal. lia.
Qed.

Lemma holds_app_inv (e : list Z) (a : Z) (x y : list Z) :
  Holds e a (x ++ y) ->
  Holds e a x /\ Holds e (a + Z.of_nat (length x)) y.
Proof.
  intros H. split; intros j Hj.
  - rewrite (H j) by (rewrite length_app; lia).
    apply lookup_total_app_l, Hj.
  - replace (a + Z.of_nat (length x) + Z.of_nat j)
      with (a + Z.of_nat (length x + j)) by lia.
    rewrite (H (length x + j)%nat) by (rewrite length_app; lia).
    rewrite lookup_total_app_r by lia. f_equal. lia.
Qed.

Lemma length_nameBytes (u : Station.UserData) :
  length (Station.nameBytes u) = 17%nat.
Proof. reflexivity. Qed.

Lemma nameBytes_name (u : Station.UserData) :
  length (Station.name u) = 17%nat -> Station.nameBytes u = Station.name u.
Proof.
  intros H. unfold Station.nameBytes.
  destruct (Station.name u) as [|x0 l]; [discriminate|].
  do 16 (destruct l as [|? l]; [discriminate|]).
  destruct l; [reflexivity|discriminate].
Qed.

(** An [int] put into two cells is read back. *)
Lemma getInt_holds (e : list Z) (a z : Z) :
  - 2 ^ 15 <= z < 2 ^ 15 -> Holds e a (Station.intBytes z) ->
  Station.getInt e a = z.
Proof.
  intros Hz H. unfold Station.getInt.
  pose proof (H 0%nat ltac:(cbn; lia)) as H0.
  pose proof (H 1%nat ltac:(cbn; lia)) as H1.
  rewrite Z.add_0_r in H0. change (Z.of_nat 1) with 1 in H1.
  rewrite H0, H1. unfold Station.intBytes. cbn [lookup_total list_lookup_total].
  unfold int16.
  pose proof (Z.div_mod z 256 ltac:(lia)) as D.
  pose proof (Z.mod_pos_bound z 256 ltac:(lia)) as B.
  assert (Hq : - 128 <= z / 256 < 128).
  { split; [apply Z.div_le_lower_bound; lia|apply Z.div_lt_upper_bound; lia]. }
  replace ((z / 256) mod 256) with (z / 256 + 256 * (if z <? 0 then 1 else 0)).
  - destruct (z <? 0) eqn:E.
    + apply Z.ltb_lt in E.
      replace (z mod 256 + 256 * (z / 256 + 256 * 1) + 2 ^ 15)
        with (z + 2 ^ 15 + 1 * 2 ^ 16) by lia.
      rewrite Z_mod_plus_full. rewrite Z.mod_small by lia. lia.
    + apply Z.ltb_ge in E.
      replace (z mod 256 + 256 * (z / 256 + 256 * 0) + 2 ^ 15)
        with (z + 2 ^ 15) by lia.
      rewrite Z.mod_small by lia. lia.
  - destruct (z <? 0) eqn:E.
    + apply Z.ltb_lt in E.
      assert (z / 256 < 0) by (apply Z.div_lt_upper_bound; lia).
      apply Z.mod_unique_pos with (q := -1); lia.
    + apply Z.ltb_ge in E.
      assert (0 <= z / 256) by (apply Z.div_pos; lia).
      rewrite Z.mod_small by lia. lia.
Qed.

Lemma saveUsers_holds (n : nat) :
  forall (i : nat) (addr : Z) (s : Station.State),
    0 <= addr ->
    addr + 19 * Z.of_nat n <= Z.of_nat (length (Station.eeprom s)) ->
    let s' := Station.saveUsers n (Z.of_nat i) addr s in
    (forall b bs, 0 <= b -> b + Z.of_nat (length bs) <= addr ->
        Holds (Station.eeprom s) b bs -> Holds (Station.eeprom s') b bs) /\
    (forall m, (m < n)%nat ->
        Holds (Station.eeprom s') (addr + 19 * Z.of_nat m)
          (Station.nameBytes (Station.users s !!! (i + m)%nat) ++
           Station.intBytes
             (Station.scanCount (Station.users s !!! (i + m)%nat)))).
Proof.
  induction n as [|n IH]; intros i addr s Ha Hl; cbv zeta.
  - cbn [Station.saveUsers]. split; [intros; assumption|]. intros m Hm. lia.
  - cbn [Station.saveUsers]. cbv zeta. rewrite Nat2Z.id.
    set (u := Station.users s !!! i).
    set (s2 := Station.EEPROM_write (addr + 17)
                 (Station.intBytes (Station.scanCount u))
                 (Station.EEPROM_write addr (Station.nameBytes u) s)).
    assert (Hu2 : Station.users s2 = Station.users s) by reflexivity.
    assert (He2 : Station.eeprom s2
                  = list_inserts (Z.to_nat (addr + 17))
                      (Station.intBytes (Station.scanCount u))
                      (list_inserts (Z.to_nat addr) (Station.nameBytes u)
                         (Station.eeprom s))) by reflexivity.
    assert (Hlen2 : length (Station.eeprom s2) = length (Station.eeprom s))
      by (rewrite He2, !length_inserts; reflexivity).
    replace (Z.of_nat i + 1) with (Z.of_nat (S i)) by lia.
    destruct (IH (S i) (addr + 17 + 2) s2 ltac:(lia) ltac:(lia))
      as [Hkeep Hnew].
    clearbody s2. split.
    + intros b bs Hb Hbs H. apply Hkeep; [exact Hb | lia |].
      rewrite He2. apply holds_keep; [lia | lia | left; cbn; lia |].
      apply holds_keep; [lia | lia | left; lia | exact H].
    + intros [|m] Hm.
      * rewrite Z.mul_0_r, Z.add_0_r, Nat.add_0_r. fold u.
        apply Hkeep; [lia | rewrite length_app, length_nameBytes; cbn; lia |].
        rewrite He2. apply holds_app.
        -- apply holds_keep; [lia | lia | left; rewrite length_nameBytes; lia |].
           apply holds_write; [lia | rewrite length_nameBytes; lia].
        -- rewrite length_nameBytes. change (Z.of_nat 17) with 17.
           apply holds_write; [lia | rewrite length_inserts; cbn; lia].
      * specialize (Hnew m ltac:(lia)). rewrite Hu2 in Hnew.
        replace (addr + 19 * Z.of_nat (S m))
          with (addr + 17 + 2 + 19 * Z.of_nat m) by lia.
        replace (i + S m)%nat with (S i + m)%nat by lia. exact Hnew.
Qed.

(** What [saveData] leaves in the EEPROM. *)
Lemma saveData_holds (s : Station.State) :
  0 <= Station.numUsers s <= 5 ->
  (103 <= length (Station.eeprom s))%nat ->
  let e := Station.eeprom (Station.saveData s) in
  Holds e 0 [Station.MAGIC_BYTE] /\
  Holds e 1 [Station.numUsers s] /\
  Holds e 2 (Station.intBytes (Station.passengerCount s)) /\
  Holds e 4 (Station.intBytes (Station.emergencyCount s)) /\
  Holds e 6 (Station.intBytes (Station.overloadCount s)) /\
  (forall m, (m < Z.to_nat (Station.numUsers s))%nat ->
     Holds e (8 + 19 * Z.of_nat m)
       (Station.nameBytes (Station.users s !!! m) ++
        Station.intBytes (Station.scanCount (Station.users s !!! m)))).
Proof.
  intros Hn Hl. cbv zeta. unfold Station.saveData. cbv zeta.
  set (s5 := Station.EEPROM_write (Station.EEPROM_START_ADDR + 6) _ _).
  assert (Hu : Station.users s5 = Station.users s) by reflexivity.
  assert (Hk : Station.numUsers s5 = Station.numUsers s) by reflexivity.
  assert (He : Station.eeprom s5
               = list_inserts (Z.to_nat 6)
                   (Station.intBytes (Station.overloadCount s))
                   (list_inserts (Z.to_nat 4)
                      (Station.intBytes (Station.emergencyCount s))
                      (list_inserts (Z.to_nat 2)
                         (Station.intBytes (Station.passengerCount s))
                         (list_inserts (Z.to_nat 1)
                            [Station.numUsers s mod 256]
                            (list_inserts (Z.to_nat 0) [Station.MAGIC_BYTE]
                               (Station.eeprom s)))))) by reflexivity.
  clearbody s5. rewrite Hk.
  change 0 with (Z.of_nat 0) at 2.
  destruct (saveUsers_holds (Z.to_nat (Station.numUsers s)) 0
              (Station.EEPROM_START_ADDR + 8) s5 ltac:(unfold Station.EEPROM_START_ADDR; lia))
    as [Hkeep Hnew].
  { rewrite He, !length_inserts. unfold Station.EEPROM_START_ADDR. lia. }
  change (Station.EEPROM_START_ADDR + 8) with 8 in *.
  change (Z.of_nat 0) with 0 in *.
  rewrite Z.mod_small in He by lia.
  repeat split.
  - apply Hkeep; [lia | cbn; lia |]. rewrite He.
    do 4 (apply holds_keep; [lia | lia | left; cbn; lia |]).
    apply holds_write; [lia | cbn; lia].
  - apply Hkeep; [lia | cbn; lia |]. rewrite He.
    do 3 (apply holds_keep; [lia | lia | left; cbn; lia |]).
    apply holds_write; [lia | rewrite length_inserts; cbn; lia].
  - apply Hkeep; [lia | cbn; lia |]. rewrite He.
    do 2 (apply holds_keep; [lia | lia | left; cbn; lia |]).
    apply holds_write; [lia | rewrite !length_inserts; cbn; lia].
  - apply Hkeep; [lia | cbn; lia |]. rewrite He.
    do 1 (apply holds_keep; [lia | lia | left; cbn; lia |]).
    apply holds_write; [lia | rewrite !length_inserts; cbn; lia].
  - apply Hkeep; [lia | cbn; lia |]. rewrite He.
    apply holds_write; [lia | rewrite !length_inserts; cbn; lia].
  - intros m Hm. specialize (Hnew m Hm). rewrite Hu in Hnew. exact Hnew.
Qed.

(** The loading loop fills the entries from [i] on and leaves the rest of
    the state alone. *)
Lemma loadUsers_spec (n : nat) :
  forall (i : nat) (addr : Z) (s : Station.State),
    length (Station.users s) = 5%nat -> (i + n <= 5)%nat ->
    let s' := Station.loadUsers n (Z.of_nat i) addr s in
    Station.numUsers s' = Station.numUsers s /\
    Station.passengerCount s' = Station.passengerCount s /\
    Station.emergencyCount s' = Station.emergencyCount s /\
    Station.overloadCount s' = Station.overloadCount s /\
    length (Station.users s') = 5%nat /\
    (forall m, (m < n)%nat ->
       Station.users s' !!! (i + m)%nat
       = Station.mkUser
           (map (fun j => EEPROM_read (Station.eeprom s)
                            (addr + 19 * Z.of_nat m + Z.of_nat j)) (seq 0 17))
           (Station.getInt (Station.eeprom s)
              (addr + 19 * Z.of_nat m + 17))) /\
    (forall k, (k < i)%nat ->
       Station.users s' !!! k = Station.users s !!! k).
Proof.
  induction n as [|n IH]; intros i addr s Hl Hi; cbv zeta.
  - cbn [Station.loadUsers]. repeat split; try assumption. intros m Hm. lia.
  - cbn [Station.loadUsers]. cbv zeta. rewrite Nat2Z.id.
    set (u := Station.mkUser _ _).
    set (s1 := Station.set_users _ s).
    assert (Hu1 : Station.users s1 = <[i := u]> (Station.users s))
      by reflexivity.
    assert (He1 : Station.eeprom s1 = Station.eeprom s) by reflexivity.
    assert (H1 : Station.numUsers s1 = Station.numUsers s) by reflexivity.
    assert (H2 : Station.passengerCount s1 = Station.passengerCount s)
      by reflexivity.
    assert (H3 : Station.emergencyCount s1 = Station.emergencyCount s)
      by reflexivity.
    assert (H4 : Station.overloadCount s1 = Station.overloadCount s)
      by reflexivity.
    clearbody s1.
    replace (Z.of_nat i + 1) with (Z.of_nat (S i)) by lia.
    destruct (IH (S i) (addr + 17 + 2) s1) as (A1 & A2 & A3 & A4 & A5 & A6 & A7);
      [rewrite Hu1, length_insert; exact Hl | lia |].
    rewrite A1, A2, A3, A4, H1, H2, H3, H4.
    repeat split; try assumption.
    + intros [|m] Hm.
      * rewrite Nat.add_0_r, A7 by lia. rewrite Hu1.
        rewrite list_lookup_total_insert_eq by lia.
        subst u. f_equal.
        -- apply map_ext. intros j. f_equal. lia.
        -- f_equal. lia.
      * replace (i + S m)%nat with (S i + m)%nat by lia.
        rewrite A6 by lia. rewrite He1. f_equal.
        -- apply map_ext. intros j. f_equal. lia.
        -- f_equal. lia.
    + intros k Hk. rewrite A7 by lia. rewrite Hu1.
      apply list_lookup_total_insert_ne. lia.
Qed.

Lemma parseToken_ints (k : Z) (token : string) (s : Station.State) :
  StationInts s -> StationInts (Station.parseToken k token s).
Proof.
  intros (H1 & H2 & H3). unfold Station.parseToken, StationInts.
  pose proof (atoi_range token) as Ha.
  destruct (k =? 0); [cbn; auto|].
  destruct (k =? 1); [cbn; auto|].
  destruct (k =? 2); [cbn; auto|].
  destruct ((k mod 2 =? 1) && _); [cbn; auto|].
  destruct (_ <? _); cbn; auto.
Qed.

Lemma parseTokens_ints (tokens : list string) :
  forall k s, StationInts s -> StationInts (Station.parseTokens tokens k s).
Proof.
  induction tokens as [|token rest IH]; intros k s H; [exact H|].
  cbn [Station.parseTokens]. apply IH, parseToken_ints, H.
Qed.

Lemma parseToken_eeprom (k : Z) (token : string) (s : Station.State) :
  Station.eeprom (Station.parseToken k token s) = Station.eeprom s.
Proof.
  unfold Station.parseToken.
  destruct (k =? 0); [reflexivity|].
  destruct (k =? 1); [reflexivity|].
  destruct (k =? 2); [reflexivity|].
  destruct ((k mod 2 =? 1) && _); [reflexivity|].
  destruct (_ <? _); reflexivity.
Qed.

Lemma parseTokens_eeprom (tokens : list string) :
  forall k s,
    Station.eeprom (Station.parseTokens tokens k s) = Station.eeprom s.
Proof.
  induction tokens as [|token rest IH]; intros k s; [reflexivity|].
  cbn [Station.parseTokens]. rewrite IH. apply parseToken_eeprom.
Qed.

(** The station started on the EEPROM that [saveData] wrote. *)
Lemma boot_saved (s : Station.State) :
  StationOK s -> StationInts s ->
  (103 <= length (Station.eeprom s))%nat ->
  let b := Station.boot (Station.eeprom (Station.saveData s)) in
  Station.dataReceived b = true /\
  Station.numUsers b = Station.numUsers s /\
  Station.passengerCount b = Station.passengerCount s /\
  Station.emergencyCount b = Station.emergencyCount s /\
  Station.overloadCount b = Station.overloadCount s /\
  take (Z.to_nat (Station.numUsers s)) (Station.users b)
  = take (Z.to_nat (Station.numUsers s)) (Station.users s).
Proof.
  intros (Hn & Hl & Hu) (I1 & I2 & I3) He. cbv zeta.
  destruct (saveData_holds s Hn He) as (M0 & M1 & M2 & M3 & M4 & M5).
  revert M0 M1 M2 M3 M4 M5.
  generalize (Station.eeprom (Station.saveData s)). intros e M0 M1 M2 M3 M4 M5.
  pose proof (M0 0%nat ltac:(cbn; lia)) as R0.
  pose proof (M1 0%nat ltac:(cbn; lia)) as R1.
  change (0 + Z.of_nat 0) with 0 in R0. change (1 + Z.of_nat 0) with 1 in R1.
  cbn [lookup_total list_lookup_total] in R0, R1.
  apply getInt_holds in M2; [|exact I1].
  apply getInt_holds in M3; [|exact I2].
  apply getInt_holds in M4; [|exact I3].
  unfold Station.boot, Station.setup. cbv zeta.
  cbn [Station.eeprom Station.emit Station.set_trace Station.powerOn].
  change (Station.EEPROM_START_ADDR + 1) with 1.
  change (Station.EEPROM_START_ADDR + 2) with 2.
  change (Station.EEPROM_START_ADDR + 4) with 4.
  change (Station.EEPROM_START_ADDR + 6) with 6.
  change (Station.EEPROM_START_ADDR + 8) with 8.
  change Station.EEPROM_START_ADDR with 0.
  rewrite R0. rewrite Z.eqb_refl.
  cbn [Station.eeprom Station.set_numUsers Station.set_passengerCount
       Station.set_emergencyCount Station.set_overloadCount
       Station.numUsers Station.passengerCount Station.emergencyCount
       Station.overloadCount Station.users Station.dataReceived
       Station.lastRequestTime Station.lastDisplayChangeTime
       Station.currentDisplayScreen Station.clock Station.trace].
  change (Station.eeprom
            (Station.emit LcdBacklight (Station.emit LcdInit (Station.powerOn e))))
    with e.
  rewrite R1, M2, M3, M4.
  match goal with
  | |- context [Station.loadUsers ?n 0 ?a ?s0] =>
      change (Station.loadUsers n 0 a s0)
        with (Station.loadUsers n (Z.of_nat 0) a s0);
      destruct (loadUsers_spec n 0 a s0 eq_refl ltac:(lia))
        as (A1 & A2 & A3 & A4 & A5 & A6 & _);
      change (Station.eeprom s0) with e in A6;
      revert A1 A2 A3 A4 A5 A6;
      generalize (Station.loadUsers n (Z.of_nat 0) a s0)
  end.
  intros s' A1 A2 A3 A4 A5 A6.
  cbn [Station.delay Station.emit Station.set_trace Station.set_clock
       Station.set_lastDisplayChangeTime Station.set_currentDisplayScreen
       Station.set_dataReceived
       Station.numUsers Station.passengerCount Station.emergencyCount
       Station.overloadCount Station.users Station.dataReceived] in *.
  rewrite A1, A2, A3, A4.
  repeat split.
  apply list_eq. intros m. rewrite !lookup_take.
  destruct (decide (m < Z.to_nat (Station.numUsers s))%nat) as [Hm|Hm];
    [|reflexivity].
  rewrite !list_lookup_lookup_total_lt by lia. f_equal.
  specialize (A6 m Hm). cbn [Nat.add] in A6. rewrite A6.
  specialize (M5 m Hm).
  assert (WF : WFUser (Station.users s !!! m)).
  { rewrite Forall_lookup in Hu. apply (Hu m).
    apply list_lookup_lookup_total_lt. lia. }
  destruct WF as (W1 & _ & _ & W4).
  apply holds_app_inv in M5 as [N1 N2].
  rewrite length_nameBytes in N2. change (Z.of_nat 17) with 17 in N2.
  apply getInt_holds in N2; [|exact W4]. rewrite N2.
  destruct (Station.users s !!! m) as [nm sc] eqn:E. f_equal.
  cbn [Station.name] in W1.
  transitivity (Station.nameBytes (Station.mkUser nm sc));
    [|exact (nameBytes_name (Station.mkUser nm sc) W1)].
  unfold Station.nameBytes. apply map_ext_in. intros j Hj.
  apply in_seq in Hj.
  rewrite (N1 j) by (rewrite length_nameBytes; lia).
  destruct Hj as [_ Hj]. clear -Hj.
  do 17 (destruct j as [|j]; [reflexivity|]). lia.
Qed.

(** X23.  The station keeps what it parsed over a restart: when the
    EEPROM has room for the 103 bytes of the record, [setup] run on the
    EEPROM that [parseData] left takes the data for valid and restores the
    user count, the three counters and the names and scan counts of the
    stored users. *)
Theorem X23_station_restart_restores_parsed_data
    (data : string) (st : Station.State) :
  length (Station.users st) = 5%nat -> Forall WFUser (Station.users st) ->
  StationInts st -> (103 <= length (Station.eeprom st))%nat ->
  let st' := Station.parseData data st in
  let b := Station.boot (Station.eeprom st') in
  Station.dataReceived b = true /\
  Station.numUsers b = Station.numUsers st' /\
  Station.passengerCount b = Station.passengerCount st' /\
  Station.emergencyCount b = Station.emergencyCount st' /\
  Station.overloadCount b = Station.overloadCount st' /\
  take (Z.to_nat (Station.numUsers st')) (Station.users b)
  = take (Z.to_nat (Station.numUsers st')) (Station.users st').
Proof.
  intros Hl Hu Hi He. cbv zeta. unfold Station.parseData. cbv zeta.
  set (tokens := Station.strtokAll _).
  assert (OK : StationOK (Station.parseTokens tokens 0 (Station.set_numUsers 0 st))).
  { apply parseTokens_OK. split; [cbn; lia|]. split; [exact Hl|exact Hu]. }
  assert (IN : StationInts (Station.parseTokens tokens 0 (Station.set_numUsers 0 st))).
  { apply parseTokens_ints. exact Hi. }
  assert (EE : (103 <= length (Station.eeprom
                   (Station.parseTokens tokens 0 (Station.set_numUsers 0 st))))%nat).
  { rewrite parseTokens_eeprom. exact He. }
  revert OK IN EE.
  generalize (Station.parseTokens tokens 0 (Station.set_numUsers 0 st)).
  intros s OK IN EE.
  destruct (saveData_frame s) as (F1 & F2 & F3 & F4 & F5).
  rewrite F1, F2, F3, F4, F5.
  apply boot_saved; assumption.
Qed.

Lemma X23_station_restart_restores_parsed_data_witness :
  let st' := Station.parseData "D:7,1,2,Driver,3,Helper,0"
               (Station.powerOn erasedEEPROM) in
  let b := Station.boot (Station.eeprom st') in
  Station.dataReceived b = true /\
  Station.numUsers b = Station.numUsers st' /\
  Station.passengerCount b = Station.passengerCount st' /\
  Station.emergencyCount b = Station.emergencyCount st' /\
  Station.overloadCount b = Station.overloadCount st' /\
  take (Z.to_nat (Station.numUsers st')) (Station.users b)
  = take (Z.to_nat (Station.numUsers st')) (Station.users st').
Proof.
  apply (X23_station_restart_restores_parsed_data
           "D:7,1,2,Driver,3,Helper,0" (Station.powerOn erasedEEPROM)).
  - reflexivity.
  - vm_compute. repeat constructor; discriminate.
  - vm_compute. repeat split; discriminate.
  - vm_compute. lia.
Defined.

(** * The line on the wire *)

Lemma list_ascii_append (a b : string) :
  String.list_ascii_of_string (a +:+ b)
  = String.list_ascii_of_string a ++ String.list_ascii_of_string b.
Proof.
  induction a as [|c a IH]; [reflexivity|].
  change (String c a +:+ b) with (String c (a +:+ b)).
  cbn [String.list_ascii_of_string app]. rewrite IH. reflexivity.
Qed.

Lemma reverse_snoc (y : string) (c : ascii) :
  Station.reverse (y +:+ String c "") = String c (Station.reverse y).
Proof.
  unfold Station.reverse. rewrite list_ascii_append, rev_app_distr.
  reflexivity.
Qed.

Lemma reverse_cons (c : ascii) (y : string) :
  Station.reverse (String c y) = Station.reverse y +:+ String c "".
Proof.
  unfold Station.reverse. cbn [String.list_ascii_of_string rev].
  generalize (rev (String.list_ascii_of_string y)). intros l.
  induction l as [|d l IH]; [reflexivity|].
  cbn [app String.string_of_list_ascii]. rewrite IH. reflexivity.
Qed.

Lemma reverse_reverse (x : string) : Station.reverse (Station.reverse x) = x.
Proof.
  induction x as [|c x IH]; [reflexivity|].
  rewrite reverse_cons, reverse_snoc, IH. reflexivity.
Qed.

Lemma digit_not_space (c : ascii) :
  Station.isDigit c = true -> Station.isSpace c = false.
Proof.
  unfold Station.isDigit, Station.isSpace. generalize (nat_of_ascii c).
  intros n H. apply andb_true_iff in H as [H1 H2].
  apply Nat.leb_le in H1. apply Nat.leb_le in H2.
  apply orb_false_iff. split.
  - apply Nat.eqb_neq. lia.
  - apply andb_false_iff. right. apply Nat.leb_gt. lia.
Qed.

(** [trim] takes the carriage return, and nothing else, off a line that
    starts with a letter and ends with a digit. *)
Lemma trim_line (c0 : ascii) (x : string) :
  Station.isSpace c0 = false -> EndsDigit (String c0 x) ->
  Station.trim (String c0 x +:+ CR) = String c0 x.
Proof.
  intros H0 (y & c & E & Hc). unfold Station.trim.
  change (String c0 x +:+ CR) with (String c0 (x +:+ CR)).
  cbn [Station.skipSpaces]. rewrite H0.
  change (String c0 (x +:+ CR)) with (String c0 x +:+ CR).
  unfold CR. rewrite reverse_snoc. cbn [Station.skipSpaces].
  change (Station.isSpace "013") with true. cbv iota.
  rewrite E at 1. rewrite reverse_snoc. cbn [Station.skipSpaces].
  rewrite (digit_not_space c Hc).
  rewrite <- reverse_snoc, <- E. apply reverse_reverse.
Qed.

Lemma endsDigit_append (a b : string) : EndsDigit b -> EndsDigit (a +:+ b).
Proof.
  intros (y & c & E & Hc). exists (a +:+ y), c. split; [|exact Hc].
  rewrite E. symmetry. apply append_assoc.
Qed.

Lemma endsDigit_digits (d : string) :
  digitsOnly d -> d <> "" -> EndsDigit d.
Proof.
  induction d as [|c d IH]; intros H Hne; [contradiction|].
  destruct H as [Hc Hd]. destruct d as [|c' d'].
  - exists "", c. split; [reflexivity | exact Hc].
  - change (String c (String c' d')) with (String c "" +:+ String c' d').
    apply endsDigit_append, IH; [exact Hd | discriminate].
Qed.

Lemma append_empty (a : string) : a +:+ "" = a.
Proof.
  induction a as [|c a IH]; [reflexivity|].
  change (String c a +:+ "") with (String c (a +:+ "")).
  rewrite IH. reflexivity.
Qed.

Lemma endsDigit_pairs (cards : list RegisteredCard) :
  Forall (fun c => 0 <= scanCount c) cards ->
  cards = [] \/ EndsDigit (commaJoin (pairTokens cards)).
Proof.
  induction 1 as [|c cards Hc Hcs IH]; [left; reflexivity|]. right.
  change (commaJoin (pairTokens (c :: cards)))
    with (("," +:+ name c) +:+ ("," +:+ dec (scanCount c)) +:+
          commaJoin (pairTokens cards)).
  apply endsDigit_append.
  destruct IH as [-> | IH].
  - change (commaJoin (pairTokens [])) with "". rewrite append_empty.
    apply endsDigit_append, endsDigit_digits; apply dec_digitsOnly, Hc.
  - apply endsDigit_append, IH.
Qed.

Lemma endsDigit_line (s : State) :
  Bounded s -> EndsDigit (allCardsLine s).
Proof.
  intros (H1 & H2 & H3). rewrite allCardsLine_tokens.
  change (commaJoin (dec (emergencyPressCount s) :: dec (overloadCount s)
                     :: pairTokens (loadedCards s)))
    with (("," +:+ dec (emergencyPressCount s)) +:+
          ("," +:+ dec (overloadCount s)) +:+
          commaJoin (pairTokens (loadedCards s))).
  do 3 apply endsDigit_append.
  destruct (endsDigit_pairs (loadedCards s)) as [-> | H].
  - unfold loadedCards. apply Forall_take.
    eapply Forall_impl; [exact H3|]. intros c [Hc _]. lia.
  - change (commaJoin (pairTokens [])) with "". rewrite append_empty.
    apply endsDigit_append, endsDigit_digits; apply dec_digitsOnly; lia.
  - apply endsDigit_append, H.
Qed.

(** X24.  The snapshot line survives the station's reading of it: for
    every state that the vehicle reaches, the text that [println] puts
    before the newline (the snapshot and a carriage return) is trimmed by
    the station to exactly the snapshot, and the station takes it for a
    data packet. *)
Theorem X24_station_trims_line_to_the_snapshot
    (T : Z) (e : list Z) (g : Z -> list Z) (ins : list Input) :
  Station.trim (adminBuffer (run T ins (boot e g)) +:+ CR)
  = adminBuffer (run T ins (boot e g)) /\
  Station.accepts (adminBuffer (run T ins (boot e g)) +:+ CR) = true.
Proof.
  pose proof (reachable_RegistryOK T e g ins) as HR.
  pose proof (run_Bounded T ins _ (boot_Bounded e g)) as HB.
  revert HR HB. generalize (run T ins (boot e g)). intros s HR HB.
  rewrite (adminBuffer_all_cards s HR).
  pose proof (endsDigit_line s HB) as HE.
  assert (Hs : exists x, allCardsLine s = String "D" (String ":" x)).
  { rewrite allCardsLine_tokens. eexists. reflexivity. }
  destruct Hs as [x Hx]. rewrite Hx in *.
  unfold Station.accepts. rewrite trim_line by (reflexivity || exact HE).
  split; reflexivity.
Qed.

(** * The station's screens *)

Lemma parseToken_bounds (k : Z) (token : string) (s : Station.State) :
  0 <= Station.numUsers s <= 5 /\ length (Station.users s) = 5%nat ->
  0 <= Station.numUsers (Station.parseToken k token s) <= 5 /\
  length (Station.users (Station.parseToken k token s)) = 5%nat.
Proof.
  intros [Hn Hl]. unfold Station.parseToken.
  destruct (k =? 0); [exact (conj Hn Hl)|].
  destruct (k =? 1); [exact (conj Hn Hl)|].
  destruct (k =? 2); [exact (conj Hn Hl)|].
  destruct ((k mod 2 =? 1) && _).
  - cbn [Station.numUsers Station.users Station.set_users].
    rewrite length_insert. exact (conj Hn Hl).
  - destruct (Station.numUsers s <? Station.MAX_USERS) eqn:E;
      [|exact (conj Hn Hl)].
    apply Z.ltb_lt in E. unfold Station.MAX_USERS in E.
    cbn [Station.numUsers Station.users Station.set_users
         Station.set_numUsers].
    rewrite length_insert. split; [lia | exact Hl].
Qed.

Lemma parseTokens_bounds (tokens : list string) :
  forall k s,
    0 <= Station.numUsers s <= 5 /\ length (Station.users s) = 5%nat ->
    0 <= Station.numUsers (Station.parseTokens tokens k s) <= 5 /\
    length (Station.users (Station.parseTokens tokens k s)) = 5%nat.
Proof.
  induction tokens as [|token rest IH]; intros k s H; [exact H|].
  cbn [Station.parseTokens]. apply IH, parseToken_bounds, H.
Qed.

Lemma parseData_bounds (data : string) (s : Station.State) :
  length (Station.users s) = 5%nat ->
  0 <= Station.numUsers (Station.parseData data s) <= 5 /\
  length (Station.users (Station.parseData data s)) = 5%nat.
Proof.
  intros Hl. unfold Station.parseData. cbv zeta.
  match goal with
  | |- context [Station.saveData ?s1] =>
      destruct (saveData_frame s1) as (F1 & F2 & _);
      rewrite F1, F2
  end.
  apply parseTokens_bounds. split; [cbn; lia | exact Hl].
Qed.

Lemma receive_ScreenOK (raw : string) (s : Station.State) :
  ScreenOK s -> ScreenOK (Station.receive raw s).
Proof.
  intros H. unfold Station.receive. cbv zeta.
  destruct (startsWithD (Station.trim raw)); [|exact H].
  destruct H as (_ & _ & Hl).
  destruct (parseData_bounds (Station.trim raw) s Hl) as [Hn Hl'].
  revert Hn Hl'. generalize (Station.parseData (Station.trim raw) s).
  intros s' Hn Hl'. unfold ScreenOK.
  cbn [Station.currentDisplayScreen Station.numUsers Station.users
       Station.set_lastDisplayChangeTime Station.set_currentDisplayScreen
       Station.set_dataReceived].
  split; [lia|]. split; [lia | exact Hl'].
Qed.

Lemma show_ScreenOK (s : Station.State) :
  ScreenOK s ->
  ScreenOK (if Station.currentDisplayScreen s =? 0 then Station.showMain s
            else Station.showUser (Station.currentDisplayScreen s - 1) s).
Proof.
  intros H. destruct (_ =? 0); [exact H|].
  unfold Station.showUser. destruct (_ <? _); exact H.
Qed.

Lemma updateDisplay_ScreenOK (s : Station.State) :
  ScreenOK s -> ScreenOK (Station.updateDisplay s).
Proof.
  intros (Hc & Hn & Hl). unfold Station.updateDisplay.
  destruct (_ >? Station.DISPLAY_ROTATE_MS); [|exact (conj Hc (conj Hn Hl))].
  cbv zeta. apply show_ScreenOK.
  cbn [Station.currentDisplayScreen Station.numUsers
       Station.set_currentDisplayScreen].
  rewrite int16_small by lia.
  destruct (Station.currentDisplayScreen s + 1 >? Station.numUsers s) eqn:E;
    unfold ScreenOK;
    cbn [Station.currentDisplayScreen Station.numUsers Station.users
         Station.emit Station.set_trace Station.set_lastDisplayChangeTime
         Station.set_currentDisplayScreen].
  - split; [lia|]. split; assumption.
  - rewrite Z.gtb_ltb in E. apply Z.ltb_ge in E.
    split; [lia|]. split; assumption.
Qed.

Lemma step_ScreenOK (i : Station.Input) (s : Station.State) :
  ScreenOK s -> ScreenOK (Station.step i s).
Proof.
  intros H. unfold Station.step, Station.loop. cbv zeta.
  assert (H1 : ScreenOK (Station.request
                           (Station.set_clock
                              (Station.clock s + Station.elapsed i) s))).
  { unfold Station.request. destruct (_ >? _); exact H. }
  revert H1. generalize (Station.request
                           (Station.set_clock
                              (Station.clock s + Station.elapsed i) s)).
  intros s1 H1.
  assert (H2 : ScreenOK match Station.serialIn i with
                        | Some raw => Station.receive raw s1
                        | None => s1
                        end).
  { destruct (Station.serialIn i); [apply receive_ScreenOK|]; exact H1. }
  revert H2. generalize (match Station.serialIn i with
                         | Some raw => Station.receive raw s1
                         | None => s1
                         end).
  intros s2 H2.
  destruct (Station.dataReceived s2); [apply updateDisplay_ScreenOK|]; exact H2.
Qed.

Lemma run_ScreenOK (ins : list Station.Input) :
  forall s, ScreenOK s -> ScreenOK (Station.run ins s).
Proof.
  induction ins as [|i rest IH]; intros s H; [exact H|].
  cbn [Station.run]. apply IH, step_ScreenOK, H.
Qed.

Lemma boot_ScreenOK (e : list Z) :
  (EEPROM_read e 0 = Station.MAGIC_BYTE -> 0 <= EEPROM_read e 1 <= 5) ->
  ScreenOK (Station.boot e).
Proof.
  intros H. unfold Station.boot, Station.setup. cbv zeta.
  change (Station.eeprom
            (Station.emit LcdBacklight (Station.emit LcdInit (Station.powerOn e))))
    with e.
  change (Station.EEPROM_START_ADDR + 1) with 1.
  change Station.EEPROM_START_ADDR with 0.
  destruct (EEPROM_read e 0 =? Station.MAGIC_BYTE) eqn:E.
  - apply Z.eqb_eq in E. specialize (H E).
    match goal with
    | |- context [Station.loadUsers ?n 0 ?a ?s0] =>
        assert (Hn : (0 + n <= 5)%nat)
          by (change n with (Z.to_nat (EEPROM_read e 1)); lia);
        change (Station.loadUsers n 0 a s0)
          with (Station.loadUsers n (Z.of_nat 0) a s0);
        destruct (loadUsers_spec n 0 a s0 eq_refl Hn)
          as (A1 & _ & _ & _ & A5 & _);
        revert A1 A5;
        generalize (Station.loadUsers n (Z.of_nat 0) a s0)
    end.
    intros s' A1 A5. change (Station.numUsers s' = EEPROM_read e 1) in A1.
    unfold ScreenOK.
    cbn [Station.delay Station.emit Station.set_trace Station.set_clock
         Station.set_lastDisplayChangeTime Station.set_currentDisplayScreen
         Station.set_dataReceived Station.currentDisplayScreen
         Station.numUsers Station.users].
    rewrite A1. split; [lia|]. split; [lia | exact A5].
  - unfold ScreenOK. cbn. split; [lia|]. split; [lia | reflexivity].
Qed.

(** X25.  The station's display stays within the stored users: started on
    an EEPROM that is either not marked valid or holds a user count of at
    most 5, the station has, after any inputs, a screen number between 0
    and the user count, a user count of at most 5 and its 5 array
    entries, so that a user screen always shows a stored entry. *)
Theorem X25_station_screen_stays_within_users
    (e : list Z) (ins : list Station.Input) :
  (EEPROM_read e 0 = Station.MAGIC_BYTE -> 0 <= EEPROM_read e 1 <= 5) ->
  0 <= Station.currentDisplayScreen (Station.run ins (Station.boot e))
    <= Station.numUsers (Station.run ins (Station.boot e)) /\
  Station.numUsers (Station.run ins (Station.boot e)) <= 5 /\
  length (Station.users (Station.run ins (Station.boot e))) = 5%nat.
Proof.
  intros H. apply (run_ScreenOK ins), boot_ScreenOK, H.
Qed.

Lemma X25_station_screen_stays_within_users_witness :
  let s := Station.run
             [Station.mkInput 10 (Some ("D:7,1,2,Driver,3,Helper,0" +:+ CR));
              Station.mkInput 10 None; Station.mkInput 4001 None]
             (Station.boot erasedEEPROM) in
  0 <= Station.currentDisplayScreen s <= Station.numUsers s /\
  Station.numUsers s <= 5 /\
  length (Station.users s) = 5%nat.
Proof.
  apply (X25_station_screen_stays_within_users erasedEEPROM
           [Station.mkInput 10 (Some ("D:7,1,2,Driver,3,Helper,0" +:+ CR));
            Station.mkInput 10 None; Station.mkInput 4001 None]).
  intros H. vm_compute in H. discriminate H.
Defined.
